(** * NetworkMonitor (src/src/netmon.js): connection life cycle

    A shallow embedding of the [NetworkMonitor] class.  The object's fields
    are the first seven fields of [state]; the remaining fields are the part
    of the JavaScript run time the class talks to: the clock and the timers
    created by [setTimeout], the WebSockets created by [new WebSocket] with
    the listeners the class registered on them, the suspended [async]
    reconnect loops, settled promises, and a trace of the calls the class
    makes on its collaborators (callbacks, handler, socket methods,
    [console.error]).

    Every method and every listener is a function [state -> state]; one
    [event] is one turn of the JavaScript event loop: a call from the user,
    or a callback delivered by the run time, run together with the microtasks
    (continuations of [await]) it makes ready.

    What is outside the class is kept abstract.  The pending callbacks and
    the handler are identified by numbers and their calls are recorded in the
    trace; they return to the class without calling it back, and what the
    handler returns is part of the 'message' event.  The run time may deliver
    any event on any socket that exists.  [new WebSocket] does not throw.
    [start()], [stop()] and [clearLog()] are [connect()] and [disconnect()]
    around an HTTP call or a [send] and are not modelled. *)

From Stdlib Require Import ZArith NArith List String Bool Lia.
From Stdlib.Strings Require Import Byte.
Import ListNotations.
Local Open Scope string_scope.
Local Open Scope list_scope.

(** ** Values *)

(** Keys of the [pending] Map: what [id] can be in the message listener. *)
Inductive key : Type :=
| KUndef                (* undefined *)
| KNum (n : Z)          (* a number: readUInt32LE, or a numeric JSON id *)
| KOther (s : string).  (* any other JSON value, by its text *)

Definition key_eqb (a b : key) : bool :=
  match a, b with
  | KUndef, KUndef => true
  | KNum x, KNum y => Z.eqb x y
  | KOther x, KOther y => String.eqb x y
  | _, _ => false
  end.

(** What is passed to the registered handler. *)
Inductive message : Type :=
| MUndef                     (* undefined *)
| MJson (text : string)      (* JSON.parse(data) *)
| MBytes (bs : list byte).   (* data.slice(8) *)

(** [data] of a 'message' event: a string or a Buffer. *)
Inductive frame : Type :=
| Text (s : string)
| Binary (bs : list byte).

(** The errors the class creates or passes on. *)
Inductive err : Type :=
| ECancelled                      (* new Error('connection cancelled') *)
| EEndpoint                       (* netmonEndpoint() rejected *)
| ETransport (e : string)         (* the [err] of an 'error' event *)
| EDisconnected (reason : string) (* new Error(`disconnected ${reason}`) *)
| ETimeout.                       (* 'Netmon did not get a response to pong ...' *)

(** Calls made by the class, in the order they happen. *)
Inductive effect : Type :=
| FxCallback (cb : nat) (e : err)    (* a pending callback called with an error *)
| FxHandler (h : nat) (m : message)  (* handler(message) *)
| FxEndpoint (p : nat)               (* this.instance.netmonEndpoint() *)
| FxNewSocket (w : nat) (url : string)
| FxClose (w : nat)                  (* ws.close() *)
| FxPing (w : nat)                   (* ws.ping() *)
| FxLog (text : string)              (* console.error *)
| FxCaught (p : nat) (e : err)       (* catch (e) of the reconnect loop p *)
| FxResolved (p : nat)               (* the promise of loop p resolves *)
| FxUnhandled                        (* a rejection nothing handles *)
| FxUncaught.                        (* an exception no try block encloses *)

(** ** Buffers *)

Definition u8 (b : byte) : Z := Z.of_N (Byte.to_N b).

(** [buf.readUInt32LE(offset)] as Node computes it:
    [first + this[++offset] * 2 ** 8 + this[++offset] * 2 ** 16 + last * 2 ** 24],
    a RangeError ([None]) when the four bytes are not all there. *)
Definition readUInt32LE (bs : list byte) (offset : nat) : option Z :=
  match skipn offset bs with
  | first :: b1 :: b2 :: last :: _ =>
      Some (u8 first + u8 b1 * 2 ^ 8 + u8 b2 * 2 ^ 16 + u8 last * 2 ^ 24)%Z
  | _ => None
  end.

(** [buf.slice(start)]. *)
Definition slice (start : nat) (bs : list byte) : list byte := skipn start bs.

(** The little-endian value of a byte string, as the wire format words it:
    the first byte is the least significant. *)
Fixpoint le_value (bs : list byte) : Z :=
  match bs with
  | [] => 0
  | b :: rest => (u8 b + 256 * le_value rest)%Z
  end.

(** ** The pending Map

    A JavaScript Map keeps insertion order and [forEach] follows it, so the
    table is an association list. *)
Definition pmap : Type := list (key * nat).

(** [map.delete(k)]. *)
Definition pending_delete (k : key) (m : pmap) : pmap :=
  filter (fun kc => negb (key_eqb (fst kc) k)) m.

(** [map.get(k)]. *)
Fixpoint pending_get (k : key) (m : pmap) : option nat :=
  match m with
  | [] => None
  | (k', cb) :: rest => if key_eqb k' k then Some cb else pending_get k rest
  end.

(** [map.set(k, cb)]: an existing key keeps its place. *)
Fixpoint pending_set (k : key) (cb : nat) (m : pmap) : pmap :=
  match m with
  | [] => [(k, cb)]
  | (k', cb') :: rest =>
      if key_eqb k' k then (k', cb) :: rest else (k', cb') :: pending_set k cb rest
  end.

(** The entries under a numeric key. *)
Definition is_num (kc : key * nat) : bool :=
  match fst kc with KNum _ => true | _ => false end.

(** ** Run time objects *)

(** A WebSocket, with the listeners the class has on it.  The 'message' and
    'close' listeners are registered when the socket is created and stay. *)
Record sockinfo : Type := mkSock {
  s_url : string;
  open_once : bool;    (* ws.once('open', ...) not yet fired *)
  error_once : bool;   (* ws.once('error', ...) not yet fired *)
  error_on : bool;     (* ws.on('error', ...) registered by the open listener *)
  pong_once : nat      (* number of ws.once('pong', ...) listeners *)
}.

Definition new_sock (url : string) : sockinfo := mkSock url true true false 0.

(** What a timer does when it fires. *)
Inductive taction : Type :=
| TBackoff (p : nat)    (* resolve of the 1000 ms wait of loop p *)
| TDeadline (w : nat)   (* the keep-alive deadline, closed over socket w *)
| TIdle.                (* resolve of the 10000 ms wait after a pong *)

Record timer : Type := mkTimer { t_id : nat; t_due : N; t_act : taction }.

(** Where a reconnect loop is suspended. *)
Inductive lstate : Type :=
| AwaitEndpoint          (* in _connect: await this.instance.netmonEndpoint() *)
| AwaitOpen (w : nat)    (* in _connect: await new Promise(...) on socket w *)
| AwaitBackoff (t : nat).  (* in catch: await the timer t *)

Definition lstate_is_open (w : nat) (st : lstate) : bool :=
  match st with AwaitOpen w' => Nat.eqb w' w | _ => false end.

(** The result of [handler(message)], chosen by the handler. *)
Inductive outcome : Type :=
| HThrows               (* throws *)
| HValue (v : bool)     (* returns a value that is not a promise; v: truthy *)
| HPromise.             (* returns a promise, settled later *)

(** ** The state *)

Record state : Type := mkState {
  (* fields of the NetworkMonitor object *)
  connected : bool;
  pendingConnect : bool;          (* undefined until connect(): falsy *)
  handler : option nat;
  ws : option nat;
  pending : pmap;                 (* first assigned by _connect; every reader is
                                     registered after that assignment *)
  connectPromise : option nat;
  _keepAliveTimeout : option nat;
  (* the run time *)
  now : N;                        (* milliseconds *)
  timers : list timer;
  next_timer : nat;
  socks : list sockinfo;          (* socket w is the w-th created *)
  tasks : list (nat * lstate);    (* suspended reconnect loops, by promise *)
  next_promise : nat;
  resolved : list nat;
  conts : list (nat * key);       (* .then(shouldDelete => ...) not yet run, with its id *)
  next_cont : nat;
  trace : list effect
}.

(** The constructor. *)
Definition init : state :=
  mkState false false None None [] None None 0%N [] 0 [] [] 0 [] [] 0 [].

Definition set_connected (v : bool) (s : state) : state :=
  mkState v (pendingConnect s) (handler s) (ws s) (pending s) (connectPromise s)
    (_keepAliveTimeout s) (now s) (timers s) (next_timer s) (socks s) (tasks s)
    (next_promise s) (resolved s) (conts s) (next_cont s) (trace s).
Definition set_pendingConnect (v : bool) (s : state) : state :=
  mkState (connected s) v (handler s) (ws s) (pending s) (connectPromise s)
    (_keepAliveTimeout s) (now s) (timers s) (next_timer s) (socks s) (tasks s)
    (next_promise s) (resolved s) (conts s) (next_cont s) (trace s).
Definition set_handler (v : option nat) (s : state) : state :=
  mkState (connected s) (pendingConnect s) v (ws s) (pending s) (connectPromise s)
    (_keepAliveTimeout s) (now s) (timers s) (next_timer s) (socks s) (tasks s)
    (next_promise s) (resolved s) (conts s) (next_cont s) (trace s).
Definition set_ws (v : option nat) (s : state) : state :=
  mkState (connected s) (pendingConnect s) (handler s) v (pending s) (connectPromise s)
    (_keepAliveTimeout s) (now s) (timers s) (next_timer s) (socks s) (tasks s)
    (next_promise s) (resolved s) (conts s) (next_cont s) (trace s).
Definition set_pending (v : pmap) (s : state) : state :=
  mkState (connected s) (pendingConnect s) (handler s) (ws s) v (connectPromise s)
    (_keepAliveTimeout s) (now s) (timers s) (next_timer s) (socks s) (tasks s)
    (next_promise s) (resolved s) (conts s) (next_cont s) (trace s).
Definition set_connectPromise (v : option nat) (s : state) : state :=
  mkState (connected s) (pendingConnect s) (handler s) (ws s) (pending s) v
    (_keepAliveTimeout s) (now s) (timers s) (next_timer s) (socks s) (tasks s)
    (next_promise s) (resolved s) (conts s) (next_cont s) (trace s).
Definition set_keepAliveTimeout (v : option nat) (s : state) : state :=
  mkState (connected s) (pendingConnect s) (handler s) (ws s) (pending s) (connectPromise s)
    v (now s) (timers s) (next_timer s) (socks s) (tasks s)
    (next_promise s) (resolved s) (conts s) (next_cont s) (trace s).
Definition set_now (v : N) (s : state) : state :=
  mkState (connected s) (pendingConnect s) (handler s) (ws s) (pending s) (connectPromise s)
    (_keepAliveTimeout s) v (timers s) (next_timer s) (socks s) (tasks s)
    (next_promise s) (resolved s) (conts s) (next_cont s) (trace s).
Definition set_timers (v : list timer) (s : state) : state :=
  mkState (connected s) (pendingConnect s) (handler s) (ws s) (pending s) (connectPromise s)
    (_keepAliveTimeout s) (now s) v (next_timer s) (socks s) (tasks s)
    (next_promise s) (resolved s) (conts s) (next_cont s) (trace s).
Definition set_next_timer (v : nat) (s : state) : state :=
  mkState (connected s) (pendingConnect s) (handler s) (ws s) (pending s) (connectPromise s)
    (_keepAliveTimeout s) (now s) (timers s) v (socks s) (tasks s)
    (next_promise s) (resolved s) (conts s) (next_cont s) (trace s).
Definition set_socks (v : list sockinfo) (s : state) : state :=
  mkState (connected s) (pendingConnect s) (handler s) (ws s) (pending s) (connectPromise s)
    (_keepAliveTimeout s) (now s) (timers s) (next_timer s) v (tasks s)
    (next_promise s) (resolved s) (conts s) (next_cont s) (trace s).
Definition set_tasks (v : list (nat * lstate)) (s : state) : state :=
  mkState (connected s) (pendingConnect s) (handler s) (ws s) (pending s) (connectPromise s)
    (_keepAliveTimeout s) (now s) (timers s) (next_timer s) (socks s) v
    (next_promise s) (resolved s) (conts s) (next_cont s) (trace s).
Definition set_next_promise (v : nat) (s : state) : state :=
  mkState (connected s) (pendingConnect s) (handler s) (ws s) (pending s) (connectPromise s)
    (_keepAliveTimeout s) (now s) (timers s) (next_timer s) (socks s) (tasks s)
    v (resolved s) (conts s) (next_cont s) (trace s).
Definition set_resolved (v : list nat) (s : state) : state :=
  mkState (connected s) (pendingConnect s) (handler s) (ws s) (pending s) (connectPromise s)
    (_keepAliveTimeout s) (now s) (timers s) (next_timer s) (socks s) (tasks s)
    (next_promise s) v (conts s) (next_cont s) (trace s).
Definition set_conts (v : list (nat * key)) (s : state) : state :=
  mkState (connected s) (pendingConnect s) (handler s) (ws s) (pending s) (connectPromise s)
    (_keepAliveTimeout s) (now s) (timers s) (next_timer s) (socks s) (tasks s)
    (next_promise s) (resolved s) v (next_cont s) (trace s).
Definition set_next_cont (v : nat) (s : state) : state :=
  mkState (connected s) (pendingConnect s) (handler s) (ws s) (pending s) (connectPromise s)
    (_keepAliveTimeout s) (now s) (timers s) (next_timer s) (socks s) (tasks s)
    (next_promise s) (resolved s) (conts s) v (trace s).
Definition set_trace (v : list effect) (s : state) : state :=
  mkState (connected s) (pendingConnect s) (handler s) (ws s) (pending s) (connectPromise s)
    (_keepAliveTimeout s) (now s) (timers s) (next_timer s) (socks s) (tasks s)
    (next_promise s) (resolved s) (conts s) (next_cont s) v.

(** ** Helpers on the run time *)

Definition emit (e : effect) (s : state) : state := set_trace (trace s ++ [e]) s.

Fixpoint upd_nth {A : Type} (n : nat) (f : A -> A) (l : list A) : list A :=
  match l, n with
  | [], _ => []
  | x :: rest, O => f x :: rest
  | x :: rest, S n' => x :: upd_nth n' f rest
  end.

Definition upd_sock (w : nat) (f : sockinfo -> sockinfo) (s : state) : state :=
  set_socks (upd_nth w f (socks s)) s.

Definition clear_open_once (i : sockinfo) : sockinfo :=
  mkSock (s_url i) false (error_once i) (error_on i) (pong_once i).
Definition clear_error_once (i : sockinfo) : sockinfo :=
  mkSock (s_url i) (open_once i) false (error_on i) (pong_once i).
Definition add_error_on (i : sockinfo) : sockinfo :=
  mkSock (s_url i) (open_once i) (error_once i) true (pong_once i).
Definition add_pong_once (i : sockinfo) : sockinfo :=
  mkSock (s_url i) (open_once i) (error_once i) (error_on i) (S (pong_once i)).
Definition clear_pong_once (i : sockinfo) : sockinfo :=
  mkSock (s_url i) (open_once i) (error_once i) (error_on i) 0.

(** [this.ws === ws] for the socket w a closure captured. *)
Definition canonical (w : nat) (s : state) : bool :=
  match ws s with Some w' => Nat.eqb w' w | None => false end.

(** [setTimeout(f, ms)]: returns the new timer. *)
Definition setTimeout (a : taction) (ms : N) (s : state) : nat * state :=
  let t := next_timer s in
  (t, set_next_timer (S t) (set_timers (timers s ++ [mkTimer t (now s + ms) a]) s)).

(** [clearTimeout(t)]. *)
Definition clearTimeout (t : nat) (s : state) : state :=
  set_timers (filter (fun x => negb (Nat.eqb (t_id x) t)) (timers s)) s.

Definition find_timer (t : nat) (s : state) : option timer :=
  find (fun x => Nat.eqb (t_id x) t) (timers s).

Fixpoint lookup_task (p : nat) (l : list (nat * lstate)) : option lstate :=
  match l with
  | [] => None
  | (q, st) :: rest => if Nat.eqb q p then Some st else lookup_task p rest
  end.

Fixpoint put_task (p : nat) (st : lstate) (l : list (nat * lstate)) : list (nat * lstate) :=
  match l with
  | [] => [(p, st)]
  | (q, st') :: rest =>
      if Nat.eqb q p then (q, st) :: rest else (q, st') :: put_task p st rest
  end.

Definition drop_task (p : nat) (l : list (nat * lstate)) : list (nat * lstate) :=
  filter (fun t => negb (Nat.eqb (fst t) p)) l.

(** The loop whose _connect awaits the open promise of socket w, if that
    promise is not settled yet. *)
Fixpoint awaiting (w : nat) (l : list (nat * lstate)) : option nat :=
  match l with
  | [] => None
  | (p, st) :: rest => if lstate_is_open w st then Some p else awaiting w rest
  end.

Fixpoint lookup_cont (c : nat) (l : list (nat * key)) : option key :=
  match l with
  | [] => None
  | (c', k) :: rest => if Nat.eqb c' c then Some k else lookup_cont c rest
  end.

Fixpoint iter {A : Type} (n : nat) (f : A -> A) (x : A) : A :=
  match n with
  | O => x
  | S n' => iter n' f (f x)
  end.

(** ** The methods of the class *)

(** [this.pending.forEach(handler => handler(e)); this.pending = new Map();]
    (lines 99-102, 118-121, 173-176). *)
Definition fail_all (e : err) (s : state) : state :=
  set_pending []
    (set_trace (trace s ++ map (fun kc => FxCallback (snd kc) e) (pending s)) s).

(** [_stopKeepAlive()]. *)
Definition _stopKeepAlive (s : state) : state :=
  match _keepAliveTimeout s with
  | Some t => set_keepAliveTimeout None (clearTimeout t s)
  | None => s
  end.

(** [_disconnect()]. *)
Definition _disconnect (s : state) : state :=
  let s := set_connected false s in
  let s := set_handler None s in
  let s := _stopKeepAlive s in
  match ws s with
  | Some w => set_ws None (emit (FxClose w) s)
  | None => s
  end.

(** [disconnect()]. *)
Definition disconnect (s : state) : state :=
  _disconnect (set_pendingConnect false s).

(** [_startKeepAlive()]. *)
Definition _startKeepAlive (s : state) : state :=
  if connected s then
    match ws s with
    | Some w =>
        let s := emit (FxPing w) s in
        let (t, s) := setTimeout (TDeadline w) 10000 s in
        let s := set_keepAliveTimeout (Some t) s in
        upd_sock w add_pong_once s
    | None => emit FxUncaught s     (* ws.ping() on null throws *)
    end
  else s.

(** The [catch (e)] of the loop: start the 1000 ms wait and suspend. *)
Definition backoff (p : nat) (e : err) (s : state) : state :=
  let s := emit (FxCaught p e) s in
  let (t, s) := setTimeout (TBackoff p) 1000 s in
  set_tasks (put_task p (AwaitBackoff t) (tasks s)) s.

(** [_connect()] up to its first [await] (lines 62-64). *)
Definition start_connect (p : nat) (s : state) : state :=
  let s := set_pending [] s in
  let s := emit (FxEndpoint p) s in
  set_tasks (put_task p AwaitEndpoint (tasks s)) s.

(** The end of the loop body (line 55) and the return of the async function. *)
Definition finish_loop (p : nat) (s : state) : state :=
  let s := set_connectPromise None s in
  let s := set_tasks (drop_task p (tasks s)) s in
  let s := set_resolved (p :: resolved s) s in
  emit (FxResolved p) s.

(** The test of the [while] (line 46). *)
Definition loop_head (p : nat) (s : state) : state :=
  if pendingConnect s then start_connect p s else finish_loop p s.

(** [reconnect()]: the promise it returns, and the state.  The async function
    of line 45 runs until its first [await] before its promise is stored. *)
Definition reconnect (s : state) : nat * state :=
  let s := if connected s then disconnect s else s in
  match connectPromise s with
  | Some p => (p, s)
  | None =>
      let p := next_promise s in
      let s := set_next_promise (S p) s in
      let s := loop_head p s in
      (p, set_connectPromise (Some p) s)
  end.

(** [connect()]: the promise it awaits ([None]: it returns at once). *)
Definition connect (s : state) : option nat * state :=
  let s := set_pendingConnect true s in
  if connected s then (None, s)
  else let (p, s) := reconnect s in (Some p, s).

(** [handleMessage(handler)]. *)
Definition handleMessage (h : nat) (s : state) : state := set_handler (Some h) s.

(** Modelled from the spec: the code that adds an entry to [pending] is not
    in src; the spec has [pending] hold "in-flight requests awaiting a reply",
    a callback per correlation id, so a request is [pending.set(id, callback)]. *)
Definition register (k : key) (cb : nat) (s : state) : state :=
  set_pending (pending_set k cb (pending s)) s.

(** ** The continuations of _connect *)

(** [netmonEndpoint()] settles for the loop p: lines 64-72 and the
    registration of the listeners, up to the [await] of line 106. *)
Definition on_endpoint (p : nat) (r : option string) (s : state) : state :=
  match lookup_task p (tasks s) with
  | Some AwaitEndpoint =>
      match r with
      | None => backoff p EEndpoint s
      | Some url =>
          if pendingConnect s then
            let w := List.length (socks s) in
            let s := set_socks (socks s ++ [new_sock url]) s in
            let s := emit (FxNewSocket w url) s in
            let s := set_ws (Some w) s in
            set_tasks (put_task p (AwaitOpen w) (tasks s)) s
          else backoff p ECancelled s
      end
  | _ => s
  end.

(** [reject(e)] of the open promise of socket w: nothing when it is settled. *)
Definition reject_open (w : nat) (e : err) (s : state) : state :=
  match awaiting w (tasks s) with
  | Some p => backoff p e s
  | None => s
  end.

(** [resolve()] of the open promise of socket w: lines 150-151, then the
    [break] of the loop. *)
Definition resolve_open (w : nat) (s : state) : state :=
  match awaiting w (tasks s) with
  | Some p =>
      let s := set_connected true s in
      let s := _startKeepAlive s in
      finish_loop p s
  | None => s
  end.

(** * Corellium (src/src/corellium.js): the client

    The class caches two things it gets from the server: the login token,
    until its expiration, and the list of supported devices, once it is
    truthy.  [fetch], [fetchApi] and [Project] belong to other files: a call
    of one of them is recorded in the log when it is made, and the promise it
    returned is settled by an event.  Every call of a method gets a number,
    which also names the promise the method returned; one [event] is one turn
    of the event loop. *)

Module Corellium.

Section Client.

(** The values the class passes on without looking inside: the token, the
    ids of the projects, what [fetchApi] resolves to.  The class only tests
    them for truth ([ToBoolean]). *)
Context {value : Type}.
Variable truthy : value -> bool.

(** The fields of [options] the class reads. *)
Record options_t : Type := mkOptions {
  endpoint : string;
  username : string;
  password : string
}.

(** [this.token] when it is not null.  The expiration is the time value of
    the Date, in ms; [None] is an Invalid Date. *)
Record token_t : Type := mkToken {
  t_token : value;
  t_expiration : option Z
}.

Inductive error : Type :=
| Rejected      (* the promise of fetch, fetchApi or refresh rejected *)
| TypeError.    (* a property of null or undefined was read, or called *)

(** What a method resolves to. *)
Inductive result : Type :=
| RToken (v : value)             (* getToken() *)
| RVoid                          (* login() *)
| RDevices (v : value)           (* supported() *)
| RProject (id : value)          (* getProject(id): the Project made for id *)
| RProjects (ids : list value).  (* projects(): the Projects, by their ids *)

Inductive effect : Type :=
| Fetch (k : nat) (url method user pass : string)
    (* call k: fetch(url, {method, json: {username, password}}) *)
| FetchApi (k : nat) (path : string)       (* call k: fetchApi(this, path) *)
| Refresh (k i : nat) (id : value)
    (* call k, its i-th project: new Project(this, id).refresh() *)
| Return (k : nat) (r : result)            (* the promise of call k resolves *)
| Throw (k : nat) (e : error)              (* the promise of call k rejects *)
| Unhandled (k i : nat).
    (* call k, its i-th project: the promise of getProject() rejects and
       nothing handles the rejection *)

(** Where a call is suspended. *)
Inductive call_state : Type :=
| AwaitToken (from_login : bool)   (* getToken() at line 16; [true]: called by login() *)
| AwaitSupported                   (* supported() at line 47 *)
| AwaitListing                     (* projects() at line 35 *)
| AwaitRefresh (id : value)        (* getProject() at line 41 *)
| AwaitAll (slots : list (value * bool))
    (* projects() at line 36: for each project its id and whether its
       getProject() has resolved *)
| Orphaned (slots : list (value * bool)).
    (* projects() was rejected while [map] ran (line 36): the calls of
       getProject() it had started go on, their promises were never passed
       to [Promise.all] and nothing handles them; for each its id and whether
       it has settled *)

Record client : Type := mkClient {
  options : options_t;
  api : string;
  token : option token_t;
  supportedDevices : option value;   (* [None]: null *)
  now : Z;                            (* what [new Date()] reads, in ms *)
  calls : list (nat * call_state);
  next_call : nat;
  log : list effect
}.

(** The constructor (lines 5-10), at time [t]. *)
Definition constructor (o : options_t) (t : Z) : client :=
  mkClient o (endpoint o ++ "/api/v1")%string None None t [] 0 [].

Definition set_token (x : option token_t) (c : client) : client :=
  mkClient (options c) (api c) x (supportedDevices c) (now c) (calls c)
    (next_call c) (log c).

Definition set_supportedDevices (x : option value) (c : client) : client :=
  mkClient (options c) (api c) (token c) x (now c) (calls c) (next_call c) (log c).

Definition set_now (t : Z) (c : client) : client :=
  mkClient (options c) (api c) (token c) (supportedDevices c) t (calls c)
    (next_call c) (log c).

Definition set_calls (l : list (nat * call_state)) (c : client) : client :=
  mkClient (options c) (api c) (token c) (supportedDevices c) (now c) l
    (next_call c) (log c).

Definition say (e : effect) (c : client) : client :=
  mkClient (options c) (api c) (token c) (supportedDevices c) (now c) (calls c)
    (next_call c) (log c ++ [e]).

(** A method is called: the number of the call. *)
Definition new_call (c : client) : nat * client :=
  (next_call c,
   mkClient (options c) (api c) (token c) (supportedDevices c) (now c) (calls c)
     (S (next_call c)) (log c)).

Fixpoint lookup_call (k : nat) (l : list (nat * call_state)) : option call_state :=
  match l with
  | [] => None
  | (k', st) :: rest => if Nat.eqb k' k then Some st else lookup_call k rest
  end.

Definition drop_call (k : nat) (c : client) : client :=
  set_calls (filter (fun x => negb (Nat.eqb (fst x) k)) (calls c)) c.

(** Call k is suspended, or suspended again, at [st]. *)
Definition suspend (k : nat) (st : call_state) (c : client) : client :=
  set_calls (filter (fun x => negb (Nat.eqb (fst x) k)) (calls c) ++ [(k, st)]) c.

(** ** getToken(), login() *)

(** Line 13: the token, when there is one and it has not expired. *)
Definition valid_token (c : client) : option value :=
  match token c with
  | Some t =>
      match t_expiration t with
      | Some e => if Z.ltb (now c) e then Some (t_token t) else None
      | None => None     (* a comparison with NaN is false *)
      end
  | None => None
  end.

(** What the caller gets: [login()] returns nothing. *)
Definition token_result (from_login : bool) (v : value) : result :=
  if from_login then RVoid else RToken v.

(** [getToken()] up to its [await] (lines 13-22); [login()] (line 31) is a
    call of it whose result is dropped. *)
Definition getToken_from (from_login : bool) (c : client) : client :=
  let (k, c) := new_call c in
  match valid_token c with
  | Some v => say (Return k (token_result from_login v)) c
  | None =>
      let c := say (Fetch k (api c ++ "/tokens")%string "POST"
                      (username (options c)) (password (options c))) c in
      suspend k (AwaitToken from_login) c
  end.

Definition getToken : client -> client := getToken_from false.

Definition login : client -> client := getToken_from true.

(** How the promise of [fetch] settles: it rejects; it resolves to null or
    undefined, so that reading [res.token] throws; or it resolves to [res],
    with [res.token] and the time value of [new Date(res.expiration)]. *)
Inductive token_response : Type :=
| TokRejected
| TokNullish
| TokBody (tok : value) (exp : option Z).

(** The rest of [getToken()] (lines 23-27). *)
Definition on_token (k : nat) (resp : token_response) (c : client) : client :=
  match lookup_call k (calls c) with
  | Some (AwaitToken from_login) =>
      let c := drop_call k c in
      match resp with
      | TokRejected => say (Throw k Rejected) c
      | TokNullish => say (Throw k TypeError) c
      | TokBody v e =>
          let c := set_token (Some (mkToken v e)) c in
          say (Return k (token_result from_login v)) c
      end
  | _ => c
  end.

(** ** supported() *)

(** Line 46: the stored list, when it is truthy. *)
Definition cached_devices (c : client) : option value :=
  match supportedDevices c with
  | Some v => if truthy v then Some v else None
  | None => None
  end.

(** [supported()] up to its [await]. *)
Definition supported (c : client) : client :=
  let (k, c) := new_call c in
  match cached_devices c with
  | Some v => say (Return k (RDevices v)) c
  | None => suspend k AwaitSupported (say (FetchApi k "/supported") c)
  end.

(** The rest of [supported()]: the assignment of line 47 and line 48;
    [None]: the promise of [fetchApi] rejects. *)
Definition on_supported (k : nat) (resp : option value) (c : client) : client :=
  match lookup_call k (calls c) with
  | Some AwaitSupported =>
      let c := drop_call k c in
      match resp with
      | Some v => say (Return k (RDevices v)) (set_supportedDevices (Some v) c)
      | None => say (Throw k Rejected) c
      end
  | _ => c
  end.

(** ** projects(), getProject() *)

(** [getProject(id)] up to its [await] (lines 40-41). *)
Definition getProject (id : value) (c : client) : client :=
  let (k, c) := new_call c in
  suspend k (AwaitRefresh id) (say (Refresh k 0 id) c).

(** [projects()] up to its [await] (line 35). *)
Definition projects (c : client) : client :=
  let (k, c) := new_call c in
  suspend k AwaitListing (say (FetchApi k "/projects") c).

(** How the promise of [fetchApi(this, '/projects')] settles: it rejects; it
    resolves to a value without a [map] to call; or it resolves to an array,
    given by the [id] of each element ([None]: the element is null or
    undefined, so that reading its [id] throws). *)
Inductive listing : Type :=
| ListRejected
| ListNoMap
| ListArray (l : list (option value)).

(** [projects.map(project => this.getProject(project.id))]: each call of
    [getProject] runs up to its [await].  The result holds the calls that
    were started, and [false] when the callback threw at an element. *)
Fixpoint map_getProject (k i : nat) (l : list (option value)) (c : client)
  : client * list (value * bool) * bool :=
  match l with
  | [] => (c, [], true)
  | None :: _ => (c, [], false)
  | Some id :: rest =>
      match map_getProject k (S i) rest (say (Refresh k i id) c) with
      | (c', slots, finished) => (c', (id, false) :: slots, finished)
      end
  end.

(** Line 36, up to the [await] of [Promise.all].  When [map] throws,
    [projects()] is rejected at once and [Promise.all] is never called: the
    promises of the calls of [getProject()] already started are left without
    a handler. *)
Definition on_listing (k : nat) (resp : listing) (c : client) : client :=
  match lookup_call k (calls c) with
  | Some AwaitListing =>
      let c := drop_call k c in
      match resp with
      | ListRejected => say (Throw k Rejected) c
      | ListNoMap => say (Throw k TypeError) c
      | ListArray l =>
          match map_getProject k 0 l c with
          | (c, slots, false) =>
              let c := say (Throw k TypeError) c in
              match slots with
              | [] => c
              | _ => suspend k (Orphaned slots) c
              end
          | (c, [], true) => say (Return k (RProjects [])) c
          | (c, slots, true) => suspend k (AwaitAll slots) c
          end
      end
  | _ => c
  end.

Fixpoint mark (i : nat) (slots : list (value * bool)) : list (value * bool) :=
  match slots, i with
  | [], _ => []
  | (id, _) :: rest, O => (id, true) :: rest
  | x :: rest, S i' => x :: mark i' rest
  end.

(** The promise of the i-th [refresh()] of call k settles: the rest of
    [getProject()] (line 42) and, for [projects()], of [Promise.all], which
    resolves when every promise has resolved, with the results in the order
    of the array, and rejects with the first rejection; it has attached a
    handler to every promise, so a later rejection is handled.  The promise
    of an orphaned [getProject()] has no handler: when it resolves nothing
    happens, when it rejects the rejection is unhandled. *)
Definition on_refresh (k i : nat) (ok : bool) (c : client) : client :=
  match lookup_call k (calls c) with
  | Some (AwaitRefresh id) =>
      match i with
      | O =>
          let c := drop_call k c in
          if ok then say (Return k (RProject id)) c else say (Throw k Rejected) c
      | S _ => c
      end
  | Some (AwaitAll slots) =>
      match nth_error slots i with
      | Some (_, false) =>
          if ok then
            let slots := mark i slots in
            if forallb snd slots
            then say (Return k (RProjects (map fst slots))) (drop_call k c)
            else suspend k (AwaitAll slots) c
          else say (Throw k Rejected) (drop_call k c)
      | _ => c
      end
  | Some (Orphaned slots) =>
      match nth_error slots i with
      | Some (_, false) =>
          let slots := mark i slots in
          let c := if forallb snd slots
                   then drop_call k c
                   else suspend k (Orphaned slots) c in
          if ok then c else say (Unhandled k i) c
      | _ => c
      end
  | _ => c
  end.

(** ** The event loop *)

Inductive event : Type :=
(* calls of the user *)
| CallGetToken
| CallLogin
| CallSupported
| CallProjects
| CallGetProject (id : value)
(* promises of the other files settle *)
| TokenSettles (k : nat) (resp : token_response)
| SupportedSettles (k : nat) (resp : option value)
| ListingSettles (k : nat) (resp : listing)
| RefreshSettles (k i : nat) (ok : bool)
(* the clock reads t *)
| Clock (t : Z).

Definition step (c : client) (e : event) : client :=
  match e with
  | CallGetToken => getToken c
  | CallLogin => login c
  | CallSupported => supported c
  | CallProjects => projects c
  | CallGetProject id => getProject id c
  | TokenSettles k resp => on_token k resp c
  | SupportedSettles k resp => on_supported k resp c
  | ListingSettles k resp => on_listing k resp c
  | RefreshSettles k i ok => on_refresh k i ok c
  | Clock t => set_now t c
  end.

Definition run (c : client) (evs : list event) : client := fold_left step evs c.

(** The states a client can be in. *)
Inductive reachable : client -> Prop :=
| reach_new o t : reachable (constructor o t)
| reach_step c e : reachable c -> reachable (step c e).

(** A request for the token. *)
Definition is_token_fetch (e : effect) : bool :=
  match e with Fetch _ _ _ _ _ => true | _ => false end.

(** A request for the supported devices. *)
Definition is_supported_fetch (e : effect) : bool :=
  match e with FetchApi _ path => String.eqb path "/supported" | _ => false end.

(** An event that can change the stored token while it is valid until [e]:
    a token arrives, or the clock is set to [e] or later. *)
Definition ends_token (e : Z) (ev : event) : bool :=
  match ev with
  | TokenSettles _ (TokBody _ _) => true
  | Clock t => Z.leb e t
  | _ => false
  end.

(** No call of [supported()] is suspended. *)
Definition no_supported_call (c : client) : Prop :=
  forall k, ~ In (k, AwaitSupported) (calls c).

End Client.

(** A client for the examples. *)
Definition client0 : client (value := string) :=
  constructor (mkOptions "https://host.example" "user" "secret") 1000.

(** Strings as values: the empty string is falsy. *)
Definition nonempty (s : string) : bool :=
  match s with EmptyString => false | _ => true end.

(** [getToken()] on the new client. *)
Definition asking : client (value := string) := step nonempty client0 CallGetToken.

(** The server answers with a token that is valid until 5000. *)
Definition logged_in : client (value := string) :=
  step nonempty asking (TokenSettles 0 (TokBody "tok" (Some 5000%Z))).

(** [supported()] on the new client is answered. *)
Definition informed : client (value := string) :=
  run nonempty client0 [CallSupported; SupportedSettles 0 (Some "iphone")].

(** Two calls of [supported()] on the new client. *)
Definition asking_twice : client (value := string) :=
  run nonempty client0 [CallSupported; CallSupported].

(** [projects()] on the new client. *)
Definition listing_asked : client (value := string) := step nonempty client0 CallProjects.

End Corellium.

(** ** Concrete inputs for the examples *)

(** An oracle under which no text frame parses. *)
Definition no_json : string -> option key := fun _ => None.

Definition url0 : string := "wss://netmon.example/0".

(** A binary frame: id 42, four header bytes, three payload bytes. *)
Definition frame42 : list byte :=
  [x2a; x00; x00; x00; xde; xad; xbe; xef; x01; x02; x03].

(** Closed goals and hypotheses are settled by evaluation. *)
Ltac by_computation := vm_compute; first [reflexivity | discriminate].
Ltac computed H := generalize H; vm_compute; exact (fun h => h).

(** ** The listeners *)

Section Monitor.

(** [JSON.parse(data)['id']] for a text frame: [None] when [JSON.parse]
    throws, or when reading the property throws (the text is [null]);
    [Some KUndef] when the value has no [id]. *)
Variable JSON_id : string -> option key.

(** Lines 76-84: the message and the id of a frame; [None]: an exception. *)
Definition decode (data : frame) : option (message * key) :=
  match data with
  | Text s =>
      match JSON_id s with
      | Some k => Some (MJson s, k)
      | None => None
      end
  | Binary bs =>
      if Nat.leb 8 (List.length bs) then
        match readUInt32LE bs 0 with
        | Some n => Some (MBytes (slice 8 bs), KNum n)
        | None => None
        end
      else Some (MUndef, KUndef)
  end.

(** Lines 88-91: the function passed to [then]. *)
Definition then_delete (k : key) (shouldDelete : bool) (s : state) : state :=
  if shouldDelete then set_pending (pending_delete k (pending s)) s else s.

(** The 'message' listener (lines 74-96); [out] is what the handler does. *)
Definition on_message (data : frame) (out : outcome) (s : state) : state :=
  match decode data with
  | None => emit (FxLog "error in agent message handler") s
  | Some (m, k) =>
      match handler s with
      | None => s
      | Some h =>
          let s := emit (FxHandler h m) s in
          match out with
          | HThrows => emit (FxLog "error in agent message handler") s
          | HValue v => then_delete k v s
          | HPromise =>
              let c := next_cont s in
              set_next_cont (S c) (set_conts (conts s ++ [(c, k)]) s)
          end
      end
  end.

(** The promise a handler returned settles: fulfilled with a truthy or falsy
    value, or rejected ([None]); [then] was given no rejection handler. *)
Definition on_settle (c : nat) (r : option bool) (s : state) : state :=
  match lookup_cont c (conts s) with
  | Some k =>
      let s := set_conts (filter (fun x => negb (Nat.eqb (fst x) c)) (conts s)) s in
      match r with
      | Some v => then_delete k v s
      | None => emit FxUnhandled s
      end
  | None => s
  end.

(** The 'close' listener (lines 98-104). *)
Definition on_close (reason : string) (s : state) : state :=
  _disconnect (fail_all (EDisconnected reason) s).

(** The 'open' listener (lines 107-135) and the continuation it wakes. *)
Definition on_open (w : nat) (s : state) : state :=
  match nth_error (socks s) w with
  | Some i =>
      if open_once i then
        let s := upd_sock w clear_open_once s in
        if canonical w s then
          let s := upd_sock w add_error_on s in
          resolve_open w s
        else
          let s := emit (FxClose w) s in
          reject_open w ECancelled s
      else s
  | None => s
  end.

(** Lines 123-129 and 138-144. *)
Definition drop_socket (w : nat) (s : state) : state :=
  if canonical w s then _disconnect s else emit (FxClose w) s.

(** The 'error' listeners, in the order they were registered: the
    [once] of lines 137-147, then the [on] of lines 117-132 when the socket
    has opened; then the continuation [reject] wakes. *)
Definition on_error (w : nat) (e : string) (s : state) : state :=
  match nth_error (socks s) w with
  | Some i =>
      if error_once i || error_on i then
        let s := if error_once i
                 then drop_socket w (upd_sock w clear_error_once s)
                 else s in
        let s := if error_on i
                 then emit (FxLog "error in netmon socket")
                        (drop_socket w (fail_all (ETransport e) s))
                 else s in
        if error_once i then reject_open w (ETransport e) s else s
      else emit FxUncaught s     (* an 'error' event without a listener *)
  | None => s
  end.

(** One 'pong' listener (lines 181-191), up to its [await]. *)
Definition pong_listener (w : nat) (s : state) : state :=
  if canonical w s then
    let s := match _keepAliveTimeout s with
             | Some t => clearTimeout t s
             | None => s
             end in
    let s := set_keepAliveTimeout None s in
    snd (setTimeout TIdle 10000 s)
  else s.

(** The 'pong' event: every [once] listener runs and is removed. *)
Definition on_pong (w : nat) (s : state) : state :=
  match nth_error (socks s) w with
  | Some i => iter (pong_once i) (pong_listener w) (upd_sock w clear_pong_once s)
  | None => s
  end.

(** The keep-alive deadline (lines 162-179). *)
Definition on_deadline (w : nat) (s : state) : state :=
  if canonical w s then
    let s := emit (FxLog "Netmon did not get a response to pong in 10 seconds, disconnecting.") s in
    let s := fail_all ETimeout s in
    _disconnect s
  else emit (FxClose w) s.

(** A timer that is due fires. *)
Definition on_timer (t : nat) (s : state) : state :=
  match find_timer t s with
  | Some x =>
      if N.leb (t_due x) (now s) then
        let s := clearTimeout t s in
        match t_act x with
        | TBackoff p =>
            match lookup_task p (tasks s) with
            | Some (AwaitBackoff t') => if Nat.eqb t' t then loop_head p s else s
            | _ => s
            end
        | TDeadline w => on_deadline w s
        | TIdle => _startKeepAlive s
        end
      else s
  | None => s
  end.

(** ** The event loop *)

Inductive event : Type :=
(* calls of the user *)
| EvConnect
| EvReconnect
| EvDisconnect
| EvHandleMessage (h : nat)
| EvRegister (k : key) (cb : nat)
(* callbacks of the run time *)
| EvEndpoint (p : nat) (r : option string)
| EvOpen (w : nat)
| EvMessage (w : nat) (data : frame) (out : outcome)
| EvClose (w : nat) (reason : string)
| EvError (w : nat) (e : string)
| EvPong (w : nat)
| EvSettle (c : nat) (r : option bool)
| EvTimer (t : nat)
| EvTick (dt : N).

Definition has_sock (w : nat) (s : state) : bool :=
  match nth_error (socks s) w with Some _ => true | None => false end.

Definition step (s : state) (e : event) : state :=
  match e with
  | EvConnect => snd (connect s)
  | EvReconnect => snd (reconnect s)
  | EvDisconnect => disconnect s
  | EvHandleMessage h => handleMessage h s
  | EvRegister k cb => register k cb s
  | EvEndpoint p r => on_endpoint p r s
  | EvOpen w => on_open w s
  | EvMessage w data out => if has_sock w s then on_message data out s else s
  | EvClose w reason => if has_sock w s then on_close reason s else s
  | EvError w e => on_error w e s
  | EvPong w => on_pong w s
  | EvSettle c r => on_settle c r s
  | EvTimer t => on_timer t s
  | EvTick dt => set_now (now s + dt)%N s
  end.

Definition run (s : state) (evs : list event) : state := fold_left step evs s.

(** The states the class can be in. *)
Inductive reachable : state -> Prop :=
| reach_init : reachable init
| reach_step s e : reachable s -> reachable (step s e).

(** The calls made during a step. *)
Definition emitted (s s' : state) : list effect :=
  skipn (List.length (trace s)) (trace s').


(** ** Relations between the states before and after a step *)

(** [s'] has the loops, promises and counters of [s], and is connected only
    if [s] was. *)
Definition quiet (s s' : state) : Prop :=
  tasks s' = tasks s /\
  connectPromise s' = connectPromise s /\
  next_promise s' = next_promise s /\
  resolved s' = resolved s /\
  (connected s' = true -> connected s = true).

(** At most one reconnect loop is suspended; its promise is the one stored
    in [connectPromise], it is not resolved, and the monitor is not connected
    while it runs. *)
Definition loop_inv (s : state) : Prop :=
  (forall q, In q (resolved s) -> q < next_promise s) /\
  (tasks s = [] \/
   exists p st,
     tasks s = [(p, st)] /\ connectPromise s = Some p /\ connected s = false /\
     p < next_promise s /\ ~ In p (resolved s)).

(** A step that only moves the loop p to another suspension point. *)
Definition moves (p : nat) (st' : lstate) (s s' : state) : Prop :=
  tasks s' = put_task p st' (tasks s) /\
  connectPromise s' = connectPromise s /\
  next_promise s' = next_promise s /\
  resolved s' = resolved s /\
  connected s' = connected s.

(** [s'] is connected only if [s] was, has no other canonical socket than
    [s], and has the sockets of [s]. *)
Definition tame (s s' : state) : Prop :=
  (connected s' = true -> connected s = true) /\
  (forall w, ws s' = Some w -> ws s = Some w) /\
  List.length (socks s') = List.length (socks s).

(** ** Predicates on states and runs *)

(** The events that are calls of the user. *)
Definition is_call (e : event) : bool :=
  match e with
  | EvConnect | EvReconnect | EvDisconnect | EvHandleMessage _ | EvRegister _ _ => true
  | _ => false
  end.

(** Nothing is in progress: no loop, no timer, no connection, no socket held. *)
Definition dormant (s : state) : Prop :=
  tasks s = [] /\ timers s = [] /\ connected s = false /\ ws s = None.

(** No loop is suspended, yet a promise is stored in [connectPromise]. *)
Definition stuck (s : state) : Prop :=
  tasks s = [] /\ connectPromise s <> None /\ connected s = false.

(** Every timer was created before [next_timer]. *)
Definition timers_fresh (s : state) : Prop :=
  forall x, In x (timers s) -> t_id x < next_timer s.

(** One failed attempt of loop p: the endpoint is refused, a second passes,
    the backoff timer t fires. *)
Definition fail_round (p t : nat) : list event :=
  [EvEndpoint p None; EvTick 1000; EvTimer t].

(** n failed attempts in a row, the first waiting on timer t. *)
Fixpoint fail_rounds (p t n : nat) : list event :=
  match n with
  | O => []
  | S n' => fail_round p t ++ fail_rounds p (S t) n'
  end.

(** What n failed attempts add to the trace. *)
Fixpoint fail_trace (p n : nat) : list effect :=
  match n with
  | O => []
  | S n' => FxCaught p EEndpoint :: FxEndpoint p :: fail_trace p n'
  end.

(** Goals of these two shapes that reduce to equalities of fields. *)
Ltac quiet_by_computation :=
  unfold quiet; repeat split; try reflexivity; try (simpl; congruence).

Ltac tame_by_computation :=
  unfold tame; simpl; repeat split; auto; try congruence; try discriminate.

(** ** Scenarios *)

(** [connect()], then the endpoint arrives: socket 0 is being opened. *)
Definition opening : state := run init [EvConnect; EvEndpoint 0 (Some url0)].

(** Socket 0 opens: the monitor is connected. *)
Definition opened : state := step opening (EvOpen 0).

(** A request is registered under id 7 on the open connection. *)
Definition requested : state := step opened (EvRegister (KNum 7) 100).


(** Socket 1 opens while socket 0 is still closing. *)
Definition superseded : state :=
  run opened [EvDisconnect; EvConnect; EvEndpoint 1 (Some url0); EvOpen 1].

(** [connect()] and [disconnect()] while the endpoint is being resolved. *)
Definition cancelled_early : state := run init [EvConnect; EvDisconnect].

(** [disconnect()] while socket 0 is being opened. *)
Definition cancelled_late : state := step opening EvDisconnect.

(** No 'pong' for 10000 ms after the open. *)
Definition silent : state := step opened (EvTick 10000).

(** A 'pong' 500 ms after the open, then 10000 ms pass. *)
Definition acked : state := run opened [EvTick 500; EvPong 0].
Definition idle_over : state := step acked (EvTick 10000).

(** A handler is registered on the open connection. *)
Definition listening : state := step opened (EvHandleMessage 5).

(** ** Further relations and invariants *)

(** A socket that has opened keeps the marks of it: its 'open' listener is
    used up and its 'error' listener is registered. *)
Definition opened_sock (i : sockinfo) : Prop :=
  open_once i = false /\ error_on i = true.

(** A change of the listeners that keeps the marks of an opened socket. *)
Definition keeps_opened (f : sockinfo -> sockinfo) : Prop :=
  forall i, (open_once i = false -> open_once (f i) = false) /\
            (error_on i = true -> error_on (f i) = true).

(** [s'] comes from [s] without connecting, creating a socket or
    registering a handler: a connection that is still there is the one of [s],
    and a connection that is gone left nothing behind. *)
Definition gentle (s s' : state) : Prop :=
  (connected s' = true -> connected s = true /\ ws s' = ws s) /\
  (connected s = true -> connected s' = false ->
   handler s' = None /\ ws s' = None /\ _keepAliveTimeout s' = None) /\
  (handler s = None -> handler s' = None) /\
  (forall w, ws s' = Some w -> ws s = Some w) /\
  (_keepAliveTimeout s' <> None ->
   (_keepAliveTimeout s <> None /\ connected s' = connected s) \/ connected s' = true) /\
  (forall w i, nth_error (socks s) w = Some i ->
     exists i', nth_error (socks s') w = Some i' /\
                (open_once i = false -> open_once i' = false) /\
                (error_on i = true -> error_on i' = true)).

(** The canonical socket exists; while connected it is a socket that has
    opened; and a keep-alive deadline is stored only while connected. *)
Definition link_inv (s : state) : Prop :=
  (forall w, ws s = Some w -> exists i, nth_error (socks s) w = Some i) /\
  (connected s = true ->
   exists w i, ws s = Some w /\ nth_error (socks s) w = Some i /\ opened_sock i) /\
  (_keepAliveTimeout s <> None -> connected s = true).

(** ** The public methods: start(), stop(), clearLog()

    The three methods are [async] functions around [connect()] and
    [disconnect()].  [api] adds to the monitor what they need: the id of the
    instance, the calls that are suspended at an [await], and a log in which
    the calls the monitor makes ([AMon]) are interleaved with the requests,
    the [send] and the outcomes of the three methods.  [fetchApi] belongs to
    another file: a request is logged when it is made and settled by an event.

    Each call is made from a turn of its own.  The continuations that one turn
    makes ready run as microtasks, first in first out: the callers that wait
    for the same promise of [connect()] take their first step one after the
    other, then their second steps, and so on ([wake]). *)

(** The errors a method is rejected with. *)
Inductive api_err : Type :=
| TypeError_null   (* this.ws.send on null *)
| FetchFailed.     (* fetchApi rejected *)

Inductive api_effect : Type :=
| AMon (e : effect)                                 (* a call made by the monitor *)
| AFetch (r : nat) (path : string) (method : string)  (* fetchApi(project, path, {method}) *)
| ASend (w : nat) (text : string)                   (* ws.send(text) *)
| AReturn (c : nat)                                 (* the promise of call c resolves *)
| AThrow (c : nat) (e : api_err).                   (* the promise of call c rejects *)

(** Where a call is suspended. *)
Inductive call_state : Type :=
| StartConnect (p : nat)   (* start(): await this.connect() *)
| StartFetch (r : nat)     (* start(): await this._fetch('/sslsplit/enable', ...) *)
| StopFetch (r : nat)      (* stop(): await this._fetch('/sslsplit/disable', ...) *)
| ClearConnect (p : nat).  (* clearLog(): await this.connect() *)

Record api : Type := mkApi {
  mon : state;                       (* the NetworkMonitor object and its run time *)
  instance_id : string;              (* this.instance.id *)
  calls : list (nat * call_state);   (* suspended calls, oldest first *)
  next_call : nat;
  next_fetch : nat;
  log : list api_effect
}.

Definition api_init (id : string) : api := mkApi init id [] 0 0 [].

Definition say (e : api_effect) (a : api) : api :=
  mkApi (mon a) (instance_id a) (calls a) (next_call a) (next_fetch a) (log a ++ [e]).

Definition add_call (c : nat) (cs : call_state) (a : api) : api :=
  mkApi (mon a) (instance_id a) (calls a ++ [(c, cs)]) (next_call a) (next_fetch a) (log a).

Definition set_calls (l : list (nat * call_state)) (a : api) : api :=
  mkApi (mon a) (instance_id a) l (next_call a) (next_fetch a) (log a).

(** A new call: its number. *)
Definition new_call (a : api) : nat * api :=
  (next_call a,
   mkApi (mon a) (instance_id a) (calls a) (S (next_call a)) (next_fetch a) (log a)).

(** The monitor moves to [s']; what it called on the way goes to the log. *)
Definition lift (s' : state) (a : api) : api :=
  mkApi s' (instance_id a) (calls a) (next_call a) (next_fetch a)
    (log a ++ map AMon (emitted (mon a) s')).

(** [_fetch(endpoint, options)] up to the call of [fetchApi]: the request. *)
Definition _fetch (endpoint method : string) (a : api) : nat * api :=
  let r := next_fetch a in
  (r, mkApi (mon a) (instance_id a) (calls a) (next_call a) (S r)
        (log a ++ [AFetch r ("/instances/" ++ instance_id a ++ endpoint)%string method])).

(** The double quote. *)
Definition dquote : string := String (Ascii.ascii_of_nat 34) EmptyString.

(** [JSON.stringify({"type": "clear"})]. *)
Definition clear_text : string :=
  ("{" ++ dquote ++ "type" ++ dquote ++ ":" ++ dquote ++ "clear" ++ dquote ++ "}")%string.

(** The promise a suspended call waits for. *)
Definition waits_on (cs : call_state) : option nat :=
  match cs with
  | StartConnect p | ClearConnect p => Some p
  | StartFetch _ | StopFetch _ => None
  end.

Definition is_ready (res : list nat) (c : nat * call_state) : bool :=
  match waits_on (snd c) with
  | Some p => existsb (Nat.eqb p) res
  | None => false
  end.

Definition is_clear (c : nat * call_state) : bool :=
  match snd c with ClearConnect _ => true | _ => false end.

(** start() after [await this.connect()] (line 225). *)
Definition start_enable (c : nat) (a : api) : api :=
  let (r, a) := _fetch "/sslsplit/enable" "POST" a in
  add_call c (StartFetch r) a.

(** The first step of a call whose [connect()] has resolved: line 225 for
    start(), lines 238-240 for clearLog(). *)
Definition resume1 (a : api) (c : nat * call_state) : api :=
  match snd c with
  | StartConnect _ => start_enable (fst c) a
  | ClearConnect _ =>
      match ws (mon a) with
      | Some w => say (ASend w clear_text) a
      | None => say (AThrow (fst c) TypeError_null) a
      end
  | _ => a
  end.

(** The calls whose promise has resolved continue: their first steps in
    order; then, for each clearLog() that has sent, [disconnect()] (line 242);
    then their returns. *)
Definition wake (a : api) : api :=
  let ready := filter (is_ready (resolved (mon a))) (calls a) in
  let rest := filter (fun c => negb (is_ready (resolved (mon a)) c)) (calls a) in
  let senders := match ws (mon a) with
                 | Some _ => filter is_clear ready
                 | None => []
                 end in
  let a1 := fold_left resume1 ready (set_calls rest a) in
  let a2 := fold_left (fun x _ => lift (disconnect (mon x)) x) senders a1 in
  fold_left (fun x c => say (AReturn (fst c)) x) senders a2.

(** [start()]. *)
Definition start (a : api) : api :=
  let (c, a) := new_call a in
  let (po, s') := connect (mon a) in
  let a := lift s' a in
  match po with
  | None => start_enable c a
  | Some p => wake (add_call c (StartConnect p) a)
  end.

(** [stop()] up to its first [await]. *)
Definition stop (a : api) : api :=
  let (c, a) := new_call a in
  let (r, a) := _fetch "/sslsplit/disable" "POST" a in
  add_call c (StopFetch r) a.

(** [clearLog()]. *)
Definition clearLog (a : api) : api :=
  let (c, a) := new_call a in
  if connected (mon a) then
    match ws (mon a) with
    | Some w => say (AReturn c) (say (ASend w clear_text) a)
    | None => say (AThrow c TypeError_null) a
    end
  else
    let (po, s') := connect (mon a) in
    let a := lift s' a in
    match po with
    | None =>       (* not reached: connect() awaits when not connected *)
        match ws (mon a) with
        | Some w => say (AReturn c) (lift (disconnect (mon a)) (say (ASend w clear_text) a))
        | None => say (AThrow c TypeError_null) a
        end
    | Some p => wake (add_call c (ClearConnect p) a)
    end.

Fixpoint find_fetch (r : nat) (l : list (nat * call_state)) : option (nat * bool) :=
  match l with
  | [] => None
  | (c, StartFetch r') :: rest =>
      if Nat.eqb r' r then Some (c, false) else find_fetch r rest
  | (c, StopFetch r') :: rest =>
      if Nat.eqb r' r then Some (c, true) else find_fetch r rest
  | _ :: rest => find_fetch r rest
  end.

(** The request r settles: the rest of start() (line 226) or of stop()
    (lines 249-250). *)
Definition on_fetch (r : nat) (ok : bool) (a : api) : api :=
  match find_fetch r (calls a) with
  | Some (c, is_stop) =>
      let a := set_calls (filter (fun x => negb (Nat.eqb (fst x) c)) (calls a)) a in
      if ok then
        let a := if is_stop then lift (disconnect (mon a)) a else a in
        say (AReturn c) a
      else say (AThrow c FetchFailed) a
  | None => a
  end.

Inductive api_event : Type :=
| CallStart
| CallStop
| CallClearLog
| FetchSettles (r : nat) (ok : bool)
| OnMonitor (e : event).   (* a call or a callback of the monitor itself *)

Definition api_step (a : api) (ev : api_event) : api :=
  match ev with
  | CallStart => start a
  | CallStop => stop a
  | CallClearLog => clearLog a
  | FetchSettles r ok => on_fetch r ok a
  | OnMonitor e => wake (lift (step (mon a) e) a)
  end.

Definition api_run (a : api) (evs : list api_event) : api := fold_left api_step evs a.

(** The states of the monitor and its methods that can be reached. *)
Inductive api_reachable : api -> Prop :=
| api_reach_init id : api_reachable (api_init id)
| api_reach_step a ev : api_reachable a -> api_reachable (api_step a ev).

(** No suspended call waits for a promise that has resolved. *)
Definition settled (a : api) : Prop :=
  forall c, In c (calls a) -> is_ready (resolved (mon a)) c = false.

(** [s'] forgets no promise of [s]: what has resolved stays resolved, the
    promise of a suspended loop is resolved or still has its loop, and so has
    every promise newly stored in [connectPromise]. *)
Definition hands_on (s s' : state) : Prop :=
  (forall q, In q (resolved s) -> In q (resolved s')) /\
  (forall p st, In (p, st) (tasks s) ->
                In p (resolved s') \/ exists st', In (p, st') (tasks s')) /\
  (forall p, connectPromise s' = Some p ->
             connectPromise s = Some p \/ In p (resolved s') \/
             exists st, In (p, st) (tasks s')).

(** The promise [p] is resolved or a loop is suspended that will resolve it. *)
Definition awaited (s : state) (p : nat) : Prop :=
  In p (resolved s) \/ exists st, In (p, st) (tasks s).

(** Every suspended call waits for a promise that is awaited. *)
Definition waiting_well (a : api) : Prop :=
  forall c cs p, In (c, cs) (calls a) -> waits_on cs = Some p -> awaited (mon a) p.

(** ** Concrete runs of the methods *)

Definition api0 : api := api_init "i-1".

(** [start()] on a new monitor; the endpoint arrives. *)
Definition starting : api :=
  api_run api0 [CallStart; OnMonitor (EvEndpoint 0 (Some url0))].

(** Socket 0 opens: [start()] has made its request. *)
Definition started : api := api_step starting (OnMonitor (EvOpen 0)).

(** [stop()] on the started monitor. *)
Definition stopping : api := api_step started CallStop.

(** Two calls of [clearLog()] on a new monitor; the endpoint arrives. *)
Definition clearing : api :=
  api_run api0 [CallClearLog; CallClearLog; OnMonitor (EvEndpoint 0 (Some url0))].

(** [start()], then [clearLog()], on a new monitor. *)
Definition queued : api := api_run api0 [CallStart; CallClearLog].

(** [s'] has the timers of [s] that were not cleared, and the timers
    created since, numbered from [next_timer s]. *)
Definition younger (s s' : state) : Prop :=
  next_timer s <= next_timer s' /\
  forall x, In x (timers s') ->
            In x (timers s) \/ next_timer s <= t_id x < next_timer s'.

(** ** The calls of a step, by kind *)

Definition is_callback (x : effect) : bool :=
  match x with FxCallback _ _ => true | _ => false end.

Definition is_ping (x : effect) : bool :=
  match x with FxPing _ => true | _ => false end.

(** [s'] comes from [s] at the same time of the clock, by calls none of
    which is of the kind [f]. *)
Definition hush (f : effect -> bool) (s s' : state) : Prop :=
  now s' = now s /\ exists l, trace s' = trace s ++ l /\ filter f l = [].

(** The same, with [pending] left as it was. *)
Definition calm (f : effect -> bool) (s s' : state) : Prop :=
  hush f s s' /\ pending s' = pending s.




(** ** The heartbeat *)

(** One probe is outstanding on the canonical socket [w] and nothing else is
    scheduled: no loop is suspended, the only timer is the deadline [t] of
    that probe, due at [due], it is the one stored in [_keepAliveTimeout],
    and one 'pong' listener is registered on [w]. *)
Definition probing (w t : nat) (due : N) (s : state) : Prop :=
  connected s = true /\ ws s = Some w /\ tasks s = [] /\
  timers s = [mkTimer t due (TDeadline w)] /\
  _keepAliveTimeout s = Some t /\
  exists i, nth_error (socks s) w = Some i /\ pong_once i = 1.

(** The probe was acknowledged: the only timer is the idle wait [t], due at
    [due]; no deadline is stored and no 'pong' listener is registered. *)
Definition resting (w t : nat) (due : N) (s : state) : Prop :=
  connected s = true /\ ws s = Some w /\ tasks s = [] /\
  timers s = [mkTimer t due TIdle] /\
  _keepAliveTimeout s = None /\
  exists i, nth_error (socks s) w = Some i /\ pong_once i = 0.

(** No loop is suspended, the monitor is not connected and holds no socket. *)
Definition at_rest (s : state) : Prop :=
  tasks s = [] /\ connected s = false /\ ws s = None.

(** The time that passes during a run. *)
Fixpoint elapsed (evs : list event) : N :=
  match evs with
  | [] => 0
  | EvTick dt :: rest => dt + elapsed rest
  | _ :: rest => elapsed rest
  end.

(** Nothing can send a probe before [due]: no loop is suspended, every timer
    is an idle wait that ends at [due] or later, and no 'pong' listener is
    registered on the canonical socket. *)
Definition idling (due : N) (s : state) : Prop :=
  tasks s = [] /\
  (forall x, In x (timers s) -> t_act x = TIdle /\ (due <= t_due x)%N) /\
  (forall w i, ws s = Some w -> nth_error (socks s) w = Some i -> pong_once i = 0).

(** [s'] comes from [s] without a probe, a new timer or a new 'pong'
    listener. *)
Definition still (s s' : state) : Prop :=
  hush is_ping s s' /\
  (forall x, In x (timers s') -> In x (timers s)) /\
  (forall w i', nth_error (socks s') w = Some i' ->
                exists i, nth_error (socks s) w = Some i /\ pong_once i' <= pong_once i).

(** ** Buffers and the pending Map: basic facts *)

Lemma u8_range (b : byte) : (0 <= u8 b < 256)%Z.
Proof.
  unfold u8. pose proof (Byte.to_N_bounded b) as Hb.
  split; [apply N2Z.is_nonneg|]. lia.
Qed.

(** Node's formula is the little-endian value of the four bytes read. *)
Lemma readUInt32LE_le_value (bs : list byte) :
  (4 <= List.length bs)%nat ->
  readUInt32LE bs 0 = Some (le_value (firstn 4 bs)).
Proof.
  intros Hlen. unfold readUInt32LE.
  destruct bs as [|b0 [|b1 [|b2 [|b3 rest]]]]; simpl in Hlen; try lia.
  cbn [skipn firstn le_value]. f_equal. lia.
Qed.

Lemma le_value_range (bs : list byte) :
  (0 <= le_value bs < 256 ^ Z.of_nat (List.length bs))%Z.
Proof.
  induction bs as [|b rest IH].
  - simpl. lia.
  - cbn [le_value List.length]. pose proof (u8_range b) as Hb.
    rewrite Nat2Z.inj_succ, Z.pow_succ_r by lia. lia.
Qed.

Lemma le_value_uint32 (bs : list byte) :
  (4 <= List.length bs)%nat ->
  (0 <= le_value (firstn 4 bs) < 2 ^ 32)%Z.
Proof.
  intros Hlen. pose proof (le_value_range (firstn 4 bs)) as Hr.
  rewrite length_firstn, Nat.min_l in Hr by lia.
  change (256 ^ Z.of_nat 4)%Z with (2 ^ 32)%Z in Hr. exact Hr.
Qed.

Lemma key_eqb_refl (k : key) : key_eqb k k = true.
Proof.
  destruct k; simpl; [reflexivity | apply Z.eqb_refl | apply String.eqb_refl].
Qed.

Lemma key_eqb_eq (a b : key) : key_eqb a b = true <-> a = b.
Proof.
  split.
  - destruct a, b; simpl; intros H; try discriminate; try reflexivity.
    + apply Z.eqb_eq in H. now subst.
    + apply String.eqb_eq in H. now subst.
  - intros ->. apply key_eqb_refl.
Qed.

(** Deleting a key that is not a number keeps every numeric entry. *)
Lemma pending_delete_keeps_num (k : key) (m : pmap) :
  (forall n, k <> KNum n) ->
  filter is_num (pending_delete k m) = filter is_num m.
Proof.
  intros Hk. unfold pending_delete. induction m as [|[k' cb] rest IH].
  - reflexivity.
  - cbn [filter fst]. destruct (key_eqb k' k) eqn:E.
    + apply key_eqb_eq in E. subst k'. cbn [negb].
      unfold is_num at 2. cbn [fst].
      destruct k; try exact IH. exfalso. apply (Hk n). reflexivity.
    + cbn [negb filter]. rewrite IH. reflexivity.
Qed.

Lemma pending_get_delete (k : key) (m : pmap) :
  pending_get k (pending_delete k m) = None.
Proof.
  unfold pending_delete. induction m as [|[k' cb] rest IH].
  - reflexivity.
  - cbn [filter fst]. destruct (key_eqb k' k) eqn:E; cbn [negb].
    + exact IH.
    + cbn [pending_get]. rewrite E. exact IH.
Qed.

Lemma emitted_app (s s' : state) (l : list effect) :
  trace s' = trace s ++ l -> emitted s s' = l.
Proof.
  intros H. unfold emitted. rewrite H.
  rewrite skipn_app, skipn_all, Nat.sub_diag. reflexivity.
Qed.

(** ** Steps that leave the reconnect loop alone *)


Lemma quiet_refl (s : state) : quiet s s.
Proof. unfold quiet. auto. Qed.

Lemma quiet_trans (s1 s2 s3 : state) : quiet s1 s2 -> quiet s2 s3 -> quiet s1 s3.
Proof.
  unfold quiet. intros (A1 & A2 & A3 & A4 & A5) (B1 & B2 & B3 & B4 & B5).
  repeat split; try congruence. auto.
Qed.

Lemma quiet_emit (e : effect) (s : state) : quiet s (emit e s).
Proof. quiet_by_computation. Qed.

Lemma quiet_upd_sock (w : nat) (f : sockinfo -> sockinfo) (s : state) :
  quiet s (upd_sock w f s).
Proof. quiet_by_computation. Qed.

Lemma quiet_clearTimeout (t : nat) (s : state) : quiet s (clearTimeout t s).
Proof. quiet_by_computation. Qed.

Lemma quiet_setTimeout (a : taction) (ms : N) (s : state) :
  quiet s (snd (setTimeout a ms s)).
Proof. quiet_by_computation. Qed.

Lemma quiet_set_keepAliveTimeout (v : option nat) (s : state) :
  quiet s (set_keepAliveTimeout v s).
Proof. quiet_by_computation. Qed.

Lemma quiet_set_pending (v : pmap) (s : state) : quiet s (set_pending v s).
Proof. quiet_by_computation. Qed.

Lemma quiet_set_handler (v : option nat) (s : state) : quiet s (set_handler v s).
Proof. quiet_by_computation. Qed.

Lemma quiet_set_pendingConnect (v : bool) (s : state) :
  quiet s (set_pendingConnect v s).
Proof. quiet_by_computation. Qed.

Lemma quiet_set_now (v : N) (s : state) : quiet s (set_now v s).
Proof. quiet_by_computation. Qed.

Lemma quiet_fail_all (e : err) (s : state) : quiet s (fail_all e s).
Proof. quiet_by_computation. Qed.

Lemma quiet_stopKeepAlive (s : state) : quiet s (_stopKeepAlive s).
Proof.
  unfold _stopKeepAlive. destruct (_keepAliveTimeout s); quiet_by_computation.
Qed.

Lemma quiet_disconnect_ (s : state) : quiet s (_disconnect s).
Proof.
  unfold _disconnect.
  set (s1 := _stopKeepAlive (set_handler None (set_connected false s))).
  assert (Q1 : quiet s s1).
  { apply quiet_trans with (set_handler None (set_connected false s)).
    - quiet_by_computation.
    - apply quiet_stopKeepAlive. }
  destruct (ws s1).
  - apply quiet_trans with s1; [exact Q1 | quiet_by_computation].
  - exact Q1.
Qed.

Lemma quiet_disconnect (s : state) : quiet s (disconnect s).
Proof.
  unfold disconnect.
  apply quiet_trans with (set_pendingConnect false s).
  - apply quiet_set_pendingConnect.
  - apply quiet_disconnect_.
Qed.

Lemma quiet_startKeepAlive (s : state) : quiet s (_startKeepAlive s).
Proof.
  unfold _startKeepAlive. destruct (connected s); [|apply quiet_refl].
  destruct (ws s); quiet_by_computation.
Qed.

Lemma quiet_drop_socket (w : nat) (s : state) : quiet s (drop_socket w s).
Proof.
  unfold drop_socket. destruct (canonical w s).
  - apply quiet_disconnect_.
  - apply quiet_emit.
Qed.

Lemma quiet_then_delete (k : key) (v : bool) (s : state) :
  quiet s (then_delete k v s).
Proof. unfold then_delete. destruct v; quiet_by_computation. Qed.

Lemma quiet_on_message (d : frame) (out : outcome) (s : state) :
  quiet s (on_message d out s).
Proof.
  unfold on_message. destruct (decode d) as [[m k]|]; [|apply quiet_emit].
  destruct (handler s); [|apply quiet_refl].
  destruct out.
  - quiet_by_computation.
  - apply quiet_trans with (emit (FxHandler n m) s);
      [apply quiet_emit | apply quiet_then_delete].
  - quiet_by_computation.
Qed.

Lemma quiet_on_settle (c : nat) (r : option bool) (s : state) :
  quiet s (on_settle c r s).
Proof.
  unfold on_settle. destruct (lookup_cont c (conts s)); [|apply quiet_refl].
  destruct r.
  - eapply quiet_trans; [|apply quiet_then_delete]. quiet_by_computation.
  - quiet_by_computation.
Qed.

Lemma quiet_on_close (reason : string) (s : state) : quiet s (on_close reason s).
Proof.
  unfold on_close. eapply quiet_trans; [apply quiet_fail_all | apply quiet_disconnect_].
Qed.

Lemma quiet_on_deadline (w : nat) (s : state) : quiet s (on_deadline w s).
Proof.
  unfold on_deadline. destruct (canonical w s); [|apply quiet_emit].
  eapply quiet_trans; [|apply quiet_disconnect_].
  eapply quiet_trans; [apply quiet_emit | apply quiet_fail_all].
Qed.

Lemma quiet_pong_listener (w : nat) (s : state) : quiet s (pong_listener w s).
Proof.
  unfold pong_listener. destruct (canonical w s); [|apply quiet_refl].
  eapply quiet_trans; [|apply quiet_setTimeout].
  eapply quiet_trans; [|apply quiet_set_keepAliveTimeout].
  destruct (_keepAliveTimeout s); [apply quiet_clearTimeout | apply quiet_refl].
Qed.

Lemma quiet_iter (f : state -> state) (n : nat) :
  (forall s, quiet s (f s)) -> forall s, quiet s (iter n f s).
Proof.
  intros Hf. induction n as [|n IH]; intros s; simpl.
  - apply quiet_refl.
  - eapply quiet_trans; [apply Hf | apply IH].
Qed.

Lemma quiet_on_pong (w : nat) (s : state) : quiet s (on_pong w s).
Proof.
  unfold on_pong. destruct (nth_error (socks s) w); [|apply quiet_refl].
  eapply quiet_trans; [apply quiet_upd_sock|].
  apply quiet_iter. apply quiet_pong_listener.
Qed.

(** ** The single-flight invariant *)


Lemma loop_inv_init : loop_inv init.
Proof. split; [intros q []|left; reflexivity]. Qed.

Lemma loop_inv_quiet (s s' : state) : loop_inv s -> quiet s s' -> loop_inv s'.
Proof.
  intros [Hres Hloop] (Q1 & Q2 & Q3 & Q4 & Q5). split.
  - rewrite Q3, Q4. exact Hres.
  - destruct Hloop as [Hnil | (p & st & Ht & Hcp & Hc & Hlt & Hnr)].
    + left. congruence.
    + right. exists p, st. rewrite Q1, Q2, Q3, Q4.
      repeat split; try assumption.
      destruct (connected s') eqn:E; [|reflexivity].
      rewrite (Q5 eq_refl) in Hc. discriminate.
Qed.

Lemma lookup_task_single (p q : nat) (st : lstate) (l : list (nat * lstate)) (st' : lstate) :
  l = [(p, st)] -> lookup_task q l = Some st' -> q = p /\ st' = st.
Proof.
  intros -> H. simpl in H. destruct (Nat.eqb p q) eqn:E; [|discriminate].
  apply Nat.eqb_eq in E. split; congruence.
Qed.

Lemma awaiting_single (p q w : nat) (st : lstate) (l : list (nat * lstate)) :
  l = [(p, st)] -> awaiting w l = Some q -> q = p.
Proof.
  intros -> H. simpl in H. destruct (lstate_is_open w st); congruence.
Qed.

Lemma put_task_single (p : nat) (st st' : lstate) :
  put_task p st' [(p, st)] = [(p, st')].
Proof. simpl. rewrite Nat.eqb_refl. reflexivity. Qed.

Lemma drop_task_single (p : nat) (st : lstate) : drop_task p [(p, st)] = [].
Proof. unfold drop_task. simpl. rewrite Nat.eqb_refl. reflexivity. Qed.


Lemma loop_inv_moves (p : nat) (st' : lstate) (s s' : state) :
  loop_inv s -> (exists st, In (p, st) (tasks s)) -> moves p st' s s' -> loop_inv s'.
Proof.
  intros [Hres Hloop] [st0 Hin] (M1 & M2 & M3 & M4 & M5). split.
  - rewrite M3, M4. exact Hres.
  - destruct Hloop as [Hnil | (p0 & st & Ht & Hcp & Hc & Hlt & Hnr)].
    + rewrite Hnil in Hin. destruct Hin.
    + right. rewrite Ht in Hin. destruct Hin as [Heq | []].
      inversion Heq; subst p0 st0. exists p, st'.
      rewrite M1, M2, M3, M4, M5, Ht, put_task_single. auto.
Qed.

Lemma lookup_task_In (p : nat) (st : lstate) (l : list (nat * lstate)) :
  lookup_task p l = Some st -> In (p, st) l.
Proof.
  induction l as [|[q st'] rest IH]; simpl; [discriminate|].
  destruct (Nat.eqb q p) eqn:E.
  - apply Nat.eqb_eq in E. intros H. left. congruence.
  - intros H. right. auto.
Qed.

Lemma awaiting_In (w p : nat) (l : list (nat * lstate)) :
  awaiting w l = Some p -> In (p, AwaitOpen w) l.
Proof.
  induction l as [|[q st] rest IH]; simpl; [discriminate|].
  destruct (lstate_is_open w st) eqn:E.
  - intros H. left. destruct st; simpl in E; try discriminate.
    apply Nat.eqb_eq in E. congruence.
  - intros H. right. auto.
Qed.

Lemma moves_backoff (p : nat) (e : err) (s : state) :
  exists t, moves p (AwaitBackoff t) s (backoff p e s) /\ t = next_timer s.
Proof.
  exists (next_timer s). unfold moves, backoff. simpl.
  repeat split; reflexivity.
Qed.

Lemma loop_inv_backoff (p : nat) (e : err) (s : state) :
  loop_inv s -> (exists st, In (p, st) (tasks s)) -> loop_inv (backoff p e s).
Proof.
  intros Hinv Hin. destruct (moves_backoff p e s) as (t & Hm & _).
  eapply loop_inv_moves; eauto.
Qed.

Lemma loop_inv_start_connect (p : nat) (s : state) :
  loop_inv s -> (exists st, In (p, st) (tasks s)) -> loop_inv (start_connect p s).
Proof.
  intros Hinv Hin. eapply loop_inv_moves with (st' := AwaitEndpoint); eauto.
  unfold moves, start_connect. simpl. repeat split; reflexivity.
Qed.

Lemma loop_inv_finish_loop (p : nat) (s : state) :
  loop_inv s -> (exists st, In (p, st) (tasks s)) -> loop_inv (finish_loop p s).
Proof.
  intros [Hres Hloop] [st0 Hin].
  destruct Hloop as [Hnil | (p0 & st & Ht & Hcp & Hc & Hlt & Hnr)].
  - rewrite Hnil in Hin. destruct Hin.
  - rewrite Ht in Hin. destruct Hin as [Heq | []]. inversion Heq; subst p0 st0.
    split.
    + unfold finish_loop. simpl. intros q [<- | Hq]; auto.
    + left. unfold finish_loop. simpl. rewrite Ht. apply drop_task_single.
Qed.

Lemma loop_inv_loop_head (p : nat) (s : state) :
  loop_inv s -> (exists st, In (p, st) (tasks s)) -> loop_inv (loop_head p s).
Proof.
  intros Hinv Hin. unfold loop_head. destruct (pendingConnect s).
  - now apply loop_inv_start_connect.
  - now apply loop_inv_finish_loop.
Qed.

Lemma loop_inv_reject_open (w : nat) (e : err) (s : state) :
  loop_inv s -> loop_inv (reject_open w e s).
Proof.
  intros Hinv. unfold reject_open. destruct (awaiting w (tasks s)) as [p|] eqn:E.
  - apply loop_inv_backoff; [exact Hinv|]. eexists. apply awaiting_In. exact E.
  - exact Hinv.
Qed.

Lemma loop_inv_resolve_open (w : nat) (s : state) :
  loop_inv s -> loop_inv (resolve_open w s).
Proof.
  intros Hinv. unfold resolve_open.
  destruct (awaiting w (tasks s)) as [p|] eqn:E; [|exact Hinv].
  apply awaiting_In in E.
  set (s1 := _startKeepAlive (set_connected true s)).
  assert (Ht : tasks s1 = tasks s /\ next_promise s1 = next_promise s /\
               resolved s1 = resolved s).
  { destruct (quiet_startKeepAlive (set_connected true s)) as (Q1 & _ & Q3 & Q4 & _).
    fold s1 in Q1, Q3, Q4. simpl in Q1, Q3, Q4. auto. }
  destruct Ht as (T1 & T2 & T3). destruct Hinv as [Hres Hloop].
  destruct Hloop as [Hnil | (p0 & st & Ht & Hcp & Hc & Hlt & Hnr)].
  - rewrite Hnil in E. destruct E.
  - rewrite Ht in E. destruct E as [Heq | []]. inversion Heq; subst p0 st.
    split.
    + unfold finish_loop. simpl. rewrite T2, T3. intros q [<- | Hq]; auto.
    + left. unfold finish_loop. simpl. rewrite T1, Ht. apply drop_task_single.
Qed.

Lemma loop_inv_on_endpoint (p : nat) (r : option string) (s : state) :
  loop_inv s -> loop_inv (on_endpoint p r s).
Proof.
  intros Hinv. unfold on_endpoint.
  destruct (lookup_task p (tasks s)) as [st|] eqn:E; [|exact Hinv].
  apply lookup_task_In in E.
  destruct st; try exact Hinv.
  destruct r as [url|].
  - destruct (pendingConnect s).
    + eapply loop_inv_moves with (p := p); [exact Hinv | eauto |].
      unfold moves. simpl. repeat split; reflexivity.
    + apply loop_inv_backoff; eauto.
  - apply loop_inv_backoff; eauto.
Qed.

Lemma loop_inv_on_open (w : nat) (s : state) : loop_inv s -> loop_inv (on_open w s).
Proof.
  intros Hinv. unfold on_open.
  destruct (nth_error (socks s) w) as [i|]; [|exact Hinv].
  destruct (open_once i); [|exact Hinv].
  destruct (canonical w (upd_sock w clear_open_once s)).
  - apply loop_inv_resolve_open.
    eapply loop_inv_quiet; [exact Hinv|].
    eapply quiet_trans; apply quiet_upd_sock.
  - apply loop_inv_reject_open.
    eapply loop_inv_quiet; [exact Hinv|].
    eapply quiet_trans; [apply quiet_upd_sock | apply quiet_emit].
Qed.

Lemma loop_inv_on_error (w : nat) (e : string) (s : state) :
  loop_inv s -> loop_inv (on_error w e s).
Proof.
  intros Hinv. unfold on_error.
  destruct (nth_error (socks s) w) as [i|]; [|exact Hinv].
  destruct (error_once i || error_on i);
    [|eapply loop_inv_quiet; [exact Hinv | apply quiet_emit]].
  set (s1 := if error_once i then drop_socket w (upd_sock w clear_error_once s) else s).
  assert (Q1 : quiet s s1).
  { subst s1. destruct (error_once i); [|apply quiet_refl].
    eapply quiet_trans; [apply quiet_upd_sock | apply quiet_drop_socket]. }
  set (s2 := if error_on i
             then emit (FxLog "error in netmon socket")
                    (drop_socket w (fail_all (ETransport e) s1))
             else s1).
  assert (Q2 : quiet s1 s2).
  { subst s2. destruct (error_on i); [|apply quiet_refl].
    eapply quiet_trans; [apply quiet_fail_all|].
    eapply quiet_trans; [apply quiet_drop_socket | apply quiet_emit]. }
  assert (Hinv2 : loop_inv s2).
  { eapply loop_inv_quiet; [exact Hinv | eapply quiet_trans; eauto]. }
  destruct (error_once i); [apply loop_inv_reject_open|]; exact Hinv2.
Qed.

Lemma loop_inv_on_timer (t : nat) (s : state) : loop_inv s -> loop_inv (on_timer t s).
Proof.
  intros Hinv. unfold on_timer.
  destruct (find_timer t s) as [x|]; [|exact Hinv].
  destruct (N.leb (t_due x) (now s)); [|exact Hinv].
  assert (Hinv1 : loop_inv (clearTimeout t s)).
  { eapply loop_inv_quiet; [exact Hinv | apply quiet_clearTimeout]. }
  destruct (t_act x) as [p|w|].
  - destruct (lookup_task p (tasks (clearTimeout t s))) as [st|] eqn:E; [|exact Hinv1].
    destruct st; try exact Hinv1.
    destruct (Nat.eqb t0 t); [|exact Hinv1].
    apply loop_inv_loop_head; [exact Hinv1|].
    eexists. apply lookup_task_In. exact E.
  - eapply loop_inv_quiet; [exact Hinv1 | apply quiet_on_deadline].
  - eapply loop_inv_quiet; [exact Hinv1 | apply quiet_startKeepAlive].
Qed.

Lemma connected_disconnect_ (s : state) : connected (_disconnect s) = false.
Proof.
  unfold _disconnect, _stopKeepAlive.
  destruct (_keepAliveTimeout (set_handler None (set_connected false s))); simpl;
    destruct (ws s); reflexivity.
Qed.

Lemma loop_inv_no_promise (s : state) :
  loop_inv s -> connectPromise s = None -> tasks s = [].
Proof.
  intros [_ [Hnil | (p & st & _ & Hcp & _)]] Hnone; [exact Hnil | congruence].
Qed.

Lemma loop_inv_reconnect (s : state) : loop_inv s -> loop_inv (snd (reconnect s)).
Proof.
  intros Hinv. unfold reconnect.
  set (s1 := if connected s then disconnect s else s).
  assert (Hinv1 : loop_inv s1).
  { subst s1. destruct (connected s); [|exact Hinv].
    eapply loop_inv_quiet; [exact Hinv | apply quiet_disconnect]. }
  assert (Hc1 : connected s1 = false).
  { subst s1. destruct (connected s) eqn:E; [|exact E].
    unfold disconnect. apply connected_disconnect_. }
  destruct (connectPromise s1) as [p|] eqn:Hcp; [exact Hinv1|].
  pose proof (loop_inv_no_promise s1 Hinv1 Hcp) as Hnil.
  destruct Hinv1 as [Hres _]. cbn [snd]. unfold loop_head.
  cbn [pendingConnect set_next_promise].
  destruct (pendingConnect s1); split.
  - unfold start_connect. simpl. intros q Hq. specialize (Hres q Hq). lia.
  - right. exists (next_promise s1), AwaitEndpoint. unfold start_connect. simpl.
    rewrite Hnil. repeat split; auto.
    intros Hq. specialize (Hres _ Hq). lia.
  - unfold finish_loop. simpl. intros q [<- | Hq]; [lia|].
    specialize (Hres q Hq). lia.
  - left. unfold finish_loop. simpl. rewrite Hnil. reflexivity.
Qed.

Lemma loop_inv_connect (s : state) : loop_inv s -> loop_inv (snd (connect s)).
Proof.
  intros Hinv. unfold connect.
  assert (Hinv1 : loop_inv (set_pendingConnect true s)).
  { eapply loop_inv_quiet; [exact Hinv | apply quiet_set_pendingConnect]. }
  destruct (connected (set_pendingConnect true s)); [exact Hinv1|].
  pose proof (loop_inv_reconnect _ Hinv1) as H.
  destruct (reconnect (set_pendingConnect true s)) as [p s']. exact H.
Qed.

Lemma loop_inv_step (s : state) (e : event) : loop_inv s -> loop_inv (step s e).
Proof.
  intros Hinv. destruct e; cbn [step].
  - now apply loop_inv_connect.
  - now apply loop_inv_reconnect.
  - eapply loop_inv_quiet; [exact Hinv | apply quiet_disconnect].
  - eapply loop_inv_quiet; [exact Hinv | apply quiet_set_handler].
  - eapply loop_inv_quiet; [exact Hinv | apply quiet_set_pending].
  - now apply loop_inv_on_endpoint.
  - now apply loop_inv_on_open.
  - destruct (has_sock w s); [|exact Hinv].
    eapply loop_inv_quiet; [exact Hinv | apply quiet_on_message].
  - destruct (has_sock w s); [|exact Hinv].
    eapply loop_inv_quiet; [exact Hinv | apply quiet_on_close].
  - now apply loop_inv_on_error.
  - eapply loop_inv_quiet; [exact Hinv | apply quiet_on_pong].
  - eapply loop_inv_quiet; [exact Hinv | apply quiet_on_settle].
  - now apply loop_inv_on_timer.
  - eapply loop_inv_quiet; [exact Hinv | apply quiet_set_now].
Qed.

Lemma reachable_loop_inv (s : state) : reachable s -> loop_inv s.
Proof.
  induction 1 as [|s e _ IH]; [apply loop_inv_init | now apply loop_inv_step].
Qed.

Lemma reachable_run (s : state) (evs : list event) :
  reachable s -> reachable (run s evs).
Proof.
  revert s. induction evs as [|e evs IH]; intros s Hs; simpl; [exact Hs|].
  apply IH. now constructor.
Qed.

Lemma reconnect_joins (s : state) (p : nat) :
  connected s = false -> connectPromise s = Some p -> reconnect s = (p, s).
Proof. intros Hc Hcp. unfold reconnect. rewrite Hc, Hcp. reflexivity. Qed.

Lemma connect_joins (s : state) (p : nat) :
  connected s = false -> connectPromise s = Some p ->
  connect s = (Some p, set_pendingConnect true s).
Proof.
  intros Hc Hcp. unfold connect. cbn [connected set_pendingConnect].
  rewrite Hc. rewrite (reconnect_joins (set_pendingConnect true s) p); auto.
Qed.

(** C3: in every state the class can reach, at most one reconnect loop is
    suspended.  While a loop is in flight (the task [(p, st)]), its promise p
    is not resolved yet; [reconnect()] returns that promise and changes
    nothing, so it starts no second loop; and [connect()] awaits that same
    promise after setting [pendingConnect], starting no loop either. *)
Theorem C3_single_flight :
  forall (s : state) (p : nat) (st : lstate),
    reachable s ->
    In (p, st) (tasks s) ->
    tasks s = [(p, st)] /\
    ~ In p (resolved s) /\
    reconnect s = (p, s) /\
    connect s = (Some p, set_pendingConnect true s).
Proof.
  intros s p st Hreach Hin.
  destruct (reachable_loop_inv s Hreach) as [_ Hloop].
  destruct Hloop as [Hnil | (p0 & st0 & Ht & Hcp & Hc & _ & Hnr)].
  - rewrite Hnil in Hin. destruct Hin.
  - rewrite Ht in Hin. destruct Hin as [Heq | []]. inversion Heq; subst p0 st0.
    repeat split; auto using reconnect_joins, connect_joins.
Qed.

(** ** Steps that neither connect nor change the canonical socket *)


Lemma tame_refl (s : state) : tame s s.
Proof. unfold tame. auto. Qed.

Lemma tame_trans (s1 s2 s3 : state) : tame s1 s2 -> tame s2 s3 -> tame s1 s3.
Proof.
  unfold tame. intros (A1 & A2 & A3) (B1 & B2 & B3).
  repeat split; auto. congruence.
Qed.

Lemma length_upd_nth {A : Type} (f : A -> A) (l : list A) (n : nat) :
  List.length (upd_nth n f l) = List.length l.
Proof.
  revert n. induction l as [|x rest IH]; intros [|n]; simpl; auto.
Qed.

Lemma nth_error_upd_nth_same {A : Type} (f : A -> A) (l : list A) (n : nat) (x : A) :
  nth_error l n = Some x -> nth_error (upd_nth n f l) n = Some (f x).
Proof.
  revert n. induction l as [|y rest IH]; intros [|n]; simpl; try discriminate.
  - intros H. congruence.
  - apply IH.
Qed.

Lemma nth_error_upd_nth_other {A : Type} (f : A -> A) (l : list A) (n m : nat) :
  n <> m -> nth_error (upd_nth n f l) m = nth_error l m.
Proof.
  revert n m. induction l as [|y rest IH]; intros [|n] [|m] Hne; simpl; auto.
  congruence.
Qed.

Lemma tame_emit (e : effect) (s : state) : tame s (emit e s).
Proof. tame_by_computation. Qed.

Lemma tame_upd_sock (w : nat) (f : sockinfo -> sockinfo) (s : state) :
  tame s (upd_sock w f s).
Proof. tame_by_computation. apply length_upd_nth. Qed.

Lemma tame_clearTimeout (t : nat) (s : state) : tame s (clearTimeout t s).
Proof. tame_by_computation. Qed.

Lemma tame_fail_all (e : err) (s : state) : tame s (fail_all e s).
Proof. tame_by_computation. Qed.

Lemma tame_stopKeepAlive (s : state) : tame s (_stopKeepAlive s).
Proof.
  unfold _stopKeepAlive. destruct (_keepAliveTimeout s); tame_by_computation.
Qed.

Lemma tame_disconnect_ (s : state) : tame s (_disconnect s).
Proof.
  unfold _disconnect.
  set (s1 := _stopKeepAlive (set_handler None (set_connected false s))).
  assert (Q1 : tame s s1).
  { apply tame_trans with (set_handler None (set_connected false s)).
    - tame_by_computation.
    - apply tame_stopKeepAlive. }
  destruct (ws s1).
  - apply tame_trans with s1; [exact Q1 | tame_by_computation].
  - exact Q1.
Qed.

Lemma tame_disconnect (s : state) : tame s (disconnect s).
Proof.
  unfold disconnect. apply tame_trans with (set_pendingConnect false s).
  - tame_by_computation.
  - apply tame_disconnect_.
Qed.

Lemma tame_startKeepAlive (s : state) : tame s (_startKeepAlive s).
Proof.
  unfold _startKeepAlive. destruct (connected s); [|apply tame_refl].
  destruct (ws s); tame_by_computation. apply length_upd_nth.
Qed.

Lemma tame_drop_socket (w : nat) (s : state) : tame s (drop_socket w s).
Proof.
  unfold drop_socket. destruct (canonical w s);
    [apply tame_disconnect_ | apply tame_emit].
Qed.

Lemma tame_backoff (p : nat) (e : err) (s : state) : tame s (backoff p e s).
Proof. unfold backoff. tame_by_computation. Qed.

Lemma tame_loop_head (p : nat) (s : state) : tame s (loop_head p s).
Proof.
  unfold loop_head, start_connect, finish_loop.
  destruct (pendingConnect s); tame_by_computation.
Qed.

Lemma tame_reject_open (w : nat) (e : err) (s : state) : tame s (reject_open w e s).
Proof.
  unfold reject_open. destruct (awaiting w (tasks s));
    [apply tame_backoff | apply tame_refl].
Qed.

Lemma tame_reconnect (s : state) : tame s (snd (reconnect s)).
Proof.
  unfold reconnect.
  set (s1 := if connected s then disconnect s else s).
  assert (Q1 : tame s s1).
  { subst s1. destruct (connected s); [apply tame_disconnect | apply tame_refl]. }
  destruct (connectPromise s1); [exact Q1|].
  eapply tame_trans; [exact Q1|]. cbn [snd].
  apply tame_trans with (loop_head (next_promise s1) (set_next_promise (S (next_promise s1)) s1)).
  - apply tame_trans with (set_next_promise (S (next_promise s1)) s1).
    + tame_by_computation.
    + apply tame_loop_head.
  - tame_by_computation.
Qed.

Lemma tame_connect (s : state) : tame s (snd (connect s)).
Proof.
  unfold connect.
  assert (Q1 : tame s (set_pendingConnect true s)) by tame_by_computation.
  destruct (connected (set_pendingConnect true s)); [exact Q1|].
  pose proof (tame_reconnect (set_pendingConnect true s)) as H.
  destruct (reconnect (set_pendingConnect true s)) as [p s'].
  eapply tame_trans; [exact Q1 | exact H].
Qed.

Lemma tame_on_message (d : frame) (out : outcome) (s : state) :
  tame s (on_message d out s).
Proof.
  unfold on_message, then_delete. destruct (decode d) as [[m k]|]; [|apply tame_emit].
  destruct (handler s); [|apply tame_refl].
  destruct out as [|[|]|]; tame_by_computation.
Qed.

Lemma tame_on_settle (c : nat) (r : option bool) (s : state) :
  tame s (on_settle c r s).
Proof.
  unfold on_settle, then_delete. destruct (lookup_cont c (conts s)); [|apply tame_refl].
  destruct r as [[|]|]; tame_by_computation.
Qed.

Lemma tame_on_close (reason : string) (s : state) : tame s (on_close reason s).
Proof.
  unfold on_close. eapply tame_trans; [apply tame_fail_all | apply tame_disconnect_].
Qed.

Lemma tame_on_deadline (w : nat) (s : state) : tame s (on_deadline w s).
Proof.
  unfold on_deadline. destruct (canonical w s); [|apply tame_emit].
  eapply tame_trans; [|apply tame_disconnect_].
  eapply tame_trans; [apply tame_emit | apply tame_fail_all].
Qed.

Lemma tame_pong_listener (w : nat) (s : state) : tame s (pong_listener w s).
Proof.
  unfold pong_listener. destruct (canonical w s); [|apply tame_refl].
  destruct (_keepAliveTimeout s); tame_by_computation.
Qed.

Lemma tame_iter (f : state -> state) (n : nat) :
  (forall s, tame s (f s)) -> forall s, tame s (iter n f s).
Proof.
  intros Hf. induction n as [|n IH]; intros s; simpl.
  - apply tame_refl.
  - eapply tame_trans; [apply Hf | apply IH].
Qed.

Lemma tame_on_pong (w : nat) (s : state) : tame s (on_pong w s).
Proof.
  unfold on_pong. destruct (nth_error (socks s) w); [|apply tame_refl].
  eapply tame_trans; [apply tame_upd_sock|].
  apply tame_iter. apply tame_pong_listener.
Qed.

Lemma tame_on_error (w : nat) (e : string) (s : state) : tame s (on_error w e s).
Proof.
  unfold on_error.
  destruct (nth_error (socks s) w) as [i|]; [|apply tame_refl].
  destruct (error_once i || error_on i); [|apply tame_emit].
  set (s1 := if error_once i then drop_socket w (upd_sock w clear_error_once s) else s).
  assert (Q1 : tame s s1).
  { subst s1. destruct (error_once i); [|apply tame_refl].
    eapply tame_trans; [apply tame_upd_sock | apply tame_drop_socket]. }
  set (s2 := if error_on i
             then emit (FxLog "error in netmon socket")
                    (drop_socket w (fail_all (ETransport e) s1))
             else s1).
  assert (Q2 : tame s1 s2).
  { subst s2. destruct (error_on i); [|apply tame_refl].
    eapply tame_trans; [apply tame_fail_all|].
    eapply tame_trans; [apply tame_drop_socket | apply tame_emit]. }
  assert (Q : tame s s2) by (eapply tame_trans; [exact Q1 | exact Q2]).
  destruct (error_once i); [|exact Q].
  eapply tame_trans; [exact Q | apply tame_reject_open].
Qed.

Lemma tame_on_timer (t : nat) (s : state) : tame s (on_timer t s).
Proof.
  unfold on_timer.
  destruct (find_timer t s) as [x|]; [|apply tame_refl].
  destruct (N.leb (t_due x) (now s)); [|apply tame_refl].
  eapply tame_trans; [apply tame_clearTimeout|].
  destruct (t_act x) as [p|w|].
  - destruct (lookup_task p (tasks (clearTimeout t s))) as [st|]; [|apply tame_refl].
    destruct st; try apply tame_refl.
    destruct (Nat.eqb t0 t); [apply tame_loop_head | apply tame_refl].
  - apply tame_on_deadline.
  - apply tame_startKeepAlive.
Qed.

(** Every step but the two of [_connect] that create and promote a socket
    is tame. *)
Lemma tame_step (s : state) (e : event) :
  (forall p r, e <> EvEndpoint p r) -> (forall w, e <> EvOpen w) ->
  tame s (step s e).
Proof.
  intros Hne Hno. destruct e; cbn [step].
  - apply tame_connect.
  - apply tame_reconnect.
  - apply tame_disconnect.
  - unfold handleMessage. tame_by_computation.
  - unfold register. tame_by_computation.
  - exfalso. eapply Hne. reflexivity.
  - exfalso. eapply Hno. reflexivity.
  - destruct (has_sock w s); [apply tame_on_message | apply tame_refl].
  - destruct (has_sock w s); [apply tame_on_close | apply tame_refl].
  - apply tame_on_error.
  - apply tame_on_pong.
  - apply tame_on_settle.
  - apply tame_on_timer.
  - tame_by_computation.
Qed.

(** ** Creating and promoting a socket *)

Lemma canonical_true (w : nat) (s : state) : canonical w s = true <-> ws s = Some w.
Proof.
  unfold canonical. destruct (ws s) as [w'|].
  - rewrite Nat.eqb_eq. split; congruence.
  - split; discriminate.
Qed.

Lemma canonical_false (w : nat) (s : state) : canonical w s = false <-> ws s <> Some w.
Proof.
  rewrite <- canonical_true. destruct (canonical w s); split; congruence.
Qed.

Lemma lookup_put_task (p : nat) (st : lstate) (l : list (nat * lstate)) :
  lookup_task p (put_task p st l) = Some st.
Proof.
  induction l as [|[q st'] rest IH]; simpl.
  - rewrite Nat.eqb_refl. reflexivity.
  - destruct (Nat.eqb q p) eqn:E; simpl; rewrite E; auto.
Qed.

Lemma connected_on_endpoint (p : nat) (r : option string) (s : state) :
  connected (on_endpoint p r s) = connected s.
Proof.
  unfold on_endpoint. destruct (lookup_task p (tasks s)) as [[| |]|]; try reflexivity.
  destruct r; [destruct (pendingConnect s)|]; reflexivity.
Qed.

(** The endpoint step makes canonical no socket but the one it creates. *)
Lemma ws_on_endpoint (p : nat) (r : option string) (s : state) (w : nat) :
  ws (on_endpoint p r s) = Some w ->
  ws s = Some w \/ w = List.length (socks s).
Proof.
  unfold on_endpoint. destruct (lookup_task p (tasks s)) as [[| |]|]; auto.
  destruct r; [destruct (pendingConnect s)|]; simpl; auto.
  intros H. right. congruence.
Qed.

Lemma socks_on_endpoint (p : nat) (r : option string) (s : state) :
  List.length (socks s) <= List.length (socks (on_endpoint p r s)).
Proof.
  unfold on_endpoint. destruct (lookup_task p (tasks s)) as [[| |]|]; auto.
  destruct r; [destruct (pendingConnect s)|]; simpl; auto.
  rewrite length_app. simpl. lia.
Qed.

Lemma ws_startKeepAlive (s : state) : ws (_startKeepAlive s) = ws s.
Proof.
  unfold _startKeepAlive. destruct (connected s); [|reflexivity].
  destruct (ws s) eqn:E; simpl; congruence.
Qed.

Lemma ws_resolve_open (w : nat) (s : state) : ws (resolve_open w s) = ws s.
Proof.
  unfold resolve_open. destruct (awaiting w (tasks s)); [|reflexivity].
  unfold finish_loop. cbn [ws emit set_trace set_resolved set_tasks set_connectPromise].
  rewrite ws_startKeepAlive. reflexivity.
Qed.

Lemma socks_resolve_open (w : nat) (s : state) :
  List.length (socks (resolve_open w s)) = List.length (socks s).
Proof.
  unfold resolve_open. destruct (awaiting w (tasks s)); [|reflexivity].
  unfold finish_loop. cbn [socks emit set_trace set_resolved set_tasks set_connectPromise].
  destruct (tame_startKeepAlive (set_connected true s)) as (_ & _ & H).
  rewrite H. reflexivity.
Qed.

Lemma ws_on_open (w : nat) (s : state) : forall w', ws (on_open w s) = Some w' -> ws s = Some w'.
Proof.
  intros w'. unfold on_open.
  destruct (nth_error (socks s) w) as [i|]; auto.
  destruct (open_once i); auto.
  destruct (canonical w (upd_sock w clear_open_once s)).
  - rewrite ws_resolve_open. auto.
  - intros H. apply (tame_reject_open w ECancelled) in H. exact H.
Qed.

Lemma socks_on_open (w : nat) (s : state) :
  List.length (socks (on_open w s)) = List.length (socks s).
Proof.
  unfold on_open.
  destruct (nth_error (socks s) w) as [i|]; auto.
  destruct (open_once i); auto.
  destruct (canonical w (upd_sock w clear_open_once s)).
  - rewrite socks_resolve_open. simpl. rewrite !length_upd_nth. reflexivity.
  - destruct (tame_reject_open w ECancelled
                (emit (FxClose w) (upd_sock w clear_open_once s))) as (_ & _ & H).
    rewrite H. simpl. apply length_upd_nth.
Qed.

Lemma ws_step (s : state) (e : event) (w : nat) :
  ws (step s e) = Some w -> ws s = Some w \/ w = List.length (socks s).
Proof.
  destruct e; try (intros H; left; revert H; apply tame_step; discriminate).
  - apply ws_on_endpoint.
  - intros H. left. revert H. apply ws_on_open.
Qed.

Lemma socks_step (s : state) (e : event) :
  List.length (socks s) <= List.length (socks (step s e)).
Proof.
  destruct e;
    try (apply Nat.eq_le_incl; symmetry; apply tame_step; discriminate).
  - apply socks_on_endpoint.
  - cbn [step]. rewrite socks_on_open. auto.
Qed.

(** A socket that exists and is not canonical never becomes canonical. *)
Lemma stale_forever (w : nat) (evs : list event) :
  forall s, w < List.length (socks s) -> ws s <> Some w ->
            ws (run s evs) <> Some w.
Proof.
  induction evs as [|e evs IH]; intros s Hlt Hne; simpl; [exact Hne|].
  apply IH.
  - pose proof (socks_step s e). lia.
  - intros H. apply ws_step in H. destruct H as [H | H]; [auto | lia].
Qed.

(** [connected] becomes true only in the 'open' listener of the socket
    that is canonical then, and that socket stays canonical. *)
Lemma promoted_is_canonical (s : state) (e : event) :
  connected s = false -> connected (step s e) = true ->
  exists w, e = EvOpen w /\ ws s = Some w /\ ws (step s e) = Some w.
Proof.
  intros Hc Hc'.
  destruct e;
    try (exfalso; apply tame_step in Hc'; [congruence | discriminate | discriminate]).
  - cbn [step] in Hc'. rewrite connected_on_endpoint in Hc'. congruence.
  - exists w. split; [reflexivity|]. cbn [step] in *. unfold on_open in *.
    destruct (nth_error (socks s) w) as [i|]; [|congruence].
    destruct (open_once i); [|congruence].
    destruct (canonical w (upd_sock w clear_open_once s)) eqn:E.
    + rewrite ws_resolve_open. apply canonical_true in E. simpl in *. auto.
    + apply (tame_reject_open w ECancelled) in Hc'. simpl in Hc'. congruence.
Qed.

(** C5 (amended): an open attempt never promotes a socket that is not
    canonical.  What decides at the arrival of the endpoint is the value
    [pendingConnect] has at that moment, not what happened to it during the
    resolution.
    (1) When the endpoint arrives while [pendingConnect] is false, the attempt
    throws 'connection cancelled' into the loop's catch: no socket is
    created, the canonical socket and [connected] are unchanged, and the loop
    waits for its backoff timer.
    (2) When the endpoint arrives while [pendingConnect] is true, also after
    a [disconnect()] that a [connect()] has followed, the attempt goes on: one
    socket is created, it becomes the canonical one, and the loop waits for
    its 'open'.
    (3) When a socket opens that is not the canonical one, it is closed, the
    attempt is rejected with 'connection cancelled', [connected] and the
    canonical socket are unchanged, and whatever happens later, this socket is
    never canonical.
    (4) Any step that sets [connected] is the 'open' of the socket that is
    canonical before and after it. *)
Theorem C5_open_attempt_cancelled :
  forall (s : state) (p w : nat) (url : string) (i : sockinfo),
    (lookup_task p (tasks s) = Some AwaitEndpoint ->
     pendingConnect s = false ->
     let s' := step s (EvEndpoint p (Some url)) in
     socks s' = socks s /\ ws s' = ws s /\ connected s' = connected s /\
     emitted s s' = [FxCaught p ECancelled] /\
     lookup_task p (tasks s') = Some (AwaitBackoff (next_timer s))) /\
    (lookup_task p (tasks s) = Some AwaitEndpoint ->
     pendingConnect s = true ->
     let s' := step s (EvEndpoint p (Some url)) in
     socks s' = socks s ++ [new_sock url] /\
     ws s' = Some (List.length (socks s)) /\
     connected s' = connected s /\
     emitted s s' = [FxNewSocket (List.length (socks s)) url] /\
     lookup_task p (tasks s') = Some (AwaitOpen (List.length (socks s)))) /\
    (nth_error (socks s) w = Some i -> open_once i = true ->
     awaiting w (tasks s) = Some p ->
     ws s <> Some w ->
     let s' := step s (EvOpen w) in
     emitted s s' = [FxClose w; FxCaught p ECancelled] /\
     ws s' = ws s /\ connected s' = connected s /\
     lookup_task p (tasks s') = Some (AwaitBackoff (next_timer s)) /\
     forall evs, ws (run s' evs) <> Some w) /\
    (forall e, connected s = false -> connected (step s e) = true ->
               exists w', e = EvOpen w' /\ ws s = Some w' /\ ws (step s e) = Some w').
Proof.
  intros s p w url i. split; [|split; [|split]].
  - intros Htask Hpc s'. subst s'. cbn [step]. unfold on_endpoint.
    rewrite Htask, Hpc. unfold backoff. simpl.
    repeat split; try reflexivity.
    + apply emitted_app. reflexivity.
    + apply lookup_put_task.
  - intros Htask Hpc s'. subst s'. cbn [step]. unfold on_endpoint.
    rewrite Htask, Hpc. simpl.
    repeat split; try reflexivity.
    + apply emitted_app. reflexivity.
    + apply lookup_put_task.
  - intros Hsock Hopen Hawait Hstale s'.
    assert (Hs' : s' = backoff p ECancelled
                         (emit (FxClose w) (upd_sock w clear_open_once s))).
    { subst s'. cbn [step]. unfold on_open. rewrite Hsock, Hopen.
      assert (E : canonical w (upd_sock w clear_open_once s) = false).
      { apply canonical_false. exact Hstale. }
      rewrite E. unfold reject_open. cbn [tasks emit upd_sock set_trace set_socks].
      rewrite Hawait. reflexivity. }
    rewrite Hs'. unfold backoff. simpl.
    repeat split; try reflexivity.
    + apply emitted_app. simpl. rewrite <- app_assoc. reflexivity.
    + apply lookup_put_task.
    + intros evs. apply stale_forever.
      * simpl. rewrite length_upd_nth. apply nth_error_Some. congruence.
      * exact Hstale.
  - intros e. apply promoted_is_canonical.
Qed.

(** ** Message dispatch *)

Lemma decode_binary_long (bs : list byte) :
  (8 <= List.length bs)%nat ->
  decode (Binary bs) = Some (MBytes (skipn 8 bs), KNum (le_value (firstn 4 bs))).
Proof.
  intros Hlen. unfold decode.
  destruct (Nat.leb 8 (List.length bs)) eqn:E; [|apply Nat.leb_gt in E; lia].
  rewrite readUInt32LE_le_value by lia. reflexivity.
Qed.

Lemma decode_binary_short (bs : list byte) :
  (List.length bs < 8)%nat -> decode (Binary bs) = Some (MUndef, KUndef).
Proof.
  intros Hlen. unfold decode.
  destruct (Nat.leb 8 (List.length bs)) eqn:E; [apply Nat.leb_le in E; lia|].
  reflexivity.
Qed.

(** What the message listener does once the frame is decoded and a handler
    is registered. *)
Lemma on_message_decoded (d : frame) (m : message) (k : key) (h : nat)
      (out : outcome) (s : state) :
  decode d = Some (m, k) -> handler s = Some h ->
  on_message d out s =
    match out with
    | HThrows => emit (FxLog "error in agent message handler") (emit (FxHandler h m) s)
    | HValue v => then_delete k v (emit (FxHandler h m) s)
    | HPromise =>
        set_next_cont (S (next_cont s))
          (set_conts (conts s ++ [(next_cont s, k)]) (emit (FxHandler h m) s))
    end.
Proof.
  intros Hd Hh. unfold on_message. rewrite Hd, Hh. destruct out; reflexivity.
Qed.

Lemma on_message_calls_handler (d : frame) (m : message) (k : key) (h : nat)
      (out : outcome) (s : state) :
  decode d = Some (m, k) -> handler s = Some h ->
  exists rest, emitted s (on_message d out s) = FxHandler h m :: rest.
Proof.
  intros Hd Hh. rewrite (on_message_decoded d m k h out s Hd Hh).
  destruct out as [|[|]|].
  - exists [FxLog "error in agent message handler"]. apply emitted_app.
    simpl. rewrite <- app_assoc. reflexivity.
  - exists []. apply emitted_app. reflexivity.
  - exists []. apply emitted_app. reflexivity.
  - exists []. apply emitted_app. reflexivity.
Qed.

(** C8: for a binary frame of at least 8 bytes, the id is the little-endian
    unsigned 32-bit value of bytes [0..4), the registered handler is called
    with bytes [8..), a truthy result deletes that id from [pending], a
    promise is chained to a continuation that holds that id, and two frames
    that differ only in bytes [4..8) are dispatched alike. *)
Theorem C8_binary_frame_dispatch :
  forall (bs : list byte) (s : state) (h : nat),
    (8 <= List.length bs)%nat ->
    handler s = Some h ->
    let id := le_value (firstn 4 bs) in
    decode (Binary bs) = Some (MBytes (skipn 8 bs), KNum id) /\
    (0 <= id < 2 ^ 32)%Z /\
    (forall out, exists rest,
        emitted s (on_message (Binary bs) out s)
        = FxHandler h (MBytes (skipn 8 bs)) :: rest) /\
    pending (on_message (Binary bs) (HValue true) s)
    = pending_delete (KNum id) (pending s) /\
    conts (on_message (Binary bs) HPromise s)
    = conts s ++ [(next_cont s, KNum id)] /\
    (forall bs' out,
        (8 <= List.length bs')%nat ->
        firstn 4 bs' = firstn 4 bs -> skipn 8 bs' = skipn 8 bs ->
        on_message (Binary bs') out s = on_message (Binary bs) out s).
Proof.
  intros bs s h Hlen Hh id.
  pose proof (decode_binary_long bs Hlen) as Hd. fold id in Hd.
  split; [exact Hd|]. split; [apply le_value_uint32; lia|].
  split; [intros out; now apply on_message_calls_handler with (k := KNum id)|].
  split; [rewrite (on_message_decoded _ _ _ _ _ _ Hd Hh); reflexivity|].
  split; [rewrite (on_message_decoded _ _ _ _ _ _ Hd Hh); reflexivity|].
  intros bs' out Hlen' H4 H8. unfold on_message.
  rewrite Hd, (decode_binary_long bs' Hlen'), H4, H8. reflexivity.
Qed.

Lemma on_settle_stored (c : nat) (k : key) (r : option bool) (s : state) :
  lookup_cont c (conts s) = Some k ->
  on_settle c r s =
    let s1 := set_conts (filter (fun x => negb (Nat.eqb (fst x) c)) (conts s)) s in
    match r with
    | Some v => then_delete k v s1
    | None => emit FxUnhandled s1
    end.
Proof. intros H. unfold on_settle. rewrite H. reflexivity. Qed.

(** What the handler's result does to [pending]: a truthy value deletes the
    id, a falsy value keeps the table, and an exception thrown by the call
    is logged by the catch of line 93. *)
Lemma handler_result_dispatch (d : frame) (m : message) (k : key) (h : nat) (s : state) :
  decode d = Some (m, k) -> handler s = Some h ->
  pending (on_message d (HValue true) s) = pending_delete k (pending s) /\
  pending (on_message d (HValue false) s) = pending s /\
  pending (on_message d HThrows s) = pending s /\
  emitted s (on_message d HThrows s)
  = [FxHandler h m; FxLog "error in agent message handler"] /\
  conts (on_message d HPromise s) = conts s ++ [(next_cont s, k)] /\
  pending (on_message d HPromise s) = pending s.
Proof.
  intros Hd Hh. rewrite !(on_message_decoded d m k h _ s Hd Hh).
  repeat split; try reflexivity.
  apply emitted_app. simpl. rewrite <- app_assoc. reflexivity.
Qed.

(** The same for a promise: fulfilled with a truthy value it deletes the id,
    with a falsy value it keeps the table. *)
Lemma handler_promise_fulfilled (c : nat) (k : key) (s : state) :
  lookup_cont c (conts s) = Some k ->
  pending (on_settle c (Some true) s) = pending_delete k (pending s) /\
  pending (on_settle c (Some false) s) = pending s /\
  emitted s (on_settle c (Some true) s) = [] /\
  emitted s (on_settle c (Some false) s) = [].
Proof.
  intros H. rewrite !(on_settle_stored c k _ s H). cbv zeta.
  repeat split; try reflexivity; apply emitted_app; simpl;
    rewrite app_nil_r; reflexivity.
Qed.

(** C10: a binary frame shorter than 8 bytes is not dropped: the registered
    handler is called with [undefined], the id is [undefined], and whatever
    the handler does (throw, return a value, return a promise that is
    fulfilled or rejected at any later state), the entries of [pending] under
    a numeric key stay as they are. *)
Theorem C10_short_binary_frame :
  forall (bs : list byte) (s : state) (h : nat) (out : outcome),
    (List.length bs < 8)%nat ->
    handler s = Some h ->
    decode (Binary bs) = Some (MUndef, KUndef) /\
    (exists rest,
        emitted s (on_message (Binary bs) out s) = FxHandler h MUndef :: rest) /\
    filter is_num (pending (on_message (Binary bs) out s)) = filter is_num (pending s) /\
    conts (on_message (Binary bs) HPromise s) = conts s ++ [(next_cont s, KUndef)] /\
    (forall (s' : state) (c : nat) (r : option bool),
        lookup_cont c (conts s') = Some KUndef ->
        filter is_num (pending (on_settle c r s')) = filter is_num (pending s')).
Proof.
  intros bs s h out Hlen Hh.
  pose proof (decode_binary_short bs Hlen) as Hd.
  split; [exact Hd|].
  split; [now apply on_message_calls_handler with (k := KUndef)|].
  split.
  - rewrite (on_message_decoded _ _ _ _ out _ Hd Hh).
    destruct out as [|[|]|]; try reflexivity.
    cbn [then_delete pending set_pending emit set_trace].
    apply pending_delete_keeps_num. discriminate.
  - split; [rewrite (on_message_decoded _ _ _ _ _ _ Hd Hh); reflexivity|].
    intros s' c r Hc. rewrite (on_settle_stored c KUndef r s' Hc). cbv zeta.
    destruct r as [[|]|]; try reflexivity.
    cbn [then_delete pending set_pending set_conts].
    apply pending_delete_keeps_num. discriminate.
Qed.

(** ** Disconnecting *)

(** [_disconnect()] field by field. *)
Lemma _disconnect_spec (s : state) :
  _disconnect s =
  mkState false (pendingConnect s) None None (pending s) (connectPromise s) None
    (now s)
    (match _keepAliveTimeout s with
     | Some t => filter (fun x => negb (Nat.eqb (t_id x) t)) (timers s)
     | None => timers s
     end)
    (next_timer s) (socks s) (tasks s) (next_promise s) (resolved s) (conts s)
    (next_cont s)
    (match ws s with
     | Some w => trace s ++ [FxClose w]
     | None => trace s
     end).
Proof.
  destruct s as [c pc h w pd cp ka nw tm nt sk tk np rs ct nc tr].
  unfold _disconnect, _stopKeepAlive. simpl.
  destruct ka, w; reflexivity.
Qed.

Lemma find_filter_other (t : nat) (l : list timer) :
  find (fun x => Nat.eqb (t_id x) t)
       (filter (fun x => negb (Nat.eqb (t_id x) t)) l) = None.
Proof.
  induction l as [|x rest IH]; simpl; [reflexivity|].
  destruct (Nat.eqb (t_id x) t) eqn:E; simpl; [exact IH|].
  rewrite E. exact IH.
Qed.

Lemma emitted_self (s : state) : emitted s s = [].
Proof. apply emitted_app. rewrite app_nil_r. reflexivity. Qed.

Lemma fail_all_trace (e : err) (s : state) :
  trace (fail_all e s) = trace s ++ map (fun kc => FxCallback (snd kc) e) (pending s).
Proof. reflexivity. Qed.

(** ** The keep-alive *)

(** The 'open' of the canonical socket: the attempt succeeds, a ping is
    sent at once and the 10000 ms deadline is armed. *)
Lemma open_starts_keepalive (s : state) (w p : nat) (i : sockinfo) :
  nth_error (socks s) w = Some i -> open_once i = true ->
  ws s = Some w -> awaiting w (tasks s) = Some p ->
  connected (step s (EvOpen w)) = true /\
  emitted s (step s (EvOpen w)) = [FxPing w; FxResolved p] /\
  _keepAliveTimeout (step s (EvOpen w)) = Some (next_timer s) /\
  timers (step s (EvOpen w))
  = timers s ++ [mkTimer (next_timer s) (now s + 10000) (TDeadline w)] /\
  nth_error (socks (step s (EvOpen w))) w
  = Some (add_pong_once (add_error_on (clear_open_once i))).
Proof.
  intros Hsock Hopen Hws Hawait. cbn [step]. unfold on_open.
  rewrite Hsock, Hopen.
  assert (E : canonical w (upd_sock w clear_open_once s) = true).
  { apply canonical_true. exact Hws. }
  rewrite E. unfold resolve_open.
  cbn [tasks upd_sock set_socks]. rewrite Hawait.
  unfold _startKeepAlive.
  cbn [connected set_connected ws upd_sock set_socks]. rewrite Hws.
  unfold finish_loop. simpl.
  repeat split.
  - apply emitted_app. simpl. rewrite <- app_assoc. reflexivity.
  - apply nth_error_upd_nth_same. apply nth_error_upd_nth_same.
    apply nth_error_upd_nth_same. exact Hsock.
Qed.

(** A 'pong' of the canonical socket with one listener waiting: the deadline
    timer is cleared, no ping is sent in this step, and a 10000 ms timer is
    started whose firing runs [_startKeepAlive()]. *)
Lemma pong_canonical (s : state) (w t : nat) (i : sockinfo) :
  nth_error (socks s) w = Some i -> pong_once i = 1 ->
  ws s = Some w -> _keepAliveTimeout s = Some t ->
  _keepAliveTimeout (step s (EvPong w)) = None /\
  timers (step s (EvPong w))
  = filter (fun x => negb (Nat.eqb (t_id x) t)) (timers s)
    ++ [mkTimer (next_timer s) (now s + 10000) TIdle] /\
  emitted s (step s (EvPong w)) = [] /\
  connected (step s (EvPong w)) = connected s /\
  ws (step s (EvPong w)) = Some w.
Proof.
  intros Hsock Hn Hws Hka. cbn [step]. unfold on_pong. rewrite Hsock, Hn.
  cbn [iter]. unfold pong_listener.
  assert (E : canonical w (upd_sock w clear_pong_once s) = true).
  { apply canonical_true. exact Hws. }
  rewrite E. cbn [_keepAliveTimeout upd_sock set_socks]. rewrite Hka.
  simpl. repeat split; auto.
  apply emitted_app. simpl. rewrite app_nil_r. reflexivity.
Qed.

Lemma iter_fixed {A : Type} (f : A -> A) (x : A) (n : nat) :
  f x = x -> iter n f x = x.
Proof.
  intros H. induction n as [|n IH]; simpl; [reflexivity|].
  rewrite H. exact IH.
Qed.

(** A 'pong' of a socket that is not canonical only uses up the listeners. *)
Lemma pong_stale (s : state) (w : nat) (i : sockinfo) :
  nth_error (socks s) w = Some i -> ws s <> Some w ->
  step s (EvPong w) = upd_sock w clear_pong_once s.
Proof.
  intros Hsock Hstale. cbn [step]. unfold on_pong. rewrite Hsock.
  apply iter_fixed. unfold pong_listener.
  assert (E : canonical w (upd_sock w clear_pong_once s) = false).
  { apply canonical_false. exact Hstale. }
  rewrite E. reflexivity.
Qed.

(** A timer does nothing before it is due. *)
Lemma timer_not_due (s : state) (t : nat) (x : timer) :
  find_timer t s = Some x -> (now s < t_due x)%N -> step s (EvTimer t) = s.
Proof.
  intros Hfind Hlt. cbn [step]. unfold on_timer. rewrite Hfind.
  destruct (N.leb (t_due x) (now s)) eqn:E; [|reflexivity].
  apply N.leb_le in E. lia.
Qed.

(** The timer started by a 'pong' sends the next ping when it fires. *)
Lemma idle_timer_pings (s : state) (t w : nat) (x : timer) :
  find_timer t s = Some x -> t_act x = TIdle -> (t_due x <= now s)%N ->
  connected s = true -> ws s = Some w ->
  emitted s (step s (EvTimer t)) = [FxPing w].
Proof.
  intros Hfind Hact Hdue Hc Hws. cbn [step]. unfold on_timer. rewrite Hfind.
  apply N.leb_le in Hdue. rewrite Hdue, Hact. unfold _startKeepAlive.
  cbn [connected ws clearTimeout set_timers]. rewrite Hc, Hws.
  apply emitted_app. reflexivity.
Qed.

(** The deadline of the canonical socket fires. *)
Lemma deadline_canonical (s : state) (t w : nat) (x : timer) :
  find_timer t s = Some x -> t_act x = TDeadline w -> (t_due x <= now s)%N ->
  ws s = Some w ->
  emitted s (step s (EvTimer t))
  = FxLog "Netmon did not get a response to pong in 10 seconds, disconnecting."
      :: map (fun kc => FxCallback (snd kc) ETimeout) (pending s) ++ [FxClose w] /\
  pending (step s (EvTimer t)) = [] /\
  connected (step s (EvTimer t)) = false /\
  ws (step s (EvTimer t)) = None /\
  handler (step s (EvTimer t)) = None /\
  _keepAliveTimeout (step s (EvTimer t)) = None /\
  pendingConnect (step s (EvTimer t)) = pendingConnect s /\
  connectPromise (step s (EvTimer t)) = connectPromise s /\
  tasks (step s (EvTimer t)) = tasks s.
Proof.
  intros Hfind Hact Hdue Hws. cbn [step]. unfold on_timer. rewrite Hfind.
  apply N.leb_le in Hdue. rewrite Hdue, Hact. unfold on_deadline.
  assert (E : canonical w (clearTimeout t s) = true).
  { apply canonical_true. exact Hws. }
  rewrite E, _disconnect_spec.
  cbn [pending connected ws handler _keepAliveTimeout pendingConnect
       connectPromise tasks fail_all set_pending set_trace emit clearTimeout
       set_timers trace].
  rewrite Hws. repeat split.
  apply emitted_app. cbn [trace]. rewrite <- !app_assoc. reflexivity.
Qed.

(** The deadline of a socket that is not canonical only closes it. *)
Lemma deadline_stale (s : state) (t w : nat) (x : timer) :
  find_timer t s = Some x -> t_act x = TDeadline w -> (t_due x <= now s)%N ->
  ws s <> Some w ->
  step s (EvTimer t) = emit (FxClose w) (clearTimeout t s).
Proof.
  intros Hfind Hact Hdue Hstale. cbn [step]. unfold on_timer. rewrite Hfind.
  apply N.leb_le in Hdue. rewrite Hdue, Hact. unfold on_deadline.
  assert (E : canonical w (clearTimeout t s) = false).
  { apply canonical_false. exact Hstale. }
  rewrite E. reflexivity.
Qed.


(** The frame of the specification: id 42, any four bytes in [4..8), three
    payload bytes. *)
Example binary_id_42 (h4 h5 h6 h7 p1 p2 p3 : byte) :
  decode (Binary [x2a; x00; x00; x00; h4; h5; h6; h7; p1; p2; p3])
  = Some (MBytes [p1; p2; p3], KNum 42).
Proof. reflexivity. Qed.

(** ** The reconnect loop *)

Lemma run_app (s : state) (l1 l2 : list event) :
  run s (l1 ++ l2) = run (run s l1) l2.
Proof. unfold run. apply fold_left_app. Qed.

Lemma find_app_fresh (t : nat) (l : list timer) (x : timer) :
  (forall y, In y l -> t_id y < t) -> t_id x = t ->
  find (fun y => Nat.eqb (t_id y) t) (l ++ [x]) = Some x.
Proof.
  intros Hfresh Hx. induction l as [|y rest IH]; simpl.
  - rewrite Hx, Nat.eqb_refl. reflexivity.
  - destruct (Nat.eqb (t_id y) t) eqn:E.
    + apply Nat.eqb_eq in E. specialize (Hfresh y (or_introl eq_refl)). lia.
    + apply IH. intros z Hz. apply Hfresh. right. exact Hz.
Qed.

Lemma filter_fresh (t : nat) (l : list timer) (x : timer) :
  (forall y, In y l -> t_id y < t) -> t_id x = t ->
  filter (fun y => negb (Nat.eqb (t_id y) t)) (l ++ [x]) = l.
Proof.
  intros Hfresh Hx. induction l as [|y rest IH]; simpl.
  - rewrite Hx, Nat.eqb_refl. reflexivity.
  - destruct (Nat.eqb (t_id y) t) eqn:E.
    + apply Nat.eqb_eq in E. specialize (Hfresh y (or_introl eq_refl)). lia.
    + simpl. f_equal. apply IH. intros z Hz. apply Hfresh. right. exact Hz.
Qed.

(** A failed attempt: the error goes to the catch of the loop, which starts
    the 1000 ms wait; it is not passed to anyone else. *)
Lemma attempt_fails_then_backoff (s : state) (p : nat) :
  lookup_task p (tasks s) = Some AwaitEndpoint ->
  emitted s (step s (EvEndpoint p None)) = [FxCaught p EEndpoint] /\
  timers (step s (EvEndpoint p None))
  = timers s ++ [mkTimer (next_timer s) (now s + 1000) (TBackoff p)] /\
  lookup_task p (tasks (step s (EvEndpoint p None))) = Some (AwaitBackoff (next_timer s)) /\
  resolved (step s (EvEndpoint p None)) = resolved s.
Proof.
  intros Ht. cbn [step]. unfold on_endpoint. rewrite Ht. unfold backoff. simpl.
  repeat split.
  - apply emitted_app. reflexivity.
  - apply lookup_put_task.
Qed.

(** When the wait is over and [pendingConnect] is true, the loop makes its
    next attempt. *)
Lemma backoff_then_retry (s : state) (p t : nat) (x : timer) :
  find_timer t s = Some x -> t_act x = TBackoff p -> (t_due x <= now s)%N ->
  lookup_task p (tasks s) = Some (AwaitBackoff t) ->
  pendingConnect s = true ->
  step s (EvTimer t) = start_connect p (clearTimeout t s) /\
  emitted s (step s (EvTimer t)) = [FxEndpoint p] /\
  lookup_task p (tasks (step s (EvTimer t))) = Some AwaitEndpoint.
Proof.
  intros Hfind Hact Hdue Htask Hpc.
  assert (E : step s (EvTimer t) = start_connect p (clearTimeout t s)).
  { cbn [step]. unfold on_timer. rewrite Hfind.
    apply N.leb_le in Hdue. rewrite Hdue, Hact.
    cbn [tasks clearTimeout set_timers]. rewrite Htask, Nat.eqb_refl.
    unfold loop_head. cbn [pendingConnect clearTimeout set_timers]. rewrite Hpc.
    reflexivity. }
  rewrite E. split; [reflexivity|]. split.
  - apply emitted_app. reflexivity.
  - unfold start_connect. simpl. apply lookup_put_task.
Qed.

(** When the wait is over and [pendingConnect] is false, the loop ends: its
    promise resolves, and no error is raised. *)
Lemma backoff_then_cancelled (s : state) (p t : nat) (x : timer) :
  find_timer t s = Some x -> t_act x = TBackoff p -> (t_due x <= now s)%N ->
  lookup_task p (tasks s) = Some (AwaitBackoff t) ->
  pendingConnect s = false ->
  step s (EvTimer t) = finish_loop p (clearTimeout t s) /\
  emitted s (step s (EvTimer t)) = [FxResolved p] /\
  resolved (step s (EvTimer t)) = p :: resolved s /\
  connectPromise (step s (EvTimer t)) = None /\
  socks (step s (EvTimer t)) = socks s.
Proof.
  intros Hfind Hact Hdue Htask Hpc.
  assert (E : step s (EvTimer t) = finish_loop p (clearTimeout t s)).
  { cbn [step]. unfold on_timer. rewrite Hfind.
    apply N.leb_le in Hdue. rewrite Hdue, Hact.
    cbn [tasks clearTimeout set_timers]. rewrite Htask, Nat.eqb_refl.
    unfold loop_head. cbn [pendingConnect clearTimeout set_timers]. rewrite Hpc.
    reflexivity. }
  rewrite E. split; [reflexivity|]. repeat split.
  apply emitted_app. reflexivity.
Qed.

(** One failed attempt leaves the loop where it was, one second later. *)
Lemma fail_round_again (s : state) (p : nat) :
  tasks s = [(p, AwaitEndpoint)] -> pendingConnect s = true -> timers_fresh s ->
  let s' := run s (fail_round p (next_timer s)) in
  tasks s' = [(p, AwaitEndpoint)] /\ pendingConnect s' = true /\ timers_fresh s' /\
  next_timer s' = S (next_timer s) /\
  now s' = (now s + 1000)%N /\
  trace s' = trace s ++ [FxCaught p EEndpoint; FxEndpoint p] /\
  connected s' = connected s /\ socks s' = socks s /\ resolved s' = resolved s.
Proof.
  intros Ht Hpc Hfresh. unfold fail_round, run. cbn [fold_left].
  set (t := next_timer s).
  set (x := mkTimer t (now s + 1000) (TBackoff p)).
  (* the refused endpoint *)
  assert (E1 : step s (EvEndpoint p None) = backoff p EEndpoint s).
  { cbn [step]. unfold on_endpoint. rewrite Ht. cbn [lookup_task].
    rewrite Nat.eqb_refl. reflexivity. }
  rewrite E1.
  (* the second that passes *)
  set (s2 := step (backoff p EEndpoint s) (EvTick 1000)).
  assert (F : find_timer t s2 = Some x).
  { unfold find_timer. subst s2. cbn [step]. unfold backoff. simpl.
    apply find_app_fresh; [exact Hfresh | reflexivity]. }
  assert (T2 : lookup_task p (tasks s2) = Some (AwaitBackoff t)).
  { subst s2. cbn [step]. unfold backoff. simpl. apply lookup_put_task. }
  assert (D : (t_due x <= now s2)%N).
  { subst s2 x. cbn [step]. unfold backoff. simpl. lia. }
  assert (P2 : pendingConnect s2 = true).
  { subst s2. cbn [step]. unfold backoff. simpl. exact Hpc. }
  (* the timer *)
  destruct (backoff_then_retry s2 p t x F eq_refl D T2 P2) as (E3 & _).
  rewrite E3. subst s2. cbn [step]. unfold start_connect, backoff. simpl.
  rewrite Ht, put_task_single. fold t. cbn [put_task]. rewrite Nat.eqb_refl.
  repeat split.
  - exact Hpc.
  - unfold timers_fresh. cbn. fold x.
    rewrite (filter_fresh t (timers s) x Hfresh eq_refl).
    intros y Hy. specialize (Hfresh y Hy). fold t in Hfresh. lia.
  - rewrite <- app_assoc. reflexivity.
Qed.

(** There is no cap on the attempts: after any number n of failed attempts
    the loop is suspended in its next attempt, n seconds later, its promise
    still unresolved and no error passed to anyone. *)
Lemma retries_unbounded (n : nat) :
  forall (s : state) (p : nat),
    tasks s = [(p, AwaitEndpoint)] -> pendingConnect s = true -> timers_fresh s ->
    let s' := run s (fail_rounds p (next_timer s) n) in
    tasks s' = [(p, AwaitEndpoint)] /\ pendingConnect s' = true /\ timers_fresh s' /\
    now s' = (now s + 1000 * N.of_nat n)%N /\
    trace s' = trace s ++ fail_trace p n /\
    connected s' = connected s /\ socks s' = socks s /\ resolved s' = resolved s.
Proof.
  induction n as [|n IH]; intros s p Ht Hpc Hfresh.
  - cbn [fail_rounds run fold_left fail_trace]. rewrite app_nil_r.
    repeat split; auto. cbn. lia.
  - cbn [fail_rounds fail_trace]. cbv zeta. rewrite run_app.
    destruct (fail_round_again s p Ht Hpc Hfresh)
      as (A1 & A2 & A3 & A4 & A5 & A6 & A7 & A8 & A9).
    set (s1 := run s (fail_round p (next_timer s))) in *.
    rewrite <- A4.
    destruct (IH s1 p A1 A2 A3) as (B1 & B2 & B3 & B4 & B5 & B6 & B7 & B8).
    split; [exact B1|]. split; [exact B2|]. split; [exact B3|].
    split; [rewrite B4, A5; lia|].
    split; [rewrite B5, A6, <- app_assoc; reflexivity|].
    split; [congruence|]. split; congruence.
Qed.

Lemma nth_error_snoc {A : Type} (l : list A) (x : A) :
  nth_error (l ++ [x]) (List.length l) = Some x.
Proof.
  rewrite nth_error_app2 by lia. rewrite Nat.sub_diag. reflexivity.
Qed.

(** An attempt that succeeds ends the loop and resolves its promise. *)
Lemma attempt_succeeds (s : state) (p : nat) (url : string) :
  tasks s = [(p, AwaitEndpoint)] -> pendingConnect s = true ->
  let w := List.length (socks s) in
  let s' := run s [EvEndpoint p (Some url); EvOpen w] in
  connected s' = true /\ ws s' = Some w /\ tasks s' = [] /\
  connectPromise s' = None /\ resolved s' = p :: resolved s /\
  now s' = now s /\
  trace s' = trace s ++ [FxNewSocket w url; FxPing w; FxResolved p].
Proof.
  intros Ht Hpc w s'. subst s'. unfold run. cbn [fold_left].
  assert (E1 : step s (EvEndpoint p (Some url))
               = set_tasks [(p, AwaitOpen w)]
                   (set_ws (Some w)
                      (emit (FxNewSocket w url)
                         (set_socks (socks s ++ [new_sock url]) s)))).
  { cbn [step]. unfold on_endpoint. rewrite Ht. cbn [lookup_task].
    rewrite Nat.eqb_refl, Hpc. cbn [tasks set_ws emit set_trace set_socks].
    rewrite Ht, put_task_single. reflexivity. }
  rewrite E1. cbn [step]. unfold on_open.
  cbn [socks set_tasks set_ws emit set_trace set_socks].
  subst w. rewrite nth_error_snoc. cbn [open_once new_sock].
  unfold canonical. cbn [ws upd_sock set_socks set_tasks set_ws].
  rewrite Nat.eqb_refl. unfold resolve_open.
  cbn [tasks upd_sock set_socks set_tasks awaiting lstate_is_open].
  rewrite Nat.eqb_refl. unfold _startKeepAlive, finish_loop. simpl.
  rewrite Nat.eqb_refl. repeat split.
  rewrite <- !app_assoc. reflexivity.
Qed.

(** The scenario of the specification, for any number of failures: the
    endpoint is refused n times and then given; [connect()]'s promise resolves
    after n waits of one second, connected. *)
Lemma connect_after_failures (n : nat) (url : string) :
  let s' := run init (EvConnect :: fail_rounds 0 0 n
                        ++ [EvEndpoint 0 (Some url); EvOpen 0]) in
  fst (connect init) = Some 0 /\
  connected s' = true /\ resolved s' = [0] /\
  now s' = (1000 * N.of_nat n)%N /\
  trace s' = FxEndpoint 0 :: fail_trace 0 n ++ [FxNewSocket 0 url; FxPing 0; FxResolved 0].
Proof.
  cbv zeta. split; [reflexivity|].
  change (run init (EvConnect :: fail_rounds 0 0 n ++ [EvEndpoint 0 (Some url); EvOpen 0]))
    with (run (step init EvConnect)
              (fail_rounds 0 0 n ++ [EvEndpoint 0 (Some url); EvOpen 0])).
  set (s0 := step init EvConnect).
  assert (T0 : tasks s0 = [(0, AwaitEndpoint)]) by reflexivity.
  assert (P0 : pendingConnect s0 = true) by reflexivity.
  assert (F0 : timers_fresh s0) by (intros x []).
  rewrite run_app.
  destruct (retries_unbounded n s0 0 T0 P0 F0) as (A1 & A2 & _ & A4 & A5 & _ & A7 & A8).
  change (next_timer s0) with 0 in *.
  set (s1 := run s0 (fail_rounds 0 0 n)) in *.
  destruct (attempt_succeeds s1 0 url A1 A2) as (B1 & _ & _ & _ & B5 & B6 & B7).
  rewrite A7 in B1, B5, B6, B7. change (List.length (socks s0)) with 0 in *.
  split; [exact B1|]. split; [rewrite B5, A8; reflexivity|].
  split; [rewrite B6, A4; reflexivity|].
  rewrite B7, A5. reflexivity.
Qed.

(** While a loop is in flight, in a reachable state. *)
Lemma in_flight (s : state) (p : nat) (st : lstate) :
  reachable s -> In (p, st) (tasks s) ->
  tasks s = [(p, st)] /\ connectPromise s = Some p /\ connected s = false /\
  ~ In p (resolved s).
Proof.
  intros Hreach Hin.
  destruct (reachable_loop_inv s Hreach) as [_ Hloop].
  destruct Hloop as [Hnil | (p0 & st0 & Ht & Hcp & Hc & _ & Hnr)].
  - rewrite Hnil in Hin. destruct Hin.
  - rewrite Ht in Hin. destruct Hin as [Heq | []]. inversion Heq; subst p0 st0.
    auto.
Qed.

Lemma connected_startKeepAlive (s : state) :
  connected (_startKeepAlive s) = connected s.
Proof.
  unfold _startKeepAlive. destruct (connected s) eqn:E; [|exact E].
  destruct (ws s); simpl; exact E.
Qed.

Lemma resolved_reject_open (w : nat) (e : err) (s : state) :
  resolved (reject_open w e s) = resolved s.
Proof. unfold reject_open. destruct (awaiting w (tasks s)); reflexivity. Qed.

(** The promise of a loop in flight resolves only in a step that leaves the
    monitor connected, or in a step that found [pendingConnect] false: the
    errors of the attempts never reach it. *)
Lemma loop_resolves_connected_or_cancelled (s : state) (e : event) (p : nat) (st : lstate) :
  reachable s -> In (p, st) (tasks s) ->
  In p (resolved (step s e)) ->
  connected (step s e) = true \/ pendingConnect s = false.
Proof.
  intros Hreach Hin Hres.
  destruct (in_flight s p st Hreach Hin) as (Ht & Hcp & Hc & Hnr).
  assert (Hq : forall s', quiet s s' -> In p (resolved s') -> False).
  { intros s' (_ & _ & _ & Q4 & _) H. rewrite Q4 in H. auto. }
  destruct e; cbn [step] in *.
  - exfalso. rewrite (connect_joins s p Hc Hcp) in Hres. cbn in Hres. auto.
  - exfalso. rewrite (reconnect_joins s p Hc Hcp) in Hres. cbn in Hres. auto.
  - exfalso. eapply Hq; [apply quiet_disconnect | exact Hres].
  - exfalso. eapply Hq; [apply quiet_set_handler | exact Hres].
  - exfalso. eapply Hq; [apply quiet_set_pending | exact Hres].
  - exfalso. unfold on_endpoint in Hres.
    destruct (lookup_task p0 (tasks s)) as [[| |]|]; auto.
    destruct r; [destruct (pendingConnect s)|]; cbn in Hres; auto.
  - unfold on_open in *.
    destruct (nth_error (socks s) w) as [i|]; [|exfalso; auto].
    destruct (open_once i); [|exfalso; auto].
    destruct (canonical w (upd_sock w clear_open_once s)).
    + unfold resolve_open in *.
      destruct (awaiting w (tasks (upd_sock w add_error_on (upd_sock w clear_open_once s))));
        [|exfalso; cbn in Hres; auto].
      left. unfold finish_loop.
      cbn [connected emit set_trace set_resolved set_tasks set_connectPromise].
      rewrite connected_startKeepAlive. reflexivity.
    + exfalso. rewrite resolved_reject_open in Hres. cbn in Hres. auto.
  - exfalso. destruct (has_sock w s); auto.
    eapply Hq; [apply quiet_on_message | exact Hres].
  - exfalso. destruct (has_sock w s); auto.
    eapply Hq; [apply quiet_on_close | exact Hres].
  - exfalso. unfold on_error in Hres.
    destruct (nth_error (socks s) w) as [i|]; auto.
    destruct (error_once i || error_on i);
      [|eapply Hq; [apply quiet_emit | exact Hres]].
    set (s1 := if error_once i then drop_socket w (upd_sock w clear_error_once s) else s) in *.
    assert (Q1 : quiet s s1).
    { subst s1. destruct (error_once i); [|apply quiet_refl].
      eapply quiet_trans; [apply quiet_upd_sock | apply quiet_drop_socket]. }
    set (s2 := if error_on i
               then emit (FxLog "error in netmon socket")
                      (drop_socket w (fail_all (ETransport e) s1))
               else s1) in *.
    assert (Q2 : quiet s s2).
    { eapply quiet_trans; [exact Q1|].
      subst s2. destruct (error_on i); [|apply quiet_refl].
      eapply quiet_trans; [apply quiet_fail_all|].
      eapply quiet_trans; [apply quiet_drop_socket | apply quiet_emit]. }
    apply (Hq s2 Q2).
    destruct (error_once i); [|exact Hres].
    rewrite resolved_reject_open in Hres. exact Hres.
  - exfalso. eapply Hq; [apply quiet_on_pong | exact Hres].
  - exfalso. eapply Hq; [apply quiet_on_settle | exact Hres].
  - unfold on_timer in *.
    destruct (find_timer t s) as [x|]; [|exfalso; auto].
    destruct (N.leb (t_due x) (now s)); [|exfalso; auto].
    destruct (t_act x) as [p'|w|].
    + destruct (lookup_task p' (tasks (clearTimeout t s))) as [[| |t']|];
        try (exfalso; cbn in Hres; auto; fail).
      destruct (Nat.eqb t' t); [|exfalso; cbn in Hres; auto].
      unfold loop_head in Hres. cbn [pendingConnect clearTimeout set_timers] in Hres.
      destruct (pendingConnect s); [|right; reflexivity].
      exfalso. cbn in Hres. auto.
    + exfalso. eapply Hq; [|exact Hres].
      eapply quiet_trans; [apply quiet_clearTimeout | apply quiet_on_deadline].
    + exfalso. eapply Hq; [|exact Hres].
      eapply quiet_trans; [apply quiet_clearTimeout | apply quiet_startKeepAlive].
  - exfalso. eapply Hq; [apply quiet_set_now | exact Hres].
Qed.

(** ** A promise stored without a loop *)

Lemma stuck_quiet (s s' : state) : stuck s -> quiet s s' -> stuck s'.
Proof.
  intros (A & B & C) (Q1 & Q2 & _ & _ & Q5). repeat split; try congruence.
  destruct (connected s') eqn:E; [|reflexivity].
  rewrite (Q5 eq_refl) in C. discriminate.
Qed.

(** With a promise stored and no loop suspended, [connect()] and
    [reconnect()] return the stored promise and start nothing, and nothing
    clears the promise: no call and no callback connects the monitor. *)
Lemma stuck_step (s : state) (e : event) : stuck s -> stuck (step s e).
Proof.
  intros H. pose proof H as (Ht & Hcp & Hc).
  destruct (connectPromise s) as [p|] eqn:Ep; [clear Hcp | congruence].
  destruct e; cbn [step].
  - rewrite (connect_joins s p Hc Ep). cbn [snd].
    eapply stuck_quiet; [exact H | apply quiet_set_pendingConnect].
  - rewrite (reconnect_joins s p Hc Ep). exact H.
  - eapply stuck_quiet; [exact H | apply quiet_disconnect].
  - eapply stuck_quiet; [exact H | apply quiet_set_handler].
  - eapply stuck_quiet; [exact H | apply quiet_set_pending].
  - unfold on_endpoint. rewrite Ht. exact H.
  - unfold on_open. destruct (nth_error (socks s) w) as [i|]; [|exact H].
    destruct (open_once i); [|exact H].
    destruct (canonical w (upd_sock w clear_open_once s)).
    + unfold resolve_open. cbn [tasks upd_sock set_socks]. rewrite Ht.
      eapply stuck_quiet; [exact H|].
      eapply quiet_trans; apply quiet_upd_sock.
    + unfold reject_open. cbn [tasks emit set_trace upd_sock set_socks]. rewrite Ht.
      eapply stuck_quiet; [exact H|].
      eapply quiet_trans; [apply quiet_upd_sock | apply quiet_emit].
  - destruct (has_sock w s); [|exact H].
    eapply stuck_quiet; [exact H | apply quiet_on_message].
  - destruct (has_sock w s); [|exact H].
    eapply stuck_quiet; [exact H | apply quiet_on_close].
  - unfold on_error. destruct (nth_error (socks s) w) as [i|]; [|exact H].
    destruct (error_once i || error_on i);
      [|eapply stuck_quiet; [exact H | apply quiet_emit]].
    set (s1 := if error_once i then drop_socket w (upd_sock w clear_error_once s) else s).
    assert (Q1 : quiet s s1).
    { subst s1. destruct (error_once i); [|apply quiet_refl].
      eapply quiet_trans; [apply quiet_upd_sock | apply quiet_drop_socket]. }
    set (s2 := if error_on i
               then emit (FxLog "error in netmon socket")
                      (drop_socket w (fail_all (ETransport e) s1))
               else s1).
    assert (Q2 : quiet s s2).
    { eapply quiet_trans; [exact Q1|].
      subst s2. destruct (error_on i); [|apply quiet_refl].
      eapply quiet_trans; [apply quiet_fail_all|].
      eapply quiet_trans; [apply quiet_drop_socket | apply quiet_emit]. }
    pose proof (stuck_quiet s s2 H Q2) as H2.
    destruct (error_once i); [|exact H2].
    unfold reject_open. destruct H2 as (A & B & C). rewrite A.
    repeat split; assumption.
  - eapply stuck_quiet; [exact H | apply quiet_on_pong].
  - eapply stuck_quiet; [exact H | apply quiet_on_settle].
  - unfold on_timer. destruct (find_timer t s) as [x|]; [|exact H].
    destruct (N.leb (t_due x) (now s)); [|exact H].
    pose proof (stuck_quiet s _ H (quiet_clearTimeout t s)) as H1.
    destruct (t_act x) as [p'|w|].
    + cbn [tasks clearTimeout set_timers]. rewrite Ht. exact H1.
    + eapply stuck_quiet; [exact H1 | apply quiet_on_deadline].
    + eapply stuck_quiet; [exact H1 | apply quiet_startKeepAlive].
  - eapply stuck_quiet; [exact H | apply quiet_set_now].
Qed.

Lemma stuck_run (evs : list event) : forall s, stuck s -> stuck (run s evs).
Proof.
  induction evs as [|e evs IH]; intros s H; simpl; [exact H|].
  apply IH. now apply stuck_step.
Qed.

(** [reconnect()] with [pendingConnect] false, no promise stored and no
    loop suspended leaves the monitor stuck: the loop ends before its promise
    is stored. *)
Lemma reconnect_sticks (s : state) :
  pendingConnect s = false -> connectPromise s = None -> tasks s = [] ->
  stuck (snd (reconnect s)) /\
  fst (reconnect s) = next_promise (snd (reconnect s)) - 1 /\
  In (fst (reconnect s)) (resolved (snd (reconnect s))).
Proof.
  intros Hpc Hcp Ht. unfold reconnect.
  set (s1 := if connected s then disconnect s else s).
  assert (P1 : pendingConnect s1 = false).
  { subst s1. destruct (connected s); [|exact Hpc].
    unfold disconnect. rewrite _disconnect_spec. reflexivity. }
  assert (C1 : connectPromise s1 = None /\ tasks s1 = [] /\ connected s1 = false).
  { subst s1. destruct (connected s) eqn:E; [|auto].
    unfold disconnect. rewrite _disconnect_spec. cbn. auto. }
  destruct C1 as (C1 & T1 & K1). rewrite C1. cbn [fst snd].
  unfold loop_head. cbn [pendingConnect set_next_promise]. rewrite P1.
  unfold finish_loop, stuck. cbn. rewrite T1. repeat split.
  - discriminate.
  - exact K1.
  - lia.
  - left. reflexivity.
Qed.

(** ** After the connection is lost *)

Lemma dormant_canonical (s : state) (w : nat) : dormant s -> canonical w s = false.
Proof. intros (_ & _ & _ & Hws). unfold canonical. rewrite Hws. reflexivity. Qed.

Lemma dormant_fields (s s' : state) :
  dormant s ->
  tasks s' = tasks s -> timers s' = timers s -> connected s' = connected s ->
  ws s' = ws s -> dormant s'.
Proof. unfold dormant. intros (A & B & C & D) E F G H. repeat split; congruence. Qed.

Lemma dormant_disconnect_ (s : state) : dormant s -> dormant (_disconnect s).
Proof.
  intros (A & B & C & D). rewrite _disconnect_spec. unfold dormant. cbn.
  rewrite B. repeat split; auto. destruct (_keepAliveTimeout s); reflexivity.
Qed.

Lemma dormant_drop_socket (s : state) (w : nat) : dormant s -> dormant (drop_socket w s).
Proof.
  intros H. unfold drop_socket. rewrite (dormant_canonical s w H).
  apply (dormant_fields s); auto.
Qed.

(** Once nothing is in progress, no callback of the run time starts
    anything: only a call of the user does. *)
Lemma dormant_step (s : state) (e : event) :
  dormant s -> is_call e = false -> dormant (step s e).
Proof.
  intros H Hcall. pose proof H as (Ht & Htm & Hc & Hws).
  destruct e; try discriminate; cbn [step].
  - unfold on_endpoint. rewrite Ht. exact H.
  - unfold on_open. destruct (nth_error (socks s) w) as [i|]; [|exact H].
    destruct (open_once i); [|exact H].
    assert (H1 : dormant (upd_sock w clear_open_once s))
      by (apply (dormant_fields s); auto).
    rewrite (dormant_canonical _ w H1). unfold reject_open.
    cbn [tasks emit set_trace upd_sock set_socks]. rewrite Ht.
    apply (dormant_fields s); auto.
  - destruct (has_sock w s); [|exact H].
    unfold on_message, then_delete. destruct (decode data) as [[m k]|].
    + destruct (handler s); [|exact H].
      destruct out as [|[|]|]; apply (dormant_fields s); auto.
    + apply (dormant_fields s); auto.
  - destruct (has_sock w s); [|exact H].
    unfold on_close. apply dormant_disconnect_. apply (dormant_fields s); auto.
  - unfold on_error. destruct (nth_error (socks s) w) as [i|]; [|exact H].
    destruct (error_once i || error_on i); [|apply (dormant_fields s); auto].
    set (s1 := if error_once i then drop_socket w (upd_sock w clear_error_once s) else s).
    assert (H1 : dormant s1).
    { subst s1. destruct (error_once i); [|exact H].
      apply dormant_drop_socket. apply (dormant_fields s); auto. }
    set (s2 := if error_on i
               then emit (FxLog "error in netmon socket")
                      (drop_socket w (fail_all (ETransport e) s1))
               else s1).
    assert (H2 : dormant s2).
    { subst s2. destruct (error_on i); [|exact H1].
      assert (H3 : dormant (drop_socket w (fail_all (ETransport e) s1))).
      { apply dormant_drop_socket. destruct H1 as (A & B & C & D).
        repeat split; assumption. }
      destruct H3 as (A & B & C & D). repeat split; assumption. }
    destruct (error_once i); [|exact H2].
    unfold reject_open. destruct H2 as (A & B & C & D). rewrite A.
    repeat split; assumption.
  - unfold on_pong. destruct (nth_error (socks s) w) as [i|]; [|exact H].
    assert (H1 : dormant (upd_sock w clear_pong_once s))
      by (apply (dormant_fields s); auto).
    rewrite iter_fixed; [exact H1|].
    unfold pong_listener. rewrite (dormant_canonical _ w H1). reflexivity.
  - unfold on_settle, then_delete. destruct (lookup_cont c (conts s)); [|exact H].
    destruct r as [[|]|]; apply (dormant_fields s); auto.
  - unfold on_timer, find_timer. rewrite Htm. exact H.
  - apply (dormant_fields s); auto.
Qed.

Lemma dormant_run (evs : list event) :
  forall s, dormant s -> forallb (fun e => negb (is_call e)) evs = true ->
            dormant (run s evs).
Proof.
  induction evs as [|e evs IH]; intros s H Hall; simpl; [exact H|].
  simpl in Hall. apply andb_true_iff in Hall. destruct Hall as [He Hall].
  apply IH; [|exact Hall]. apply dormant_step; [exact H|].
  destruct (is_call e); [discriminate | reflexivity].
Qed.


(** * Further properties of the monitor *)

(** ** Steps that keep or drop the connection *)

Lemma gentle_refl (s : state) : gentle s s.
Proof.
  unfold gentle. repeat split; auto; try congruence.
  intros w i H. exists i. auto.
Qed.

Lemma gentle_trans (s1 s2 s3 : state) : gentle s1 s2 -> gentle s2 s3 -> gentle s1 s3.
Proof.
  intros (A1 & B1 & C1 & D1 & E1 & F1) (A2 & B2 & C2 & D2 & E2 & F2).
  unfold gentle. split; [|split; [|split; [|split; [|split]]]].
  - intros H. destruct (A2 H) as [H2 W2]. destruct (A1 H2) as [H1 W1].
    split; congruence.
  - intros H1 H3.
    assert (Hd : connected s2 = true \/ connected s2 = false)
      by (destruct (connected s2); auto).
    destruct Hd as [E | E].
    + apply B2; auto.
    + destruct (B1 H1 E) as (h & w & k). split; [auto|]. split.
      * destruct (ws s3) as [x|] eqn:W; [|reflexivity].
        rewrite (D2 x eq_refl) in w. discriminate.
      * destruct (_keepAliveTimeout s3) as [t|] eqn:K; [|reflexivity].
        assert (N3 : Some t <> None) by discriminate.
        destruct (E2 N3) as [[N _] | T]; congruence.
  - auto.
  - auto.
  - intros H. destruct (E2 H) as [[N Q] | T]; [|auto].
    destruct (E1 N) as [[N' Q'] | T'].
    + left. split; congruence.
    + right. congruence.
  - intros w i H. destruct (F1 w i H) as (i' & H' & O & R).
    destruct (F2 w i' H') as (i'' & H'' & O' & R').
    exists i''. auto.
Qed.

Lemma nth_error_upd_nth {A : Type} (f : A -> A) (l : list A) (n m : nat) (x : A) :
  nth_error l m = Some x ->
  nth_error (upd_nth n f l) m = Some (if Nat.eqb n m then f x else x).
Proof.
  intros H. destruct (Nat.eqb n m) eqn:E.
  - apply Nat.eqb_eq in E. subst m. now apply nth_error_upd_nth_same.
  - apply Nat.eqb_neq in E. rewrite nth_error_upd_nth_other; auto.
Qed.

(** Steps that touch neither the connection nor the sockets. *)
Lemma gentle_same (s s' : state) :
  connected s' = connected s -> handler s' = handler s -> ws s' = ws s ->
  _keepAliveTimeout s' = _keepAliveTimeout s -> socks s' = socks s ->
  gentle s s'.
Proof.
  intros Hc Hh Hw Hk Hs. unfold gentle. rewrite Hc, Hh, Hw, Hk, Hs.
  apply gentle_refl.
Qed.

Lemma gentle_upd_sock (w : nat) (f : sockinfo -> sockinfo) (s : state) :
  keeps_opened f -> gentle s (upd_sock w f s).
Proof.
  intros Hf. unfold gentle. cbn. repeat split; auto; try congruence.
  intros m i H. rewrite (nth_error_upd_nth f _ w m i H).
  destruct (Nat.eqb w m); [|exists i; auto].
  exists (f i). destruct (Hf i). auto.
Qed.

Lemma keeps_clear_open_once : keeps_opened clear_open_once.
Proof. intros i. cbn. auto. Qed.
Lemma keeps_clear_error_once : keeps_opened clear_error_once.
Proof. intros i. cbn. auto. Qed.
Lemma keeps_add_error_on : keeps_opened add_error_on.
Proof. intros i. cbn. auto. Qed.
Lemma keeps_add_pong_once : keeps_opened add_pong_once.
Proof. intros i. cbn. auto. Qed.
Lemma keeps_clear_pong_once : keeps_opened clear_pong_once.
Proof. intros i. cbn. auto. Qed.

Lemma gentle_emit (e : effect) (s : state) : gentle s (emit e s).
Proof. apply gentle_same; reflexivity. Qed.

Lemma gentle_fail_all (e : err) (s : state) : gentle s (fail_all e s).
Proof. apply gentle_same; reflexivity. Qed.

Lemma gentle_clearTimeout (t : nat) (s : state) : gentle s (clearTimeout t s).
Proof. apply gentle_same; reflexivity. Qed.

Lemma gentle_disconnect_ (s : state) : gentle s (_disconnect s).
Proof.
  rewrite _disconnect_spec. unfold gentle. cbn.
  repeat split; auto; try congruence; try discriminate.
  intros w i H. exists i. auto.
Qed.

Lemma gentle_disconnect (s : state) : gentle s (disconnect s).
Proof.
  unfold disconnect. eapply gentle_trans; [|apply gentle_disconnect_].
  apply gentle_same; reflexivity.
Qed.

Lemma gentle_startKeepAlive (s : state) : gentle s (_startKeepAlive s).
Proof.
  unfold _startKeepAlive. destruct (connected s) eqn:Hc; [|apply gentle_refl].
  destruct (ws s) as [w|] eqn:Hw; [|apply gentle_emit].
  unfold gentle. cbn. rewrite Hc, Hw.
  repeat split; auto; try congruence.
  intros m i H. rewrite (nth_error_upd_nth add_pong_once _ w m i H).
  destruct (Nat.eqb w m); [exists (add_pong_once i) | exists i]; auto.
Qed.

Lemma gentle_drop_socket (w : nat) (s : state) : gentle s (drop_socket w s).
Proof.
  unfold drop_socket. destruct (canonical w s);
    [apply gentle_disconnect_ | apply gentle_emit].
Qed.

Lemma gentle_backoff (p : nat) (e : err) (s : state) : gentle s (backoff p e s).
Proof. apply gentle_same; reflexivity. Qed.

Lemma gentle_loop_head (p : nat) (s : state) : gentle s (loop_head p s).
Proof.
  unfold loop_head. destruct (pendingConnect s); apply gentle_same; reflexivity.
Qed.

Lemma gentle_reject_open (w : nat) (e : err) (s : state) : gentle s (reject_open w e s).
Proof.
  unfold reject_open. destruct (awaiting w (tasks s));
    [apply gentle_backoff | apply gentle_refl].
Qed.

Lemma gentle_reconnect (s : state) : gentle s (snd (reconnect s)).
Proof.
  unfold reconnect.
  set (s1 := if connected s then disconnect s else s).
  assert (Q1 : gentle s s1).
  { subst s1. destruct (connected s); [apply gentle_disconnect | apply gentle_refl]. }
  destruct (connectPromise s1); [exact Q1|].
  eapply gentle_trans; [exact Q1|]. cbn [snd].
  apply gentle_trans
    with (loop_head (next_promise s1) (set_next_promise (S (next_promise s1)) s1)).
  - eapply gentle_trans; [|apply gentle_loop_head]. apply gentle_same; reflexivity.
  - apply gentle_same; reflexivity.
Qed.

Lemma gentle_connect (s : state) : gentle s (snd (connect s)).
Proof.
  unfold connect.
  assert (Q1 : gentle s (set_pendingConnect true s)) by (apply gentle_same; reflexivity).
  destruct (connected (set_pendingConnect true s)); [exact Q1|].
  pose proof (gentle_reconnect (set_pendingConnect true s)) as H.
  destruct (reconnect (set_pendingConnect true s)) as [p s'].
  eapply gentle_trans; [exact Q1 | exact H].
Qed.

Lemma gentle_on_message (d : frame) (out : outcome) (s : state) :
  gentle s (on_message d out s).
Proof.
  unfold on_message, then_delete. destruct (decode d) as [[m k]|]; [|apply gentle_emit].
  destruct (handler s); [|apply gentle_refl].
  destruct out as [|[|]|]; apply gentle_same; reflexivity.
Qed.

Lemma gentle_on_settle (c : nat) (r : option bool) (s : state) :
  gentle s (on_settle c r s).
Proof.
  unfold on_settle, then_delete. destruct (lookup_cont c (conts s)); [|apply gentle_refl].
  destruct r as [[|]|]; apply gentle_same; reflexivity.
Qed.

Lemma gentle_on_close (reason : string) (s : state) : gentle s (on_close reason s).
Proof.
  unfold on_close. eapply gentle_trans; [apply gentle_fail_all | apply gentle_disconnect_].
Qed.

Lemma gentle_on_deadline (w : nat) (s : state) : gentle s (on_deadline w s).
Proof.
  unfold on_deadline. destruct (canonical w s); [|apply gentle_emit].
  eapply gentle_trans; [|apply gentle_disconnect_].
  eapply gentle_trans; [apply gentle_emit | apply gentle_fail_all].
Qed.

Lemma gentle_pong_listener (w : nat) (s : state) : gentle s (pong_listener w s).
Proof.
  unfold pong_listener. destruct (canonical w s); [|apply gentle_refl].
  unfold gentle. destruct (_keepAliveTimeout s); cbn;
    repeat split; auto; try congruence;
    intros m i H; exists i; auto.
Qed.

Lemma gentle_iter (f : state -> state) (n : nat) :
  (forall s, gentle s (f s)) -> forall s, gentle s (iter n f s).
Proof.
  intros Hf. induction n as [|n IH]; intros s; simpl.
  - apply gentle_refl.
  - eapply gentle_trans; [apply Hf | apply IH].
Qed.

Lemma gentle_on_pong (w : nat) (s : state) : gentle s (on_pong w s).
Proof.
  unfold on_pong. destruct (nth_error (socks s) w); [|apply gentle_refl].
  eapply gentle_trans; [apply gentle_upd_sock, keeps_clear_pong_once|].
  apply gentle_iter. apply gentle_pong_listener.
Qed.

Lemma gentle_on_error (w : nat) (e : string) (s : state) : gentle s (on_error w e s).
Proof.
  unfold on_error.
  destruct (nth_error (socks s) w) as [i|]; [|apply gentle_refl].
  destruct (error_once i || error_on i); [|apply gentle_emit].
  set (s1 := if error_once i then drop_socket w (upd_sock w clear_error_once s) else s).
  assert (Q1 : gentle s s1).
  { subst s1. destruct (error_once i); [|apply gentle_refl].
    eapply gentle_trans; [apply gentle_upd_sock, keeps_clear_error_once|].
    apply gentle_drop_socket. }
  set (s2 := if error_on i
             then emit (FxLog "error in netmon socket")
                    (drop_socket w (fail_all (ETransport e) s1))
             else s1).
  assert (Q2 : gentle s1 s2).
  { subst s2. destruct (error_on i); [|apply gentle_refl].
    eapply gentle_trans; [apply gentle_fail_all|].
    eapply gentle_trans; [apply gentle_drop_socket | apply gentle_emit]. }
  assert (Q : gentle s s2) by (eapply gentle_trans; [exact Q1 | exact Q2]).
  destruct (error_once i); [|exact Q].
  eapply gentle_trans; [exact Q | apply gentle_reject_open].
Qed.

Lemma gentle_on_timer (t : nat) (s : state) : gentle s (on_timer t s).
Proof.
  unfold on_timer.
  destruct (find_timer t s) as [x|]; [|apply gentle_refl].
  destruct (N.leb (t_due x) (now s)); [|apply gentle_refl].
  eapply gentle_trans; [apply gentle_clearTimeout|].
  destruct (t_act x) as [p|w|].
  - destruct (lookup_task p (tasks (clearTimeout t s))) as [st|]; [|apply gentle_refl].
    destruct st; try apply gentle_refl.
    destruct (Nat.eqb t0 t); [apply gentle_loop_head | apply gentle_refl].
  - apply gentle_on_deadline.
  - apply gentle_startKeepAlive.
Qed.

(** The 'open' of a socket that is not promoted. *)
Lemma gentle_on_open_rejected (w : nat) (s : state) :
  canonical w s = false -> gentle s (on_open w s).
Proof.
  intros Hc. unfold on_open.
  destruct (nth_error (socks s) w) as [i|]; [|apply gentle_refl].
  destruct (open_once i); [|apply gentle_refl].
  assert (E : canonical w (upd_sock w clear_open_once s) = false) by exact Hc.
  rewrite E.
  eapply gentle_trans; [apply gentle_upd_sock, keeps_clear_open_once|].
  eapply gentle_trans; [apply gentle_emit | apply gentle_reject_open].
Qed.

(** Every step is gentle but the three that register a handler, create a
    socket and promote one. *)
Lemma gentle_step (s : state) (e : event) :
  (forall h, e <> EvHandleMessage h) ->
  (forall p r, e <> EvEndpoint p r) -> (forall w, e <> EvOpen w) ->
  gentle s (step s e).
Proof.
  intros Hh Hne Hno. destruct e; cbn [step].
  - apply gentle_connect.
  - apply gentle_reconnect.
  - apply gentle_disconnect.
  - exfalso. eapply Hh. reflexivity.
  - apply gentle_same; reflexivity.
  - exfalso. eapply Hne. reflexivity.
  - exfalso. eapply Hno. reflexivity.
  - destruct (has_sock w s); [apply gentle_on_message | apply gentle_refl].
  - destruct (has_sock w s); [apply gentle_on_close | apply gentle_refl].
  - apply gentle_on_error.
  - apply gentle_on_pong.
  - apply gentle_on_settle.
  - apply gentle_on_timer.
  - apply gentle_same; reflexivity.
Qed.

Lemma connected_resolve_open (w : nat) (s : state) :
  connected s = true -> connected (resolve_open w s) = true.
Proof.
  intros H. unfold resolve_open. destruct (awaiting w (tasks s)); [|exact H].
  unfold finish_loop.
  cbn [connected emit set_trace set_resolved set_tasks set_connectPromise].
  rewrite connected_startKeepAlive. reflexivity.
Qed.

Lemma connected_on_open (w : nat) (s : state) :
  connected s = true -> connected (on_open w s) = true.
Proof.
  intros H. unfold on_open.
  destruct (nth_error (socks s) w) as [i|]; [|exact H].
  destruct (open_once i); [|exact H].
  destruct (canonical w (upd_sock w clear_open_once s)).
  - apply connected_resolve_open. exact H.
  - unfold reject_open.
    destruct (awaiting w (tasks (emit (FxClose w) (upd_sock w clear_open_once s))));
      exact H.
Qed.

(** X2. Whatever ends a connection (a call of [disconnect()] or
    [reconnect()], the 'close' or 'error' of a socket, the keep-alive
    deadline) also clears the registered handler, the socket reference and the
    stored deadline: a handler does not survive the connection it was
    registered on. *)
Theorem connection_lost_clears_handler :
  forall (s : state) (e : event),
    connected s = true -> connected (step s e) = false ->
    handler (step s e) = None /\ ws (step s e) = None /\
    _keepAliveTimeout (step s e) = None.
Proof.
  intros s e Hc Hc'.
  destruct e;
    try (apply gentle_step; [discriminate | discriminate | discriminate | exact Hc | exact Hc']).
  - cbn [step handleMessage connected set_handler] in Hc'. congruence.
  - cbn [step] in Hc'. rewrite connected_on_endpoint in Hc'. congruence.
  - cbn [step] in Hc'. rewrite (connected_on_open w s Hc) in Hc'. discriminate.
Qed.

(** ** The connection and its socket *)

Lemma link_inv_init : link_inv init.
Proof.
  unfold link_inv. cbn. repeat split; try discriminate. congruence.
Qed.

Lemma link_inv_gentle (s s' : state) : link_inv s -> gentle s s' -> link_inv s'.
Proof.
  intros (K0 & K1 & K2) (A & B & C & D & E & F). unfold link_inv.
  split; [|split].
  - intros w Hw. destruct (K0 w (D w Hw)) as [i Hi].
    destruct (F w i Hi) as (i' & Hi' & _). eauto.
  - intros Hc. destruct (A Hc) as [Hc0 Hw].
    destruct (K1 Hc0) as (w & i & Hws & Hi & Ho & He).
    destruct (F w i Hi) as (i' & Hi' & O & R).
    exists w, i'. rewrite Hw. repeat split; auto.
  - intros Hk. destruct (E Hk) as [[N Q] | T]; [|exact T].
    rewrite Q. auto.
Qed.

Lemma link_inv_on_endpoint (p : nat) (r : option string) (s : state) :
  loop_inv s -> link_inv s -> link_inv (on_endpoint p r s).
Proof.
  intros Hloop Hlink. unfold on_endpoint.
  destruct (lookup_task p (tasks s)) as [st|] eqn:E; [|exact Hlink].
  destruct st; try exact Hlink.
  destruct r as [url|];
    [|eapply link_inv_gentle; [exact Hlink | apply gentle_backoff]].
  destruct (pendingConnect s);
    [|eapply link_inv_gentle; [exact Hlink | apply gentle_backoff]].
  assert (Hc : connected s = false).
  { destruct Hloop as [_ [Hnil | (p0 & st0 & _ & _ & Hc & _)]]; [|exact Hc].
    rewrite Hnil in E. discriminate. }
  destruct Hlink as (K0 & K1 & K2). unfold link_inv. cbn. split; [|split].
  - intros w Hw. inversion Hw; subst w. exists (new_sock url). apply nth_error_snoc.
  - intros H. congruence.
  - intros H. apply K2 in H. congruence.
Qed.

Lemma link_inv_on_open (w : nat) (s : state) : link_inv s -> link_inv (on_open w s).
Proof.
  intros Hlink.
  destruct (canonical w s) eqn:Hcan;
    [|eapply link_inv_gentle; [exact Hlink | now apply gentle_on_open_rejected]].
  unfold on_open. destruct (nth_error (socks s) w) as [i|] eqn:Hi; [|exact Hlink].
  destruct (open_once i); [|exact Hlink].
  assert (E : canonical w (upd_sock w clear_open_once s) = true) by exact Hcan.
  rewrite E.
  set (s1 := upd_sock w add_error_on (upd_sock w clear_open_once s)).
  assert (G1 : gentle s s1).
  { eapply gentle_trans; apply gentle_upd_sock;
      [apply keeps_clear_open_once | apply keeps_add_error_on]. }
  unfold resolve_open. destruct (awaiting w (tasks s1)) as [p|];
    [|eapply link_inv_gentle; [exact Hlink | exact G1]].
  assert (L1 : link_inv (set_connected true s1)).
  { apply canonical_true in Hcan. unfold link_inv. cbn. split; [|split].
    - intros x Hx. destruct Hlink as (K0 & _). destruct (K0 x Hx) as [j Hj].
      destruct G1 as (_ & _ & _ & _ & _ & F). destruct (F x j Hj) as (j' & Hj' & _).
      exists j'. exact Hj'.
    - intros _. exists w, (add_error_on (clear_open_once i)).
      split; [exact Hcan|]. split; [|split; reflexivity].
      apply nth_error_upd_nth_same. apply nth_error_upd_nth_same. exact Hi.
    - intros _. reflexivity. }
  eapply link_inv_gentle; [exact L1|].
  eapply gentle_trans; [apply gentle_startKeepAlive|].
  apply gentle_same; reflexivity.
Qed.

Lemma link_inv_step (s : state) (e : event) :
  loop_inv s -> link_inv s -> link_inv (step s e).
Proof.
  intros Hloop Hlink.
  destruct e;
    try (eapply link_inv_gentle; [exact Hlink|];
         apply gentle_step; discriminate).
  - cbn [step handleMessage]. destruct Hlink as (K0 & K1 & K2).
    unfold link_inv. cbn. auto.
  - now apply link_inv_on_endpoint.
  - now apply link_inv_on_open.
Qed.

Lemma reachable_link_inv (s : state) : reachable s -> link_inv s.
Proof.
  induction 1 as [|s e Hs IH]; [apply link_inv_init|].
  apply link_inv_step; [now apply reachable_loop_inv | exact IH].
Qed.

(** X1. In every state the class can reach: while [connected] is true the
    socket reference holds a socket whose 'open' has been handled and whose
    'error' listener is registered; without a socket reference the monitor is
    not connected; and a keep-alive deadline is stored only while connected. *)
Theorem connected_has_opened_socket :
  forall s : state,
    reachable s ->
    (connected s = true ->
     exists w i, ws s = Some w /\ nth_error (socks s) w = Some i /\
                 open_once i = false /\ error_on i = true) /\
    (ws s = None -> connected s = false) /\
    (_keepAliveTimeout s <> None -> connected s = true).
Proof.
  intros s Hr. destruct (reachable_link_inv s Hr) as (K0 & K1 & K2).
  split; [exact K1|]. split; [|exact K2].
  intros Hw. destruct (connected s) eqn:E; [|reflexivity].
  destruct (K1 eq_refl) as (w & _ & Hws & _). congruence.
Qed.

(** ** The listeners, event by event *)

(** X3. The 'close' event of any socket of the monitor, canonical or not:
    every pending callback is called once, in the order of the table, with
    'disconnected <reason>'; the table is emptied; whatever socket is
    canonical is closed and forgotten; the handler and the stored deadline are
    cleared.  [pendingConnect], the stored promise and the suspended loop are
    left alone: the listener starts no reconnection. *)
Theorem close_event_fails_pending_and_disconnects :
  forall (s : state) (w : nat) (reason : string),
    has_sock w s = true ->
    emitted s (step s (EvClose w reason))
    = map (fun kc => FxCallback (snd kc) (EDisconnected reason)) (pending s)
      ++ match ws s with Some c => [FxClose c] | None => [] end /\
    pending (step s (EvClose w reason)) = [] /\
    connected (step s (EvClose w reason)) = false /\
    ws (step s (EvClose w reason)) = None /\
    handler (step s (EvClose w reason)) = None /\
    _keepAliveTimeout (step s (EvClose w reason)) = None /\
    pendingConnect (step s (EvClose w reason)) = pendingConnect s /\
    connectPromise (step s (EvClose w reason)) = connectPromise s /\
    tasks (step s (EvClose w reason)) = tasks s.
Proof.
  intros s w reason Hw. cbn [step]. rewrite Hw. unfold on_close.
  rewrite _disconnect_spec. cbn.
  repeat split. apply emitted_app. cbn.
  destruct (ws s); [rewrite <- app_assoc | rewrite app_nil_r]; reflexivity.
Qed.

(** X4. An 'error' of the canonical socket after it has opened (no
    attempt waits for it any more): the connection is torn down, every
    pending callback is called once with that error, the table is emptied
    and the error is logged.  The [once] listener of the attempt, if it is
    still registered, closes the socket first, so the socket is closed twice. *)
Theorem error_after_open_tears_down :
  forall (s : state) (w : nat) (e : string) (i : sockinfo),
    nth_error (socks s) w = Some i ->
    error_on i = true ->
    ws s = Some w ->
    awaiting w (tasks s) = None ->
    emitted s (step s (EvError w e))
    = (if error_once i then [FxClose w] else [])
      ++ map (fun kc => FxCallback (snd kc) (ETransport e)) (pending s)
      ++ [FxClose w; FxLog "error in netmon socket"] /\
    pending (step s (EvError w e)) = [] /\
    connected (step s (EvError w e)) = false /\
    ws (step s (EvError w e)) = None /\
    handler (step s (EvError w e)) = None /\
    tasks (step s (EvError w e)) = tasks s /\
    pendingConnect (step s (EvError w e)) = pendingConnect s.
Proof.
  intros s w e i Hi Hon Hws Haw. cbn [step].
  assert (Hcan : forall s0, ws s0 = Some w -> canonical w s0 = true)
    by (intros s0 H0; now apply canonical_true).
  assert (Hnot : forall s0, ws s0 = None -> canonical w s0 = false)
    by (intros s0 H0; apply canonical_false; congruence).
  assert (E : on_error w e s
              = emit (FxLog "error in netmon socket")
                  (if error_once i
                   then emit (FxClose w)
                          (fail_all (ETransport e)
                             (_disconnect (upd_sock w clear_error_once s)))
                   else _disconnect (fail_all (ETransport e) s))).
  { unfold on_error. rewrite Hi, Hon, orb_true_r. destruct (error_once i).
    - unfold drop_socket. rewrite (Hcan (upd_sock w clear_error_once s) Hws).
      rewrite Hnot by (rewrite _disconnect_spec; reflexivity).
      unfold reject_open.
      assert (T : tasks (emit (FxLog "error in netmon socket")
                           (emit (FxClose w)
                              (fail_all (ETransport e)
                                 (_disconnect (upd_sock w clear_error_once s)))))
                  = tasks s) by (rewrite _disconnect_spec; reflexivity).
      rewrite T, Haw. reflexivity.
    - unfold drop_socket. rewrite (Hcan (fail_all (ETransport e) s) Hws).
      reflexivity. }
  rewrite E. destruct (error_once i); rewrite _disconnect_spec; cbn; rewrite Hws.
  - split; [|repeat split].
    apply emitted_app. cbn. rewrite <- !app_assoc. reflexivity.
  - split; [|repeat split].
    apply emitted_app. cbn. rewrite <- !app_assoc. reflexivity.
Qed.

(** X5. An 'error' of the canonical socket before it has opened: the
    socket is closed and forgotten, the attempt is rejected with that error
    into the catch of its loop, and the loop waits 1000 ms before its next
    test.  No pending callback is called and the table is kept; the handler
    registered before the attempt is cleared. *)
Theorem error_before_open_retries :
  forall (s : state) (w p : nat) (e : string) (i : sockinfo),
    nth_error (socks s) w = Some i ->
    error_once i = true -> error_on i = false ->
    ws s = Some w ->
    awaiting w (tasks s) = Some p ->
    emitted s (step s (EvError w e)) = [FxClose w; FxCaught p (ETransport e)] /\
    pending (step s (EvError w e)) = pending s /\
    lookup_task p (tasks (step s (EvError w e))) = Some (AwaitBackoff (next_timer s)) /\
    In (mkTimer (next_timer s) (now s + 1000) (TBackoff p))
       (timers (step s (EvError w e))) /\
    ws (step s (EvError w e)) = None /\
    handler (step s (EvError w e)) = None /\
    connected (step s (EvError w e)) = false /\
    pendingConnect (step s (EvError w e)) = pendingConnect s.
Proof.
  intros s w p e i Hi Honce Hon Hws Haw. cbn [step].
  assert (E : on_error w e s
              = backoff p (ETransport e) (_disconnect (upd_sock w clear_error_once s))).
  { unfold on_error. rewrite Hi, Honce, Hon. cbn [orb]. unfold drop_socket.
    assert (Hcan : canonical w (upd_sock w clear_error_once s) = true)
      by (now apply canonical_true).
    rewrite Hcan. unfold reject_open.
    assert (T : tasks (_disconnect (upd_sock w clear_error_once s)) = tasks s)
      by (rewrite _disconnect_spec; reflexivity).
    rewrite T, Haw. reflexivity. }
  rewrite E. unfold backoff. rewrite _disconnect_spec. cbn. rewrite Hws.
  split; [apply emitted_app; cbn; rewrite <- app_assoc; reflexivity|].
  split; [reflexivity|]. split; [apply lookup_put_task|].
  split; [apply in_or_app; right; left; reflexivity|].
  repeat split.
Qed.

(** ** Dispatch *)

Lemma pending_get_delete_other (k k' : key) (m : pmap) :
  k' <> k -> pending_get k' (pending_delete k m) = pending_get k' m.
Proof.
  intros Hne. unfold pending_delete. induction m as [|[k0 cb] rest IH].
  - reflexivity.
  - cbn [filter fst pending_get]. destruct (key_eqb k0 k) eqn:E; cbn [negb].
    + apply key_eqb_eq in E. subst k0.
      destruct (key_eqb k k') eqn:E'; [|exact IH].
      apply key_eqb_eq in E'. congruence.
    + cbn [pending_get]. rewrite IH. reflexivity.
Qed.

Lemma pending_delete_incl (k : key) (m : pmap) (kc : key * nat) :
  In kc (pending_delete k m) -> In kc m.
Proof. unfold pending_delete. intros H. apply filter_In in H. tauto. Qed.

(** X6. Neither an inbound frame nor the settlement of a handler's promise
    touches the connection: [connected], [pendingConnect], the handler, the
    socket reference, the stored promise, the timers, the listeners and the
    suspended loop are as before, whatever the frame holds and whatever the
    handler does; and the pending table only loses entries. *)
Theorem dispatch_keeps_connection :
  forall (s : state) (e : event),
    (exists w data out, e = EvMessage w data out) \/ (exists c r, e = EvSettle c r) ->
    connected (step s e) = connected s /\
    pendingConnect (step s e) = pendingConnect s /\
    handler (step s e) = handler s /\
    ws (step s e) = ws s /\
    connectPromise (step s e) = connectPromise s /\
    _keepAliveTimeout (step s e) = _keepAliveTimeout s /\
    timers (step s e) = timers s /\
    socks (step s e) = socks s /\
    tasks (step s e) = tasks s /\
    (forall kc, In kc (pending (step s e)) -> In kc (pending s)).
Proof.
  intros s e [(w & data & out & ->) | (c & r & ->)]; cbn [step].
  - destruct (has_sock w s); [|repeat split; auto].
    unfold on_message, then_delete.
    destruct (decode data) as [[m k]|]; [|repeat split; auto].
    destruct (handler s) eqn:Hh; [|repeat split; auto].
    destruct out as [|[|]|]; cbn; repeat split; auto.
    apply pending_delete_incl.
  - unfold on_settle, then_delete.
    destruct (lookup_cont c (conts s)); [|repeat split; auto].
    destruct r as [[|]|]; cbn; repeat split; auto.
    apply pending_delete_incl.
Qed.

(** X7. When the handler's result for a frame with id k is truthy,
    returned at once or through a promise fulfilled in any later state, id k
    is no longer pending afterwards and every other id keeps its callback. *)
Theorem truthy_result_removes_only_that_id :
  forall (s : state) (w : nat) (data : frame) (m : message) (k : key) (h : nat),
    has_sock w s = true ->
    decode data = Some (m, k) ->
    handler s = Some h ->
    (pending_get k (pending (step s (EvMessage w data (HValue true)))) = None /\
     forall k', k' <> k ->
       pending_get k' (pending (step s (EvMessage w data (HValue true))))
       = pending_get k' (pending s)) /\
    (forall s2 c,
       lookup_cont c (conts s2) = Some k ->
       pending_get k (pending (step s2 (EvSettle c (Some true)))) = None /\
       forall k', k' <> k ->
         pending_get k' (pending (step s2 (EvSettle c (Some true))))
         = pending_get k' (pending s2)).
Proof.
  intros s w data m k h Hw Hd Hh. split.
  - cbn [step]. rewrite Hw, (on_message_decoded data m k h _ s Hd Hh).
    cbn [then_delete pending set_pending emit set_trace].
    split; [apply pending_get_delete|].
    intros k' Hne. now apply pending_get_delete_other.
  - intros s2 c L. cbn [step].
    rewrite (on_settle_stored _ k _ s2 L). cbv zeta.
    cbn [then_delete pending set_pending set_conts].
    split; [apply pending_get_delete|].
    intros k' Hne. now apply pending_get_delete_other.
Qed.

(** X8. Frames that do not reach a handler.  A text frame whose JSON
    cannot be parsed is logged and changes nothing else, whether or not a
    handler is registered; and while no handler is registered, a frame that
    decodes leaves the state exactly as it was: it is not queued for a later
    handler. *)
Theorem undispatched_frames :
  forall (s : state) (w : nat),
    has_sock w s = true ->
    (forall text out,
        JSON_id text = None ->
        step s (EvMessage w (Text text) out)
        = emit (FxLog "error in agent message handler") s) /\
    (forall data out,
        handler s = None -> decode data <> None ->
        step s (EvMessage w data out) = s).
Proof.
  intros s w Hw. split.
  - intros text out Hj. cbn [step]. rewrite Hw. unfold on_message, decode.
    rewrite Hj. reflexivity.
  - intros data out Hh Hd. cbn [step]. rewrite Hw. unfold on_message.
    destruct (decode data) as [[m k]|]; [|congruence].
    rewrite Hh. reflexivity.
Qed.

(** * start(), stop(), clearLog() *)

Lemma existsb_eqb_In (p : nat) (l : list nat) :
  existsb (Nat.eqb p) l = true <-> In p l.
Proof.
  rewrite existsb_exists. split.
  - intros (x & Hx & E). apply Nat.eqb_eq in E. now subst.
  - intros H. exists p. split; [exact H | apply Nat.eqb_refl].
Qed.

Lemma existsb_eqb_not_In (p : nat) (l : list nat) :
  existsb (Nat.eqb p) l = false <-> ~ In p l.
Proof.
  rewrite <- existsb_eqb_In. destruct (existsb (Nat.eqb p) l); split; congruence.
Qed.

Lemma filter_all {A : Type} (f : A -> bool) (l : list A) :
  (forall x, In x l -> f x = true) -> filter f l = l.
Proof.
  induction l as [|x rest IH]; intros H; cbn; [reflexivity|].
  rewrite (H x (or_introl eq_refl)). f_equal. apply IH.
  intros y Hy. apply H. now right.
Qed.

Lemma filter_none {A : Type} (f : A -> bool) (l : list A) :
  (forall x, In x l -> f x = false) -> filter f l = [].
Proof.
  induction l as [|x rest IH]; intros H; cbn; [reflexivity|].
  rewrite (H x (or_introl eq_refl)). apply IH.
  intros y Hy. apply H. now right.
Qed.

Lemma set_calls_same (a : api) : set_calls (calls a) a = a.
Proof. destruct a. reflexivity. Qed.

(** When no suspended call is ready, nothing continues. *)
Lemma wake_idle (a : api) :
  (forall c, In c (calls a) -> is_ready (resolved (mon a)) c = false) -> wake a = a.
Proof.
  intros H. unfold wake. rewrite (filter_none _ _ H).
  rewrite (filter_all (fun c => negb (is_ready (resolved (mon a)) c)) (calls a))
    by (intros x Hx; rewrite (H x Hx); reflexivity).
  destruct (ws (mon a)); cbn [filter fold_left]; apply set_calls_same.
Qed.

Lemma emitted_same_trace (s s' : state) : trace s' = trace s -> emitted s s' = [].
Proof. intros H. apply emitted_app. rewrite app_nil_r. exact H. Qed.

Lemma disconnect_twice (s : state) : disconnect (disconnect s) = disconnect s.
Proof. unfold disconnect. rewrite !_disconnect_spec. reflexivity. Qed.

Lemma fold_say {A : Type} (f : A -> api_effect) (l : list A) :
  forall a,
    fold_left (fun x c => say (f c) x) l a
    = mkApi (mon a) (instance_id a) (calls a) (next_call a) (next_fetch a)
        (log a ++ map f l).
Proof.
  induction l as [|c rest IH]; intros a; cbn [fold_left map].
  - rewrite app_nil_r. destruct a. reflexivity.
  - rewrite IH. unfold say. cbn. rewrite <- app_assoc. reflexivity.
Qed.

(** [disconnect()] once for each caller: the first closes the socket, the
    others find nothing to do. *)
Lemma fold_disconnect {A : Type} (l : list A) :
  forall a,
    l <> [] ->
    fold_left (fun x _ => lift (disconnect (mon x)) x) l a
    = lift (disconnect (mon a)) a.
Proof.
  induction l as [|c rest IH]; intros a Hne; [congruence|].
  cbn [fold_left]. destruct rest as [|c' rest']; [reflexivity|].
  rewrite IH by discriminate.
  unfold lift at 1. cbn [mon lift instance_id calls next_call next_fetch log].
  rewrite disconnect_twice, emitted_self. cbn [map]. rewrite app_nil_r.
  reflexivity.
Qed.

(** ** What every reachable state of the methods satisfies *)

Lemma resume1_frame (a : api) (c : nat * call_state) :
  mon (resume1 a c) = mon a /\
  (forall x, In x (calls (resume1 a c)) ->
             In x (calls a) \/ exists c' r, x = (c', StartFetch r)).
Proof.
  unfold resume1. destruct (snd c).
  - unfold start_enable, _fetch, add_call. cbn. split; [reflexivity|].
    intros x Hx. apply in_app_or in Hx. destruct Hx as [Hx | [<- | []]]; eauto.
  - cbn. auto.
  - cbn. auto.
  - destruct (ws (mon a)); cbn; auto.
Qed.

Lemma fold_resume1_frame (l : list (nat * call_state)) :
  forall a,
    mon (fold_left resume1 l a) = mon a /\
    (forall x, In x (calls (fold_left resume1 l a)) ->
               In x (calls a) \/ exists c' r, x = (c', StartFetch r)).
Proof.
  induction l as [|c rest IH]; intros a; cbn [fold_left]; [auto|].
  destruct (IH (resume1 a c)) as [M C]. destruct (resume1_frame a c) as [M1 C1].
  split; [congruence|].
  intros x Hx. destruct (C x Hx) as [H | H]; auto.
Qed.

Lemma fold_lift_disconnect_frame {A : Type} (l : list A) :
  forall a,
    reachable (mon a) ->
    reachable (mon (fold_left (fun x _ => lift (disconnect (mon x)) x) l a)) /\
    resolved (mon (fold_left (fun x _ => lift (disconnect (mon x)) x) l a))
    = resolved (mon a) /\
    calls (fold_left (fun x _ => lift (disconnect (mon x)) x) l a) = calls a.
Proof.
  induction l as [|c rest IH]; intros a Hr; cbn [fold_left]; [auto|].
  assert (Hr1 : reachable (mon (lift (disconnect (mon a)) a))).
  { cbn [mon lift]. change (disconnect (mon a)) with (step (mon a) EvDisconnect).
    now constructor. }
  destruct (IH _ Hr1) as (R & S & C). split; [exact R|]. split.
  - rewrite S. cbn [mon lift]. destruct (quiet_disconnect (mon a)) as (_ & _ & _ & Q & _).
    exact Q.
  - rewrite C. reflexivity.
Qed.

(** After [wake] the monitor is still in a reachable state and no call is
    left that could continue. *)
Lemma wake_inv (a : api) :
  reachable (mon a) -> reachable (mon (wake a)) /\ settled (wake a).
Proof.
  intros Hr. unfold wake.
  set (ready := filter (is_ready (resolved (mon a))) (calls a)).
  set (rest := filter (fun c => negb (is_ready (resolved (mon a)) c)) (calls a)).
  set (senders := match ws (mon a) with Some _ => filter is_clear ready | None => [] end).
  set (a1 := fold_left resume1 ready (set_calls rest a)).
  destruct (fold_resume1_frame ready (set_calls rest a)) as [M1 C1]. fold a1 in M1, C1.
  cbn [mon set_calls] in M1. cbn [calls set_calls] in C1.
  assert (Hr1 : reachable (mon a1)) by (rewrite M1; exact Hr).
  destruct (fold_lift_disconnect_frame senders a1 Hr1) as (R2 & S2 & C2).
  set (a2 := fold_left (fun x _ => lift (disconnect (mon x)) x) senders a1) in *.
  rewrite fold_say. cbn [mon]. split; [exact R2|].
  unfold settled. cbn [calls mon]. rewrite S2, C2, M1.
  intros c Hc. destruct (C1 c Hc) as [H | (c' & r & ->)]; [|reflexivity].
  subst rest. apply filter_In in H. destruct H as [_ H].
  destruct (is_ready (resolved (mon a)) c); [discriminate | reflexivity].
Qed.

Lemma resolved_connect (s : state) : resolved (snd (connect s)) = resolved s.
Proof.
  unfold connect. cbn [connected set_pendingConnect].
  destruct (connected s) eqn:Hc; [reflexivity|].
  unfold reconnect. cbn [connected set_pendingConnect]. rewrite Hc.
  cbn [connectPromise set_pendingConnect].
  destruct (connectPromise s); [reflexivity|].
  unfold loop_head. cbn. reflexivity.
Qed.

Lemma settled_lift (a : api) (s' : state) :
  settled a -> resolved s' = resolved (mon a) -> settled (lift s' a).
Proof. intros H E c Hc. cbn [mon lift calls] in *. rewrite E. auto. Qed.

Lemma api_step_inv (a : api) (ev : api_event) :
  reachable (mon a) -> settled a ->
  reachable (mon (api_step a ev)) /\ settled (api_step a ev).
Proof.
  intros Hr Hs. destruct ev; cbn [api_step].
  - unfold start, new_call.
    assert (Hr' : reachable (snd (connect (mon a))))
      by (change (snd (connect (mon a))) with (step (mon a) EvConnect); now constructor).
    pose proof (resolved_connect (mon a)) as Hres.
    cbn [mon]. destruct (connect (mon a)) as [po s']. cbn [snd] in *.
    destruct po as [p|].
    + apply wake_inv. exact Hr'.
    + unfold start_enable, _fetch, add_call. cbn. split; [exact Hr'|].
      intros c Hc. cbn in Hc |- *. rewrite Hres. apply in_app_or in Hc.
      destruct Hc as [Hc | [<- | []]]; [now apply Hs | reflexivity].
  - unfold stop, _fetch, add_call. cbn. split; [exact Hr|].
    intros c Hc. cbn in Hc |- *. apply in_app_or in Hc.
    destruct Hc as [Hc | [<- | []]]; [now apply Hs | reflexivity].
  - unfold clearLog, new_call. cbn [mon].
    destruct (connected (mon a)).
    + destruct (ws (mon a)); cbn; split; auto.
    + assert (Hr' : reachable (snd (connect (mon a))))
        by (change (snd (connect (mon a))) with (step (mon a) EvConnect); now constructor).
      pose proof (resolved_connect (mon a)) as Hres.
      destruct (connect (mon a)) as [po s']. cbn [snd] in *.
      destruct po as [p|]; [apply wake_inv; exact Hr'|].
      cbn [mon lift]. destruct (ws s').
      * cbn. split.
        -- change (disconnect s') with (step s' EvDisconnect). now constructor.
        -- intros c Hc. cbn in Hc |- *.
           destruct (quiet_disconnect s') as (_ & _ & _ & Q & _). rewrite Q, Hres.
           now apply Hs.
      * cbn. split; [exact Hr'|]. intros c Hc. cbn in Hc |- *. rewrite Hres. now apply Hs.
  - unfold on_fetch. destruct (find_fetch r (calls a)) as [[c is_stop]|]; [|auto].
    assert (Hsub : forall x,
               In x (filter (fun x => negb (Nat.eqb (fst x) c)) (calls a)) ->
               In x (calls a)) by (intros x Hx; apply filter_In in Hx; tauto).
    destruct ok; [destruct is_stop|]; cbn.
    + split; [change (disconnect (mon a)) with (step (mon a) EvDisconnect); now constructor|].
      intros x Hx. cbn in Hx |- *.
      destruct (quiet_disconnect (mon a)) as (_ & _ & _ & Q & _). rewrite Q. auto.
    + split; [exact Hr|]. intros x Hx. cbn in Hx |- *. auto.
    + split; [exact Hr|]. intros x Hx. cbn in Hx |- *. auto.
  - apply wake_inv. cbn [mon lift]. now constructor.
Qed.

Lemma api_reachable_inv (a : api) :
  api_reachable a -> reachable (mon a) /\ settled a.
Proof.
  induction 1 as [id | a ev _ [Hr Hs]].
  - split; [constructor | intros c []].
  - now apply api_step_inv.
Qed.

Lemma api_reachable_run (a : api) (evs : list api_event) :
  api_reachable a -> api_reachable (api_run a evs).
Proof.
  revert a. induction evs as [|ev evs IH]; intros a Ha; cbn; [exact Ha|].
  apply IH. now constructor.
Qed.

(** ** start() *)

Lemma emitted_disconnect (s : state) :
  emitted s (disconnect s) = match ws s with Some w => [FxClose w] | None => [] end.
Proof.
  apply emitted_app. unfold disconnect. rewrite _disconnect_spec. cbn.
  destruct (ws s); [reflexivity | rewrite app_nil_r; reflexivity].
Qed.

Lemma is_ready_not_resolved (res : list nat) (c : nat) (cs : call_state) (p : nat) :
  waits_on cs = Some p -> ~ In p res -> is_ready res (c, cs) = false.
Proof.
  intros Hw Hn. unfold is_ready. cbn [snd]. rewrite Hw.
  now apply existsb_eqb_not_In.
Qed.

(** A call that joins or starts a loop whose promise is unresolved waits. *)
Lemma wake_after_join (a : api) (c : nat) (cs : call_state) (p : nat) (s' : state) :
  settled a -> resolved s' = resolved (mon a) ->
  waits_on cs = Some p -> ~ In p (resolved s') ->
  wake (add_call c cs (lift s' a)) = add_call c cs (lift s' a).
Proof.
  intros Hs Hres Hw Hn. apply wake_idle. intros x Hx.
  cbn [calls add_call lift mon] in *. apply in_app_or in Hx.
  destruct Hx as [Hx | [<- | []]].
  - rewrite Hres. now apply Hs.
  - now apply is_ready_not_resolved with (p := p).
Qed.

(** X12. A suspended [start()] continues in the very step in which the
    promise it waits for resolves, and not before: it then requests
    '/instances/<id>/sslsplit/enable', after the calls the monitor made in
    that step, whether the loop ended connected or cancelled. *)
Theorem start_continues_when_promise_resolves :
  forall (a : api) (c p : nat) (e : event),
    calls a = [(c, StartConnect p)] ->
    mon (api_step a (OnMonitor e)) = step (mon a) e /\
    (In p (resolved (step (mon a) e)) ->
     log (api_step a (OnMonitor e))
     = log a ++ map AMon (emitted (mon a) (step (mon a) e))
       ++ [AFetch (next_fetch a)
             ("/instances/" ++ instance_id a ++ "/sslsplit/enable")%string "POST"] /\
     calls (api_step a (OnMonitor e)) = [(c, StartFetch (next_fetch a))]) /\
    (~ In p (resolved (step (mon a) e)) ->
     log (api_step a (OnMonitor e))
     = log a ++ map AMon (emitted (mon a) (step (mon a) e)) /\
     calls (api_step a (OnMonitor e)) = [(c, StartConnect p)]).
Proof.
  intros a c p e Hcalls. cbn [api_step].
  set (s' := step (mon a) e).
  assert (D : In p (resolved s') \/ ~ In p (resolved s')).
  { destruct (existsb (Nat.eqb p) (resolved s')) eqn:E.
    - left. now apply existsb_eqb_In.
    - right. now apply existsb_eqb_not_In. }
  assert (Hyes : In p (resolved s') ->
                 wake (lift s' a)
                 = mkApi s' (instance_id a) [(c, StartFetch (next_fetch a))]
                     (next_call a) (S (next_fetch a))
                     (log a ++ map AMon (emitted (mon a) s')
                        ++ [AFetch (next_fetch a)
                              ("/instances/" ++ instance_id a ++ "/sslsplit/enable")%string
                              "POST"])).
  { intros Hin. unfold wake. cbn [calls lift mon]. rewrite Hcalls.
    cbn [filter is_ready waits_on snd]. apply existsb_eqb_In in Hin. rewrite Hin.
    cbn [negb filter is_clear snd].
    destruct (ws s'); cbn [fold_left resume1 snd fst];
      unfold start_enable, _fetch, add_call, set_calls; cbn;
      rewrite <- app_assoc; reflexivity. }
  assert (Hno : ~ In p (resolved s') -> wake (lift s' a) = lift s' a).
  { intros Hn. apply wake_idle. intros x Hx. cbn [calls lift mon] in *.
    rewrite Hcalls in Hx. destruct Hx as [<- | []].
    now apply is_ready_not_resolved with (p := p). }
  split; [|split].
  - destruct D as [Hin | Hn]; [rewrite (Hyes Hin) | rewrite (Hno Hn)]; reflexivity.
  - intros Hin. rewrite (Hyes Hin). auto.
  - intros Hn. rewrite (Hno Hn). cbn. auto.
Qed.

(** ** stop() *)

(** X13. [stop()] first requests '/instances/<id>/sslsplit/disable' and
    leaves the monitor alone.  Only when that request succeeds does it call
    [disconnect()] and resolve; when the request fails, [stop()] is rejected
    and the monitor stays exactly as it is, still connected if it was. *)
Theorem stop_disconnects_only_after_disable :
  forall (a : api),
    (mon (stop a) = mon a /\
     log (stop a)
     = log a ++ [AFetch (next_fetch a)
                   ("/instances/" ++ instance_id a ++ "/sslsplit/disable")%string "POST"] /\
     calls (stop a) = calls a ++ [(next_call a, StopFetch (next_fetch a))]) /\
    (forall c r,
        find_fetch r (calls a) = Some (c, true) ->
        (mon (api_step a (FetchSettles r true)) = disconnect (mon a) /\
         log (api_step a (FetchSettles r true))
         = log a
           ++ match ws (mon a) with Some w => [AMon (FxClose w)] | None => [] end
           ++ [AReturn c]) /\
        (mon (api_step a (FetchSettles r false)) = mon a /\
         log (api_step a (FetchSettles r false)) = log a ++ [AThrow c FetchFailed])).
Proof.
  intros a. split.
  - unfold stop, new_call, _fetch, add_call. cbn. auto.
  - intros c r Hf. cbn [api_step]. unfold on_fetch. rewrite Hf. cbn.
    rewrite emitted_disconnect. repeat split.
    destruct (ws (mon a)); cbn; rewrite <- app_assoc; reflexivity.
Qed.

(** ** clearLog() *)

(** X14. On a connected monitor [clearLog()] sends the text
    {"type":"clear"} on the canonical socket and resolves in the same turn:
    it does not touch the monitor, which stays connected, and no call is left
    suspended. *)
Theorem clearLog_on_open_connection :
  forall a : api,
    api_reachable a ->
    connected (mon a) = true ->
    exists w,
      ws (mon a) = Some w /\
      mon (clearLog a) = mon a /\
      log (clearLog a) = log a ++ [ASend w clear_text; AReturn (next_call a)] /\
      calls (clearLog a) = calls a.
Proof.
  intros a Ha Hc. destruct (api_reachable_inv a Ha) as [Hr _].
  destruct (reachable_link_inv (mon a) Hr) as (_ & K1 & _).
  destruct (K1 Hc) as (w & i & Hw & _). exists w. split; [exact Hw|].
  unfold clearLog, new_call. cbn [mon]. rewrite Hc, Hw. cbn.
  rewrite <- app_assoc. auto.
Qed.

Lemma filter_clear_callers (p : nat) (cs : list nat) (res : list nat) :
  In p res ->
  filter (is_ready res) (map (fun c => (c, ClearConnect p)) cs)
  = map (fun c => (c, ClearConnect p)) cs /\
  filter (fun c => negb (is_ready res c)) (map (fun c => (c, ClearConnect p)) cs) = [] /\
  filter is_clear (map (fun c => (c, ClearConnect p)) cs)
  = map (fun c => (c, ClearConnect p)) cs.
Proof.
  intros Hin. apply existsb_eqb_In in Hin.
  split; [|split].
  - apply filter_all. intros x Hx. apply in_map_iff in Hx.
    destruct Hx as (c & <- & _). unfold is_ready. cbn. exact Hin.
  - apply filter_none. intros x Hx. apply in_map_iff in Hx.
    destruct Hx as (c & <- & _). unfold is_ready. cbn. rewrite Hin. reflexivity.
  - apply filter_all. intros x Hx. apply in_map_iff in Hx.
    destruct Hx as (c & <- & _). reflexivity.
Qed.

Lemma fold_resume1_clear (p : nat) (cs : list nat) (f : nat -> api_effect) :
  forall a,
    (forall x, mon x = mon a -> forall c, resume1 x (c, ClearConnect p) = say (f c) x) ->
    fold_left resume1 (map (fun c => (c, ClearConnect p)) cs) a
    = mkApi (mon a) (instance_id a) (calls a) (next_call a) (next_fetch a)
        (log a ++ map f cs).
Proof.
  induction cs as [|c rest IH]; intros a H; cbn [fold_left map].
  - rewrite app_nil_r. destruct a. reflexivity.
  - rewrite (H a eq_refl). rewrite IH.
    + unfold say. cbn. rewrite <- app_assoc. reflexivity.
    + intros x Hx c'. apply H. rewrite Hx. reflexivity.
Qed.

(** X15. The callers of [clearLog()] that wait for the same connection
    continue together in the step in which its promise resolves.  If a socket
    is held then, every caller sends its {"type":"clear"} on it before any of
    them disconnects; the socket is closed once; then all resolve, and the
    monitor is left disconnected with [pendingConnect] false and no handler.
    If no socket is held (the connection was cancelled), every caller is
    rejected with the TypeError of [this.ws.send] and nothing is sent. *)
Theorem clearLog_callers_share_one_connection :
  forall (a : api) (p : nat) (cs : list nat) (e : event),
    cs <> [] ->
    calls a = map (fun c => (c, ClearConnect p)) cs ->
    In p (resolved (step (mon a) e)) ->
    (forall w,
        ws (step (mon a) e) = Some w ->
        mon (api_step a (OnMonitor e)) = disconnect (step (mon a) e) /\
        log (api_step a (OnMonitor e))
        = log a ++ map AMon (emitted (mon a) (step (mon a) e))
          ++ map (fun _ => ASend w clear_text) cs
          ++ [AMon (FxClose w)]
          ++ map AReturn cs /\
        calls (api_step a (OnMonitor e)) = [] /\
        connected (mon (api_step a (OnMonitor e))) = false /\
        pendingConnect (mon (api_step a (OnMonitor e))) = false /\
        handler (mon (api_step a (OnMonitor e))) = None) /\
    (ws (step (mon a) e) = None ->
     mon (api_step a (OnMonitor e)) = step (mon a) e /\
     log (api_step a (OnMonitor e))
     = log a ++ map AMon (emitted (mon a) (step (mon a) e))
       ++ map (fun c => AThrow c TypeError_null) cs /\
     calls (api_step a (OnMonitor e)) = []).
Proof.
  intros a p cs e Hne Hcalls Hin. cbn [api_step].
  set (s' := step (mon a) e) in *.
  destruct (filter_clear_callers p cs (resolved s') Hin) as (F1 & F2 & F3).
  split.
  - intros w Hw. unfold wake. cbn [calls lift mon]. rewrite Hcalls, F1, F2, Hw, F3.
    rewrite (fold_resume1_clear p cs (fun _ => ASend w clear_text)).
    + rewrite fold_disconnect
        by (destruct cs; [congruence | discriminate]).
      rewrite fold_say. cbn. rewrite emitted_disconnect, Hw. cbn.
      unfold disconnect. rewrite _disconnect_spec. cbn.
      repeat split. rewrite map_map. cbn [fst].
      rewrite <- !app_assoc. reflexivity.
    + intros x Hx c. unfold resume1. cbn [snd fst]. rewrite Hx. cbn. rewrite Hw.
      reflexivity.
  - intros Hw. unfold wake. cbn [calls lift mon]. rewrite Hcalls, F1, F2, Hw.
    rewrite (fold_resume1_clear p cs (fun c => AThrow c TypeError_null)).
    + cbn. rewrite <- app_assoc. auto.
    + intros x Hx c. unfold resume1. cbn [snd fst]. rewrite Hx. cbn. rewrite Hw.
      reflexivity.
Qed.

(** ** No caller is left behind *)

Lemma hands_on_refl (s : state) : hands_on s s.
Proof. unfold hands_on. repeat split; eauto. Qed.

Lemma hands_on_trans (s1 s2 s3 : state) :
  hands_on s1 s2 -> hands_on s2 s3 -> hands_on s1 s3.
Proof.
  intros (A1 & B1 & C1) (A2 & B2 & C2). unfold hands_on. split; [|split].
  - auto.
  - intros p st H. destruct (B1 p st H) as [R | [st' T]]; [left; auto|].
    apply (B2 p st' T).
  - intros p H. destruct (C2 p H) as [E | [R | T]]; auto.
    destruct (C1 p E) as [E1 | [R1 | [st T1]]]; auto.
    right. apply (B2 p st T1).
Qed.

Lemma hands_on_quiet (s s' : state) : quiet s s' -> hands_on s s'.
Proof.
  intros (Q1 & Q2 & _ & Q4 & _). unfold hands_on. rewrite Q1, Q2, Q4.
  repeat split; eauto.
Qed.

Lemma put_task_keeps (p q : nat) (st st' : lstate) (l : list (nat * lstate)) :
  In (q, st) l -> exists st'', In (q, st'') (put_task p st' l).
Proof.
  induction l as [|[r sr] rest IH]; intros H; [destruct H|].
  cbn [put_task]. destruct H as [E | H].
  - inversion E; subst r sr. destruct (Nat.eqb q p).
    + exists st'. now left.
    + exists st. now left.
  - destruct (IH H) as [st'' H']. destruct (Nat.eqb r p).
    + exists st. right. exact H.
    + exists st''. now right.
Qed.

Lemma put_task_In (p : nat) (st : lstate) (l : list (nat * lstate)) :
  In (p, st) (put_task p st l).
Proof. apply lookup_task_In. apply lookup_put_task. Qed.

Lemma drop_task_keeps (p q : nat) (st : lstate) (l : list (nat * lstate)) :
  q <> p -> In (q, st) l -> In (q, st) (drop_task p l).
Proof.
  intros Hne H. unfold drop_task. apply filter_In. split; [exact H|].
  cbn. apply Nat.eqb_neq in Hne. rewrite Hne. reflexivity.
Qed.

(** A step that moves the loop p and keeps the promises. *)
Lemma hands_on_put (p : nat) (st : lstate) (s s' : state) :
  tasks s' = put_task p st (tasks s) -> resolved s' = resolved s ->
  connectPromise s' = connectPromise s -> hands_on s s'.
Proof.
  intros Ht Hr Hc. unfold hands_on. rewrite Ht, Hr, Hc. repeat split; auto.
  intros q sq H. right. now apply put_task_keeps with (st := sq).
Qed.

Lemma hands_on_backoff (p : nat) (e : err) (s : state) : hands_on s (backoff p e s).
Proof. apply hands_on_put with (p := p) (st := AwaitBackoff (next_timer s)); reflexivity. Qed.

Lemma hands_on_start_connect (p : nat) (s : state) : hands_on s (start_connect p s).
Proof. apply hands_on_put with (p := p) (st := AwaitEndpoint); reflexivity. Qed.

Lemma hands_on_finish_loop (p : nat) (s : state) : hands_on s (finish_loop p s).
Proof.
  unfold hands_on, finish_loop. cbn. split; [|split].
  - auto.
  - intros q st H. destruct (Nat.eq_dec q p) as [-> | Hne]; [auto|].
    right. exists st. now apply drop_task_keeps.
  - discriminate.
Qed.

Lemma hands_on_loop_head (p : nat) (s : state) : hands_on s (loop_head p s).
Proof.
  unfold loop_head. destruct (pendingConnect s);
    [apply hands_on_start_connect | apply hands_on_finish_loop].
Qed.

Lemma hands_on_reject_open (w : nat) (e : err) (s : state) :
  hands_on s (reject_open w e s).
Proof.
  unfold reject_open. destruct (awaiting w (tasks s));
    [apply hands_on_backoff | apply hands_on_refl].
Qed.

Lemma hands_on_same (s s' : state) :
  tasks s' = tasks s -> resolved s' = resolved s ->
  connectPromise s' = connectPromise s -> hands_on s s'.
Proof.
  intros Ht Hr Hc. unfold hands_on. rewrite Ht, Hr, Hc. repeat split; eauto.
Qed.

Lemma hands_on_resolve_open (w : nat) (s : state) : hands_on s (resolve_open w s).
Proof.
  unfold resolve_open. destruct (awaiting w (tasks s)); [|apply hands_on_refl].
  eapply hands_on_trans; [|apply hands_on_finish_loop].
  eapply hands_on_trans; [|apply hands_on_quiet, quiet_startKeepAlive].
  apply hands_on_same; reflexivity.
Qed.

Lemma hands_on_on_endpoint (p : nat) (r : option string) (s : state) :
  hands_on s (on_endpoint p r s).
Proof.
  unfold on_endpoint. destruct (lookup_task p (tasks s)) as [[| |]|];
    try apply hands_on_refl.
  destruct r as [url|]; [|apply hands_on_backoff].
  destruct (pendingConnect s); [|apply hands_on_backoff].
  apply hands_on_put with (p := p) (st := AwaitOpen (List.length (socks s)));
    reflexivity.
Qed.

Lemma hands_on_on_open (w : nat) (s : state) : hands_on s (on_open w s).
Proof.
  unfold on_open. destruct (nth_error (socks s) w) as [i|]; [|apply hands_on_refl].
  destruct (open_once i); [|apply hands_on_refl].
  destruct (canonical w (upd_sock w clear_open_once s)).
  - eapply hands_on_trans; [|apply hands_on_resolve_open].
    apply hands_on_same; reflexivity.
  - eapply hands_on_trans; [|apply hands_on_reject_open].
    apply hands_on_same; reflexivity.
Qed.

Lemma hands_on_on_error (w : nat) (e : string) (s : state) : hands_on s (on_error w e s).
Proof.
  unfold on_error.
  destruct (nth_error (socks s) w) as [i|]; [|apply hands_on_refl].
  destruct (error_once i || error_on i); [|apply hands_on_quiet, quiet_emit].
  set (s1 := if error_once i then drop_socket w (upd_sock w clear_error_once s) else s).
  assert (Q1 : quiet s s1).
  { subst s1. destruct (error_once i); [|apply quiet_refl].
    eapply quiet_trans; [apply quiet_upd_sock | apply quiet_drop_socket]. }
  set (s2 := if error_on i
             then emit (FxLog "error in netmon socket")
                    (drop_socket w (fail_all (ETransport e) s1))
             else s1).
  assert (Q2 : quiet s s2).
  { eapply quiet_trans; [exact Q1|].
    subst s2. destruct (error_on i); [|apply quiet_refl].
    eapply quiet_trans; [apply quiet_fail_all|].
    eapply quiet_trans; [apply quiet_drop_socket | apply quiet_emit]. }
  destruct (error_once i); [|now apply hands_on_quiet].
  eapply hands_on_trans; [apply hands_on_quiet; exact Q2 | apply hands_on_reject_open].
Qed.

Lemma hands_on_on_timer (t : nat) (s : state) : hands_on s (on_timer t s).
Proof.
  unfold on_timer.
  destruct (find_timer t s) as [x|]; [|apply hands_on_refl].
  destruct (N.leb (t_due x) (now s)); [|apply hands_on_refl].
  eapply hands_on_trans; [apply hands_on_quiet, quiet_clearTimeout|].
  destruct (t_act x) as [p|w|].
  - destruct (lookup_task p (tasks (clearTimeout t s))) as [st|]; [|apply hands_on_refl].
    destruct st as [|w'|t']; try apply hands_on_refl.
    destruct (Nat.eqb t' t); [apply hands_on_loop_head | apply hands_on_refl].
  - apply hands_on_quiet, quiet_on_deadline.
  - apply hands_on_quiet, quiet_startKeepAlive.
Qed.

Lemma hands_on_reconnect (s : state) : hands_on s (snd (reconnect s)).
Proof.
  unfold reconnect.
  set (s1 := if connected s then disconnect s else s).
  assert (Q1 : hands_on s s1).
  { subst s1. destruct (connected s);
      [apply hands_on_quiet, quiet_disconnect | apply hands_on_refl]. }
  destruct (connectPromise s1) as [p|] eqn:Hcp; [exact Q1|].
  eapply hands_on_trans; [exact Q1|]. cbn [snd].
  unfold hands_on, loop_head. cbn [pendingConnect set_next_promise].
  destruct (pendingConnect s1).
  - unfold start_connect. cbn. split; [auto|]. split.
    + intros q st H. right. now apply put_task_keeps with (st := st).
    + intros q E. inversion E; subst q. right. right.
      exists AwaitEndpoint. apply put_task_In.
  - unfold finish_loop. cbn. split; [auto|]. split.
    + intros q st H. destruct (Nat.eq_dec q (next_promise s1)) as [-> | Hne]; [auto|].
      right. exists st. now apply drop_task_keeps.
    + intros q E. inversion E; subst q. auto.
Qed.

Lemma hands_on_connect (s : state) : hands_on s (snd (connect s)).
Proof.
  unfold connect.
  assert (Q1 : hands_on s (set_pendingConnect true s))
    by (apply hands_on_same; reflexivity).
  destruct (connected (set_pendingConnect true s)); [exact Q1|].
  pose proof (hands_on_reconnect (set_pendingConnect true s)) as H.
  destruct (reconnect (set_pendingConnect true s)) as [p s'].
  eapply hands_on_trans; [exact Q1 | exact H].
Qed.

Lemma hands_on_step (s : state) (e : event) : hands_on s (step s e).
Proof.
  destruct e; cbn [step].
  - apply hands_on_connect.
  - apply hands_on_reconnect.
  - apply hands_on_quiet, quiet_disconnect.
  - apply hands_on_same; reflexivity.
  - apply hands_on_same; reflexivity.
  - apply hands_on_on_endpoint.
  - apply hands_on_on_open.
  - destruct (has_sock w s); [apply hands_on_quiet, quiet_on_message | apply hands_on_refl].
  - destruct (has_sock w s); [apply hands_on_quiet, quiet_on_close | apply hands_on_refl].
  - apply hands_on_on_error.
  - apply hands_on_quiet, quiet_on_pong.
  - apply hands_on_quiet, quiet_on_settle.
  - apply hands_on_on_timer.
  - apply hands_on_same; reflexivity.
Qed.

Lemma awaited_hands_on (s s' : state) (p : nat) :
  hands_on s s' -> awaited s p -> awaited s' p.
Proof.
  intros (A & B & _) [R | [st T]]; [left; auto|]. apply (B p st T).
Qed.

(** The promise stored in [connectPromise] is that of a loop which runs or
    has returned. *)
Lemma promise_awaited (s : state) :
  reachable s -> forall p, connectPromise s = Some p -> awaited s p.
Proof.
  induction 1 as [|s e Hs IH]; [discriminate|].
  intros p Hp. destruct (hands_on_step s e) as (A & B & C).
  destruct (C p Hp) as [E | [R | T]].
  - apply awaited_hands_on with (s := s); [apply hands_on_step | now apply IH].
  - now left.
  - now right.
Qed.

(** The promise [connect()] awaits is the one stored afterwards. *)
Lemma connect_returns_stored (s : state) (p : nat) :
  fst (connect s) = Some p -> connectPromise (snd (connect s)) = Some p.
Proof.
  unfold connect. cbn [connected set_pendingConnect].
  destruct (connected s) eqn:Hc; [discriminate|].
  unfold reconnect. cbn [connected set_pendingConnect]. rewrite Hc.
  cbn [connectPromise set_pendingConnect].
  destruct (connectPromise s) as [q|] eqn:Hq; cbn [fst snd].
  - intros E. rewrite <- E. exact Hq.
  - intros E. rewrite <- E. reflexivity.
Qed.

(** A call of start() finds the promise of [connectPromise] resolved: it
    continues at once. *)
Lemma wake_after_resolved (a : api) (c p : nat) (s' : state) :
  settled a -> resolved s' = resolved (mon a) -> In p (resolved s') ->
  wake (add_call c (StartConnect p) (lift s' a)) = start_enable c (lift s' a).
Proof.
  intros Hs Hres Hin.
  assert (Hold : forall x, In x (calls a) -> is_ready (resolved s') x = false)
    by (intros x Hx; rewrite Hres; now apply Hs).
  assert (Hnew : is_ready (resolved s') (c, StartConnect p) = true).
  { unfold is_ready. cbn [snd waits_on]. now apply existsb_eqb_In. }
  unfold wake. cbn [calls add_call lift mon].
  rewrite !filter_app. cbn [filter]. rewrite Hnew. cbn [negb].
  rewrite (filter_none _ _ Hold).
  rewrite (filter_all (fun x => negb (is_ready (resolved s') x)) (calls a))
    by (intros x Hx; rewrite (Hold x Hx); reflexivity).
  rewrite app_nil_r. cbn [app is_clear snd filter].
  destruct (ws s'); cbn [fold_left resume1 snd fst]; rewrite ?app_nil_r; reflexivity.
Qed.

(** X11. When [start()] requests '/instances/<id>/sslsplit/enable'.  It
    requests it at once when the monitor is connected; and at once as well
    when the monitor is not connected but [connectPromise] holds a promise
    that has resolved, as [reconnect()] leaves it when [pendingConnect] is
    false: [connect()] then awaits a promise that is already resolved, and
    the request is made although [connected] is false.  Otherwise it requests
    nothing yet: while a reconnect loop is in flight it joins that loop and
    waits for its promise; with no loop and no promise stored it starts the
    loop, which asks for the endpoint, and waits for the new promise.  In
    every state that can be reached one of these four cases applies. *)
Theorem start_enables_at_once_or_waits :
  forall a : api,
    api_reachable a ->
    (connected (mon a) = true ->
     mon (start a) = set_pendingConnect true (mon a) /\
     log (start a)
     = log a ++ [AFetch (next_fetch a)
                   ("/instances/" ++ instance_id a ++ "/sslsplit/enable")%string "POST"] /\
     calls (start a) = calls a ++ [(next_call a, StartFetch (next_fetch a))]) /\
    (forall p,
        connected (mon a) = false -> connectPromise (mon a) = Some p ->
        In p (resolved (mon a)) ->
        mon (start a) = set_pendingConnect true (mon a) /\
        connected (mon (start a)) = false /\
        log (start a)
        = log a ++ [AFetch (next_fetch a)
                      ("/instances/" ++ instance_id a ++ "/sslsplit/enable")%string "POST"] /\
        calls (start a) = calls a ++ [(next_call a, StartFetch (next_fetch a))]) /\
    (forall p st,
        In (p, st) (tasks (mon a)) ->
        mon (start a) = set_pendingConnect true (mon a) /\
        log (start a) = log a /\
        calls (start a) = calls a ++ [(next_call a, StartConnect p)]) /\
    (connected (mon a) = false -> connectPromise (mon a) = None ->
     log (start a) = log a ++ [AMon (FxEndpoint (next_promise (mon a)))] /\
     calls (start a) = calls a ++ [(next_call a, StartConnect (next_promise (mon a)))] /\
     tasks (mon (start a)) = [(next_promise (mon a), AwaitEndpoint)] /\
     pending (mon (start a)) = [] /\
     pendingConnect (mon (start a)) = true) /\
    (connected (mon a) = true \/
     (connected (mon a) = false /\ connectPromise (mon a) = None) \/
     exists p, connected (mon a) = false /\ connectPromise (mon a) = Some p /\
               (In p (resolved (mon a)) \/ exists st, In (p, st) (tasks (mon a)))).
Proof.
  intros a Ha. destruct (api_reachable_inv a Ha) as [Hr Hs].
  split; [|split; [|split; [|split]]].
  - intros Hc. unfold start, new_call, connect. cbn [mon connected set_pendingConnect].
    rewrite Hc. unfold start_enable, _fetch, add_call, lift. cbn.
    rewrite emitted_same_trace by reflexivity. cbn. rewrite app_nil_r. auto.
  - intros p Hc Hcp Hres.
    unfold start, new_call. cbn [mon].
    rewrite (connect_joins (mon a) p Hc Hcp).
    set (a0 := mkApi (mon a) (instance_id a) (calls a) (S (next_call a))
                 (next_fetch a) (log a)).
    assert (Hs0 : settled a0) by exact Hs.
    rewrite (wake_after_resolved a0 (next_call a) p
               (set_pendingConnect true (mon a)) Hs0 eq_refl Hres).
    unfold start_enable, _fetch, add_call, lift. cbn.
    rewrite emitted_same_trace by reflexivity. cbn. rewrite app_nil_r. auto.
  - intros p st Hin. destruct (in_flight (mon a) p st Hr Hin) as (Ht & Hcp & Hc & Hnr).
    unfold start, new_call. cbn [mon].
    rewrite (connect_joins (mon a) p Hc Hcp).
    set (a0 := mkApi (mon a) (instance_id a) (calls a) (S (next_call a))
                 (next_fetch a) (log a)).
    assert (Hs0 : settled a0) by exact Hs.
    rewrite (wake_after_join a0 (next_call a) (StartConnect p) p
               (set_pendingConnect true (mon a)) Hs0 eq_refl eq_refl Hnr).
    cbn. rewrite emitted_same_trace by reflexivity. cbn. rewrite app_nil_r. auto.
  - intros Hc Hcp.
    pose proof (reachable_loop_inv (mon a) Hr) as Hinv.
    pose proof (loop_inv_no_promise (mon a) Hinv Hcp) as Ht.
    destruct Hinv as [Hres _].
    assert (E : connect (mon a)
                = (Some (next_promise (mon a)),
                   set_connectPromise (Some (next_promise (mon a)))
                     (start_connect (next_promise (mon a))
                        (set_next_promise (S (next_promise (mon a)))
                           (set_pendingConnect true (mon a)))))).
    { unfold connect. cbn [connected set_pendingConnect]. rewrite Hc.
      unfold reconnect. cbn [connected set_pendingConnect]. rewrite Hc.
      cbn [connectPromise set_pendingConnect]. rewrite Hcp.
      unfold loop_head. reflexivity. }
    unfold start, new_call. cbn [mon]. rewrite E.
    set (p := next_promise (mon a)) in *.
    set (s' := set_connectPromise (Some p) _).
    set (a0 := mkApi (mon a) (instance_id a) (calls a) (S (next_call a))
                 (next_fetch a) (log a)).
    assert (Hs0 : settled a0) by exact Hs.
    assert (Hn : ~ In p (resolved s')).
    { subst s'. cbn. intros H. apply Hres in H. subst p. lia. }
    rewrite (wake_after_join a0 (next_call a) (StartConnect p) p s' Hs0 eq_refl eq_refl Hn).
    cbn. rewrite Ht. split; [|auto].
    f_equal. rewrite (emitted_app (mon a) s' [FxEndpoint p]) by reflexivity.
    reflexivity.
  - destruct (connected (mon a)) eqn:Hc; [now left | right].
    destruct (connectPromise (mon a)) as [p|] eqn:Hcp; [right | now left].
    exists p. split; [reflexivity|]. split; [reflexivity|].
    exact (promise_awaited (mon a) Hr p Hcp).
Qed.

Lemma fold_lift_disconnect_hands {A : Type} (l : list A) :
  forall a,
    hands_on (mon a) (mon (fold_left (fun x _ => lift (disconnect (mon x)) x) l a)).
Proof.
  induction l as [|c rest IH]; intros a; cbn [fold_left]; [apply hands_on_refl|].
  eapply hands_on_trans; [|apply IH]. cbn [mon lift].
  apply hands_on_quiet, quiet_disconnect.
Qed.

Lemma waiting_well_lift (a : api) (s' : state) :
  waiting_well a -> hands_on (mon a) s' -> waiting_well (lift s' a).
Proof.
  intros Hw Hh c cs p Hin Hp. cbn [mon lift calls] in *.
  apply awaited_hands_on with (s := mon a); [exact Hh | eapply Hw; eauto].
Qed.

Lemma waiting_well_add (a : api) (c : nat) (cs : call_state) :
  waiting_well a ->
  (forall p, waits_on cs = Some p -> awaited (mon a) p) ->
  waiting_well (add_call c cs a).
Proof.
  intros Hw Hn c' cs' p Hin Hp. cbn [mon add_call calls] in *.
  apply in_app_or in Hin. destruct Hin as [Hin | [E | []]]; [eapply Hw; eauto|].
  inversion E; subst c' cs'. auto.
Qed.

Lemma waiting_well_wake (a : api) : waiting_well a -> waiting_well (wake a).
Proof.
  intros Hw. unfold wake.
  set (ready := filter (is_ready (resolved (mon a))) (calls a)).
  set (rest := filter (fun c => negb (is_ready (resolved (mon a)) c)) (calls a)).
  set (senders := match ws (mon a) with Some _ => filter is_clear ready | None => [] end).
  set (a1 := fold_left resume1 ready (set_calls rest a)).
  destruct (fold_resume1_frame ready (set_calls rest a)) as [M1 C1]. fold a1 in M1, C1.
  cbn [mon set_calls] in M1. cbn [calls set_calls] in C1.
  pose proof (fold_lift_disconnect_hands senders a1) as H2.
  assert (C2 : forall (l : list (nat * call_state)) x,
             calls (fold_left (fun x _ => lift (disconnect (mon x)) x) l x) = calls x)
    by (induction l as [|y l IH]; intros x; cbn [fold_left];
        [reflexivity | rewrite IH; reflexivity]).
  rewrite fold_say. intros c cs p Hin Hp. cbn [mon calls] in *.
  rewrite C2 in Hin. apply awaited_hands_on with (s := mon a1); [exact H2|].
  rewrite M1. destruct (C1 _ Hin) as [H | (c' & r & E)].
  - subst rest. apply filter_In in H. destruct H as [H _]. eapply Hw; eauto.
  - inversion E; subst c cs. discriminate.
Qed.

Lemma waiting_well_smaller (a : api) (l : list (nat * call_state)) :
  waiting_well a -> (forall x, In x l -> In x (calls a)) -> waiting_well (set_calls l a).
Proof.
  intros Hw Hsub c cs p Hin Hp. cbn [mon set_calls calls] in *. eapply Hw; eauto.
Qed.

Lemma waiting_well_say (a : api) (e : api_effect) :
  waiting_well a -> waiting_well (say e a).
Proof. intros Hw c cs p Hin Hp. cbn [mon say calls] in *. eapply Hw; eauto. Qed.

(** A call that awaits [connect()] awaits a promise with a loop behind it. *)
Lemma connect_awaited (s : state) (p : nat) :
  reachable s -> fst (connect s) = Some p -> awaited (snd (connect s)) p.
Proof.
  intros Hr Hp. apply promise_awaited.
  - change (snd (connect s)) with (step s EvConnect). now constructor.
  - now apply connect_returns_stored.
Qed.

Lemma api_step_waiting (a : api) (ev : api_event) :
  reachable (mon a) -> waiting_well a -> waiting_well (api_step a ev).
Proof.
  intros Hr Hw. destruct ev; cbn [api_step].
  - unfold start, new_call. cbn [mon].
    pose proof (hands_on_connect (mon a)) as Hh.
    pose proof (connect_awaited (mon a)) as Ha.
    destruct (connect (mon a)) as [po s']. cbn [fst snd] in *.
    assert (Hl : waiting_well
                   (lift s' (mkApi (mon a) (instance_id a) (calls a) (S (next_call a))
                               (next_fetch a) (log a))))
      by (apply waiting_well_lift; [exact Hw | exact Hh]).
    destruct po as [p|].
    + apply waiting_well_wake, waiting_well_add; [exact Hl|].
      intros q E. inversion E; subst q. now apply Ha.
    + unfold start_enable, _fetch. cbn [mon lift instance_id calls next_call next_fetch log].
      apply waiting_well_add; [|discriminate].
      intros c cs p Hin Hp. eapply Hl; eauto.
  - unfold stop, new_call, _fetch. cbn [mon instance_id calls next_call next_fetch log].
    apply waiting_well_add; [|discriminate].
    intros c cs p Hin Hp. eapply Hw; eauto.
  - unfold clearLog, new_call. cbn [mon].
    destruct (connected (mon a)).
    + destruct (ws (mon a)); repeat apply waiting_well_say;
        intros c cs p Hin Hp; eapply Hw; eauto.
    + pose proof (hands_on_connect (mon a)) as Hh.
      pose proof (connect_awaited (mon a)) as Ha.
      destruct (connect (mon a)) as [po s']. cbn [fst snd] in *.
      assert (Hl : waiting_well
                     (lift s' (mkApi (mon a) (instance_id a) (calls a) (S (next_call a))
                                 (next_fetch a) (log a))))
        by (apply waiting_well_lift; [exact Hw | exact Hh]).
      destruct po as [p|].
      * apply waiting_well_wake, waiting_well_add; [exact Hl|].
        intros q E. inversion E; subst q. now apply Ha.
      * cbn [mon lift]. destruct (ws s').
        -- apply waiting_well_say, waiting_well_lift.
           ++ apply waiting_well_say. exact Hl.
           ++ apply hands_on_quiet, quiet_disconnect.
        -- apply waiting_well_say. exact Hl.
  - unfold on_fetch. destruct (find_fetch r (calls a)) as [[c is_stop]|]; [|exact Hw].
    assert (Hs : waiting_well
                   (set_calls (filter (fun x => negb (Nat.eqb (fst x) c)) (calls a)) a)).
    { apply waiting_well_smaller; [exact Hw|].
      intros x Hx. apply filter_In in Hx. tauto. }
    destruct ok; [destruct is_stop|]; apply waiting_well_say; [|exact Hs|exact Hs].
    apply waiting_well_lift; [exact Hs|]. apply hands_on_quiet, quiet_disconnect.
  - apply waiting_well_wake, waiting_well_lift; [exact Hw | apply hands_on_step].
Qed.

Lemma api_reachable_waiting (a : api) : api_reachable a -> waiting_well a.
Proof.
  induction 1 as [id | a ev Ha IH]; [intros c cs p []|].
  apply api_step_waiting; [|exact IH]. now apply api_reachable_inv.
Qed.

(** X16. No caller is left behind.  A call of start() or clearLog() that is
    suspended at [await this.connect()] waits for the promise stored in
    [connectPromise]; that promise is unresolved, the one reconnect loop in
    flight is the loop that will resolve it, and the monitor is not
    connected.  So all the suspended callers wait for the same promise. *)
Theorem suspended_callers_wait_for_the_loop :
  forall (a : api) (c : nat) (cs : call_state) (p : nat),
    api_reachable a ->
    In (c, cs) (calls a) ->
    waits_on cs = Some p ->
    connectPromise (mon a) = Some p /\
    connected (mon a) = false /\
    ~ In p (resolved (mon a)) /\
    exists st, tasks (mon a) = [(p, st)].
Proof.
  intros a c cs p Ha Hin Hp.
  destruct (api_reachable_inv a Ha) as [Hr Hs].
  pose proof (api_reachable_waiting a Ha c cs p Hin Hp) as Haw.
  pose proof (Hs (c, cs) Hin) as Hnr. unfold is_ready in Hnr. cbn [snd] in Hnr.
  rewrite Hp in Hnr. apply existsb_eqb_not_In in Hnr.
  destruct Haw as [R | [st T]]; [contradiction|].
  destruct (in_flight (mon a) p st Hr T) as (Ht & Hcp & Hc & _).
  repeat split; eauto.
Qed.

Lemma mon_wake (a : api) : hands_on (mon a) (mon (wake a)).
Proof.
  unfold wake. rewrite fold_say. cbn [mon].
  eapply hands_on_trans; [|apply fold_lift_disconnect_hands].
  destruct (fold_resume1_frame
              (filter (is_ready (resolved (mon a))) (calls a))
              (set_calls (filter (fun c => negb (is_ready (resolved (mon a)) c)) (calls a)) a))
    as [M _].
  rewrite M. apply hands_on_refl.
Qed.

(** The state of the monitor after the continuations of a turn: if a
    [clearLog()] continues while a socket is held, it has disconnected. *)
Lemma wake_mon (a : api) :
  mon (wake a)
  = match ws (mon a),
          filter is_clear (filter (is_ready (resolved (mon a))) (calls a)) with
    | Some _, _ :: _ => disconnect (mon a)
    | _, _ => mon a
    end.
Proof.
  unfold wake. rewrite fold_say. cbn [mon].
  set (ready := filter (is_ready (resolved (mon a))) (calls a)).
  set (rest := filter (fun c => negb (is_ready (resolved (mon a)) c)) (calls a)).
  destruct (fold_resume1_frame ready (set_calls rest a)) as [M _].
  cbn [mon set_calls] in M.
  destruct (ws (mon a)) as [w|]; [|cbn [fold_left]; exact M].
  destruct (filter is_clear ready) as [|x l] eqn:E; [cbn [fold_left]; exact M|].
  rewrite fold_disconnect by discriminate. cbn [mon lift]. now rewrite M.
Qed.

(** A suspended caller waits for the promise stored in [connectPromise]. *)
Lemma waiter_on_stored (a : api) (c : nat) (cs : call_state) (p : nat) :
  api_reachable a -> In (c, cs) (calls a) -> waits_on cs = Some p ->
  connectPromise (mon a) = Some p /\ exists st, In (p, st) (tasks (mon a)).
Proof.
  intros Ha Hin Hp.
  destruct (api_reachable_inv a Ha) as [Hr Hs].
  pose proof (api_reachable_waiting a Ha c cs p Hin Hp) as Haw.
  pose proof (Hs (c, cs) Hin) as Hnr. unfold is_ready in Hnr. cbn [snd] in Hnr.
  rewrite Hp in Hnr. apply existsb_eqb_not_In in Hnr.
  destruct Haw as [R | [st T]]; [contradiction|].
  destruct (in_flight (mon a) p st Hr T) as (_ & Hcp & _).
  split; [exact Hcp | now exists st].
Qed.

(** X17. A call of start() or clearLog() that is suspended at
    [await this.connect()] stays suspended through every failed attempt.  As
    long as the step of the monitor does not resolve the promise it waits for,
    the turn only records what the monitor did: no call continues, none is
    rejected, no request is made; and the promise is not resolved by any step
    taken while a connection is wanted that leaves the monitor unconnected.
    The call leaves the [await] in the very turn whose monitor step resolves
    the promise, and that step has left the monitor connected unless
    [pendingConnect] was false before it.  What is meant is the state right
    after the monitor step: the continuations run later in the same turn, and
    if a suspended [clearLog()] is among them while a socket is held, it
    disconnects, so that the turn ends with the monitor disconnected;
    otherwise the turn ends in the state the monitor step left. *)
Theorem suspended_call_continues_only_when_loop_ends :
  forall (a : api) (c : nat) (cs : call_state) (p : nat) (e : event),
    api_reachable a ->
    In (c, cs) (calls a) ->
    waits_on cs = Some p ->
    (~ In p (resolved (step (mon a) e)) ->
     api_step a (OnMonitor e) = lift (step (mon a) e) a /\
     In (c, cs) (calls (api_step a (OnMonitor e)))) /\
    (pendingConnect (mon a) = true -> connected (step (mon a) e) = false ->
     ~ In p (resolved (step (mon a) e))) /\
    (In p (resolved (step (mon a) e)) ->
     (connected (step (mon a) e) = true \/ pendingConnect (mon a) = false) /\
     ~ In (c, cs) (calls (api_step a (OnMonitor e))) /\
     (filter is_clear (calls a) = [] ->
      mon (api_step a (OnMonitor e)) = step (mon a) e) /\
     (filter is_clear (calls a) <> [] ->
      mon (api_step a (OnMonitor e))
      = match ws (step (mon a) e) with
        | Some _ => disconnect (step (mon a) e)
        | None => step (mon a) e
        end)).
Proof.
  intros a c cs p e Ha Hin Hp.
  destruct (api_reachable_inv a Ha) as [Hr Hs].
  destruct (waiter_on_stored a c cs p Ha Hin Hp) as [Hcp [st T]].
  assert (Hsame : forall c' cs' p', In (c', cs') (calls a) -> waits_on cs' = Some p' -> p' = p).
  { intros c' cs' p' Hin' Hp'.
    destruct (waiter_on_stored a c' cs' p' Ha Hin' Hp') as [Hcp' _]. congruence. }
  assert (Hgate : In p (resolved (step (mon a) e)) ->
                  connected (step (mon a) e) = true \/ pendingConnect (mon a) = false)
    by exact (loop_resolves_connected_or_cancelled (mon a) e p st Hr T).
  split; [|split].
  - intros Hn.
    assert (E : api_step a (OnMonitor e) = lift (step (mon a) e) a).
    { cbn [api_step]. apply wake_idle. cbn [calls mon lift].
      intros [c' cs'] Hin'. unfold is_ready. cbn [snd].
      destruct (waits_on cs') as [p'|] eqn:Hp'; [|reflexivity].
      rewrite (Hsame c' cs' p' Hin' Hp'). now apply existsb_eqb_not_In. }
    split; [exact E|]. rewrite E. exact Hin.
  - intros Hw Hc Hres. destruct (Hgate Hres); congruence.
  - intros Hres. split; [exact (Hgate Hres)|].
    assert (Hready : forall x, In x (calls a) -> is_clear x = true ->
                               is_ready (resolved (step (mon a) e)) x = true).
    { intros [c' cs'] Hin' Hcl. unfold is_clear in Hcl. cbn [snd] in Hcl.
      destruct cs' as [q0|r|r|q]; try discriminate.
      rewrite (Hsame c' (ClearConnect q) q Hin' eq_refl).
      unfold is_ready. cbn [snd waits_on]. now apply existsb_eqb_In. }
    split; [|split].
    + cbn [api_step]. intros Hin'.
      assert (Hr' : reachable (mon (lift (step (mon a) e) a)))
        by (cbn [mon lift]; now constructor).
      destruct (wake_inv _ Hr') as [_ Hs'].
      pose proof (Hs' (c, cs) Hin') as Hnr'. unfold is_ready in Hnr'. cbn [snd] in Hnr'.
      rewrite Hp in Hnr'. apply existsb_eqb_not_In in Hnr'. apply Hnr'.
      destruct (mon_wake (lift (step (mon a) e) a)) as (M & _). apply M. exact Hres.
    + intros Hnone. cbn [api_step]. rewrite wake_mon. cbn [mon calls lift].
      assert (N : filter is_clear
                    (filter (is_ready (resolved (step (mon a) e))) (calls a)) = []).
      { apply filter_none. intros x Hx. apply filter_In in Hx. destruct Hx as [Hx _].
        destruct (is_clear x) eqn:Hcl; [|reflexivity].
        assert (Hf : In x (filter is_clear (calls a))) by (apply filter_In; auto).
        rewrite Hnone in Hf. destruct Hf. }
      rewrite N. destruct (ws (step (mon a) e)); reflexivity.
    + intros Hsome. cbn [api_step]. rewrite wake_mon. cbn [mon calls lift].
      destruct (ws (step (mon a) e)) as [w|]; [|reflexivity].
      destruct (filter is_clear (calls a)) as [|x l] eqn:Hf; [congruence|].
      assert (Hx : In x (filter is_clear (calls a))) by (rewrite Hf; now left).
      apply filter_In in Hx. destruct Hx as [Hx Hcl].
      assert (Hx' : In x (filter is_clear
                            (filter (is_ready (resolved (step (mon a) e))) (calls a)))).
      { apply filter_In. split; [|exact Hcl]. apply filter_In. auto. }
      destruct (filter is_clear
                  (filter (is_ready (resolved (step (mon a) e))) (calls a)));
        [destruct Hx' | reflexivity].
Qed.

(** ** Only connect() asks for a connection *)

Lemma wish_disconnect_ (s : state) : pendingConnect (_disconnect s) = pendingConnect s.
Proof. rewrite _disconnect_spec. reflexivity. Qed.

Lemma wish_startKeepAlive (s : state) :
  pendingConnect (_startKeepAlive s) = pendingConnect s.
Proof.
  unfold _startKeepAlive. destruct (connected s); [|reflexivity].
  destruct (ws s); reflexivity.
Qed.

Lemma wish_drop_socket (w : nat) (s : state) :
  pendingConnect (drop_socket w s) = pendingConnect s.
Proof.
  unfold drop_socket. destruct (canonical w s); [apply wish_disconnect_ | reflexivity].
Qed.

Lemma wish_loop_head (p : nat) (s : state) :
  pendingConnect (loop_head p s) = pendingConnect s.
Proof. unfold loop_head. destruct (pendingConnect s) eqn:E; cbn; exact E. Qed.

Lemma wish_reject_open (w : nat) (e : err) (s : state) :
  pendingConnect (reject_open w e s) = pendingConnect s.
Proof. unfold reject_open. destruct (awaiting w (tasks s)); reflexivity. Qed.

Lemma wish_resolve_open (w : nat) (s : state) :
  pendingConnect (resolve_open w s) = pendingConnect s.
Proof.
  unfold resolve_open. destruct (awaiting w (tasks s)); [|reflexivity].
  unfold finish_loop.
  cbn [pendingConnect emit set_trace set_resolved set_tasks set_connectPromise].
  rewrite wish_startKeepAlive. reflexivity.
Qed.

Lemma wish_on_endpoint (p : nat) (r : option string) (s : state) :
  pendingConnect (on_endpoint p r s) = pendingConnect s.
Proof.
  unfold on_endpoint. destruct (lookup_task p (tasks s)) as [[| |]|]; try reflexivity.
  destruct r; [destruct (pendingConnect s) eqn:E; cbn; exact E | reflexivity].
Qed.

Lemma wish_on_open (w : nat) (s : state) :
  pendingConnect (on_open w s) = pendingConnect s.
Proof.
  unfold on_open. destruct (nth_error (socks s) w) as [i|]; [|reflexivity].
  destruct (open_once i); [|reflexivity].
  destruct (canonical w (upd_sock w clear_open_once s)).
  - rewrite wish_resolve_open. reflexivity.
  - rewrite wish_reject_open. reflexivity.
Qed.

Lemma wish_on_message (d : frame) (out : outcome) (s : state) :
  pendingConnect (on_message d out s) = pendingConnect s.
Proof.
  unfold on_message. destruct (decode d) as [[m k]|]; [|reflexivity].
  destruct (handler s); [|reflexivity].
  destruct out as [|v|]; try reflexivity. destruct v; reflexivity.
Qed.

Lemma wish_on_settle (c : nat) (r : option bool) (s : state) :
  pendingConnect (on_settle c r s) = pendingConnect s.
Proof.
  unfold on_settle. destruct (lookup_cont c (conts s)); [|reflexivity].
  destruct r as [[|]|]; reflexivity.
Qed.

Lemma wish_on_error (w : nat) (e : string) (s : state) :
  pendingConnect (on_error w e s) = pendingConnect s.
Proof.
  unfold on_error. destruct (nth_error (socks s) w) as [i|]; [|reflexivity].
  destruct (error_once i || error_on i); [|reflexivity].
  destruct (error_once i), (error_on i);
    rewrite ?wish_reject_open; cbn [emit set_trace pendingConnect];
    rewrite ?wish_drop_socket; cbn [fail_all set_pending set_trace pendingConnect];
    rewrite ?wish_drop_socket; reflexivity.
Qed.

Lemma wish_pong_listener (w : nat) (s : state) :
  pendingConnect (pong_listener w s) = pendingConnect s.
Proof.
  unfold pong_listener. destruct (canonical w s); [|reflexivity].
  destruct (_keepAliveTimeout s); reflexivity.
Qed.

Lemma wish_iter (n : nat) (f : state -> state) :
  (forall s, pendingConnect (f s) = pendingConnect s) ->
  forall s, pendingConnect (iter n f s) = pendingConnect s.
Proof.
  intros Hf. induction n as [|n IH]; intros s; cbn; [reflexivity|].
  rewrite IH. apply Hf.
Qed.

Lemma wish_on_pong (w : nat) (s : state) :
  pendingConnect (on_pong w s) = pendingConnect s.
Proof.
  unfold on_pong. destruct (nth_error (socks s) w) as [i|]; [|reflexivity].
  rewrite wish_iter by apply wish_pong_listener. reflexivity.
Qed.

Lemma wish_on_timer (t : nat) (s : state) :
  pendingConnect (on_timer t s) = pendingConnect s.
Proof.
  unfold on_timer. destruct (find_timer t s) as [x|]; [|reflexivity].
  destruct (N.leb (t_due x) (now s)); [|reflexivity].
  destruct (t_act x) as [p|w|].
  - destruct (lookup_task p (tasks (clearTimeout t s))) as [[| |t']|]; try reflexivity.
    destruct (Nat.eqb t' t); [|reflexivity]. rewrite wish_loop_head. reflexivity.
  - unfold on_deadline. destruct (canonical w (clearTimeout t s)); [|reflexivity].
    rewrite wish_disconnect_. reflexivity.
  - rewrite wish_startKeepAlive. reflexivity.
Qed.

Lemma wish_reconnect (s : state) :
  pendingConnect (snd (reconnect s))
  = pendingConnect (if connected s then disconnect s else s).
Proof.
  unfold reconnect. set (s1 := if connected s then disconnect s else s).
  destruct (connectPromise s1); cbn [snd]; [reflexivity|].
  change (pendingConnect (set_connectPromise (Some (next_promise s1))
                            (loop_head (next_promise s1)
                               (set_next_promise (S (next_promise s1)) s1))))
    with (pendingConnect (loop_head (next_promise s1)
                            (set_next_promise (S (next_promise s1)) s1))).
  rewrite wish_loop_head. reflexivity.
Qed.

(** Nothing but [connect()] sets [pendingConnect]. *)
Lemma wish_step (s : state) (e : event) :
  e <> EvConnect -> pendingConnect (step s e) = true -> pendingConnect s = true.
Proof.
  intros Hne. destruct e; cbn [step].
  - congruence.
  - rewrite wish_reconnect. destruct (connected s); [|auto].
    unfold disconnect. rewrite wish_disconnect_. cbn. discriminate.
  - unfold disconnect. rewrite wish_disconnect_. cbn. discriminate.
  - auto.
  - auto.
  - now rewrite wish_on_endpoint.
  - now rewrite wish_on_open.
  - destruct (has_sock w s); [now rewrite wish_on_message | auto].
  - destruct (has_sock w s); [|auto]. unfold on_close. now rewrite wish_disconnect_.
  - now rewrite wish_on_error.
  - now rewrite wish_on_pong.
  - now rewrite wish_on_settle.
  - now rewrite wish_on_timer.
  - auto.
Qed.

(** A monitor that was told to disconnect stays away. *)
Lemma stays_away (evs : list event) :
  forall s : state,
    pendingConnect s = false -> connected s = false -> ws s = None ->
    ~ In EvConnect evs ->
    pendingConnect (run s evs) = false /\ connected (run s evs) = false /\
    ws (run s evs) = None /\
    List.length (socks (run s evs)) = List.length (socks s).
Proof.
  induction evs as [|e evs IH]; intros s Hp Hc Hw Hno; [cbn; auto|].
  assert (Hne : e <> EvConnect) by (intros ->; apply Hno; now left).
  assert (Hno' : ~ In EvConnect evs) by (intros H; apply Hno; now right).
  assert (Hp' : pendingConnect (step s e) = false).
  { destruct (pendingConnect (step s e)) eqn:E; [|reflexivity].
    rewrite (wish_step s e Hne E) in Hp. discriminate. }
  assert (Hrest : connected (step s e) = false /\ ws (step s e) = None /\
                  List.length (socks (step s e)) = List.length (socks s)).
  { assert (Tame : tame s (step s e) ->
                   connected (step s e) = false /\ ws (step s e) = None /\
                   List.length (socks (step s e)) = List.length (socks s)).
    { intros (T1 & T2 & T3). split; [|split; [|exact T3]].
      - destruct (connected (step s e)); [|reflexivity].
        rewrite (T1 eq_refl) in Hc. discriminate.
      - assert (D : ws (step s e) = None \/ exists w, ws (step s e) = Some w)
          by (destruct (ws (step s e)) as [w|]; eauto).
        destruct D as [D | [w D]]; [exact D|].
        rewrite (T2 w D) in Hw. discriminate. }
    destruct e; try (apply Tame, tame_step; discriminate).
    - cbn [step]. unfold on_endpoint.
      destruct (lookup_task p (tasks s)) as [[| |]|]; auto.
      destruct r; [rewrite Hp|]; cbn; auto.
    - cbn [step]. unfold on_open.
      destruct (nth_error (socks s) w) as [i|]; [|auto].
      destruct (open_once i); [|auto].
      assert (Cn : canonical w (upd_sock w clear_open_once s) = false)
        by (unfold canonical; cbn; rewrite Hw; reflexivity).
      rewrite Cn. unfold reject_open.
      destruct (awaiting w _); cbn; rewrite length_upd_nth; auto. }
  destruct Hrest as (Hc' & Hw' & Hl).
  destruct (IH (step s e) Hp' Hc' Hw' Hno') as (A & B & C & D).
  cbn [run fold_left]. fold (run (step s e) evs).
  repeat split; auto. congruence.
Qed.

(** X9. [disconnect()] is final.  After a call of [disconnect()], in
    whatever state, and until [connect()] is called again, the monitor never
    becomes connected, holds no socket and creates none, and [pendingConnect]
    stays false, whichever callbacks arrive (a late endpoint, a late 'open',
    timers) and even if [reconnect()] is called. *)
Theorem disconnect_is_final :
  forall (s : state) (evs : list event),
    ~ In EvConnect evs ->
    connected (run (disconnect s) evs) = false /\
    ws (run (disconnect s) evs) = None /\
    pendingConnect (run (disconnect s) evs) = false /\
    List.length (socks (run (disconnect s) evs)) = List.length (socks s).
Proof.
  intros s evs Hno.
  assert (D : pendingConnect (disconnect s) = false /\ connected (disconnect s) = false /\
              ws (disconnect s) = None /\ socks (disconnect s) = socks s).
  { unfold disconnect. rewrite _disconnect_spec. cbn. auto. }
  destruct D as (D1 & D2 & D3 & D4).
  destruct (stays_away evs (disconnect s) D1 D2 D3 Hno) as (A & B & C & E).
  rewrite D4 in E. auto.
Qed.

(** ** The numbers of the timers *)

Lemma younger_refl (s : state) : younger s s.
Proof. split; auto. Qed.

Lemma younger_trans (s1 s2 s3 : state) : younger s1 s2 -> younger s2 s3 -> younger s1 s3.
Proof.
  intros [A1 B1] [A2 B2]. split; [lia|].
  intros x Hx. destruct (B2 x Hx) as [H | H]; [|right; lia].
  destruct (B1 x H) as [H' | H']; [auto | right; lia].
Qed.

(** A step that leaves the timers alone. *)
Lemma younger_same (s s' : state) :
  timers s' = timers s -> next_timer s' = next_timer s -> younger s s'.
Proof. intros Ht Hn. unfold younger. rewrite Ht, Hn. auto. Qed.

Lemma younger_clearTimeout (t : nat) (s : state) : younger s (clearTimeout t s).
Proof.
  split; [cbn; auto|]. intros x Hx. left. cbn in Hx. apply filter_In in Hx. tauto.
Qed.

Lemma younger_setTimeout (a : taction) (ms : N) (s : state) :
  younger s (snd (setTimeout a ms s)).
Proof.
  split; [cbn; auto|]. intros x Hx. cbn in Hx. apply in_app_or in Hx.
  destruct Hx as [Hx | [<- | []]]; [auto|]. right. cbn. lia.
Qed.

Lemma younger_stopKeepAlive (s : state) : younger s (_stopKeepAlive s).
Proof.
  unfold _stopKeepAlive. destruct (_keepAliveTimeout s) as [t|]; [|apply younger_refl].
  eapply younger_trans; [apply younger_clearTimeout | apply younger_same; reflexivity].
Qed.

Lemma younger_disconnect_ (s : state) : younger s (_disconnect s).
Proof.
  unfold _disconnect.
  set (s1 := _stopKeepAlive (set_handler None (set_connected false s))).
  assert (Y1 : younger s s1).
  { eapply younger_trans; [|apply younger_stopKeepAlive]. apply younger_same; reflexivity. }
  destruct (ws s1); [|exact Y1].
  eapply younger_trans; [exact Y1 | apply younger_same; reflexivity].
Qed.

Lemma younger_disconnect (s : state) : younger s (disconnect s).
Proof.
  unfold disconnect. eapply younger_trans; [|apply younger_disconnect_].
  apply younger_same; reflexivity.
Qed.

Lemma younger_startKeepAlive (s : state) : younger s (_startKeepAlive s).
Proof.
  unfold _startKeepAlive. destruct (connected s); [|apply younger_refl].
  destruct (ws s) as [w|]; [|apply younger_same; reflexivity].
  eapply younger_trans; [|apply younger_same; reflexivity].
  eapply younger_trans; [|apply younger_same; reflexivity].
  eapply younger_trans; [|apply (younger_setTimeout (TDeadline w) 10000)].
  apply younger_same; reflexivity.
Qed.

Lemma younger_drop_socket (w : nat) (s : state) : younger s (drop_socket w s).
Proof.
  unfold drop_socket. destruct (canonical w s);
    [apply younger_disconnect_ | apply younger_same; reflexivity].
Qed.

Lemma younger_backoff (p : nat) (e : err) (s : state) : younger s (backoff p e s).
Proof.
  unfold backoff.
  eapply younger_trans; [|apply younger_same; reflexivity].
  eapply younger_trans; [|apply (younger_setTimeout (TBackoff p) 1000)].
  apply younger_same; reflexivity.
Qed.

Lemma younger_loop_head (p : nat) (s : state) : younger s (loop_head p s).
Proof. unfold loop_head. destruct (pendingConnect s); apply younger_same; reflexivity. Qed.

Lemma younger_reject_open (w : nat) (e : err) (s : state) : younger s (reject_open w e s).
Proof.
  unfold reject_open. destruct (awaiting w (tasks s));
    [apply younger_backoff | apply younger_refl].
Qed.

Lemma younger_resolve_open (w : nat) (s : state) : younger s (resolve_open w s).
Proof.
  unfold resolve_open. destruct (awaiting w (tasks s)); [|apply younger_refl].
  eapply younger_trans; [|apply younger_same; reflexivity].
  eapply younger_trans; [|apply younger_startKeepAlive].
  apply younger_same; reflexivity.
Qed.

Lemma younger_reconnect (s : state) : younger s (snd (reconnect s)).
Proof.
  unfold reconnect. set (s1 := if connected s then disconnect s else s).
  assert (Y1 : younger s s1)
    by (subst s1; destruct (connected s); [apply younger_disconnect | apply younger_refl]).
  destruct (connectPromise s1); cbn [snd]; [exact Y1|].
  eapply younger_trans; [exact Y1|].
  eapply younger_trans; [|apply younger_same; reflexivity].
  eapply younger_trans; [|apply younger_loop_head].
  apply younger_same; reflexivity.
Qed.

Lemma younger_connect (s : state) : younger s (snd (connect s)).
Proof.
  unfold connect.
  assert (Y1 : younger s (set_pendingConnect true s)) by (apply younger_same; reflexivity).
  destruct (connected (set_pendingConnect true s)); [exact Y1|].
  pose proof (younger_reconnect (set_pendingConnect true s)) as H.
  destruct (reconnect (set_pendingConnect true s)) as [p s'].
  eapply younger_trans; [exact Y1 | exact H].
Qed.

Lemma younger_on_endpoint (p : nat) (r : option string) (s : state) :
  younger s (on_endpoint p r s).
Proof.
  unfold on_endpoint. destruct (lookup_task p (tasks s)) as [[| |]|];
    try apply younger_refl.
  destruct r; [|apply younger_backoff].
  destruct (pendingConnect s); [apply younger_same; reflexivity | apply younger_backoff].
Qed.

Lemma younger_on_open (w : nat) (s : state) : younger s (on_open w s).
Proof.
  unfold on_open. destruct (nth_error (socks s) w) as [i|]; [|apply younger_refl].
  destruct (open_once i); [|apply younger_refl].
  destruct (canonical w (upd_sock w clear_open_once s)).
  - eapply younger_trans; [|apply younger_resolve_open]. apply younger_same; reflexivity.
  - eapply younger_trans; [|apply younger_reject_open]. apply younger_same; reflexivity.
Qed.

Lemma younger_on_message (d : frame) (out : outcome) (s : state) :
  younger s (on_message d out s).
Proof.
  unfold on_message. destruct (decode d) as [[m k]|]; [|apply younger_same; reflexivity].
  destruct (handler s); [|apply younger_refl].
  destruct out as [|v|]; try (apply younger_same; reflexivity).
  destruct v; apply younger_same; reflexivity.
Qed.

Lemma younger_on_settle (c : nat) (r : option bool) (s : state) :
  younger s (on_settle c r s).
Proof.
  unfold on_settle. destruct (lookup_cont c (conts s)); [|apply younger_refl].
  destruct r as [[|]|]; apply younger_same; reflexivity.
Qed.

Lemma younger_on_close (reason : string) (s : state) : younger s (on_close reason s).
Proof.
  unfold on_close. eapply younger_trans; [|apply younger_disconnect_].
  apply younger_same; reflexivity.
Qed.

Lemma younger_on_error (w : nat) (e : string) (s : state) : younger s (on_error w e s).
Proof.
  unfold on_error. destruct (nth_error (socks s) w) as [i|]; [|apply younger_refl].
  destruct (error_once i || error_on i); [|apply younger_same; reflexivity].
  set (s1 := if error_once i then drop_socket w (upd_sock w clear_error_once s) else s).
  assert (Y1 : younger s s1).
  { subst s1. destruct (error_once i); [|apply younger_refl].
    eapply younger_trans; [|apply younger_drop_socket]. apply younger_same; reflexivity. }
  set (s2 := if error_on i
             then emit (FxLog "error in netmon socket")
                    (drop_socket w (fail_all (ETransport e) s1))
             else s1).
  assert (Y2 : younger s s2).
  { eapply younger_trans; [exact Y1|]. subst s2.
    destruct (error_on i); [|apply younger_refl].
    eapply younger_trans; [|apply younger_same; reflexivity].
    eapply younger_trans; [|apply younger_drop_socket]. apply younger_same; reflexivity. }
  destruct (error_once i); [|exact Y2].
  eapply younger_trans; [exact Y2 | apply younger_reject_open].
Qed.

Lemma younger_pong_listener (w : nat) (s : state) : younger s (pong_listener w s).
Proof.
  unfold pong_listener. destruct (canonical w s); [|apply younger_refl].
  set (s1 := match _keepAliveTimeout s with
             | Some t => clearTimeout t s
             | None => s
             end).
  assert (Y1 : younger s s1)
    by (subst s1; destruct (_keepAliveTimeout s);
        [apply younger_clearTimeout | apply younger_refl]).
  apply younger_trans with (set_keepAliveTimeout None s1);
    [|apply (younger_setTimeout TIdle 10000)].
  apply younger_trans with s1; [exact Y1 | apply younger_same; reflexivity].
Qed.

Lemma younger_iter (n : nat) (f : state -> state) :
  (forall s, younger s (f s)) -> forall s, younger s (iter n f s).
Proof.
  intros Hf. induction n as [|n IH]; intros s; cbn; [apply younger_refl|].
  eapply younger_trans; [apply Hf | apply IH].
Qed.

Lemma younger_on_pong (w : nat) (s : state) : younger s (on_pong w s).
Proof.
  unfold on_pong. destruct (nth_error (socks s) w) as [i|]; [|apply younger_refl].
  eapply younger_trans; [|apply younger_iter, younger_pong_listener].
  apply younger_same; reflexivity.
Qed.

Lemma younger_on_timer (t : nat) (s : state) : younger s (on_timer t s).
Proof.
  unfold on_timer. destruct (find_timer t s) as [x|]; [|apply younger_refl].
  destruct (N.leb (t_due x) (now s)); [|apply younger_refl].
  eapply younger_trans; [apply younger_clearTimeout|].
  destruct (t_act x) as [p|w|].
  - destruct (lookup_task p (tasks (clearTimeout t s))) as [[| |t']|];
      try apply younger_refl.
    destruct (Nat.eqb t' t); [apply younger_loop_head | apply younger_refl].
  - unfold on_deadline. destruct (canonical w (clearTimeout t s));
      [|apply younger_same; reflexivity].
    eapply younger_trans; [|apply younger_disconnect_]. apply younger_same; reflexivity.
  - apply younger_startKeepAlive.
Qed.

Lemma younger_step (s : state) (e : event) : younger s (step s e).
Proof.
  destruct e; cbn [step].
  - apply younger_connect.
  - apply younger_reconnect.
  - apply younger_disconnect.
  - apply younger_same; reflexivity.
  - apply younger_same; reflexivity.
  - apply younger_on_endpoint.
  - apply younger_on_open.
  - destruct (has_sock w s); [apply younger_on_message | apply younger_refl].
  - destruct (has_sock w s); [apply younger_on_close | apply younger_refl].
  - apply younger_on_error.
  - apply younger_on_pong.
  - apply younger_on_settle.
  - apply younger_on_timer.
  - apply younger_same; reflexivity.
Qed.

(** Every timer of a reachable state was created before [next_timer]. *)
Lemma reachable_timers_fresh (s : state) : reachable s -> timers_fresh s.
Proof.
  induction 1 as [|s e _ IH]; [intros x []|].
  destruct (younger_step s e) as [A B]. intros x Hx.
  destruct (B x Hx) as [H | H]; [|lia]. specialize (IH x H). lia.
Qed.

(** X10. The loop connects after any number of failures.  In a reachable
    state in which the reconnect loop waits for the endpoint and
    [pendingConnect] is true: when the endpoint is refused n times and then
    given, and the socket opens, the loop has waited 1000 ms after each
    failure; n * 1000 ms later its promise resolves, once, with the monitor
    connected on the one socket it created and pinged.  No error reaches
    anyone but the catch of the loop. *)
Theorem loop_connects_after_any_failures :
  forall (s : state) (p n : nat) (url : string),
    reachable s ->
    tasks s = [(p, AwaitEndpoint)] ->
    pendingConnect s = true ->
    connected
      (run s (fail_rounds p (next_timer s) n
              ++ [EvEndpoint p (Some url); EvOpen (List.length (socks s))])) = true /\
    ws (run s (fail_rounds p (next_timer s) n
               ++ [EvEndpoint p (Some url); EvOpen (List.length (socks s))]))
    = Some (List.length (socks s)) /\
    resolved
      (run s (fail_rounds p (next_timer s) n
              ++ [EvEndpoint p (Some url); EvOpen (List.length (socks s))]))
    = p :: resolved s /\
    tasks
      (run s (fail_rounds p (next_timer s) n
              ++ [EvEndpoint p (Some url); EvOpen (List.length (socks s))])) = [] /\
    now (run s (fail_rounds p (next_timer s) n
                ++ [EvEndpoint p (Some url); EvOpen (List.length (socks s))]))
    = (now s + 1000 * N.of_nat n)%N /\
    trace (run s (fail_rounds p (next_timer s) n
                  ++ [EvEndpoint p (Some url); EvOpen (List.length (socks s))]))
    = trace s ++ fail_trace p n
        ++ [FxNewSocket (List.length (socks s)) url; FxPing (List.length (socks s));
            FxResolved p].
Proof.
  intros s p n url Hr Ht Hp. rewrite run_app.
  destruct (retries_unbounded n s p Ht Hp (reachable_timers_fresh s Hr))
    as (A1 & A2 & _ & A4 & A5 & _ & A7 & A8).
  set (s1 := run s (fail_rounds p (next_timer s) n)) in *.
  rewrite <- A7.
  destruct (attempt_succeeds s1 p url A1 A2) as (B1 & B2 & B3 & _ & B5 & B6 & B7).
  split; [exact B1|]. split; [exact B2|]. split; [rewrite B5, A8; reflexivity|].
  split; [exact B3|]. split; [rewrite B6, A4; reflexivity|].
  rewrite B7, A5, <- app_assoc. reflexivity.
Qed.

(** ** Which calls a step makes *)

Lemma hush_refl (f : effect -> bool) (s : state) : hush f s s.
Proof. split; [reflexivity|]. exists []. split; [now rewrite app_nil_r | reflexivity]. Qed.

Lemma hush_trans (f : effect -> bool) (s1 s2 s3 : state) :
  hush f s1 s2 -> hush f s2 s3 -> hush f s1 s3.
Proof.
  intros (N1 & l1 & T1 & F1) (N2 & l2 & T2 & F2). split; [congruence|].
  exists (l1 ++ l2). split.
  - rewrite T2, T1, app_assoc. reflexivity.
  - rewrite filter_app, F1, F2. reflexivity.
Qed.

Lemma hush_same (f : effect -> bool) (s s' : state) :
  now s' = now s -> trace s' = trace s -> hush f s s'.
Proof.
  intros Hn Ht. split; [exact Hn|]. exists [].
  split; [now rewrite app_nil_r | reflexivity].
Qed.

Lemma hush_emit (f : effect -> bool) (e : effect) (s : state) :
  f e = false -> hush f s (emit e s).
Proof.
  intros He. split; [reflexivity|]. exists [e]. split; [reflexivity|].
  cbn. rewrite He. reflexivity.
Qed.

Lemma calm_refl (f : effect -> bool) (s : state) : calm f s s.
Proof. split; [apply hush_refl | reflexivity]. Qed.


Lemma calm_same (f : effect -> bool) (s s' : state) :
  now s' = now s -> trace s' = trace s -> pending s' = pending s -> calm f s s'.
Proof. intros Hn Ht Hp. split; [now apply hush_same | exact Hp]. Qed.


Lemma calm_hush (f : effect -> bool) (s s' : state) : calm f s s' -> hush f s s'.
Proof. intros [H _]. exact H. Qed.





Section Plain.

(** A kind of calls that are callbacks or pings. *)
Variable f : effect -> bool.
Hypothesis plain : forall x, f x = true -> is_callback x = true \/ is_ping x = true.

Lemma plain_false (x : effect) :
  is_callback x = false -> is_ping x = false -> f x = false.
Proof.
  intros Hc Hp. destruct (f x) eqn:E; [|reflexivity].
  destruct (plain x E); congruence.
Qed.



Lemma calm_setTimeout (a : taction) (ms : N) (s : state) :
  calm f s (snd (setTimeout a ms s)).
Proof. apply calm_same; reflexivity. Qed.

Lemma calm_stopKeepAlive (s : state) : calm f s (_stopKeepAlive s).
Proof.
  unfold _stopKeepAlive. destruct (_keepAliveTimeout s); [|apply calm_refl].
  apply calm_same; reflexivity.
Qed.

Lemma calm_disconnect_ (s : state) : calm f s (_disconnect s).
Proof.
  rewrite _disconnect_spec. split; [|reflexivity]. split; [reflexivity|].
  cbn [trace]. destruct (ws s) as [w|].
  - exists [FxClose w]. split; [reflexivity|]. cbn.
    rewrite plain_false by reflexivity. reflexivity.
  - exists []. split; [now rewrite app_nil_r | reflexivity].
Qed.









Lemma hush_then_delete (k : key) (v : bool) (s : state) : hush f s (then_delete k v s).
Proof. unfold then_delete. destruct v; apply hush_same; reflexivity. Qed.

Lemma hush_on_message (d : frame) (out : outcome) (s : state) :
  hush f s (on_message d out s).
Proof.
  unfold on_message. destruct (decode d) as [[m k]|].
  - destruct (handler s) as [h|]; [|apply hush_refl].
    apply hush_trans with (emit (FxHandler h m) s);
      [apply hush_emit, plain_false; reflexivity|].
    destruct out as [|v|].
    + apply hush_emit, plain_false; reflexivity.
    + apply hush_then_delete.
    + apply hush_same; reflexivity.
  - apply hush_emit, plain_false; reflexivity.
Qed.

Lemma hush_on_settle (c : nat) (r : option bool) (s : state) : hush f s (on_settle c r s).
Proof.
  unfold on_settle. destruct (lookup_cont c (conts s)) as [k|]; [|apply hush_refl].
  set (s1 := set_conts _ s).
  assert (H1 : hush f s s1) by (apply hush_same; reflexivity).
  eapply hush_trans; [exact H1|].
  destruct r as [v|]; [apply hush_then_delete|].
  apply hush_emit, plain_false; reflexivity.
Qed.






End Plain.


Lemma pings_plain (x : effect) :
  is_ping x = true -> is_callback x = true \/ is_ping x = true.
Proof. auto. Qed.

(** *** The callbacks of [pending] *)













(** *** Where an attempt begins *)
















(** ** With no loop suspended *)

Lemma on_open_no_loop (w : nat) (s : state) :
  tasks s = [] ->
  on_open w s
  = match nth_error (socks s) w with
    | Some i =>
        if open_once i then
          if canonical w s
          then upd_sock w add_error_on (upd_sock w clear_open_once s)
          else emit (FxClose w) (upd_sock w clear_open_once s)
        else s
    | None => s
    end.
Proof.
  intros Ht. unfold on_open. destruct (nth_error (socks s) w) as [i|]; [|reflexivity].
  destruct (open_once i); [|reflexivity].
  change (canonical w (upd_sock w clear_open_once s)) with (canonical w s).
  destruct (canonical w s).
  - unfold resolve_open. cbn [tasks upd_sock set_socks]. rewrite Ht. reflexivity.
  - unfold reject_open. cbn [tasks emit set_trace upd_sock set_socks]. rewrite Ht.
    reflexivity.
Qed.

Lemma on_error_no_loop (w : nat) (e : string) (s : state) :
  tasks s = [] ->
  on_error w e s
  = match nth_error (socks s) w with
    | Some i =>
        if error_once i || error_on i then
          let s1 := if error_once i
                    then drop_socket w (upd_sock w clear_error_once s)
                    else s in
          if error_on i
          then emit (FxLog "error in netmon socket")
                 (drop_socket w (fail_all (ETransport e) s1))
          else s1
        else emit FxUncaught s
    | None => s
    end.
Proof.
  intros Ht. unfold on_error. destruct (nth_error (socks s) w) as [i|]; [|reflexivity].
  destruct (error_once i || error_on i); [|reflexivity].
  set (s1 := if error_once i then drop_socket w (upd_sock w clear_error_once s) else s).
  assert (Q1 : quiet s s1).
  { subst s1. destruct (error_once i); [|apply quiet_refl].
    eapply quiet_trans; [apply quiet_upd_sock | apply quiet_drop_socket]. }
  set (s2 := if error_on i
             then emit (FxLog "error in netmon socket")
                    (drop_socket w (fail_all (ETransport e) s1))
             else s1).
  assert (Q2 : quiet s s2).
  { eapply quiet_trans; [exact Q1|].
    subst s2. destruct (error_on i); [|apply quiet_refl].
    eapply quiet_trans; [apply quiet_fail_all|].
    eapply quiet_trans; [apply quiet_drop_socket | apply quiet_emit]. }
  cbn zeta. fold s1. fold s2.
  destruct (error_once i); [|reflexivity].
  unfold reject_open. destruct Q2 as (T & _). rewrite T, Ht. reflexivity.
Qed.

(** With no loop suspended, a callback of the run time starts no loop,
    connects nothing and makes no socket canonical. *)
Lemma no_loop_step (s : state) (e : event) :
  tasks s = [] -> is_call e = false ->
  quiet s (step s e) /\ tame s (step s e).
Proof.
  intros Ht Hcall. destruct e; try discriminate; cbn [step].
  - unfold on_endpoint. rewrite Ht. cbn. split; [apply quiet_refl | apply tame_refl].
  - rewrite (on_open_no_loop w s Ht).
    destruct (nth_error (socks s) w) as [i|]; [|split; [apply quiet_refl | apply tame_refl]].
    destruct (open_once i); [|split; [apply quiet_refl | apply tame_refl]].
    destruct (canonical w s).
    + split; [eapply quiet_trans; apply quiet_upd_sock
             |eapply tame_trans; apply tame_upd_sock].
    + split; [eapply quiet_trans; [apply quiet_upd_sock | apply quiet_emit]
             |eapply tame_trans; [apply tame_upd_sock | apply tame_emit]].
  - destruct (has_sock w s); [|split; [apply quiet_refl | apply tame_refl]].
    split; [apply quiet_on_message | apply tame_on_message].
  - destruct (has_sock w s); [|split; [apply quiet_refl | apply tame_refl]].
    split; [apply quiet_on_close | apply tame_on_close].
  - split; [|apply tame_on_error].
    rewrite (on_error_no_loop w e s Ht).
    destruct (nth_error (socks s) w) as [i|]; [|apply quiet_refl].
    destruct (error_once i || error_on i); [|apply quiet_emit].
    cbn zeta.
    set (s1 := if error_once i then drop_socket w (upd_sock w clear_error_once s) else s).
    assert (Q1 : quiet s s1).
    { subst s1. destruct (error_once i); [|apply quiet_refl].
      eapply quiet_trans; [apply quiet_upd_sock | apply quiet_drop_socket]. }
    destruct (error_on i); [|exact Q1].
    eapply quiet_trans; [exact Q1|].
    eapply quiet_trans; [apply quiet_fail_all|].
    eapply quiet_trans; [apply quiet_drop_socket | apply quiet_emit].
  - split; [apply quiet_on_pong | apply tame_on_pong].
  - split; [apply quiet_on_settle | apply tame_on_settle].
  - split; [|apply tame_on_timer].
    unfold on_timer. destruct (find_timer t s) as [x|]; [|apply quiet_refl].
    destruct (N.leb (t_due x) (now s)); [|apply quiet_refl].
    destruct (t_act x) as [p|w|].
    + cbn [tasks clearTimeout set_timers]. rewrite Ht. cbn. apply quiet_clearTimeout.
    + eapply quiet_trans; [apply quiet_clearTimeout | apply quiet_on_deadline].
    + eapply quiet_trans; [apply quiet_clearTimeout | apply quiet_startKeepAlive].
  - split; [apply quiet_set_now | tame_by_computation].
Qed.

(** Once no loop is suspended and the monitor is neither connected nor
    holds a socket, nothing changes that, whatever timers are left, but a call
    of [connect()] or [reconnect()]. *)
Lemma at_rest_step (s : state) (e : event) :
  at_rest s -> e <> EvConnect -> e <> EvReconnect -> at_rest (step s e).
Proof.
  intros (Ht & Hc & Hw) Hn1 Hn2.
  assert (QT : quiet s (step s e) /\ tame s (step s e)).
  { destruct (is_call e) eqn:Hcall; [|now apply no_loop_step].
    destruct e; try discriminate; try congruence; cbn [step].
    - split; [apply quiet_disconnect | apply tame_disconnect].
    - split; [apply quiet_set_handler | unfold handleMessage; tame_by_computation].
    - split; [apply quiet_set_pending | unfold register; tame_by_computation]. }
  destruct QT as [(Q1 & _ & _ & _ & Q5) (_ & T2 & _)].
  split; [congruence|]. split.
  - destruct (connected (step s e)); [|reflexivity].
    rewrite (Q5 eq_refl) in Hc. discriminate.
  - assert (D : ws (step s e) = None \/ exists w, ws (step s e) = Some w)
      by (destruct (ws (step s e)) as [w|]; eauto).
    destruct D as [D | [w D]]; [exact D|].
    rewrite (T2 w D) in Hw. discriminate.
Qed.

Lemma at_rest_run (evs : list event) :
  forall s, at_rest s -> ~ In EvConnect evs -> ~ In EvReconnect evs ->
            at_rest (run s evs).
Proof.
  induction evs as [|e evs IH]; intros s H Hn1 Hn2; cbn; [exact H|].
  apply IH.
  - apply at_rest_step; [exact H | |]; intros ->; [apply Hn1 | apply Hn2]; now left.
  - intros Hin. apply Hn1. now right.
  - intros Hin. apply Hn2. now right.
Qed.

(** ** The heartbeat, cycle by cycle *)

(** The 'open' that ends the only loop while no timer is running leaves one
    probe outstanding and nothing else scheduled. *)
Lemma open_probing (s : state) (w p : nat) (i : sockinfo) :
  nth_error (socks s) w = Some i -> open_once i = true -> pong_once i = 0 ->
  ws s = Some w -> tasks s = [(p, AwaitOpen w)] -> timers s = [] ->
  probing w (next_timer s) (now s + 10000) (step s (EvOpen w)).
Proof.
  intros Hsock Hopen Hpong Hws Ht Htm.
  assert (Ha : awaiting w (tasks s) = Some p).
  { rewrite Ht. cbn. rewrite Nat.eqb_refl. reflexivity. }
  destruct (open_starts_keepalive s w p i Hsock Hopen Hws Ha) as (A & _ & C & D & E).
  unfold probing. split; [exact A|].
  split.
  { cbn [step]. unfold on_open. rewrite Hsock, Hopen.
    assert (Cn : canonical w (upd_sock w clear_open_once s) = true)
      by (apply canonical_true; exact Hws).
    rewrite Cn, ws_resolve_open. exact Hws. }
  split.
  { cbn [step]. unfold on_open. rewrite Hsock, Hopen.
    assert (Cn : canonical w (upd_sock w clear_open_once s) = true)
      by (apply canonical_true; exact Hws).
    rewrite Cn. unfold resolve_open. cbn [tasks upd_sock set_socks]. rewrite Ha.
    unfold finish_loop. cbn [tasks emit set_trace set_resolved set_tasks set_connectPromise].
    destruct (quiet_startKeepAlive
                (set_connected true
                   (upd_sock w add_error_on (upd_sock w clear_open_once s)))) as (Q & _).
    rewrite Q. cbn [tasks set_connected upd_sock set_socks]. rewrite Ht.
    apply drop_task_single. }
  split; [rewrite D, Htm; reflexivity|].
  split; [exact C|].
  eexists. split; [exact E|]. cbn. rewrite Hpong. reflexivity.
Qed.

(** The acknowledgment of the only probe: its deadline is cancelled, no
    probe is sent, and the idle wait is the only timer left. *)
Lemma pong_probing (s : state) (w t : nat) (due : N) :
  probing w t due s ->
  resting w (next_timer s) (now s + 10000) (step s (EvPong w)) /\
  emitted s (step s (EvPong w)) = [].
Proof.
  intros (Hc & Hws & Ht & Htm & Hka & i & Hsock & Hn).
  destruct (pong_canonical s w t i Hsock Hn Hws Hka) as (A & B & C & D & E).
  split; [|exact C]. unfold resting.
  split; [congruence|]. split; [exact E|].
  split.
  { destruct (quiet_on_pong w s) as (Q & _). cbn [step]. congruence. }
  split.
  { rewrite B, Htm. cbn. rewrite Nat.eqb_refl. reflexivity. }
  split; [exact A|].
  exists (clear_pong_once i). split; [|reflexivity].
  cbn [step]. unfold on_pong. rewrite Hsock, Hn. cbn [iter]. unfold pong_listener.
  assert (Cn : canonical w (upd_sock w clear_pong_once s) = true)
    by (apply canonical_true; exact Hws).
  rewrite Cn. cbn [_keepAliveTimeout upd_sock set_socks]. rewrite Hka. cbn.
  apply nth_error_upd_nth_same. exact Hsock.
Qed.

(** The idle wait ends: the next probe is sent, with a new deadline. *)
Lemma idle_due_probes (s : state) (w t : nat) (due : N) :
  resting w t due s -> (due <= now s)%N ->
  emitted s (step s (EvTimer t)) = [FxPing w] /\
  probing w (next_timer s) (now s + 10000) (step s (EvTimer t)).
Proof.
  intros (Hc & Hws & Ht & Htm & Hka & i & Hsock & Hn) Hdue.
  assert (Hf : find_timer t s = Some (mkTimer t due TIdle)).
  { unfold find_timer. rewrite Htm. cbn. rewrite Nat.eqb_refl. reflexivity. }
  split; [exact (idle_timer_pings s t w _ Hf eq_refl Hdue Hc Hws)|].
  cbn [step]. unfold on_timer. rewrite Hf. cbn [t_due t_act].
  apply N.leb_le in Hdue. rewrite Hdue. unfold _startKeepAlive.
  cbn [connected ws clearTimeout set_timers]. rewrite Hc, Hws.
  unfold probing. cbn. rewrite Htm, Ht. cbn. rewrite Nat.eqb_refl. cbn.
  repeat split; auto.
  exists (add_pong_once i). split; [|cbn; now rewrite Hn].
  apply nth_error_upd_nth_same. exact Hsock.
Qed.

(** The deadline of the only probe fires: the entries are failed, the
    connection is torn down, and nothing is left in progress. *)
Lemma deadline_probing (s : state) (w t : nat) (due : N) :
  probing w t due s -> (due <= now s)%N ->
  emitted s (step s (EvTimer t))
  = FxLog "Netmon did not get a response to pong in 10 seconds, disconnecting."
      :: map (fun kc => FxCallback (snd kc) ETimeout) (pending s) ++ [FxClose w] /\
  pending (step s (EvTimer t)) = [] /\
  dormant (step s (EvTimer t)) /\
  pendingConnect (step s (EvTimer t)) = pendingConnect s /\
  connectPromise (step s (EvTimer t)) = connectPromise s.
Proof.
  intros (Hc & Hws & Ht & Htm & Hka & i & Hsock & Hn) Hdue.
  assert (Hf : find_timer t s = Some (mkTimer t due (TDeadline w))).
  { unfold find_timer. rewrite Htm. cbn. rewrite Nat.eqb_refl. reflexivity. }
  destruct (deadline_canonical s t w _ Hf eq_refl Hdue Hws)
    as (A & B & C & D & _ & _ & E & F & G).
  split; [exact A|]. split; [exact B|]. split; [|auto].
  unfold dormant. split; [congruence|]. split; [|auto].
  cbn [step]. unfold on_timer. rewrite Hf. cbn [t_due t_act].
  apply N.leb_le in Hdue. rewrite Hdue. unfold on_deadline.
  assert (Cn : canonical w (clearTimeout t s) = true)
    by (apply canonical_true; exact Hws).
  rewrite Cn, _disconnect_spec. cbn. rewrite Hka, Htm. cbn.
  rewrite Nat.eqb_refl. reflexivity.
Qed.

(** ** No probe before the idle wait ends *)

Lemma still_refl (s : state) : still s s.
Proof.
  split; [apply hush_refl|]. split; [auto|].
  intros w i H. exists i. auto.
Qed.

Lemma still_trans (s1 s2 s3 : state) : still s1 s2 -> still s2 s3 -> still s1 s3.
Proof.
  intros (H1 & T1 & P1) (H2 & T2 & P2).
  split; [eapply hush_trans; eauto|]. split; [auto|].
  intros w i3 H3. destruct (P2 w i3 H3) as (i2 & E2 & L2).
  destruct (P1 w i2 E2) as (i1 & E1 & L1). exists i1. split; [exact E1 | lia].
Qed.

Lemma still_same (s s' : state) :
  now s' = now s -> trace s' = trace s -> timers s' = timers s -> socks s' = socks s ->
  still s s'.
Proof.
  intros Hn Ht Htm Hs. split; [now apply hush_same|].
  split; [intros x Hx; now rewrite <- Htm|].
  intros w i H. rewrite Hs in H. exists i. auto.
Qed.

Lemma still_emit (e : effect) (s : state) : is_ping e = false -> still s (emit e s).
Proof.
  intros He. split; [now apply hush_emit|]. split; [auto|].
  intros w i H. exists i. auto.
Qed.

Lemma nth_error_upd_nth_inv {A : Type} (g : A -> A) (l : list A) (n m : nat) (y : A) :
  nth_error (upd_nth n g l) m = Some y ->
  exists x, nth_error l m = Some x /\ (y = g x \/ y = x).
Proof.
  revert n m. induction l as [|a rest IH]; intros n m H.
  - destruct n; destruct m; discriminate.
  - destruct n as [|n]; destruct m as [|m]; cbn in *.
    + inversion H. eauto.
    + eauto.
    + inversion H. eauto.
    + apply (IH n m H).
Qed.

Lemma still_upd_sock (w : nat) (g : sockinfo -> sockinfo) (s : state) :
  (forall i, pong_once (g i) <= pong_once i) -> still s (upd_sock w g s).
Proof.
  intros Hg. split; [apply hush_same; reflexivity|]. split; [auto|].
  intros w' i' H. cbn in H. apply nth_error_upd_nth_inv in H.
  destruct H as (i & E & [-> | ->]); exists i; auto.
Qed.

Lemma filter_ping_callbacks (e : err) (m : pmap) :
  filter is_ping (map (fun kc => FxCallback (snd kc) e) m) = [].
Proof. induction m as [|kc rest IH]; cbn; [reflexivity | exact IH]. Qed.

Lemma still_fail_all (e : err) (s : state) : still s (fail_all e s).
Proof.
  split.
  - split; [reflexivity|]. eexists. split; [reflexivity|]. apply filter_ping_callbacks.
  - split; [auto|]. intros w i H. exists i. auto.
Qed.

Lemma still_disconnect_ (s : state) : still s (_disconnect s).
Proof.
  split; [apply calm_hush, calm_disconnect_, pings_plain|].
  rewrite _disconnect_spec. cbn [timers socks]. split.
  - intros x Hx. destruct (_keepAliveTimeout s); [|exact Hx].
    apply filter_In in Hx. tauto.
  - intros w i H. exists i. auto.
Qed.

Lemma still_drop_socket (w : nat) (s : state) : still s (drop_socket w s).
Proof.
  unfold drop_socket. destruct (canonical w s); [apply still_disconnect_|].
  apply still_emit. reflexivity.
Qed.

Lemma still_on_message (d : frame) (out : outcome) (s : state) :
  still s (on_message d out s).
Proof.
  split; [apply hush_on_message, pings_plain|].
  assert (E : timers (on_message d out s) = timers s /\
              socks (on_message d out s) = socks s).
  { unfold on_message, then_delete. destruct (decode d) as [[m k]|]; [|auto].
    destruct (handler s); [|auto]. destruct out as [|[|]|]; auto. }
  destruct E as [E1 E2]. rewrite E1, E2. split; [auto|].
  intros w i H. exists i. auto.
Qed.

Lemma still_on_settle (c : nat) (r : option bool) (s : state) :
  still s (on_settle c r s).
Proof.
  split; [apply hush_on_settle, pings_plain|].
  assert (E : timers (on_settle c r s) = timers s /\
              socks (on_settle c r s) = socks s).
  { unfold on_settle, then_delete. destruct (lookup_cont c (conts s)); [|auto].
    destruct r as [[|]|]; auto. }
  destruct E as [E1 E2]. rewrite E1, E2. split; [auto|].
  intros w i H. exists i. auto.
Qed.

Lemma still_on_close (reason : string) (s : state) : still s (on_close reason s).
Proof.
  unfold on_close. eapply still_trans; [apply still_fail_all | apply still_disconnect_].
Qed.

Lemma still_on_open (w : nat) (s : state) : tasks s = [] -> still s (on_open w s).
Proof.
  intros Ht. rewrite (on_open_no_loop w s Ht).
  destruct (nth_error (socks s) w) as [i|]; [|apply still_refl].
  destruct (open_once i); [|apply still_refl].
  destruct (canonical w s).
  - apply still_trans with (upd_sock w clear_open_once s);
      apply still_upd_sock; intros j; cbn; lia.
  - apply still_trans with (upd_sock w clear_open_once s);
      [apply still_upd_sock; intros j; cbn; lia|].
    apply still_emit. reflexivity.
Qed.

Lemma still_on_error (w : nat) (e : string) (s : state) :
  tasks s = [] -> still s (on_error w e s).
Proof.
  intros Ht. rewrite (on_error_no_loop w e s Ht).
  destruct (nth_error (socks s) w) as [i|]; [|apply still_refl].
  destruct (error_once i || error_on i); [|apply still_emit; reflexivity].
  cbn zeta.
  set (s1 := if error_once i then drop_socket w (upd_sock w clear_error_once s) else s).
  assert (H1 : still s s1).
  { subst s1. destruct (error_once i); [|apply still_refl].
    apply still_trans with (upd_sock w clear_error_once s);
      [apply still_upd_sock; intros j; cbn; lia|].
    apply still_drop_socket. }
  destruct (error_on i); [|exact H1].
  eapply still_trans; [exact H1|].
  eapply still_trans; [apply still_fail_all|].
  eapply still_trans; [apply still_drop_socket | apply still_emit; reflexivity].
Qed.

(** While nothing can send a probe, no callback of the run time sends one,
    starts a timer or registers a 'pong' listener. *)
Lemma idling_still (due : N) (s : state) (e : event) :
  idling due s -> is_call e = false -> (forall dt, e <> EvTick dt) ->
  (now s < due)%N ->
  still s (step s e).
Proof.
  intros (Ht & Htm & Hp) Hcall Hne Hnow.
  destruct e; try discriminate; cbn [step].
  - unfold on_endpoint. rewrite Ht. cbn. apply still_refl.
  - now apply still_on_open.
  - destruct (has_sock w s); [apply still_on_message | apply still_refl].
  - destruct (has_sock w s); [apply still_on_close | apply still_refl].
  - now apply still_on_error.
  - unfold on_pong. destruct (nth_error (socks s) w) as [i|] eqn:Hi; [|apply still_refl].
    assert (U : still s (upd_sock w clear_pong_once s))
      by (apply still_upd_sock; intros j; cbn; lia).
    destruct (canonical w s) eqn:Cn.
    + apply canonical_true in Cn. rewrite (Hp w i Cn Hi). cbn [iter]. exact U.
    + rewrite iter_fixed; [exact U|].
      unfold pong_listener.
      change (canonical w (upd_sock w clear_pong_once s)) with (canonical w s).
      rewrite Cn. reflexivity.
  - apply still_on_settle.
  - unfold on_timer. destruct (find_timer t s) as [x|] eqn:Hf; [|apply still_refl].
    assert (Hin : In x (timers s)).
    { unfold find_timer in Hf. apply find_some in Hf. tauto. }
    destruct (Htm x Hin) as [_ Hd].
    assert (E : N.leb (t_due x) (now s) = false) by (apply N.leb_gt; lia).
    rewrite E. apply still_refl.
  - exfalso. apply (Hne dt). reflexivity.
Qed.

Lemma idling_step (due : N) (s : state) (e : event) :
  idling due s -> is_call e = false -> (now s < due)%N ->
  idling due (step s e) /\
  (exists l, trace (step s e) = trace s ++ l /\ filter is_ping l = []) /\
  now (step s e) = (now s + elapsed [e])%N.
Proof.
  intros Hi Hcall Hnow. pose proof Hi as (Ht & Htm & Hp).
  destruct (no_loop_step s e Ht Hcall) as [(Q1 & _) (_ & T2 & _)].
  assert (Tick : (exists dt, e = EvTick dt) \/ forall dt, e <> EvTick dt).
  { destruct e; try (right; intros dt' H; discriminate). left. eauto. }
  destruct Tick as [[dt ->] | Hne].
  - cbn [step]. split; [|split].
    + split; [exact Ht|]. split; [exact Htm | exact Hp].
    + exists []. split; [cbn; now rewrite app_nil_r | reflexivity].
    + cbn. rewrite N.add_0_r. reflexivity.
  - destruct (idling_still due s e Hi Hcall Hne Hnow) as ((Hn & l & Tr & F) & S2 & S3).
    split; [|split].
    + split; [congruence|]. split.
      * intros x Hx. apply Htm, S2, Hx.
      * intros w i' Hw Hs'. destruct (S3 w i' Hs') as (i & Hs & Hle).
        pose proof (Hp w i (T2 w Hw) Hs). lia.
    + exists l. auto.
    + rewrite Hn. destruct e; cbn; try (rewrite N.add_0_r; reflexivity).
      exfalso. apply (Hne dt). reflexivity.
Qed.

Lemma idling_run (due : N) (evs : list event) :
  forall s, idling due s ->
            forallb (fun e => negb (is_call e)) evs = true ->
            (now s + elapsed evs < due)%N ->
            idling due (run s evs) /\
            exists l, trace (run s evs) = trace s ++ l /\ filter is_ping l = [].
Proof.
  induction evs as [|e evs IH]; intros s Hi Hall Hnow.
  - cbn. split; [exact Hi|]. exists []. split; [now rewrite app_nil_r | reflexivity].
  - cbn in Hall. apply andb_true_iff in Hall. destruct Hall as [He Hall].
    assert (Hcall : is_call e = false) by (destruct (is_call e); [discriminate | reflexivity]).
    assert (Hsplit : elapsed (e :: evs) = (elapsed [e] + elapsed evs)%N).
    { destruct e; cbn; try reflexivity. rewrite N.add_0_r. reflexivity. }
    rewrite Hsplit in Hnow.
    assert (Hnow1 : (now s < due)%N) by lia.
    destruct (idling_step due s e Hi Hcall Hnow1) as (Hi' & (l1 & T1 & F1) & Hn').
    destruct (IH (step s e) Hi' Hall) as (Hi'' & l2 & T2 & F2).
    { rewrite Hn'. lia. }
    cbn [run fold_left]. fold (run (step s e) evs).
    split; [exact Hi''|]. exists (l1 ++ l2). split.
    + rewrite T2, T1, app_assoc. reflexivity.
    + rewrite filter_app, F1, F2. reflexivity.
Qed.

Lemma resting_idling (w t : nat) (due : N) (s : state) :
  resting w t due s -> idling due s.
Proof.
  intros (Hc & Hws & Ht & Htm & Hka & i & Hsock & Hn).
  split; [exact Ht|]. split.
  - intros x Hx. rewrite Htm in Hx. destruct Hx as [<- | []]. cbn. split; [reflexivity | lia].
  - intros w' i' Hw' Hs'. assert (w' = w) by congruence. subst w'. congruence.
Qed.

(** ** The table of pending requests *)



(** ** The keep-alive through a connection *)

(** C6 (amended): for a socket w of the monitor,
    (a) when its 'open' succeeds (it is canonical and its attempt is still
    waiting), a ping is sent in that step and a deadline timer due 10000 ms
    later is stored in [_keepAliveTimeout];
    (b) a 'pong' of the canonical socket with one listener registered clears
    the deadline that is stored, sends no ping itself and starts a 10000 ms
    timer;
    (c) a 'pong' of a socket that is not canonical changes nothing but the
    listener list;
    (d) a timer does nothing before it is due, and the timer of (b), when it
    is due on a connected monitor, sends the next ping;
    (e) when the deadline of the canonical socket fires, every pending
    callback is called once with the timeout error, [pending] is emptied and
    the connection is force-closed; [pendingConnect], [connectPromise] and the
    suspended loops are left as they are: the timeout starts no reconnect
    loop;
    (f) and once nothing is in progress, no callback of the run time
    reconnects: the monitor stays disconnected until the user calls it.
    On a connection that is opened while no timer is running, the probe of
    the 'open' is the only thing scheduled ([probing]), and the heartbeat then
    goes round as follows:
    (g) the 'open' leaves one probe outstanding, with its deadline as the
    only timer;
    (h) the 'pong' that answers it cancels that deadline, so that no deadline
    is left, sends no ping, and leaves the idle wait of 10000 ms as the only
    timer ([resting]);
    (i) from then on, as long as no method of the monitor is called, no ping
    is sent before the 10000 ms have passed; and when the idle wait ends, the
    next ping is sent with a new deadline of 10000 ms, as the only timer
    again;
    (j) if instead the deadline fires, the entries are failed with the
    timeout error and no loop, timer, connection or socket is left, with
    [pendingConnect] and [connectPromise] as they were;
    (k) and whatever timers are left, once no loop is suspended and the
    monitor is neither connected nor holds a socket, nothing changes that but
    a call of [connect()] or [reconnect()]. *)
Theorem C6_keepalive :
  forall (s : state) (w p t : nat) (i : sockinfo) (x : timer),
    nth_error (socks s) w = Some i ->
    (open_once i = true -> ws s = Some w -> awaiting w (tasks s) = Some p ->
     connected (step s (EvOpen w)) = true /\
     emitted s (step s (EvOpen w)) = [FxPing w; FxResolved p] /\
     _keepAliveTimeout (step s (EvOpen w)) = Some (next_timer s) /\
     timers (step s (EvOpen w))
     = timers s ++ [mkTimer (next_timer s) (now s + 10000) (TDeadline w)]) /\
    (pong_once i = 1 -> ws s = Some w -> _keepAliveTimeout s = Some t ->
     _keepAliveTimeout (step s (EvPong w)) = None /\
     timers (step s (EvPong w))
     = filter (fun y => negb (Nat.eqb (t_id y) t)) (timers s)
       ++ [mkTimer (next_timer s) (now s + 10000) TIdle] /\
     emitted s (step s (EvPong w)) = []) /\
    (ws s <> Some w -> step s (EvPong w) = upd_sock w clear_pong_once s) /\
    (find_timer t s = Some x -> (now s < t_due x)%N -> step s (EvTimer t) = s) /\
    (find_timer t s = Some x -> t_act x = TIdle -> (t_due x <= now s)%N ->
     connected s = true -> ws s = Some w ->
     emitted s (step s (EvTimer t)) = [FxPing w]) /\
    (find_timer t s = Some x -> t_act x = TDeadline w -> (t_due x <= now s)%N ->
     ws s = Some w ->
     emitted s (step s (EvTimer t))
     = FxLog "Netmon did not get a response to pong in 10 seconds, disconnecting."
         :: map (fun kc => FxCallback (snd kc) ETimeout) (pending s) ++ [FxClose w] /\
     pending (step s (EvTimer t)) = [] /\
     connected (step s (EvTimer t)) = false /\
     ws (step s (EvTimer t)) = None /\
     pendingConnect (step s (EvTimer t)) = pendingConnect s /\
     connectPromise (step s (EvTimer t)) = connectPromise s /\
     tasks (step s (EvTimer t)) = tasks s) /\
    (dormant s ->
     forall evs, forallb (fun e => negb (is_call e)) evs = true ->
                 dormant (run s evs)) /\
    (open_once i = true -> pong_once i = 0 -> ws s = Some w ->
     tasks s = [(p, AwaitOpen w)] -> timers s = [] ->
     probing w (next_timer s) (now s + 10000) (step s (EvOpen w))) /\
    (forall due,
        probing w t due s ->
        resting w (next_timer s) (now s + 10000) (step s (EvPong w)) /\
        emitted s (step s (EvPong w)) = [] /\
        forall y, In y (timers (step s (EvPong w))) -> t_act y = TIdle) /\
    (forall due,
        resting w t due s ->
        (forall evs,
            forallb (fun e => negb (is_call e)) evs = true ->
            (now s + elapsed evs < due)%N ->
            filter is_ping (emitted s (run s evs)) = []) /\
        ((due <= now s)%N ->
         emitted s (step s (EvTimer t)) = [FxPing w] /\
         probing w (next_timer s) (now s + 10000) (step s (EvTimer t)))) /\
    (forall due,
        probing w t due s -> (due <= now s)%N ->
        emitted s (step s (EvTimer t))
        = FxLog "Netmon did not get a response to pong in 10 seconds, disconnecting."
            :: map (fun kc => FxCallback (snd kc) ETimeout) (pending s) ++ [FxClose w] /\
        pending (step s (EvTimer t)) = [] /\
        dormant (step s (EvTimer t)) /\
        pendingConnect (step s (EvTimer t)) = pendingConnect s /\
        connectPromise (step s (EvTimer t)) = connectPromise s) /\
    (at_rest s ->
     forall evs, ~ In EvConnect evs -> ~ In EvReconnect evs -> at_rest (run s evs)).
Proof.
  intros s w p t i x Hsock.
  split; [|split; [|split; [|split; [|split; [|split; [|split; [|split;
    [|split; [|split; [|split]]]]]]]]]].
  - intros Hopen Hws Hawait.
    destruct (open_starts_keepalive s w p i Hsock Hopen Hws Hawait)
      as (A & B & C & D & _). auto.
  - intros Hn Hws Hka.
    destruct (pong_canonical s w t i Hsock Hn Hws Hka) as (A & B & C & _). auto.
  - apply (pong_stale s w i Hsock).
  - apply timer_not_due.
  - apply idle_timer_pings.
  - intros Hfind Hact Hdue Hws.
    destruct (deadline_canonical s t w x Hfind Hact Hdue Hws)
      as (A & B & C & D & _ & _ & E & F & G).
    repeat split; assumption.
  - intros Hd evs Hall. now apply dormant_run.
  - intros Hopen Hpong Hws Ht Htm. now apply open_probing with (p := p) (i := i).
  - intros due Hp. destruct (pong_probing s w t due Hp) as [R E].
    split; [exact R|]. split; [exact E|].
    destruct R as (_ & _ & _ & Htm & _). rewrite Htm.
    intros y [<- | []]. reflexivity.
  - intros due Hr. split.
    + intros evs Hall Hnow.
      destruct (idling_run due evs s (resting_idling w t due s Hr) Hall Hnow)
        as (_ & l & T & F).
      rewrite (emitted_app s (run s evs) l T). exact F.
    + intros Hdue. now apply idle_due_probes with (due := due).
  - intros due Hp Hdue. now apply deadline_probing with (due := due).
  - intros Hr evs Hn1 Hn2. now apply at_rest_run.
Qed.

(** ** disconnect() *)

(** When [disconnect()] changes nothing. *)
Lemma disconnect_fixed (s : state) :
  disconnect s = s <->
  pendingConnect s = false /\ connected s = false /\ handler s = None /\
  ws s = None /\ _keepAliveTimeout s = None.
Proof.
  unfold disconnect. rewrite _disconnect_spec.
  cbn [pendingConnect connected handler ws _keepAliveTimeout pending tasks
       set_pendingConnect timers trace now next_timer socks next_promise
       resolved conts next_cont connectPromise].
  split.
  - intros E.
    pose proof (f_equal pendingConnect E) as E1.
    pose proof (f_equal connected E) as E2.
    pose proof (f_equal handler E) as E3.
    pose proof (f_equal ws E) as E4.
    pose proof (f_equal _keepAliveTimeout E) as E5.
    cbn in E1, E2, E3, E4, E5. auto.
  - intros (E1 & E2 & E3 & E4 & E5).
    destruct s as [c pc h w pd cp ka nw tm nt sk tk np rs ct nc tr].
    cbn in *. subst. reflexivity.
Qed.

(** C7 (amended): [disconnect()] clears [pendingConnect], [connected], the
    handler, the keep-alive deadline and the socket reference, and closes the
    socket it held.  It calls no pending callback and leaves [pending] and the
    suspended loop as they are.
    Until [connect()] is called again, whatever else is called or delivered,
    [pendingConnect] stays false, the monitor is not connected, holds no
    socket and creates none, and a loop that comes to its next test of
    [pendingConnect] ends there.  A [connect()] after the call finds the
    promise of a loop still in flight and joins that loop, whose next test
    then begins another attempt instead of ending it.
    Callbacks are called with 'disconnected <reason>' by the 'close' listener:
    at whatever time after the call the 'close' event of a socket is
    delivered, the entries that are in [pending] at that time are failed,
    once each and in order, and [pending] is emptied.
    The call leaves the state unchanged exactly when [pendingConnect] and
    [connected] are false and no handler, socket or deadline is held; so a
    second [disconnect()] changes nothing. *)
Theorem C7_disconnect :
  forall s : state,
    pendingConnect (disconnect s) = false /\
    connected (disconnect s) = false /\
    handler (disconnect s) = None /\
    ws (disconnect s) = None /\
    _keepAliveTimeout (disconnect s) = None /\
    (forall t, _keepAliveTimeout s = Some t -> find_timer t (disconnect s) = None) /\
    emitted s (disconnect s)
    = match ws s with Some w => [FxClose w] | None => [] end /\
    pending (disconnect s) = pending s /\
    tasks (disconnect s) = tasks s /\
    (forall evs,
        ~ In EvConnect evs ->
        pendingConnect (run (disconnect s) evs) = false /\
        connected (run (disconnect s) evs) = false /\
        ws (run (disconnect s) evs) = None /\
        List.length (socks (run (disconnect s) evs)) = List.length (socks s) /\
        forall p, loop_head p (run (disconnect s) evs)
                  = finish_loop p (run (disconnect s) evs)) /\
    (forall p, connectPromise s = Some p ->
               connect (disconnect s) = (Some p, set_pendingConnect true (disconnect s)) /\
               loop_head p (snd (connect (disconnect s)))
               = start_connect p (snd (connect (disconnect s)))) /\
    (forall evs w reason,
        has_sock w (run (disconnect s) evs) = true ->
        emitted (run (disconnect s) evs)
                (step (run (disconnect s) evs) (EvClose w reason))
        = map (fun kc => FxCallback (snd kc) (EDisconnected reason))
              (pending (run (disconnect s) evs))
          ++ match ws (run (disconnect s) evs) with
             | Some c => [FxClose c]
             | None => []
             end /\
        pending (step (run (disconnect s) evs) (EvClose w reason)) = []) /\
    (disconnect s = s <->
     pendingConnect s = false /\ connected s = false /\ handler s = None /\
     ws s = None /\ _keepAliveTimeout s = None) /\
    disconnect (disconnect s) = disconnect s.
Proof.
  intros s.
  assert (D : pendingConnect (disconnect s) = false /\ connected (disconnect s) = false /\
              handler (disconnect s) = None /\ ws (disconnect s) = None /\
              _keepAliveTimeout (disconnect s) = None /\
              pending (disconnect s) = pending s /\ tasks (disconnect s) = tasks s /\
              socks (disconnect s) = socks s /\
              connectPromise (disconnect s) = connectPromise s).
  { unfold disconnect. rewrite _disconnect_spec. cbn. repeat split; reflexivity. }
  destruct D as (D1 & D2 & D3 & D4 & D5 & D6 & D7 & D8 & D9).
  split; [exact D1|]. split; [exact D2|]. split; [exact D3|]. split; [exact D4|].
  split; [exact D5|].
  split.
  { intros t Ht. unfold disconnect. rewrite _disconnect_spec.
    cbn [_keepAliveTimeout set_pendingConnect timers]. rewrite Ht.
    unfold find_timer. cbn [timers]. apply find_filter_other. }
  split.
  { apply emitted_app. unfold disconnect. rewrite _disconnect_spec.
    cbn [trace ws set_pendingConnect]. destruct (ws s); [reflexivity|].
    rewrite app_nil_r. reflexivity. }
  split; [exact D6|]. split; [exact D7|].
  split.
  { intros evs Hno.
    destruct (stays_away evs (disconnect s) D1 D2 D4 Hno) as (A & B & C & E).
    rewrite D8 in E. repeat split; auto.
    intros p. unfold loop_head. rewrite A. reflexivity. }
  split.
  { intros p Hp.
    assert (E : connect (disconnect s) = (Some p, set_pendingConnect true (disconnect s)))
      by (apply connect_joins; [exact D2 | now rewrite D9]).
    split; [exact E|]. rewrite E. reflexivity. }
  split.
  { intros evs w reason Hw. set (s' := run (disconnect s) evs) in *.
    cbn [step]. rewrite Hw. unfold on_close. rewrite _disconnect_spec. cbn.
    split; [|reflexivity]. apply emitted_app. cbn.
    destruct (ws s'); [rewrite <- app_assoc | rewrite app_nil_r]; reflexivity. }
  split; [apply disconnect_fixed | apply disconnect_twice].
Qed.

End Monitor.

(** ** The claims on concrete runs *)

(** C1: the 'close' event of the superseded socket 0 arrives while socket 1
    is canonical and connected: the listener closes socket 1 and clears
    [connected] and the socket reference.  With a handler registered again, a
    frame of socket 0 that arrives after [disconnect()] is passed to the
    handler, and a frame of socket 0 deletes the entry a request made under
    socket 1. *)
Theorem C1_stale_socket_mutates_state :
  (ws (superseded no_json) = Some 1 /\
   connected (superseded no_json) = true /\
   connected (step no_json (superseded no_json) (EvClose 0 "bye")) = false /\
   ws (step no_json (superseded no_json) (EvClose 0 "bye")) = None /\
   emitted (superseded no_json) (step no_json (superseded no_json) (EvClose 0 "bye"))
   = [FxClose 1]) /\
  (ws (run no_json (opened no_json) [EvDisconnect; EvHandleMessage 5]) = None /\
   emitted (run no_json (opened no_json) [EvDisconnect; EvHandleMessage 5])
           (run no_json (opened no_json)
                [EvDisconnect; EvHandleMessage 5; EvMessage 0 (Binary frame42) (HValue false)])
   = [FxHandler 5 (MBytes [x01; x02; x03])]) /\
  (pending (run no_json (superseded no_json)
                [EvHandleMessage 5; EvRegister (KNum 42) 100])
   = [(KNum 42, 100)] /\
   pending (run no_json (superseded no_json)
                [EvHandleMessage 5; EvRegister (KNum 42) 100;
                 EvMessage 0 (Binary frame42) (HValue true)])
   = []).
Proof. vm_compute. repeat split; reflexivity. Qed.


(** C4: [reconnect()] with [pendingConnect] false stores a promise that is
    already resolved.  On a new monitor, and on a connected one (where
    [reconnect()] disconnects and then makes no attempt), the [connect()] that
    follows awaits that resolved promise: it requests no endpoint, creates no
    socket and leaves the monitor disconnected with [pendingConnect] true; and
    whatever is called or delivered afterwards, the monitor is never
    connected again. *)
Theorem C4_reconnect_stores_resolved_promise :
  (connectPromise (step no_json init EvReconnect) = Some 0 /\
   resolved (step no_json init EvReconnect) = [0] /\
   fst (connect (step no_json init EvReconnect)) = Some 0 /\
   emitted (step no_json init EvReconnect)
           (run no_json init [EvReconnect; EvConnect]) = [] /\
   connected (run no_json init [EvReconnect; EvConnect]) = false /\
   pendingConnect (run no_json init [EvReconnect; EvConnect]) = true /\
   tasks (run no_json init [EvReconnect; EvConnect]) = [] /\
   socks (run no_json init [EvReconnect; EvConnect]) = []) /\
  (connected (opened no_json) = true /\
   emitted (opened no_json) (step no_json (opened no_json) EvReconnect)
   = [FxClose 0; FxResolved 1] /\
   connectPromise (step no_json (opened no_json) EvReconnect) = Some 1 /\
   resolved (step no_json (opened no_json) EvReconnect) = [1; 0] /\
   tasks (step no_json (opened no_json) EvReconnect) = [] /\
   fst (connect (step no_json (opened no_json) EvReconnect)) = Some 1 /\
   emitted (step no_json (opened no_json) EvReconnect)
           (run no_json (opened no_json) [EvReconnect; EvConnect]) = [] /\
   connected (run no_json (opened no_json) [EvReconnect; EvConnect]) = false /\
   pendingConnect (run no_json (opened no_json) [EvReconnect; EvConnect]) = true /\
   tasks (run no_json (opened no_json) [EvReconnect; EvConnect]) = []) /\
  (forall evs, connected (run no_json (step no_json init EvReconnect) evs) = false) /\
  (forall evs,
      connected (run no_json (step no_json (opened no_json) EvReconnect) evs) = false).
Proof.
  split; [vm_compute; repeat split; reflexivity|].
  split; [vm_compute; repeat split; reflexivity|].
  split; intros evs.
  - apply (stuck_run no_json evs). repeat split; by_computation.
  - apply (stuck_run no_json evs). repeat split; by_computation.
Qed.

(** C9: the handler returns a promise that is rejected: the catch of the
    listener is not entered, nothing is logged, and the rejection is left
    unhandled. *)
Theorem C9_rejected_handler_promise_unhandled :
  emitted (listening no_json)
          (run no_json (listening no_json)
               [EvMessage 0 (Binary frame42) HPromise; EvSettle 0 None])
  = [FxHandler 5 (MBytes [x01; x02; x03]); FxUnhandled].
Proof. vm_compute. reflexivity. Qed.

(** C5, as the claim words it, fails: [disconnect()] is called while the
    endpoint is being resolved, so that [pendingConnect] becomes false during
    the resolution, and [connect()] is called again before the endpoint
    arrives.  The attempt is not cancelled: no 'connection cancelled' is
    thrown, socket 0 is created at the arrival and made canonical, and its
    'open' connects the monitor. *)
Lemma C5_cancelled_then_wanted_again_opens :
  lookup_task 0 (tasks (step no_json init EvConnect)) = Some AwaitEndpoint /\
  pendingConnect (step no_json init EvConnect) = true /\
  pendingConnect (cancelled_early no_json) = false /\
  lookup_task 0 (tasks (cancelled_early no_json)) = Some AwaitEndpoint /\
  emitted (cancelled_early no_json)
          (run no_json (cancelled_early no_json) [EvConnect; EvEndpoint 0 (Some url0)])
  = [FxNewSocket 0 url0] /\
  ws (run no_json (cancelled_early no_json) [EvConnect; EvEndpoint 0 (Some url0)])
  = Some 0 /\
  emitted (cancelled_early no_json)
          (run no_json (cancelled_early no_json)
               [EvConnect; EvEndpoint 0 (Some url0); EvOpen 0])
  = [FxNewSocket 0 url0; FxPing 0; FxResolved 0] /\
  connected (run no_json (cancelled_early no_json)
                 [EvConnect; EvEndpoint 0 (Some url0); EvOpen 0]) = true.
Proof. vm_compute. repeat split; reflexivity. Qed.

(** C6, as the claim words it, fails: 10000 ms after the open without a
    'pong', with [pendingConnect] still true, the deadline fires; afterwards
    the monitor is disconnected, no loop is suspended, no timer is left, and
    the step has requested no endpoint. *)
Lemma C6_timeout_starts_no_reconnect :
  pendingConnect (silent no_json) = true /\
  connected (silent no_json) = true /\
  pendingConnect (step no_json (silent no_json) (EvTimer 0)) = true /\
  connected (step no_json (silent no_json) (EvTimer 0)) = false /\
  tasks (step no_json (silent no_json) (EvTimer 0)) = [] /\
  timers (step no_json (silent no_json) (EvTimer 0)) = [] /\
  connectPromise (step no_json (silent no_json) (EvTimer 0)) = None /\
  emitted (silent no_json) (step no_json (silent no_json) (EvTimer 0))
  = [FxLog "Netmon did not get a response to pong in 10 seconds, disconnecting.";
     FxClose 0].
Proof. vm_compute. repeat split; reflexivity. Qed.

(** C7, as the claim words it, fails.  On a monitor that is not connected
    and holds no socket, [disconnect()] is no no-op: it clears the handler
    that was registered, before any connection and also after an earlier
    [disconnect()].  And it does not cancel the loop in flight: after
    [connect()] and [disconnect()] the loop is still suspended on the
    endpoint, and the [connect()] that follows joins it, so that this same
    attempt creates socket 0 when the endpoint arrives, and connects. *)
Lemma C7_disconnect_is_no_noop_and_cancels_no_loop :
  (connected (step no_json init (EvHandleMessage 5)) = false /\
   ws (step no_json init (EvHandleMessage 5)) = None /\
   handler (step no_json init (EvHandleMessage 5)) = Some 5 /\
   handler (disconnect (step no_json init (EvHandleMessage 5))) = None) /\
  (connected (run no_json (opened no_json) [EvDisconnect; EvHandleMessage 5]) = false /\
   ws (run no_json (opened no_json) [EvDisconnect; EvHandleMessage 5]) = None /\
   handler (run no_json (opened no_json) [EvDisconnect; EvHandleMessage 5]) = Some 5 /\
   handler (disconnect (run no_json (opened no_json) [EvDisconnect; EvHandleMessage 5]))
   = None) /\
  (tasks (step no_json init EvConnect) = [(0, AwaitEndpoint)] /\
   tasks (disconnect (step no_json init EvConnect)) = [(0, AwaitEndpoint)] /\
   emitted (disconnect (step no_json init EvConnect))
           (run no_json (disconnect (step no_json init EvConnect))
                [EvConnect; EvEndpoint 0 (Some url0); EvOpen 0])
   = [FxNewSocket 0 url0; FxPing 0; FxResolved 0] /\
   connected (run no_json (disconnect (step no_json init EvConnect))
                  [EvConnect; EvEndpoint 0 (Some url0); EvOpen 0]) = true).
Proof. vm_compute. repeat split; reflexivity. Qed.


(** A slip next to C6: [_stopKeepAlive()] does not cancel the 10000 ms wait
    started by a 'pong'.  The wait of the first connection (the 'pong' at
    time 0) ends at time 10000 and pings socket 1, 4000 ms after socket 1 was
    acknowledged at time 6000. *)
Lemma leftover_idle_timer_probes_early :
  now (run no_json (opened no_json)
           [EvPong 0; EvDisconnect; EvConnect; EvEndpoint 1 (Some url0);
            EvTick 5000; EvOpen 1; EvTick 1000; EvPong 1; EvTick 4000]) = 10000%N /\
  emitted (run no_json (opened no_json)
               [EvPong 0; EvDisconnect; EvConnect; EvEndpoint 1 (Some url0);
                EvTick 5000; EvOpen 1; EvTick 1000; EvPong 1; EvTick 4000])
          (run no_json (opened no_json)
               [EvPong 0; EvDisconnect; EvConnect; EvEndpoint 1 (Some url0);
                EvTick 5000; EvOpen 1; EvTick 1000; EvPong 1; EvTick 4000;
                EvTimer 1])
  = [FxPing 1].
Proof. vm_compute. split; reflexivity. Qed.

(** The same slip leaves a deadline behind.  The wait started by the 'pong'
    of socket 0 at 500 ms outlives the [disconnect()]; socket 1 opens at
    5000 ms with its deadline (timer 2, due 15000).  At 10500 ms the old wait
    ends and probes socket 1 once more, which stores a second deadline in
    [_keepAliveTimeout].  The 'pong' of socket 1, at 10500 ms, cancels only
    the stored one: timer 2 stays, fires at 15000 ms on the acknowledged
    connection and closes it. *)
Lemma leftover_idle_timer_leaks_deadline :
  now (run no_json (opened no_json)
           [EvTick 500; EvPong 0; EvDisconnect; EvConnect; EvEndpoint 1 (Some url0);
            EvTick 4500; EvOpen 1; EvTick 5500; EvTimer 1; EvPong 1]) = 10500%N /\
  connected (run no_json (opened no_json)
               [EvTick 500; EvPong 0; EvDisconnect; EvConnect; EvEndpoint 1 (Some url0);
                EvTick 4500; EvOpen 1; EvTick 5500; EvTimer 1; EvPong 1]) = true /\
  timers (run no_json (opened no_json)
            [EvTick 500; EvPong 0; EvDisconnect; EvConnect; EvEndpoint 1 (Some url0);
             EvTick 4500; EvOpen 1; EvTick 5500; EvTimer 1; EvPong 1])
  = [mkTimer 2 15000 (TDeadline 1); mkTimer 4 20500 TIdle; mkTimer 5 20500 TIdle] /\
  emitted (run no_json (opened no_json)
             [EvTick 500; EvPong 0; EvDisconnect; EvConnect; EvEndpoint 1 (Some url0);
              EvTick 4500; EvOpen 1; EvTick 5500; EvTimer 1; EvPong 1; EvTick 4500])
          (run no_json (opened no_json)
             [EvTick 500; EvPong 0; EvDisconnect; EvConnect; EvEndpoint 1 (Some url0);
              EvTick 4500; EvOpen 1; EvTick 5500; EvTimer 1; EvPong 1; EvTick 4500;
              EvTimer 2])
  = [FxLog "Netmon did not get a response to pong in 10 seconds, disconnecting.";
     FxClose 1] /\
  connected (run no_json (opened no_json)
               [EvTick 500; EvPong 0; EvDisconnect; EvConnect; EvEndpoint 1 (Some url0);
                EvTick 4500; EvOpen 1; EvTick 5500; EvTimer 1; EvPong 1; EvTick 4500;
                EvTimer 2]) = false.
Proof. vm_compute. repeat split; reflexivity. Qed.
(** ** The theorems at concrete inputs *)

(** C3 while the first [connect()] resolves its endpoint. *)
Lemma C3_single_flight_witness :
  reachable no_json (step no_json init EvConnect) /\
  In (0, AwaitEndpoint) (tasks (step no_json init EvConnect)) /\
  reconnect (step no_json init EvConnect) = (0, step no_json init EvConnect) /\
  fst (connect (step no_json init EvConnect)) = Some 0.
Proof.
  assert (Hr : reachable no_json (step no_json init EvConnect))
    by (apply reach_step, reach_init).
  assert (Hin : In (0, AwaitEndpoint) (tasks (step no_json init EvConnect)))
    by (left; by_computation).
  destruct (C3_single_flight no_json _ 0 AwaitEndpoint Hr Hin) as (_ & _ & R & C).
  split; [exact Hr|]. split; [exact Hin|]. split; [exact R|].
  rewrite C. reflexivity.
Defined.


(** C5 when [disconnect()] comes while the endpoint is resolved, when
    [connect()] follows it before the endpoint arrives, and when
    [disconnect()] comes while socket 0 is opened. *)
Lemma C5_open_attempt_cancelled_witness :
  (lookup_task 0 (tasks (cancelled_early no_json)) = Some AwaitEndpoint /\
   pendingConnect (cancelled_early no_json) = false /\
   socks (step no_json (cancelled_early no_json) (EvEndpoint 0 (Some url0))) = [] /\
   emitted (cancelled_early no_json)
           (step no_json (cancelled_early no_json) (EvEndpoint 0 (Some url0)))
   = [FxCaught 0 ECancelled]) /\
  (lookup_task 0 (tasks (step no_json (cancelled_early no_json) EvConnect))
   = Some AwaitEndpoint /\
   pendingConnect (step no_json (cancelled_early no_json) EvConnect) = true /\
   ws (step no_json (step no_json (cancelled_early no_json) EvConnect)
         (EvEndpoint 0 (Some url0))) = Some 0 /\
   emitted (step no_json (cancelled_early no_json) EvConnect)
           (step no_json (step no_json (cancelled_early no_json) EvConnect)
              (EvEndpoint 0 (Some url0)))
   = [FxNewSocket 0 url0]) /\
  (nth_error (socks (cancelled_late no_json)) 0 = Some (new_sock url0) /\
   awaiting 0 (tasks (cancelled_late no_json)) = Some 0 /\
   ws (cancelled_late no_json) <> Some 0 /\
   emitted (cancelled_late no_json) (step no_json (cancelled_late no_json) (EvOpen 0))
   = [FxClose 0; FxCaught 0 ECancelled] /\
   connected (step no_json (cancelled_late no_json) (EvOpen 0)) = false).
Proof.
  assert (H1 : lookup_task 0 (tasks (cancelled_early no_json)) = Some AwaitEndpoint)
    by by_computation.
  assert (H2 : pendingConnect (cancelled_early no_json) = false) by by_computation.
  assert (H3 : nth_error (socks (cancelled_late no_json)) 0 = Some (new_sock url0))
    by by_computation.
  assert (H4 : awaiting 0 (tasks (cancelled_late no_json)) = Some 0) by by_computation.
  assert (H5 : ws (cancelled_late no_json) <> Some 0) by by_computation.
  assert (H6 : open_once (new_sock url0) = true) by by_computation.
  assert (H7 : lookup_task 0 (tasks (step no_json (cancelled_early no_json) EvConnect))
               = Some AwaitEndpoint) by by_computation.
  assert (H8 : pendingConnect (step no_json (cancelled_early no_json) EvConnect) = true)
    by by_computation.
  destruct (C5_open_attempt_cancelled no_json (cancelled_early no_json) 0 0 url0
              (new_sock url0)) as (A & _ & _).
  destruct (A H1 H2) as (A1 & _ & _ & A4 & _).
  destruct (C5_open_attempt_cancelled no_json
              (step no_json (cancelled_early no_json) EvConnect) 0 0 url0
              (new_sock url0)) as (_ & G & _).
  destruct (G H7 H8) as (_ & G2 & _ & G4 & _).
  destruct (C5_open_attempt_cancelled no_json (cancelled_late no_json) 0 0 url0
              (new_sock url0)) as (_ & _ & B & _).
  destruct (B H3 H6 H4 H5) as (B1 & _ & B3 & _).
  split; [|split; [|split; [exact H3 | split; [exact H4 | split; [exact H5 | split]]]]].
  - split; [exact H1 | split; [exact H2 | split; [computed A1 | exact A4]]].
  - split; [exact H7 | split; [exact H8 | split; [computed G2 | computed G4]]].
  - exact B1.
  - computed B3.
Defined.

(** C7 on the open connection, on the attempt that waits for the 'open' of
    socket 0, and on a new monitor. *)
Lemma C7_disconnect_witness :
  (_keepAliveTimeout (opened no_json) = Some 0 /\
   find_timer 0 (disconnect (opened no_json)) = None) /\
  (~ In EvConnect [EvReconnect; EvTick 1000; EvClose 0 "bye"] /\
   connected (run no_json (disconnect (opened no_json))
                [EvReconnect; EvTick 1000; EvClose 0 "bye"]) = false /\
   List.length (socks (run no_json (disconnect (opened no_json))
                         [EvReconnect; EvTick 1000; EvClose 0 "bye"])) = 1) /\
  (connectPromise (opening no_json) = Some 0 /\
   connect (disconnect (opening no_json))
   = (Some 0, set_pendingConnect true (disconnect (opening no_json)))) /\
  (has_sock 0 (run no_json (disconnect (opened no_json)) [EvTick 1000]) = true /\
   pending (step no_json (run no_json (disconnect (opened no_json)) [EvTick 1000])
              (EvClose 0 "bye")) = []) /\
  disconnect init = init.
Proof.
  assert (H1 : _keepAliveTimeout (opened no_json) = Some 0) by by_computation.
  assert (H2 : ~ In EvConnect [EvReconnect; EvTick 1000; EvClose 0 "bye"]).
  { intros [H | [H | [H | []]]]; discriminate. }
  assert (H3 : connectPromise (opening no_json) = Some 0) by by_computation.
  assert (H4 : has_sock 0 (run no_json (disconnect (opened no_json)) [EvTick 1000]) = true)
    by by_computation.
  destruct (C7_disconnect no_json (opened no_json))
    as (_ & _ & _ & _ & _ & A & _ & _ & _ & B & _ & C & _).
  destruct (B _ H2) as (_ & B2 & _ & B4 & _).
  destruct (C [EvTick 1000] 0 "bye" H4) as (_ & C2).
  destruct (C7_disconnect no_json (opening no_json))
    as (_ & _ & _ & _ & _ & _ & _ & _ & _ & _ & J & _).
  destruct (C7_disconnect no_json init)
    as (_ & _ & _ & _ & _ & _ & _ & _ & _ & _ & _ & _ & N & _).
  split; [split; [exact H1 | exact (A 0 H1)]|].
  split; [split; [exact H2 | split; [exact B2 | computed B4]]|].
  split; [split; [exact H3 | exact (proj1 (J 0 H3))]|].
  split; [split; [exact H4 | exact C2]|].
  apply N. repeat split; by_computation.
Defined.

(** C6 on the first connection: the open, a 'pong', a 'pong' after
    [disconnect()], the deadline before and when it is due, and the timer
    started by the 'pong'; then the heartbeat round by round: the probe of
    the 'open', its 'pong' at 500 ms, 9000 ms without a ping, the next probe
    at 10500 ms; and a monitor that was disconnected while an idle wait was
    running. *)
Lemma C6_keepalive_witness :
  (nth_error (socks (opening no_json)) 0 = Some (new_sock url0) /\
   emitted (opening no_json) (step no_json (opening no_json) (EvOpen 0))
   = [FxPing 0; FxResolved 0] /\
   timers (step no_json (opening no_json) (EvOpen 0)) = [mkTimer 0 10000 (TDeadline 0)]) /\
  (timers (step no_json (opened no_json) (EvPong 0)) = [mkTimer 1 10000 TIdle] /\
   emitted (opened no_json) (step no_json (opened no_json) (EvPong 0)) = []) /\
  step no_json (step no_json (opened no_json) EvDisconnect) (EvPong 0)
  = upd_sock 0 clear_pong_once (step no_json (opened no_json) EvDisconnect) /\
  step no_json (opened no_json) (EvTimer 0) = opened no_json /\
  emitted (idle_over no_json) (step no_json (idle_over no_json) (EvTimer 1)) = [FxPing 0] /\
  (connected (step no_json (silent no_json) (EvTimer 0)) = false /\
   tasks (step no_json (silent no_json) (EvTimer 0)) = tasks (silent no_json)) /\
  (dormant (step no_json (silent no_json) (EvTimer 0)) /\
   dormant (run no_json (step no_json (silent no_json) (EvTimer 0))
                [EvTick 60000; EvPong 0; EvError 0 "reset"; EvClose 0 "gone"])) /\
  (timers (opening no_json) = [] /\
   probing 0 0 10000 (step no_json (opening no_json) (EvOpen 0))) /\
  (probing 0 0 10000 (step no_json (opened no_json) (EvTick 500)) /\
   resting 0 1 10500 (acked no_json)) /\
  ((now (acked no_json) + elapsed [EvTick 9000; EvPong 0; EvTimer 1] < 10500)%N /\
   filter is_ping
     (emitted (acked no_json)
        (run no_json (acked no_json) [EvTick 9000; EvPong 0; EvTimer 1])) = []) /\
  (resting 0 1 10500 (idle_over no_json) /\
   (10500 <= now (idle_over no_json))%N /\
   probing 0 2 20500 (step no_json (idle_over no_json) (EvTimer 1))) /\
  (probing 0 0 10000 (silent no_json) /\
   dormant (step no_json (silent no_json) (EvTimer 0))) /\
  (at_rest (run no_json (opened no_json) [EvPong 0; EvDisconnect]) /\
   timers (run no_json (opened no_json) [EvPong 0; EvDisconnect])
   = [mkTimer 1 10000 TIdle] /\
   at_rest (run no_json (run no_json (opened no_json) [EvPong 0; EvDisconnect])
              [EvTick 10000; EvTimer 1; EvDisconnect; EvClose 0 "gone"])).
Proof.
  pose (i0 := new_sock url0).
  pose (i1 := mkSock url0 false true true 1).
  pose (i2 := mkSock url0 false true true 0).
  pose (x0 := mkTimer 0 10000 (TDeadline 0)).
  pose (x1 := mkTimer 1 10500 TIdle).
  (* the open *)
  assert (S0 : nth_error (socks (opening no_json)) 0 = Some i0) by by_computation.
  assert (A1 : open_once i0 = true) by by_computation.
  assert (A2 : ws (opening no_json) = Some 0) by by_computation.
  assert (A3 : awaiting 0 (tasks (opening no_json)) = Some 0) by by_computation.
  destruct (C6_keepalive no_json (opening no_json) 0 0 0 i0 x0 S0) as (A & _).
  destruct (A A1 A2 A3) as (_ & Aa & _ & Ab).
  (* the pong and the deadline that is not due *)
  assert (S1 : nth_error (socks (opened no_json)) 0 = Some i1) by by_computation.
  assert (B1 : pong_once i1 = 1) by by_computation.
  assert (B2 : ws (opened no_json) = Some 0) by by_computation.
  assert (B3 : _keepAliveTimeout (opened no_json) = Some 0) by by_computation.
  assert (D1 : find_timer 0 (opened no_json) = Some x0) by by_computation.
  assert (D2 : (now (opened no_json) < t_due x0)%N) by by_computation.
  destruct (C6_keepalive no_json (opened no_json) 0 0 0 i1 x0 S1)
    as (_ & B & _ & D & _).
  destruct (B B1 B2 B3) as (_ & Ba & Bb).
  pose proof (D D1 D2) as Da.
  (* the pong of the closed socket *)
  assert (S2 : nth_error (socks (step no_json (opened no_json) EvDisconnect)) 0 = Some i1)
    by by_computation.
  assert (C1 : ws (step no_json (opened no_json) EvDisconnect) <> Some 0)
    by by_computation.
  destruct (C6_keepalive no_json (step no_json (opened no_json) EvDisconnect) 0 0 0 i1 x0 S2)
    as (_ & _ & C & _).
  pose proof (C C1) as Ca.
  (* the timer started by the pong *)
  assert (S3 : nth_error (socks (idle_over no_json)) 0 = Some i2) by by_computation.
  assert (E1 : find_timer 1 (idle_over no_json) = Some x1) by by_computation.
  assert (E2 : t_act x1 = TIdle) by by_computation.
  assert (E3 : (t_due x1 <= now (idle_over no_json))%N)
    by (apply N.leb_le; by_computation).
  assert (E4 : connected (idle_over no_json) = true) by by_computation.
  assert (E5 : ws (idle_over no_json) = Some 0) by by_computation.
  destruct (C6_keepalive no_json (idle_over no_json) 0 0 1 i2 x1 S3)
    as (_ & _ & _ & _ & E & _).
  pose proof (E E1 E2 E3 E4 E5) as Ea.
  (* the deadline *)
  assert (S4 : nth_error (socks (silent no_json)) 0 = Some i1) by by_computation.
  assert (F1 : find_timer 0 (silent no_json) = Some x0) by by_computation.
  assert (F2 : t_act x0 = TDeadline 0) by by_computation.
  assert (F3 : (t_due x0 <= now (silent no_json))%N)
    by (apply N.leb_le; by_computation).
  assert (F4 : ws (silent no_json) = Some 0) by by_computation.
  destruct (C6_keepalive no_json (silent no_json) 0 0 0 i1 x0 S4)
    as (_ & _ & _ & _ & _ & F & _).
  destruct (F F1 F2 F3 F4) as (_ & _ & Fa & _ & _ & _ & Fb).
  (* afterwards *)
  assert (S5 : nth_error (socks (step no_json (silent no_json) (EvTimer 0))) 0 = Some i1)
    by by_computation.
  assert (G1 : dormant (step no_json (silent no_json) (EvTimer 0)))
    by (repeat split; by_computation).
  destruct (C6_keepalive no_json (step no_json (silent no_json) (EvTimer 0)) 0 0 0 i1 x0 S5)
    as (_ & _ & _ & _ & _ & _ & G & _).
  pose proof (G G1 [EvTick 60000; EvPong 0; EvError 0 "reset"; EvClose 0 "gone"] eq_refl)
    as Ga.
  split; [split; [exact S0 | split; [exact Aa | computed Ab]]|].
  split; [split; [computed Ba | exact Bb]|].
  split; [exact Ca|].
  split; [exact Da|].
  split; [exact Ea|].
  split; [split; [exact Fa | exact Fb]|].
  (* the heartbeat, round by round *)
  assert (P0 : pong_once i0 = 0) by by_computation.
  assert (P1 : tasks (opening no_json) = [(0, AwaitOpen 0)]) by by_computation.
  assert (P2 : timers (opening no_json) = []) by by_computation.
  destruct (C6_keepalive no_json (opening no_json) 0 0 0 i0 x0 S0)
    as (_ & _ & _ & _ & _ & _ & _ & P & _).
  pose proof (P A1 P0 A2 P1 P2) as Pa.
  set (o5 := step no_json (opened no_json) (EvTick 500)).
  assert (S6 : nth_error (socks o5) 0 = Some i1) by by_computation.
  assert (Q1 : probing 0 0 10000 o5).
  { unfold probing. repeat split; try by_computation.
    exists i1. split; by_computation. }
  destruct (C6_keepalive no_json o5 0 0 0 i1 x0 S6)
    as (_ & _ & _ & _ & _ & _ & _ & _ & Q & _).
  destruct (Q 10000%N Q1) as (Qa & _).
  assert (R1 : resting 0 1 10500 (acked no_json)) by (computed Qa).
  assert (S7 : nth_error (socks (acked no_json)) 0 = Some i2) by by_computation.
  assert (R2 : forallb (fun e => negb (is_call e)) [EvTick 9000; EvPong 0; EvTimer 1] = true)
    by by_computation.
  assert (R3 : (now (acked no_json) + elapsed [EvTick 9000; EvPong 0; EvTimer 1] < 10500)%N)
    by by_computation.
  destruct (C6_keepalive no_json (acked no_json) 0 0 1 i2 x1 S7)
    as (_ & _ & _ & _ & _ & _ & _ & _ & _ & R & _).
  destruct (R 10500%N R1) as (Ra & _).
  pose proof (Ra _ R2 R3) as Rb.
  assert (T1 : resting 0 1 10500 (idle_over no_json)).
  { unfold resting. repeat split; try by_computation.
    exists i2. split; by_computation. }
  assert (T2 : (10500 <= now (idle_over no_json))%N) by by_computation.
  destruct (C6_keepalive no_json (idle_over no_json) 0 0 1 i2 x1 S3)
    as (_ & _ & _ & _ & _ & _ & _ & _ & _ & T & _).
  destruct (T 10500%N T1) as (_ & Ta).
  destruct (Ta T2) as (_ & Tb).
  assert (U1 : probing 0 0 10000 (silent no_json)).
  { unfold probing. repeat split; try by_computation.
    exists i1. split; by_computation. }
  assert (U2 : (10000 <= now (silent no_json))%N) by by_computation.
  destruct (C6_keepalive no_json (silent no_json) 0 0 0 i1 x0 S4)
    as (_ & _ & _ & _ & _ & _ & _ & _ & _ & _ & U & _).
  destruct (U 10000%N U1 U2) as (_ & _ & Ua & _).
  set (gone := run no_json (opened no_json) [EvPong 0; EvDisconnect]).
  assert (S8 : nth_error (socks gone) 0 = Some i2) by by_computation.
  assert (V1 : at_rest gone) by (repeat split; by_computation).
  assert (V2 : timers gone = [mkTimer 1 10000 TIdle]) by by_computation.
  destruct (C6_keepalive no_json gone 0 0 1 i2 x1 S8)
    as (_ & _ & _ & _ & _ & _ & _ & _ & _ & _ & _ & V).
  assert (V3 : ~ In EvConnect [EvTick 10000; EvTimer 1; EvDisconnect; EvClose 0 "gone"])
    by (intros [H | [H | [H | [H | []]]]]; discriminate).
  assert (V4 : ~ In EvReconnect [EvTick 10000; EvTimer 1; EvDisconnect; EvClose 0 "gone"])
    by (intros [H | [H | [H | [H | []]]]]; discriminate).
  pose proof (V V1 _ V3 V4) as Va.
  split; [split; [exact G1 | exact Ga]|].
  split; [split; [exact P2 | computed Pa]|].
  split; [split; [exact Q1 | exact R1]|].
  split; [split; [exact R3 | exact Rb]|].
  split; [split; [exact T1 | split; [exact T2 | computed Tb]]|].
  split; [split; [exact U1 | exact Ua]|].
  split; [exact V1 | split; [exact V2 | exact Va]].
Defined.

(** C8 on the frame with id 42. *)
Lemma C8_binary_frame_dispatch_witness :
  (8 <= List.length frame42)%nat /\
  handler (listening no_json) = Some 5 /\
  decode no_json (Binary frame42) = Some (MBytes [x01; x02; x03], KNum 42) /\
  pending (on_message no_json (Binary frame42) (HValue true)
             (step no_json (listening no_json) (EvRegister (KNum 42) 100)))
  = [].
Proof.
  assert (H1 : (8 <= List.length frame42)%nat) by (apply Nat.leb_le; by_computation).
  assert (H2 : handler (listening no_json) = Some 5) by by_computation.
  assert (H3 : handler (step no_json (listening no_json) (EvRegister (KNum 42) 100)) = Some 5)
    by by_computation.
  destruct (C8_binary_frame_dispatch no_json frame42
              (step no_json (listening no_json) (EvRegister (KNum 42) 100)) 5 H1 H3)
    as (D & _ & _ & P & _).
  split; [exact H1 | split; [exact H2 | split; [computed D | computed P]]].
Defined.

(** C10 on a frame of three bytes. *)
Lemma C10_short_binary_frame_witness :
  (List.length [x01; x02; x03] < 8)%nat /\
  handler (step no_json (listening no_json) (EvRegister (KNum 42) 100)) = Some 5 /\
  decode no_json (Binary [x01; x02; x03]) = Some (MUndef, KUndef) /\
  filter is_num
    (pending (on_message no_json (Binary [x01; x02; x03]) (HValue true)
                (step no_json (listening no_json) (EvRegister (KNum 42) 100))))
  = [(KNum 42, 100)].
Proof.
  assert (H1 : (List.length [x01; x02; x03] < 8)%nat) by (apply Nat.ltb_lt; by_computation).
  assert (H2 : handler (step no_json (listening no_json) (EvRegister (KNum 42) 100)) = Some 5)
    by by_computation.
  destruct (C10_short_binary_frame no_json [x01; x02; x03]
              (step no_json (listening no_json) (EvRegister (KNum 42) 100)) 5
              (HValue true) H1 H2) as (D & _ & E & _).
  split; [exact H1 | split; [exact H2 | split; [exact D | computed E]]].
Defined.

(** ** Further examples: the life of a connection *)

Lemma connection_lost_clears_handler_witness :
  connected (listening no_json) = true /\
  handler (listening no_json) = Some 5 /\
  connected (step no_json (listening no_json) (EvClose 0 "gone")) = false /\
  handler (step no_json (listening no_json) (EvClose 0 "gone")) = None.
Proof.
  assert (H1 : connected (listening no_json) = true) by by_computation.
  assert (H2 : connected (step no_json (listening no_json) (EvClose 0 "gone")) = false)
    by by_computation.
  destruct (connection_lost_clears_handler no_json _ _ H1 H2) as (A & _ & _).
  split; [exact H1|]. split; [by_computation|]. split; [exact H2 | exact A].
Defined.

Lemma connected_has_opened_socket_witness :
  reachable no_json (opened no_json) /\
  connected (opened no_json) = true /\
  exists w i, ws (opened no_json) = Some w /\
              nth_error (socks (opened no_json)) w = Some i /\
              open_once i = false /\ error_on i = true.
Proof.
  assert (Hr : reachable no_json (opened no_json)).
  { unfold opened, opening. apply reach_step, reachable_run, reach_init. }
  assert (H1 : connected (opened no_json) = true) by by_computation.
  destruct (connected_has_opened_socket no_json _ Hr) as (A & _ & _).
  split; [exact Hr|]. split; [exact H1 | exact (A H1)].
Defined.

Lemma close_event_fails_pending_and_disconnects_witness :
  has_sock 0 (requested no_json) = true /\
  emitted (requested no_json) (step no_json (requested no_json) (EvClose 0 "gone"))
  = [FxCallback 100 (EDisconnected "gone"); FxClose 0] /\
  pending (step no_json (requested no_json) (EvClose 0 "gone")) = [].
Proof.
  assert (H1 : has_sock 0 (requested no_json) = true) by by_computation.
  destruct (close_event_fails_pending_and_disconnects no_json _ 0 "gone" H1)
    as (A & B & _).
  split; [exact H1|]. split; [computed A | exact B].
Defined.

Lemma error_after_open_tears_down_witness :
  ws (requested no_json) = Some 0 /\
  awaiting 0 (tasks (requested no_json)) = None /\
  emitted (requested no_json) (step no_json (requested no_json) (EvError 0 "boom"))
  = [FxClose 0; FxCallback 100 (ETransport "boom"); FxClose 0;
     FxLog "error in netmon socket"] /\
  connected (step no_json (requested no_json) (EvError 0 "boom")) = false.
Proof.
  assert (H1 : nth_error (socks (requested no_json)) 0
               = Some (mkSock url0 false true true 1)) by by_computation.
  assert (H2 : error_on (mkSock url0 false true true 1) = true) by reflexivity.
  assert (H3 : ws (requested no_json) = Some 0) by by_computation.
  assert (H4 : awaiting 0 (tasks (requested no_json)) = None) by by_computation.
  destruct (error_after_open_tears_down no_json _ 0 "boom" _ H1 H2 H3 H4)
    as (A & _ & C & _).
  split; [exact H3|]. split; [exact H4|]. split; [computed A | exact C].
Defined.

Lemma error_before_open_retries_witness :
  ws (opening no_json) = Some 0 /\
  awaiting 0 (tasks (opening no_json)) = Some 0 /\
  emitted (opening no_json) (step no_json (opening no_json) (EvError 0 "refused"))
  = [FxClose 0; FxCaught 0 (ETransport "refused")] /\
  lookup_task 0 (tasks (step no_json (opening no_json) (EvError 0 "refused")))
  = Some (AwaitBackoff 0).
Proof.
  assert (H1 : nth_error (socks (opening no_json)) 0
               = Some (mkSock url0 true true false 0)) by by_computation.
  assert (H2 : error_once (mkSock url0 true true false 0) = true) by reflexivity.
  assert (H3 : error_on (mkSock url0 true true false 0) = false) by reflexivity.
  assert (H4 : ws (opening no_json) = Some 0) by by_computation.
  assert (H5 : awaiting 0 (tasks (opening no_json)) = Some 0) by by_computation.
  destruct (error_before_open_retries no_json _ 0 0 "refused" _ H1 H2 H3 H4 H5)
    as (A & _ & C & _).
  split; [exact H4|]. split; [exact H5|]. split; [exact A | computed C].
Defined.

Lemma dispatch_keeps_connection_witness :
  connected (step no_json (listening no_json) (EvMessage 0 (Binary frame42) (HValue true)))
  = connected (listening no_json) /\
  handler (step no_json (listening no_json) (EvMessage 0 (Binary frame42) (HValue true)))
  = handler (listening no_json).
Proof.
  assert (H : (exists w data out,
                  EvMessage 0 (Binary frame42) (HValue true) = EvMessage w data out) \/
              (exists c r, EvMessage 0 (Binary frame42) (HValue true) = EvSettle c r)).
  { left. exists 0, (Binary frame42), (HValue true). reflexivity. }
  destruct (dispatch_keeps_connection no_json (listening no_json) _ H) as (A & _ & C & _).
  split; [exact A | exact C].
Defined.

Lemma truthy_result_removes_only_that_id_witness :
  has_sock 0 (step no_json (listening no_json) (EvRegister (KNum 42) 100)) = true /\
  pending_get (KNum 42)
    (pending (step no_json (listening no_json) (EvRegister (KNum 42) 100))) = Some 100 /\
  pending_get (KNum 42)
    (pending (step no_json (step no_json (listening no_json) (EvRegister (KNum 42) 100))
                (EvMessage 0 (Binary frame42) (HValue true)))) = None.
Proof.
  assert (H1 : has_sock 0 (step no_json (listening no_json) (EvRegister (KNum 42) 100))
               = true) by by_computation.
  assert (H2 : decode no_json (Binary frame42) = Some (MBytes [x01; x02; x03], KNum 42))
    by by_computation.
  assert (H3 : handler (step no_json (listening no_json) (EvRegister (KNum 42) 100))
               = Some 5) by by_computation.
  destruct (truthy_result_removes_only_that_id no_json _ 0 _ _ _ 5 H1 H2 H3)
    as ((A & _) & _).
  split; [exact H1|]. split; [by_computation | exact A].
Defined.

Lemma undispatched_frames_witness :
  has_sock 0 (opened no_json) = true /\
  step no_json (opened no_json) (EvMessage 0 (Text "not json") HPromise)
  = emit (FxLog "error in agent message handler") (opened no_json) /\
  step no_json (opened no_json) (EvMessage 0 (Binary frame42) (HValue true))
  = opened no_json.
Proof.
  assert (H1 : has_sock 0 (opened no_json) = true) by by_computation.
  assert (H2 : no_json "not json" = None) by reflexivity.
  assert (H3 : handler (opened no_json) = None) by by_computation.
  assert (H4 : decode no_json (Binary frame42) <> None) by by_computation.
  destruct (undispatched_frames no_json (opened no_json) 0 H1) as (A & B).
  split; [exact H1|]. split; [exact (A "not json" HPromise H2)|].
  exact (B (Binary frame42) (HValue true) H3 H4).
Defined.

(** ** Further examples: start(), stop(), clearLog() *)

Lemma start_enables_at_once_or_waits_witness :
  api_reachable no_json (started no_json) /\
  connected (mon (started no_json)) = true /\
  log (start (started no_json))
  = log (started no_json) ++ [AFetch 1 "/instances/i-1/sslsplit/enable" "POST"] /\
  api_reachable no_json (api_step no_json api0 (OnMonitor EvReconnect)) /\
  connected (mon (api_step no_json api0 (OnMonitor EvReconnect))) = false /\
  connectPromise (mon (api_step no_json api0 (OnMonitor EvReconnect)))
  = Some 0 /\
  In 0 (resolved (mon (api_step no_json api0 (OnMonitor EvReconnect)))) /\
  connected (mon (start (api_step no_json api0 (OnMonitor EvReconnect))))
  = false /\
  log (start (api_step no_json api0 (OnMonitor EvReconnect)))
  = log (api_step no_json api0 (OnMonitor EvReconnect))
      ++ [AFetch 0 "/instances/i-1/sslsplit/enable" "POST"].
Proof.
  assert (Hr : api_reachable no_json (started no_json)).
  { unfold started, starting. apply api_reach_step, api_reachable_run, api_reach_init. }
  assert (H1 : connected (mon (started no_json)) = true) by by_computation.
  destruct (start_enables_at_once_or_waits no_json _ Hr) as (A & _).
  destruct (A H1) as (_ & L & _).
  set (lost := api_step no_json api0 (OnMonitor EvReconnect)).
  assert (Hr2 : api_reachable no_json lost) by (apply api_reach_step, api_reach_init).
  assert (H2 : connected (mon lost) = false) by by_computation.
  assert (H3 : connectPromise (mon lost) = Some 0) by by_computation.
  assert (H4r : resolved (mon lost) = [0]) by by_computation.
  assert (H4 : In 0 (resolved (mon lost))) by (rewrite H4r; left; reflexivity).
  destruct (start_enables_at_once_or_waits no_json _ Hr2) as (_ & B & _).
  destruct (B 0 H2 H3 H4) as (_ & C & L2 & _).
  split; [exact Hr|]. split; [exact H1|]. split; [computed L|].
  split; [exact Hr2|]. split; [exact H2|]. split; [exact H3|]. split; [exact H4|].
  split; [exact C | computed L2].
Defined.

Lemma start_continues_when_promise_resolves_witness :
  calls (starting no_json) = [(0, StartConnect 0)] /\
  In 0 (resolved (step no_json (mon (starting no_json)) (EvOpen 0))) /\
  calls (api_step no_json (starting no_json) (OnMonitor (EvOpen 0)))
  = [(0, StartFetch (next_fetch (starting no_json)))].
Proof.
  assert (H1 : calls (starting no_json) = [(0, StartConnect 0)]) by by_computation.
  assert (H2 : In 0 (resolved (step no_json (mon (starting no_json)) (EvOpen 0))))
    by (left; by_computation).
  destruct (start_continues_when_promise_resolves no_json _ 0 0 (EvOpen 0) H1)
    as (_ & A & _).
  destruct (A H2) as (_ & C).
  split; [exact H1|]. split; [exact H2 | exact C].
Defined.

Lemma stop_disconnects_only_after_disable_witness :
  find_fetch 1 (calls (stopping no_json)) = Some (1, true) /\
  connected (mon (stopping no_json)) = true /\
  mon (api_step no_json (stopping no_json) (FetchSettles 1 true))
  = disconnect (mon (stopping no_json)) /\
  mon (api_step no_json (stopping no_json) (FetchSettles 1 false))
  = mon (stopping no_json).
Proof.
  assert (H1 : find_fetch 1 (calls (stopping no_json)) = Some (1, true))
    by by_computation.
  destruct (stop_disconnects_only_after_disable no_json (stopping no_json)) as (_ & A).
  destruct (A 1 1 H1) as ((B & _) & (C & _)).
  split; [exact H1|]. split; [by_computation|]. split; [exact B | exact C].
Defined.

Lemma clearLog_on_open_connection_witness :
  api_reachable no_json (started no_json) /\
  connected (mon (started no_json)) = true /\
  exists w,
    ws (mon (started no_json)) = Some w /\
    mon (clearLog (started no_json)) = mon (started no_json) /\
    log (clearLog (started no_json))
    = log (started no_json) ++ [ASend w clear_text; AReturn (next_call (started no_json))] /\
    calls (clearLog (started no_json)) = calls (started no_json).
Proof.
  assert (Hr : api_reachable no_json (started no_json)).
  { unfold started, starting. apply api_reach_step, api_reachable_run, api_reach_init. }
  assert (H1 : connected (mon (started no_json)) = true) by by_computation.
  split; [exact Hr|]. split; [exact H1|].
  exact (clearLog_on_open_connection no_json _ Hr H1).
Defined.

Lemma clearLog_callers_share_one_connection_witness :
  calls (clearing no_json) = map (fun c => (c, ClearConnect 0)) [0; 1] /\
  ws (step no_json (mon (clearing no_json)) (EvOpen 0)) = Some 0 /\
  log (api_step no_json (clearing no_json) (OnMonitor (EvOpen 0)))
  = log (clearing no_json)
    ++ [AMon (FxPing 0); AMon (FxResolved 0);
        ASend 0 clear_text; ASend 0 clear_text; AMon (FxClose 0);
        AReturn 0; AReturn 1] /\
  calls (api_step no_json (clearing no_json) (OnMonitor (EvOpen 0))) = [].
Proof.
  assert (H0 : [0; 1] <> []) by discriminate.
  assert (H1 : calls (clearing no_json) = map (fun c => (c, ClearConnect 0)) [0; 1])
    by by_computation.
  assert (H2 : In 0 (resolved (step no_json (mon (clearing no_json)) (EvOpen 0))))
    by (left; by_computation).
  assert (H3 : ws (step no_json (mon (clearing no_json)) (EvOpen 0)) = Some 0)
    by by_computation.
  destruct (clearLog_callers_share_one_connection no_json _ 0 [0; 1] (EvOpen 0) H0 H1 H2)
    as (A & _).
  destruct (A 0 H3) as (_ & L & C & _).
  split; [exact H1|]. split; [exact H3|]. split; [computed L | exact C].
Defined.

Lemma suspended_callers_wait_for_the_loop_witness :
  api_reachable no_json (queued no_json) /\
  In (1, ClearConnect 0) (calls (queued no_json)) /\
  connectPromise (mon (queued no_json)) = Some 0 /\
  connected (mon (queued no_json)) = false /\
  ~ In 0 (resolved (mon (queued no_json))) /\
  exists st, tasks (mon (queued no_json)) = [(0, st)].
Proof.
  assert (Hr : api_reachable no_json (queued no_json)).
  { unfold queued. apply api_reachable_run, api_reach_init. }
  assert (Hc : calls (queued no_json) = [(0, StartConnect 0); (1, ClearConnect 0)])
    by by_computation.
  assert (H1 : In (1, ClearConnect 0) (calls (queued no_json)))
    by (rewrite Hc; right; left; reflexivity).
  assert (H2 : waits_on (ClearConnect 0) = Some 0) by reflexivity.
  split; [exact Hr|]. split; [exact H1|].
  exact (suspended_callers_wait_for_the_loop no_json _ 1 _ 0 Hr H1 H2).
Defined.

Lemma suspended_call_continues_only_when_loop_ends_witness :
  api_reachable no_json (starting no_json) /\
  In (0, StartConnect 0) (calls (starting no_json)) /\
  pendingConnect (mon (starting no_json)) = true /\
  connected (step no_json (mon (starting no_json)) (EvError 0 "refused")) = false /\
  ~ In 0 (resolved (step no_json (mon (starting no_json)) (EvError 0 "refused"))) /\
  api_step no_json (starting no_json) (OnMonitor (EvError 0 "refused"))
  = lift (step no_json (mon (starting no_json)) (EvError 0 "refused")) (starting no_json) /\
  In (0, StartConnect 0)
     (calls (api_step no_json (starting no_json) (OnMonitor (EvError 0 "refused")))) /\
  api_reachable no_json (api_step no_json (queued no_json) (OnMonitor (EvEndpoint 0 (Some url0)))) /\
  In (1, ClearConnect 0)
     (calls (api_step no_json (queued no_json) (OnMonitor (EvEndpoint 0 (Some url0))))) /\
  In 0 (resolved (step no_json
                    (mon (api_step no_json (queued no_json) (OnMonitor (EvEndpoint 0 (Some url0)))))
                    (EvOpen 0))) /\
  connected (step no_json
               (mon (api_step no_json (queued no_json) (OnMonitor (EvEndpoint 0 (Some url0)))))
               (EvOpen 0)) = true /\
  ~ In (1, ClearConnect 0)
      (calls (api_step no_json
                (api_step no_json (queued no_json) (OnMonitor (EvEndpoint 0 (Some url0))))
                (OnMonitor (EvOpen 0)))) /\
  connected (mon (api_step no_json
                    (api_step no_json (queued no_json) (OnMonitor (EvEndpoint 0 (Some url0))))
                    (OnMonitor (EvOpen 0)))) = false.
Proof.
  assert (Hr : api_reachable no_json (starting no_json)).
  { unfold starting. apply api_reachable_run, api_reach_init. }
  assert (Hc : calls (starting no_json) = [(0, StartConnect 0)]) by by_computation.
  assert (H1 : In (0, StartConnect 0) (calls (starting no_json)))
    by (rewrite Hc; left; reflexivity).
  assert (H2 : waits_on (StartConnect 0) = Some 0) by reflexivity.
  assert (H3 : pendingConnect (mon (starting no_json)) = true) by by_computation.
  assert (H4 : connected (step no_json (mon (starting no_json)) (EvError 0 "refused"))
               = false) by by_computation.
  destruct (suspended_call_continues_only_when_loop_ends no_json _ 0 _ 0
              (EvError 0 "refused") Hr H1 H2) as (A & B & _).
  pose proof (B H3 H4) as H5. destruct (A H5) as [A1 A2].
  set (qa := api_step no_json (queued no_json) (OnMonitor (EvEndpoint 0 (Some url0)))).
  assert (Hq : api_reachable no_json qa).
  { unfold qa, queued. apply api_reach_step, api_reachable_run, api_reach_init. }
  assert (Hqc : calls qa = [(0, StartConnect 0); (1, ClearConnect 0)]) by by_computation.
  assert (Q1 : In (1, ClearConnect 0) (calls qa))
    by (rewrite Hqc; right; left; reflexivity).
  assert (Q2 : waits_on (ClearConnect 0) = Some 0) by reflexivity.
  assert (Qres : resolved (step no_json (mon qa) (EvOpen 0)) = [0]) by by_computation.
  assert (Q3 : In 0 (resolved (step no_json (mon qa) (EvOpen 0))))
    by (rewrite Qres; left; reflexivity).
  assert (Q4 : connected (step no_json (mon qa) (EvOpen 0)) = true) by by_computation.
  assert (Q5 : filter is_clear (calls qa) <> []) by (rewrite Hqc; discriminate).
  assert (Q6 : ws (step no_json (mon qa) (EvOpen 0)) = Some 0) by by_computation.
  destruct (suspended_call_continues_only_when_loop_ends no_json _ 1 _ 0
              (EvOpen 0) Hq Q1 Q2) as (_ & _ & C).
  destruct (C Q3) as (_ & C2 & _ & C4).
  pose proof (C4 Q5) as M. rewrite Q6 in M.
  split; [exact Hr|]. split; [exact H1|]. split; [exact H3|]. split; [exact H4|].
  split; [exact H5|]. split; [exact A1|]. split; [exact A2|].
  split; [exact Hq|]. split; [exact Q1|]. split; [exact Q3|]. split; [exact Q4|].
  split; [exact C2|]. rewrite M. reflexivity.
Defined.

Lemma disconnect_is_final_witness :
  ~ In EvConnect [EvReconnect; EvOpen 0; EvTick 1000; EvTimer 0] /\
  connected (opening no_json) = false /\
  ws (opening no_json) = Some 0 /\
  connected (run no_json (disconnect (opening no_json))
               [EvReconnect; EvOpen 0; EvTick 1000; EvTimer 0]) = false /\
  ws (run no_json (disconnect (opening no_json))
        [EvReconnect; EvOpen 0; EvTick 1000; EvTimer 0]) = None.
Proof.
  assert (H : ~ In EvConnect [EvReconnect; EvOpen 0; EvTick 1000; EvTimer 0]).
  { intros [H | [H | [H | [H | []]]]]; discriminate. }
  destruct (disconnect_is_final no_json (opening no_json)
              [EvReconnect; EvOpen 0; EvTick 1000; EvTimer 0] H) as (A & B & _).
  split; [exact H|]. split; [by_computation|]. split; [by_computation|].
  split; [exact A | exact B].
Defined.

Lemma loop_connects_after_any_failures_witness :
  reachable no_json (step no_json init EvConnect) /\
  tasks (step no_json init EvConnect) = [(0, AwaitEndpoint)] /\
  pendingConnect (step no_json init EvConnect) = true /\
  connected
    (run no_json (step no_json init EvConnect)
       (fail_rounds 0 0 2 ++ [EvEndpoint 0 (Some url0); EvOpen 0])) = true /\
  now (run no_json (step no_json init EvConnect)
         (fail_rounds 0 0 2 ++ [EvEndpoint 0 (Some url0); EvOpen 0])) = 2000%N.
Proof.
  assert (Hr : reachable no_json (step no_json init EvConnect))
    by apply reach_step, reach_init.
  assert (H1 : tasks (step no_json init EvConnect) = [(0, AwaitEndpoint)])
    by by_computation.
  assert (H2 : pendingConnect (step no_json init EvConnect) = true) by by_computation.
  destruct (loop_connects_after_any_failures no_json _ 0 2 url0 Hr H1 H2)
    as (A & _ & _ & _ & B & _).
  split; [exact Hr|]. split; [exact H1|]. split; [exact H2|].
  split; [computed A | computed B].
Defined.

(** * The client (src/src/corellium.js) *)

Section ClientFacts.

Import Corellium.

Context {value : Type}.
Variable truthy : value -> bool.


(** ** The suspended calls *)

Lemma lookup_call_app (k : nat) (l1 l2 : list (nat * @call_state value)) :
  lookup_call k (l1 ++ l2)
  = match lookup_call k l1 with
    | Some st => Some st
    | None => lookup_call k l2
    end.
Proof.
  induction l1 as [|[k' st] rest IH]; [reflexivity|].
  cbn. destruct (Nat.eqb k' k); [reflexivity | exact IH].
Qed.

Lemma lookup_call_filter_same (k : nat) (l : list (nat * @call_state value)) :
  lookup_call k (filter (fun x => negb (Nat.eqb (fst x) k)) l) = None.
Proof.
  induction l as [|[k' st] rest IH]; [reflexivity|].
  cbn. destruct (Nat.eqb k' k) eqn:E; cbn; [exact IH|]. rewrite E. exact IH.
Qed.

Lemma lookup_call_filter_other (k k' : nat) (l : list (nat * @call_state value)) :
  k' <> k ->
  lookup_call k' (filter (fun x => negb (Nat.eqb (fst x) k)) l) = lookup_call k' l.
Proof.
  intros Hne. induction l as [|[k2 st] rest IH]; [reflexivity|].
  cbn. destruct (Nat.eqb k2 k) eqn:E; cbn.
  - apply Nat.eqb_eq in E. subst k2.
    assert (E' : Nat.eqb k k' = false) by (apply Nat.eqb_neq; congruence).
    rewrite E'. exact IH.
  - destruct (Nat.eqb k2 k'); [reflexivity | exact IH].
Qed.

Lemma lookup_suspend (k : nat) (st : @call_state value) (c : @client value) :
  lookup_call k (calls (suspend k st c)) = Some st.
Proof.
  cbn. rewrite lookup_call_app, lookup_call_filter_same. cbn.
  rewrite Nat.eqb_refl. reflexivity.
Qed.

Lemma lookup_suspend_other (k k' : nat) (st : @call_state value) (c : @client value) :
  k' <> k -> lookup_call k' (calls (suspend k st c)) = lookup_call k' (calls c).
Proof.
  intros Hne. cbn. rewrite lookup_call_app, lookup_call_filter_other by exact Hne.
  destruct (lookup_call k' (calls c)); [reflexivity|]. cbn.
  assert (E : Nat.eqb k k' = false) by (apply Nat.eqb_neq; congruence).
  rewrite E. reflexivity.
Qed.

Lemma lookup_drop (k : nat) (c : @client value) : lookup_call k (calls (drop_call k c)) = None.
Proof. cbn. apply lookup_call_filter_same. Qed.

Lemma lookup_call_In (k : nat) (st : @call_state value) (l : list (nat * @call_state value)) :
  lookup_call k l = Some st -> In (k, st) l.
Proof.
  induction l as [|[k' st'] rest IH]; [discriminate|].
  cbn. destruct (Nat.eqb k' k) eqn:E.
  - intros H. inversion H; subst st'. apply Nat.eqb_eq in E. subst k'. now left.
  - intros H. right. now apply IH.
Qed.

Lemma lookup_call_None (k : nat) (l : list (nat * @call_state value)) :
  lookup_call k l = None -> forall st, ~ In (k, st) l.
Proof.
  induction l as [|[k' st'] rest IH]; intros H st Hin; [destruct Hin|].
  cbn in H. destruct (Nat.eqb k' k) eqn:E; [discriminate|].
  destruct Hin as [Hin | Hin]; [|now apply (IH H st)].
  inversion Hin; subst k' st'. rewrite Nat.eqb_refl in E. discriminate.
Qed.

(** ** The projects of a listing *)

(** [map] leaves everything but the log alone. *)
Lemma map_getProject_frame (l : list (option value)) :
  forall (k i : nat) (c : @client value),
    options (fst (fst (map_getProject k i l c))) = options c /\
    api (fst (fst (map_getProject k i l c))) = api c /\
    token (fst (fst (map_getProject k i l c))) = token c /\
    supportedDevices (fst (fst (map_getProject k i l c))) = supportedDevices c /\
    now (fst (fst (map_getProject k i l c))) = now c /\
    calls (fst (fst (map_getProject k i l c))) = calls c /\
    next_call (fst (fst (map_getProject k i l c))) = next_call c.
Proof.
  induction l as [|[id|] rest IH]; intros k i c; cbn; [tauto | | tauto].
  specialize (IH k (S i) (say (Refresh k i id) c)).
  destruct (map_getProject k (S i) rest (say (Refresh k i id) c)) as [[c' slots] fin];
    cbn in *; exact IH.
Qed.

(** The calls of [refresh()] for the projects [ids], numbered from [i]. *)
Lemma map_getProject_log (l : list (option value)) :
  forall (k i : nat) (c : @client value),
    exists refs,
      log (fst (fst (map_getProject k i l c))) = log c ++ refs /\
      forall e, In e refs -> exists j id, e = Refresh k j id.
Proof.
  induction l as [|[id|] rest IH]; intros k i c; cbn.
  - exists []. split; [now rewrite app_nil_r | intros e []].
  - destruct (IH k (S i) (say (Refresh k i id) c)) as (refs & L & R).
    exists (Refresh k i id :: refs). split.
    + destruct (map_getProject k (S i) rest (say (Refresh k i id) c))
        as [[c' slots] fin]; cbn in *; rewrite L, <- app_assoc; reflexivity.
    + intros e [<- | He]; eauto.
  - exists []. split; [now rewrite app_nil_r | intros e []].
Qed.

Lemma map_getProject_all (ids : list value) :
  forall (k i : nat) (c : @client value),
    snd (map_getProject k i (map Some ids) c) = true /\
    snd (fst (map_getProject k i (map Some ids) c)) = map (fun id => (id, false)) ids /\
    log (fst (fst (map_getProject k i (map Some ids) c)))
    = log c ++ map (fun x => Refresh k (fst x) (snd x))
                 (combine (seq i (List.length ids)) ids).
Proof.
  induction ids as [|id rest IH]; intros k i c; cbn.
  - split; [reflexivity|]. split; [reflexivity | now rewrite app_nil_r].
  - destruct (IH k (S i) (say (Refresh k i id) c)) as (Hf & Hs & L).
    destruct (map_getProject k (S i) (map Some rest) (say (Refresh k i id) c))
      as [[c' slots] fin]; cbn in *.
    split; [exact Hf|]. split; [congruence|]. rewrite L, <- app_assoc. reflexivity.
Qed.

(** ** What one step can change *)

Lemma in_suspend (x : nat * @call_state value) (k : nat) (st : @call_state value)
      (c : @client value) :
  In x (calls (suspend k st c)) -> In x (calls c) \/ x = (k, st).
Proof.
  cbn. intros H. apply in_app_or in H. destruct H as [H | [H | []]]; [|auto].
  apply filter_In in H. tauto.
Qed.

Lemma in_drop (x : nat * @call_state value) (k : nat) (c : @client value) :
  In x (calls (drop_call k c)) -> In x (calls c).
Proof. cbn. intros H. apply filter_In in H. tauto. Qed.

(** The listing: nothing but the log and the calls changes; the requests
    are calls of [refresh()]. *)
Lemma on_listing_keeps (k : nat) (resp : listing) (c : @client value) :
  options (on_listing k resp c) = options c /\
  api (on_listing k resp c) = api c /\
  token (on_listing k resp c) = token c /\
  supportedDevices (on_listing k resp c) = supportedDevices c /\
  now (on_listing k resp c) = now c /\
  (forall x, In x (calls (on_listing k resp c)) ->
             In x (calls c) \/
             exists slots, x = (k, AwaitAll slots) \/ x = (k, Orphaned slots)) /\
  exists added,
    log (on_listing k resp c) = log c ++ added /\
    forall e, In e added -> is_token_fetch e = false /\ is_supported_fetch e = false.
Proof.
  unfold on_listing.
  assert (Same : options c = options c /\ api c = api c /\ token c = token c /\
                 supportedDevices c = supportedDevices c /\ now c = now c /\
                 (forall x, In x (calls c) ->
                            In x (calls c) \/
                            exists slots,
                              x = (k, AwaitAll slots) \/ x = (k, Orphaned slots)) /\
                 exists added : list (@effect value),
                   log c = log c ++ added /\
                   forall e, In e added ->
                             is_token_fetch e = false /\ is_supported_fetch e = false).
  { repeat split; auto. exists []. split; [now rewrite app_nil_r | intros e []]. }
  destruct (lookup_call k (calls c)) as [[| | | | |]|]; try exact Same. clear Same.
  destruct resp as [| |l].
  - cbn. repeat split; auto.
    + intros x Hx. left. apply filter_In in Hx. tauto.
    + exists [Throw k Rejected]. split; [reflexivity|].
      intros e [<- | []]. auto.
  - cbn. repeat split; auto.
    + intros x Hx. left. apply filter_In in Hx. tauto.
    + exists [Throw k TypeError]. split; [reflexivity|].
      intros e [<- | []]. auto.
  - destruct (map_getProject_frame l k 0 (drop_call k c)) as (F1 & F2 & F3 & F4 & F5 & F6 & F7).
    destruct (map_getProject_log l k 0 (drop_call k c)) as (refs & L & R).
    assert (Hrefs : forall e, In e refs ->
                              is_token_fetch e = false /\ is_supported_fetch e = false).
    { intros e He. destruct (R e He) as (j & id & ->). auto. }
    destruct (map_getProject k 0 l (drop_call k c)) as [[c' slots] fin];
      cbn [fst snd] in *.
    assert (Hdrop : forall x, In x (calls c') -> In x (calls c)).
    { intros x Hx. rewrite F6 in Hx. apply filter_In in Hx. tauto. }
    assert (Hthrow : forall e0,
               is_token_fetch e0 = false -> is_supported_fetch e0 = false ->
               exists added,
                 log c' ++ [e0] = log c ++ added /\
                 forall e, In e added ->
                           is_token_fetch e = false /\ is_supported_fetch e = false).
    { intros e0 T1 T2. exists (refs ++ [e0]). rewrite L.
      split; [now rewrite <- app_assoc|].
      intros e He. apply in_app_or in He. destruct He as [He | [<- | []]]; auto. }
    destruct fin; destruct slots as [|s slots].
    + cbn. rewrite F1, F2, F3, F4, F5.
      repeat (split; [solve [auto]|]). apply Hthrow; reflexivity.
    + cbn [options api token supportedDevices now suspend set_calls log].
      rewrite F1, F2, F3, F4, F5. repeat split; auto.
      * intros x Hx. apply in_suspend in Hx. destruct Hx as [Hx | ->]; eauto.
      * exists refs. split; [exact L | exact Hrefs].
    + cbn. rewrite F1, F2, F3, F4, F5.
      repeat (split; [solve [auto]|]). apply Hthrow; reflexivity.
    + cbn [options api token supportedDevices now suspend set_calls log say].
      rewrite F1, F2, F3, F4, F5. repeat (split; [solve [auto]|]). split.
      * intros x Hx. apply in_suspend in Hx. cbn [calls say] in Hx.
        destruct Hx as [Hx | ->]; eauto.
      * apply Hthrow; reflexivity.
Qed.

(** The result of a refresh: nothing but the log and the calls changes. *)
Lemma on_refresh_keeps (k i : nat) (ok : bool) (c : @client value) :
  options (on_refresh k i ok c) = options c /\
  api (on_refresh k i ok c) = api c /\
  token (on_refresh k i ok c) = token c /\
  supportedDevices (on_refresh k i ok c) = supportedDevices c /\
  now (on_refresh k i ok c) = now c /\
  (forall x, In x (calls (on_refresh k i ok c)) ->
             In x (calls c) \/
             exists slots, x = (k, AwaitAll slots) \/ x = (k, Orphaned slots)) /\
  exists added,
    log (on_refresh k i ok c) = log c ++ added /\
    forall e, In e added -> is_token_fetch e = false /\ is_supported_fetch e = false.
Proof.
  unfold on_refresh.
  assert (Same : options c = options c /\ api c = api c /\ token c = token c /\
                 supportedDevices c = supportedDevices c /\ now c = now c /\
                 (forall x, In x (calls c) ->
                            In x (calls c) \/
                            exists slots,
                              x = (k, AwaitAll slots) \/ x = (k, Orphaned slots)) /\
                 exists added : list (@effect value),
                   log c = log c ++ added /\
                   forall e, In e added ->
                             is_token_fetch e = false /\ is_supported_fetch e = false).
  { repeat split; auto. exists []. split; [now rewrite app_nil_r | intros e []]. }
  destruct (lookup_call k (calls c)) as [[| | |id|slots|slots]|]; try exact Same.
  - destruct i; [|exact Same]. destruct ok; cbn; repeat split; auto.
    + intros x Hx. left. apply filter_In in Hx. tauto.
    + eexists. split; [reflexivity|]. intros e [<- | []]. auto.
    + intros x Hx. left. apply filter_In in Hx. tauto.
    + eexists. split; [reflexivity|]. intros e [<- | []]. auto.
  - destruct (nth_error slots i) as [[id [|]]|]; try exact Same.
    destruct ok; [destruct (forallb snd (mark i slots))|].
    + cbn. repeat split; auto.
      * intros x Hx. left. apply filter_In in Hx. tauto.
      * eexists. split; [reflexivity|]. intros e [<- | []]. auto.
    + cbn [options api token supportedDevices now suspend set_calls log].
      repeat split; auto.
      * intros x Hx. apply in_suspend in Hx. destruct Hx as [Hx | ->]; eauto.
      * exists []. split; [now rewrite app_nil_r | intros e []].
    + cbn. repeat split; auto.
      * intros x Hx. left. apply filter_In in Hx. tauto.
      * eexists. split; [reflexivity|]. intros e [<- | []]. auto.
  - destruct (nth_error slots i) as [[id [|]]|]; try exact Same.
    destruct (forallb snd (mark i slots)); destruct ok.
    + cbn. repeat split; auto.
      * intros x Hx. left. apply filter_In in Hx. tauto.
      * exists []. split; [now rewrite app_nil_r | intros e []].
    + cbn. repeat split; auto.
      * intros x Hx. left. apply filter_In in Hx. tauto.
      * eexists. split; [reflexivity|]. intros e [<- | []]. auto.
    + cbn [options api token supportedDevices now suspend set_calls log].
      repeat split; auto.
      * intros x Hx. apply in_suspend in Hx. destruct Hx as [Hx | ->]; eauto.
      * exists []. split; [now rewrite app_nil_r | intros e []].
    + cbn [options api token supportedDevices now suspend set_calls log say].
      repeat split; auto.
      * intros x Hx. apply in_suspend in Hx. destruct Hx as [Hx | ->]; eauto.
      * eexists. split; [reflexivity|]. intros e [<- | []]. auto.
Qed.

(** The address of the server is the one given to the constructor. *)
Lemma step_address (c : @client value) (ev : event) :
  options (step truthy c ev) = options c /\ api (step truthy c ev) = api c.
Proof.
  destruct ev; cbn [step].
  - unfold getToken, getToken_from. cbn. destruct (valid_token _); auto.
  - unfold login, getToken_from. cbn. destruct (valid_token _); auto.
  - unfold supported. cbn. destruct (cached_devices _ _); auto.
  - cbn. auto.
  - cbn. auto.
  - unfold on_token. destruct (lookup_call k (calls c)) as [[| | | | |]|]; auto.
    destruct resp; cbn; auto.
  - unfold on_supported. destruct (lookup_call k (calls c)) as [[| | | | |]|]; auto.
    destruct resp; cbn; auto.
  - destruct (on_listing_keeps k resp c) as (A & B & _). auto.
  - destruct (on_refresh_keeps k i ok c) as (A & B & _). auto.
  - cbn. auto.
Qed.

Lemma reachable_address (c : @client value) :
  reachable truthy c -> api c = (endpoint (options c) ++ "/api/v1")%string.
Proof.
  induction 1 as [o t | c ev _ IH]; [reflexivity|].
  destruct (step_address c ev) as [A B]. rewrite A, B. exact IH.
Qed.

(** The token changes only when a token arrives for a suspended call. *)
Lemma step_token (c : @client value) (ev : event) :
  token (step truthy c ev) = token c \/
  exists k v e from_login,
    ev = TokenSettles k (TokBody v e) /\
    lookup_call k (calls c) = Some (AwaitToken from_login) /\
    token (step truthy c ev) = Some (mkToken v e).
Proof.
  destruct ev; cbn [step].
  - left. unfold getToken, getToken_from. cbn. destruct (valid_token _); auto.
  - left. unfold login, getToken_from. cbn. destruct (valid_token _); auto.
  - left. unfold supported. cbn. destruct (cached_devices _ _); auto.
  - left. reflexivity.
  - left. reflexivity.
  - unfold on_token. destruct (lookup_call k (calls c)) as [[lg| | | | |]|] eqn:E; auto.
    destruct resp as [| |v e]; cbn; auto.
    right. exists k, v, e, lg. auto.
  - left. unfold on_supported. destruct (lookup_call k (calls c)) as [[| | | | |]|]; auto.
    destruct resp; cbn; auto.
  - left. destruct (on_listing_keeps k resp c) as (_ & _ & A & _). exact A.
  - left. destruct (on_refresh_keeps k i ok c) as (_ & _ & A & _). exact A.
  - left. reflexivity.
Qed.

(** The stored devices change only when they arrive for a suspended call. *)
Lemma step_devices (c : @client value) (ev : event) :
  supportedDevices (step truthy c ev) = supportedDevices c \/
  exists k v,
    ev = SupportedSettles k (Some v) /\
    lookup_call k (calls c) = Some AwaitSupported /\
    supportedDevices (step truthy c ev) = Some v.
Proof.
  destruct ev; cbn [step].
  - left. unfold getToken, getToken_from. cbn. destruct (valid_token _); auto.
  - left. unfold login, getToken_from. cbn. destruct (valid_token _); auto.
  - left. unfold supported. cbn. destruct (cached_devices _ _); auto.
  - left. reflexivity.
  - left. reflexivity.
  - left. unfold on_token. destruct (lookup_call k (calls c)) as [[lg| | | | |]|]; auto.
    destruct resp; cbn; auto.
  - unfold on_supported. destruct (lookup_call k (calls c)) as [[| | | | |]|] eqn:E; auto.
    destruct resp as [v|]; cbn; auto.
    right. exists k, v. auto.
  - left. destruct (on_listing_keeps k resp c) as (_ & _ & _ & A & _). exact A.
  - left. destruct (on_refresh_keeps k i ok c) as (_ & _ & _ & A & _). exact A.
  - left. reflexivity.
Qed.

(** Only the clock moves the time. *)
Lemma step_now (c : @client value) (ev : event) :
  now (step truthy c ev) = now c \/ exists t, ev = Clock t /\ now (step truthy c ev) = t.
Proof.
  destruct ev; cbn [step].
  - left. unfold getToken, getToken_from. cbn. destruct (valid_token _); auto.
  - left. unfold login, getToken_from. cbn. destruct (valid_token _); auto.
  - left. unfold supported. cbn. destruct (cached_devices _ _); auto.
  - left. reflexivity.
  - left. reflexivity.
  - left. unfold on_token. destruct (lookup_call k (calls c)) as [[lg| | | | |]|]; auto.
    destruct resp; cbn; auto.
  - left. unfold on_supported. destruct (lookup_call k (calls c)) as [[| | | | |]|]; auto.
    destruct resp; cbn; auto.
  - left. destruct (on_listing_keeps k resp c) as (_ & _ & _ & _ & A & _). exact A.
  - left. destruct (on_refresh_keeps k i ok c) as (_ & _ & _ & _ & A & _). exact A.
  - right. exists t. auto.
Qed.

(** What a step logs, as far as requests for the token and for the devices
    go: such a request is made by a call that found nothing to return. *)
Lemma step_log (c : @client value) (ev : event) :
  exists added,
    log (step truthy c ev) = log c ++ added /\
    (forall e, In e added -> is_token_fetch e = true ->
               valid_token c = None /\ (ev = CallGetToken \/ ev = CallLogin)) /\
    (forall e, In e added -> is_supported_fetch e = true ->
               cached_devices truthy c = None /\ ev = CallSupported).
Proof.
  assert (Quiet : forall (c' : @client value) added,
             log c' = log c ++ added ->
             (forall e, In e added ->
                        is_token_fetch e = false /\ is_supported_fetch e = false) ->
             exists added,
               log c' = log c ++ added /\
               (forall e, In e added -> is_token_fetch e = true ->
                          valid_token c = None /\ (ev = CallGetToken \/ ev = CallLogin)) /\
               (forall e, In e added -> is_supported_fetch e = true ->
                          cached_devices truthy c = None /\ ev = CallSupported)).
  { intros c' added L Q. exists added. split; [exact L|].
    split; intros e He T; destruct (Q e He); congruence. }
  assert (One : forall (c' : @client value) e,
             log c' = log c ++ [e] ->
             is_token_fetch e = false -> is_supported_fetch e = false ->
             exists added,
               log c' = log c ++ added /\
               (forall e, In e added -> is_token_fetch e = true ->
                          valid_token c = None /\ (ev = CallGetToken \/ ev = CallLogin)) /\
               (forall e, In e added -> is_supported_fetch e = true ->
                          cached_devices truthy c = None /\ ev = CallSupported)).
  { intros c' e L T1 T2. apply Quiet with (added := [e]); [exact L|].
    intros e' [<- | []]. auto. }
  assert (Zero : forall (c' : @client value),
             log c' = log c ->
             exists added,
               log c' = log c ++ added /\
               (forall e, In e added -> is_token_fetch e = true ->
                          valid_token c = None /\ (ev = CallGetToken \/ ev = CallLogin)) /\
               (forall e, In e added -> is_supported_fetch e = true ->
                          cached_devices truthy c = None /\ ev = CallSupported)).
  { intros c' L. apply Quiet with (added := []); [now rewrite app_nil_r | intros e []]. }
  destruct ev; cbn [step].
  - unfold getToken, getToken_from. cbn.
    change (valid_token (mkClient (options c) (api c) (token c) (supportedDevices c)
                           (now c) (calls c) (S (next_call c)) (log c)))
      with (valid_token c).
    destruct (valid_token c) eqn:V; [eapply One; reflexivity|].
    eexists. split; [reflexivity|]. split; intros e [<- | []] T; [auto | discriminate].
  - unfold login, getToken_from. cbn.
    change (valid_token (mkClient (options c) (api c) (token c) (supportedDevices c)
                           (now c) (calls c) (S (next_call c)) (log c)))
      with (valid_token c).
    destruct (valid_token c) eqn:V; [eapply One; reflexivity|].
    eexists. split; [reflexivity|]. split; intros e [<- | []] T; [auto | discriminate].
  - unfold supported. cbn.
    change (cached_devices truthy
              (mkClient (options c) (api c) (token c) (supportedDevices c)
                 (now c) (calls c) (S (next_call c)) (log c)))
      with (cached_devices truthy c).
    destruct (cached_devices truthy c) eqn:V; [eapply One; reflexivity|].
    eexists. split; [reflexivity|]. split; intros e [<- | []] T; [discriminate | auto].
  - eapply One; reflexivity.
  - eapply One; reflexivity.
  - unfold on_token. destruct (lookup_call k (calls c)) as [[lg| | | | |]|];
      try (apply Zero; reflexivity).
    destruct resp; eapply One; reflexivity.
  - unfold on_supported. destruct (lookup_call k (calls c)) as [[| | | | |]|];
      try (apply Zero; reflexivity).
    destruct resp; eapply One; reflexivity.
  - destruct (on_listing_keeps k resp c) as (_ & _ & _ & _ & _ & _ & added & L & Q).
    now apply Quiet with (added := added).
  - destruct (on_refresh_keeps k i ok c) as (_ & _ & _ & _ & _ & _ & added & L & Q).
    now apply Quiet with (added := added).
  - apply Zero. reflexivity.
Qed.

(** A call of [supported()] is suspended only when the call found nothing
    to return. *)
Lemma step_supported_calls (c : @client value) (ev : event) (k : nat) :
  In (k, AwaitSupported) (calls (step truthy c ev)) ->
  In (k, AwaitSupported) (calls c) \/
  (ev = CallSupported /\ cached_devices truthy c = None).
Proof.
  destruct ev; cbn [step].
  - unfold getToken, getToken_from. cbn [new_call]. destruct (valid_token _); [cbn; auto|].
    intros H. apply in_suspend in H. destruct H as [H | H]; [left; exact H | discriminate].
  - unfold login, getToken_from. cbn [new_call]. destruct (valid_token _); [cbn; auto|].
    intros H. apply in_suspend in H. destruct H as [H | H]; [left; exact H | discriminate].
  - unfold supported. cbn [new_call].
    change (cached_devices truthy
              (mkClient (options c) (api c) (token c) (supportedDevices c)
                 (now c) (calls c) (S (next_call c)) (log c)))
      with (cached_devices truthy c).
    destruct (cached_devices truthy c); [cbn; auto | auto].
  - unfold projects. cbn [new_call]. intros H. apply in_suspend in H.
    destruct H as [H | H]; [left; exact H | discriminate].
  - unfold getProject. cbn [new_call]. intros H. apply in_suspend in H.
    destruct H as [H | H]; [left; exact H | discriminate].
  - unfold on_token. destruct (lookup_call k0 (calls c)) as [[lg| | | | |]|]; auto.
    destruct resp; cbn; intros H; left; apply filter_In in H; tauto.
  - unfold on_supported. destruct (lookup_call k0 (calls c)) as [[| | | | |]|]; auto.
    destruct resp; cbn; intros H; left; apply filter_In in H; tauto.
  - intros H. destruct (on_listing_keeps k0 resp c) as (_ & _ & _ & _ & _ & A & _).
    destruct (A _ H) as [H' | (slots & [H' | H'])]; [auto | discriminate | discriminate].
  - intros H. destruct (on_refresh_keeps k0 i ok c) as (_ & _ & _ & _ & _ & A & _).
    destruct (A _ H) as [H' | (slots & [H' | H'])]; [auto | discriminate | discriminate].
  - cbn. auto.
Qed.

(** ** getToken(), login() *)

Lemma string_app_assoc (a b c : string) : ((a ++ b) ++ c = a ++ (b ++ c))%string.
Proof. induction a as [|x a IH]; cbn; [reflexivity | now rewrite IH]. Qed.

Lemma filter_nothing {A : Type} (f : A -> bool) (l : list A) :
  (forall x, In x l -> f x = true -> False) -> filter f l = [].
Proof.
  induction l as [|x rest IH]; intros H; [reflexivity|].
  cbn. destruct (f x) eqn:E; [destruct (H x (or_introl eq_refl) E)|].
  apply IH. intros y Hy. apply H. now right.
Qed.

Lemma valid_token_spec (c : @client value) (v : value) :
  valid_token c = Some v <->
  exists e, token c = Some (mkToken v (Some e)) /\ (now c < e)%Z.
Proof.
  unfold valid_token. split.
  - destruct (token c) as [[v' [e|]]|]; cbn; try discriminate.
    destruct (Z.ltb (now c) e) eqn:E; [|discriminate].
    intros H. inversion H; subst v'. exists e. split; [reflexivity|].
    now apply Z.ltb_lt.
  - intros (e & -> & H). cbn. apply Z.ltb_lt in H. rewrite H. reflexivity.
Qed.

(** X18. [getToken()] and [login()] on a client made by the constructor:
    while a token is stored whose expiration lies after the present, the
    call returns it ([login()] returns nothing) without a request and
    changes nothing.  At the expiration itself or later, with an invalid
    expiration, or without a token, the call posts the user name and the
    password to '<endpoint>/api/v1/tokens' and waits; the stored token is
    kept meanwhile. *)
Theorem getToken_reuses_token_until_expiry :
  forall (c : @client value) (from_login : bool),
    reachable truthy c ->
    (forall t e,
        token c = Some t -> t_expiration t = Some e -> (now c < e)%Z ->
        log (getToken_from from_login c)
        = log c ++ [Return (next_call c) (token_result from_login (t_token t))] /\
        calls (getToken_from from_login c) = calls c /\
        token (getToken_from from_login c) = token c) /\
    (token c = None \/
     (exists t, token c = Some t /\
                (t_expiration t = None \/
                 exists e, t_expiration t = Some e /\ (e <= now c)%Z)) ->
     log (getToken_from from_login c)
     = log c ++ [Fetch (next_call c) (endpoint (options c) ++ "/api/v1/tokens")%string
                   "POST" (username (options c)) (password (options c))] /\
     lookup_call (next_call c) (calls (getToken_from from_login c))
     = Some (AwaitToken from_login) /\
     token (getToken_from from_login c) = token c).
Proof.
  intros c lg Hr. pose proof (reachable_address c Hr) as Ha. split.
  - intros [v e'] e Ht He Hlt. cbn in He. subst e'.
    unfold getToken_from. cbn [new_call].
    assert (V : valid_token (mkClient (options c) (api c) (token c) (supportedDevices c)
                               (now c) (calls c) (S (next_call c)) (log c)) = Some v).
    { apply valid_token_spec. exists e. cbn. auto. }
    rewrite V. cbn. auto.
  - intros Hno. unfold getToken_from. cbn [new_call].
    assert (V : valid_token (mkClient (options c) (api c) (token c) (supportedDevices c)
                               (now c) (calls c) (S (next_call c)) (log c)) = None).
    { unfold valid_token. cbn.
      destruct Hno as [-> | (t & -> & [-> | (e & -> & Hle)])]; try reflexivity.
      apply Z.ltb_ge in Hle. rewrite Hle. reflexivity. }
    rewrite V. rewrite lookup_suspend. cbn. rewrite Ha, string_app_assoc. cbn. auto.
Qed.

(** A token that is valid until [e] stays, and no request for a token is
    made, until a new token arrives or the clock reaches [e]. *)
Lemma token_kept (e : Z) (v : value) (evs : list event) :
  forall c : @client value,
    token c = Some (mkToken v (Some e)) -> (now c < e)%Z ->
    forallb (fun ev => negb (ends_token e ev)) evs = true ->
    token (run truthy c evs) = Some (mkToken v (Some e)) /\
    (now (run truthy c evs) < e)%Z /\
    filter is_token_fetch (log (run truthy c evs)) = filter is_token_fetch (log c).
Proof.
  induction evs as [|ev evs IH]; intros c Ht Hn Hev; [cbn; auto|].
  cbn [forallb] in Hev. apply andb_true_iff in Hev. destruct Hev as [Hev Hrest].
  apply negb_true_iff in Hev.
  assert (Ht' : token (step truthy c ev) = Some (mkToken v (Some e))).
  { destruct (step_token c ev) as [E | (k & v' & e' & lg & -> & _)]; [congruence|].
    discriminate. }
  assert (Hn' : (now (step truthy c ev) < e)%Z).
  { destruct (step_now c ev) as [E | (t & -> & E)]; [now rewrite E|].
    rewrite E. cbn in Hev. now apply Z.leb_gt. }
  destruct (IH (step truthy c ev) Ht' Hn' Hrest) as (A & B & C).
  cbn [Corellium.run fold_left]. fold (run truthy (step truthy c ev) evs).
  split; [exact A|]. split; [exact B|]. rewrite C.
  destruct (step_log c ev) as (added & L & T & _). rewrite L, filter_app.
  rewrite (filter_nothing is_token_fetch added), app_nil_r; [reflexivity|].
  intros x Hx Hf. destruct (T x Hx Hf) as [V _].
  assert (V' : valid_token c = Some v) by (apply valid_token_spec; eauto).
  congruence.
Qed.

(** X19. The round trip of the token.  When the server answers a suspended
    [getToken()] or [login()] with a token that expires at [e], later than
    now, then whatever is called and whatever else arrives afterwards, as
    long as no other token arrives and the clock stays before [e]: no
    request for a token is made, and [getToken()] returns that token at
    once. *)
Theorem token_served_from_cache_until_expiry :
  forall (c : @client value) (k : nat) (from_login : bool) (v : value) (e : Z)
         (evs : list event),
    lookup_call k (calls c) = Some (AwaitToken from_login) ->
    (now c < e)%Z ->
    forallb (fun ev => negb (ends_token e ev)) evs = true ->
    log (step truthy c (TokenSettles k (TokBody v (Some e))))
    = log c ++ [Return k (token_result from_login v)] /\
    filter is_token_fetch
      (log (run truthy (step truthy c (TokenSettles k (TokBody v (Some e)))) evs))
    = filter is_token_fetch (log c) /\
    log (getToken (run truthy (step truthy c (TokenSettles k (TokBody v (Some e)))) evs))
    = log (run truthy (step truthy c (TokenSettles k (TokBody v (Some e)))) evs)
      ++ [Return
            (next_call (run truthy (step truthy c (TokenSettles k (TokBody v (Some e)))) evs))
            (RToken v)].
Proof.
  intros c k lg v e evs Hk Hn Hev.
  set (c1 := step truthy c (TokenSettles k (TokBody v (Some e)))).
  assert (E1 : c1 = say (Return k (token_result lg v))
                      (set_token (Some (mkToken v (Some e))) (drop_call k c))).
  { subst c1. cbn [step]. unfold on_token. rewrite Hk. reflexivity. }
  assert (Ht : token c1 = Some (mkToken v (Some e))) by (rewrite E1; reflexivity).
  assert (Hn1 : (now c1 < e)%Z) by (rewrite E1; exact Hn).
  assert (L1 : log c1 = log c ++ [Return k (token_result lg v)])
    by (rewrite E1; reflexivity).
  destruct (token_kept e v evs c1 Ht Hn1 Hev) as (A & B & C).
  split; [exact L1|]. split.
  - rewrite C, L1, filter_app. cbn. destruct lg; cbn; now rewrite app_nil_r.
  - set (c2 := run truthy c1 evs) in *.
    unfold getToken, getToken_from. cbn [new_call].
    assert (V : valid_token (mkClient (options c2) (api c2) (token c2)
                               (supportedDevices c2) (now c2) (calls c2)
                               (S (next_call c2)) (log c2)) = Some v).
    { apply valid_token_spec. exists e. cbn. auto. }
    rewrite V. reflexivity.
Qed.

(** X20. What changes the caches.  The stored token changes only when a
    token arrives for a suspended [getToken()] or [login()], and becomes what
    arrived; the stored devices change only when they arrive for a suspended
    [supported()].  A request that fails, and every other call and result,
    leaves both as they are, and nothing changes the options or the address
    of the API. *)
Theorem caches_change_only_by_their_response :
  forall (c : @client value) (ev : event),
    (token (step truthy c ev) <> token c ->
     exists k v e from_login,
       ev = TokenSettles k (TokBody v e) /\
       lookup_call k (calls c) = Some (AwaitToken from_login) /\
       token (step truthy c ev) = Some (mkToken v e)) /\
    (supportedDevices (step truthy c ev) <> supportedDevices c ->
     exists k v,
       ev = SupportedSettles k (Some v) /\
       lookup_call k (calls c) = Some AwaitSupported /\
       supportedDevices (step truthy c ev) = Some v) /\
    options (step truthy c ev) = options c /\
    api (step truthy c ev) = api c.
Proof.
  intros c ev. split; [|split].
  - intros H. destruct (step_token c ev) as [E | E]; [contradiction | exact E].
  - intros H. destruct (step_devices c ev) as [E | E]; [contradiction | exact E].
  - apply step_address.
Qed.

(** Calls of [getToken()] one after the other, without a valid token. *)
Lemma getToken_each_requests (n : nat) :
  forall c : @client value,
    valid_token c = None ->
    valid_token (run truthy c (repeat CallGetToken n)) = None /\
    next_call (run truthy c (repeat CallGetToken n)) = next_call c + n /\
    log (run truthy c (repeat CallGetToken n))
    = log c ++ map (fun i => Fetch i (api c ++ "/tokens")%string "POST"
                               (username (options c)) (password (options c)))
                 (seq (next_call c) n) /\
    (forall i, next_call c <= i < next_call c + n ->
               lookup_call i (calls (run truthy c (repeat CallGetToken n)))
               = Some (AwaitToken false)) /\
    (forall i, i < next_call c ->
               lookup_call i (calls (run truthy c (repeat CallGetToken n)))
               = lookup_call i (calls c)).
Proof.
  induction n as [|n IH]; intros c V.
  - cbn. rewrite app_nil_r, Nat.add_0_r. repeat split; auto. intros i Hi. lia.
  - cbn [repeat Corellium.run fold_left]. fold (run truthy (step truthy c CallGetToken)
                                                  (repeat CallGetToken n)).
    assert (E : step truthy c CallGetToken
                = suspend (next_call c) (AwaitToken false)
                    (say (Fetch (next_call c) (api c ++ "/tokens")%string "POST"
                            (username (options c)) (password (options c)))
                       (snd (new_call c)))).
    { cbn [step]. unfold getToken, getToken_from. cbn [new_call snd].
      change (valid_token (mkClient (options c) (api c) (token c) (supportedDevices c)
                             (now c) (calls c) (S (next_call c)) (log c)))
        with (valid_token c).
      rewrite V. reflexivity. }
    set (c1 := step truthy c CallGetToken) in *.
    assert (V1 : valid_token c1 = None) by (rewrite E; exact V).
    destruct (IH c1 V1) as (A & B & C & D & F).
    assert (N1 : next_call c1 = S (next_call c)) by (rewrite E; reflexivity).
    assert (L1 : log c1 = log c ++ [Fetch (next_call c) (api c ++ "/tokens")%string "POST"
                                      (username (options c)) (password (options c))])
      by (rewrite E; reflexivity).
    assert (O1 : options c1 = options c /\ api c1 = api c) by (rewrite E; auto).
    destruct O1 as [O1 A1].
    split; [exact A|]. split; [rewrite B, N1; lia|]. split; [|split].
    + rewrite C, L1, N1, O1, A1, <- app_assoc. reflexivity.
    + intros i Hi. destruct (Nat.eq_dec i (next_call c)) as [-> | Hne].
      * rewrite F by lia. rewrite E. apply lookup_suspend.
      * apply D. lia.
    + intros i Hi. rewrite F by lia. rewrite E.
      rewrite lookup_suspend_other by lia. reflexivity.
Qed.

(** X21. Calls of [getToken()] are not joined.  Without a valid token, each
    of n calls in a row posts the credentials itself and waits for its own
    answer: n requests are made, one per call. *)
Theorem getToken_calls_are_not_joined :
  forall (c : @client value) (n : nat),
    reachable truthy c ->
    valid_token c = None ->
    log (run truthy c (repeat CallGetToken n))
    = log c ++ map (fun i => Fetch i (endpoint (options c) ++ "/api/v1/tokens")%string
                               "POST" (username (options c)) (password (options c)))
                 (seq (next_call c) n) /\
    forall i, next_call c <= i < next_call c + n ->
              lookup_call i (calls (run truthy c (repeat CallGetToken n)))
              = Some (AwaitToken false).
Proof.
  intros c n Hr V. destruct (getToken_each_requests n c V) as (_ & _ & L & D & _).
  rewrite (reachable_address c Hr), string_app_assoc in L. cbn in L. auto.
Qed.

(** ** supported() *)

(** X22. The devices are asked for once.  When a truthy list is stored and
    no call of [supported()] is waiting, then whatever is called and whatever
    arrives afterwards: the list stays, '/supported' is never requested
    again, and [supported()] returns the list at once. *)
Theorem supported_cached_for_good :
  forall (c : @client value) (v : value) (evs : list event),
    supportedDevices c = Some v -> truthy v = true -> no_supported_call c ->
    supportedDevices (run truthy c evs) = Some v /\
    filter is_supported_fetch (log (run truthy c evs))
    = filter is_supported_fetch (log c) /\
    log (supported truthy (run truthy c evs))
    = log (run truthy c evs) ++ [Return (next_call (run truthy c evs)) (RDevices v)].
Proof.
  intros c v evs Hs Hv Hn.
  assert (Inv : supportedDevices (run truthy c evs) = Some v /\
                no_supported_call (run truthy c evs) /\
                filter is_supported_fetch (log (run truthy c evs))
                = filter is_supported_fetch (log c)).
  { revert c Hs Hn. induction evs as [|ev evs IH]; intros c Hs Hn; [cbn; auto|].
    assert (Hc : cached_devices truthy c = Some v)
      by (unfold cached_devices; rewrite Hs, Hv; reflexivity).
    assert (Hs' : supportedDevices (step truthy c ev) = Some v).
    { destruct (step_devices c ev) as [E | (k & v' & _ & Hk & _)]; [congruence|].
      destruct (Hn k). now apply lookup_call_In. }
    assert (Hn' : no_supported_call (step truthy c ev)).
    { intros k Hk. destruct (step_supported_calls c ev k Hk) as [H | [_ H]];
        [now apply (Hn k) | congruence]. }
    destruct (IH (step truthy c ev) Hs' Hn') as (A & B & C).
    cbn [Corellium.run fold_left]. fold (run truthy (step truthy c ev) evs).
    split; [exact A|]. split; [exact B|]. rewrite C.
    destruct (step_log c ev) as (added & L & _ & T). rewrite L, filter_app.
    rewrite (filter_nothing is_supported_fetch added), app_nil_r; [reflexivity|].
    intros x Hx Hf. destruct (T x Hx Hf) as [V _]. congruence. }
  destruct Inv as (A & _ & C). split; [exact A|]. split; [exact C|].
  set (c2 := run truthy c evs) in *.
  unfold supported. cbn [new_call].
  assert (Hc : cached_devices truthy
                 (mkClient (options c2) (api c2) (token c2) (supportedDevices c2)
                    (now c2) (calls c2) (S (next_call c2)) (log c2)) = Some v)
    by (unfold cached_devices; cbn; rewrite A, Hv; reflexivity).
  rewrite Hc. reflexivity.
Qed.

(** X23. Two calls of [supported()] that wait at the same time: each gets
    the answer to its own request, and the answer that arrives last is the
    one stored, whatever it is.  If that answer is falsy, the next call
    requests '/supported' again. *)
Theorem supported_last_answer_is_stored :
  forall (c : @client value) (k1 k2 : nat) (v1 v2 : value),
    k1 <> k2 ->
    lookup_call k1 (calls c) = Some AwaitSupported ->
    lookup_call k2 (calls c) = Some AwaitSupported ->
    supportedDevices
      (run truthy c [SupportedSettles k1 (Some v1); SupportedSettles k2 (Some v2)])
    = Some v2 /\
    log (run truthy c [SupportedSettles k1 (Some v1); SupportedSettles k2 (Some v2)])
    = log c ++ [Return k1 (RDevices v1); Return k2 (RDevices v2)] /\
    (truthy v2 = false ->
     log (supported truthy
            (run truthy c [SupportedSettles k1 (Some v1); SupportedSettles k2 (Some v2)]))
     = log c ++ [Return k1 (RDevices v1); Return k2 (RDevices v2);
                 FetchApi
                   (next_call
                      (run truthy c
                         [SupportedSettles k1 (Some v1); SupportedSettles k2 (Some v2)]))
                   "/supported"]).
Proof.
  intros c k1 k2 v1 v2 Hne H1 H2.
  cbn [Corellium.run fold_left step].
  assert (E1 : Corellium.on_supported k1 (Some v1) c
               = say (Return k1 (RDevices v1))
                   (set_supportedDevices (Some v1) (drop_call k1 c))).
  { unfold Corellium.on_supported. rewrite H1. reflexivity. }
  rewrite E1.
  assert (H2' : lookup_call k2
                  (calls (say (Return k1 (RDevices v1))
                            (set_supportedDevices (Some v1) (drop_call k1 c))))
                = Some AwaitSupported).
  { cbn. rewrite lookup_call_filter_other by congruence. exact H2. }
  unfold Corellium.on_supported at 1 2 3 4. rewrite H2'.
  split; [reflexivity|]. split; [cbn; rewrite <- app_assoc; reflexivity|].
  intros Hf. unfold supported. cbn [new_call]. unfold cached_devices. cbn.
  rewrite Hf. cbn. rewrite <- !app_assoc. reflexivity.
Qed.

(** ** projects() *)

Lemma mark_fst (i : nat) (slots : list (value * bool)) :
  map fst (mark i slots) = map fst slots.
Proof.
  revert i. induction slots as [|[id b] rest IH]; intros i; [destruct i; reflexivity|].
  destruct i; cbn; [reflexivity | now rewrite IH].
Qed.

Lemma nth_error_mark_same (i : nat) (slots : list (value * bool)) (id : value) (b : bool) :
  nth_error slots i = Some (id, b) -> nth_error (mark i slots) i = Some (id, true).
Proof.
  revert i. induction slots as [|[id' b'] rest IH]; intros i; [destruct i; discriminate|].
  destruct i; cbn; [congruence | apply IH].
Qed.

Lemma nth_error_mark_other (i j : nat) (slots : list (value * bool)) :
  j <> i -> nth_error (mark i slots) j = nth_error slots j.
Proof.
  revert i j. induction slots as [|[id b] rest IH]; intros i j Hne;
    [destruct i; reflexivity|].
  destruct i, j; cbn; try reflexivity; [congruence | apply IH; congruence].
Qed.

Lemma forallb_snd_false (slots : list (value * bool)) (j : nat) (id : value) :
  nth_error slots j = Some (id, false) -> forallb snd slots = false.
Proof.
  revert j. induction slots as [|[id' b] rest IH]; intros j; [destruct j; discriminate|].
  destruct j; cbn.
  - intros H. inversion H. reflexivity.
  - intros H. rewrite (IH j H). apply andb_false_r.
Qed.

Lemma forallb_snd_true (slots : list (value * bool)) :
  (forall j id, nth_error slots j <> Some (id, false)) -> forallb snd slots = true.
Proof.
  induction slots as [|[id b] rest IH]; intros H; [reflexivity|]. cbn.
  destruct b; [|destruct (H 0 id eq_refl)]. cbn.
  apply IH. intros j id'. apply (H (S j) id').
Qed.

(** The slots that still wait after slot [i] is marked. *)
Lemma mark_waiting (i : nat) (slots : list (value * bool)) (id0 : value) (b0 : bool) :
  nth_error slots i = Some (id0, b0) ->
  forall j id,
    nth_error (mark i slots) j = Some (id, false) <->
    nth_error slots j = Some (id, false) /\ j <> i.
Proof.
  intros Hi j id. destruct (Nat.eq_dec j i) as [-> | Hne].
  - rewrite (nth_error_mark_same i slots id0 b0 Hi). split.
    + intros H. discriminate.
    + intros [_ H]. congruence.
  - rewrite nth_error_mark_other by exact Hne. tauto.
Qed.

(** Refreshes succeed, one after the other, while another is outstanding:
    the call waits on and nothing is logged. *)
Lemma some_refreshed (k : nat) (done : list nat) :
  forall (slots : list (value * bool)) (c : @client value),
    lookup_call k (calls c) = Some (AwaitAll slots) ->
    NoDup done ->
    (forall i, In i done -> exists id, nth_error slots i = Some (id, false)) ->
    (exists j id, nth_error slots j = Some (id, false) /\ ~ In j done) ->
    exists slots',
      lookup_call k (calls (run truthy c (map (fun i => RefreshSettles k i true) done)))
      = Some (AwaitAll slots') /\
      map fst slots' = map fst slots /\
      log (run truthy c (map (fun i => RefreshSettles k i true) done)) = log c /\
      forall j id, nth_error slots' j = Some (id, false) <->
                   nth_error slots j = Some (id, false) /\ ~ In j done.
Proof.
  induction done as [|i rest IH]; intros slots c Hk Hnd Hdone Hout.
  - exists slots. cbn. repeat split; auto; tauto.
  - destruct (Hdone i (or_introl eq_refl)) as [id Hi].
    inversion Hnd as [|x l Hnotin Hnd']; subst x l.
    destruct Hout as (j & idj & Hj & Hjn).
    assert (Hji : j <> i) by (intros ->; apply Hjn; now left).
    assert (Hj' : nth_error (mark i slots) j = Some (idj, false))
      by (apply (mark_waiting i slots id false Hi); auto).
    assert (E : step truthy c (RefreshSettles k i true)
                = suspend k (AwaitAll (mark i slots)) c).
    { cbn [step]. unfold on_refresh. rewrite Hk, Hi.
      rewrite (forallb_snd_false _ j idj Hj'). reflexivity. }
    cbn [map Corellium.run fold_left].
    fold (run truthy (step truthy c (RefreshSettles k i true))
            (map (fun i => RefreshSettles k i true) rest)).
    rewrite E.
    destruct (IH (mark i slots) (suspend k (AwaitAll (mark i slots)) c))
      as (slots' & A & B & C & D).
    + apply lookup_suspend.
    + exact Hnd'.
    + intros x Hx. destruct (Hdone x (or_intror Hx)) as [idx Hxs].
      exists idx. apply (mark_waiting i slots id false Hi). split; [exact Hxs|].
      intros ->. contradiction.
    + exists j, idj. split; [exact Hj'|]. intros H. apply Hjn. now right.
    + exists slots'. split; [exact A|]. split; [now rewrite B, mark_fst|].
      split; [exact C|]. intros x idx. rewrite D.
      rewrite (mark_waiting i slots id false Hi). cbn [In]. split.
      * intros [[H1 H2] H3]. split; [exact H1|]. intros [H | H]; [congruence | contradiction].
      * intros [H1 H2]. split; [split; [exact H1|] |]; intros H; apply H2; auto.
Qed.

(** Every outstanding refresh succeeds, in the order [order]: the call
    resolves with the last of them, to the projects in the order of the
    slots. *)
Lemma all_refreshed (k : nat) (order : list nat) :
  forall (slots : list (value * bool)) (c : @client value),
    lookup_call k (calls c) = Some (AwaitAll slots) ->
    NoDup order -> order <> [] ->
    (forall i, In i order <-> exists id, nth_error slots i = Some (id, false)) ->
    log (run truthy c (map (fun i => RefreshSettles k i true) order))
    = log c ++ [Return k (RProjects (map fst slots))] /\
    lookup_call k (calls (run truthy c (map (fun i => RefreshSettles k i true) order)))
    = None.
Proof.
  induction order as [|i rest IH]; intros slots c Hk Hnd Hne Hall; [congruence|].
  destruct (proj1 (Hall i) (or_introl eq_refl)) as [id Hi].
  inversion Hnd as [|x l Hnotin Hnd']; subst x l.
  assert (Hall' : forall j, In j rest <->
                            exists idj, nth_error (mark i slots) j = Some (idj, false)).
  { intros j. split.
    - intros Hj. destruct (proj1 (Hall j) (or_intror Hj)) as [idj Hjs].
      exists idj. apply (mark_waiting i slots id false Hi). split; [exact Hjs|].
      intros ->. contradiction.
    - intros [idj Hjs]. apply (mark_waiting i slots id false Hi) in Hjs.
      destruct Hjs as [Hjs Hji].
      destruct (proj2 (Hall j) (ex_intro _ idj Hjs)) as [H | H]; [congruence | exact H]. }
  cbn [map Corellium.run fold_left].
  fold (run truthy (step truthy c (RefreshSettles k i true))
          (map (fun i => RefreshSettles k i true) rest)).
  destruct rest as [|j rest'].
  - assert (T : forallb snd (mark i slots) = true).
    { apply forallb_snd_true. intros j idj Hj.
      destruct (proj2 (Hall' j) (ex_intro _ idj Hj)). }
    assert (E : step truthy c (RefreshSettles k i true)
                = say (Return k (RProjects (map fst (mark i slots)))) (drop_call k c)).
    { cbn [step]. unfold on_refresh. rewrite Hk, Hi, T. reflexivity. }
    rewrite E, mark_fst. cbn [map Corellium.run fold_left]. split; [reflexivity|].
    apply (lookup_drop k c).
  - destruct (proj1 (Hall' j) (or_introl eq_refl)) as [idj Hj].
    assert (E : step truthy c (RefreshSettles k i true)
                = suspend k (AwaitAll (mark i slots)) c).
    { cbn [step]. unfold on_refresh. rewrite Hk, Hi.
      rewrite (forallb_snd_false _ j idj Hj). reflexivity. }
    rewrite E.
    destruct (IH (mark i slots) (suspend k (AwaitAll (mark i slots)) c)) as [A B].
    + apply lookup_suspend.
    + exact Hnd'.
    + discriminate.
    + exact Hall'.
    + rewrite mark_fst in A. split; [exact A | exact B].
Qed.

Lemma nth_error_fresh (ids : list value) (i : nat) (id : value) :
  nth_error (map (fun id => (id, false)) ids) i = Some (id, false) <->
  nth_error ids i = Some id.
Proof.
  rewrite nth_error_map. destruct (nth_error ids i) as [x|]; cbn; split; congruence.
Qed.

Lemma fresh_fst (ids : list value) : map fst (map (fun id => (id, false)) ids) = ids.
Proof. rewrite map_map. cbn. apply map_id. Qed.

(** The listing arrives with the projects [ids]. *)
Lemma on_listing_array (k : nat) (ids : list value) (c : @client value) :
  lookup_call k (calls c) = Some AwaitListing ->
  log (on_listing k (ListArray (map Some ids)) c)
  = log c ++ map (fun x => Refresh k (fst x) (snd x)) (combine (seq 0 (List.length ids)) ids)
      ++ match ids with [] => [Return k (RProjects [])] | _ => [] end /\
  lookup_call k (calls (on_listing k (ListArray (map Some ids)) c))
  = match ids with
    | [] => None
    | _ => Some (AwaitAll (map (fun id => (id, false)) ids))
    end.
Proof.
  intros Hk. unfold on_listing. rewrite Hk.
  destruct (map_getProject_all ids k 0 (drop_call k c)) as (Hf & Hs & L).
  destruct (map_getProject_frame (map Some ids) k 0 (drop_call k c))
    as (_ & _ & _ & _ & _ & F & _).
  destruct (map_getProject k 0 (map Some ids) (drop_call k c)) as [[c' slots] fin].
  cbn [fst snd] in *. subst fin slots. destruct ids as [|id rest].
  - cbn [map]. cbn. rewrite L, F. cbn. rewrite app_nil_r. split; [reflexivity|].
    apply lookup_call_filter_same.
  - cbn [map]. rewrite lookup_suspend. cbn [log suspend set_calls]. rewrite L.
    cbn [log drop_call set_calls]. rewrite app_nil_r. auto.
Qed.

(** X24. [projects()] resolves in the order of the listing.  When the
    listing arrives, [refresh()] is called once for each project, in the
    order of the listing, before any of them has finished.  If the listing is
    not empty the call waits until every refresh has succeeded; in whatever
    order they succeed, the call then resolves, at the last of them, to the
    projects in the order of the listing.  An empty listing resolves to the
    empty array at once. *)
Theorem projects_resolves_in_listing_order :
  forall (c : @client value) (k : nat) (ids : list value) (order : list nat),
    lookup_call k (calls c) = Some AwaitListing ->
    NoDup order ->
    (forall i, In i order <-> i < List.length ids) ->
    (ids <> [] ->
     log (step truthy c (ListingSettles k (ListArray (map Some ids))))
     = log c ++ map (fun x => Refresh k (fst x) (snd x))
                  (combine (seq 0 (List.length ids)) ids)) /\
    log (run truthy (step truthy c (ListingSettles k (ListArray (map Some ids))))
           (map (fun i => RefreshSettles k i true) order))
    = log c ++ map (fun x => Refresh k (fst x) (snd x))
                 (combine (seq 0 (List.length ids)) ids)
        ++ [Return k (RProjects ids)] /\
    lookup_call k
      (calls (run truthy (step truthy c (ListingSettles k (ListArray (map Some ids))))
                (map (fun i => RefreshSettles k i true) order)))
    = None.
Proof.
  intros c k ids order Hk Hnd Hall. cbn [step].
  destruct (on_listing_array k ids c Hk) as [L K].
  set (c1 := on_listing k (ListArray (map Some ids)) c) in *.
  destruct ids as [|id rest].
  - split; [congruence|].
    assert (order = []) as ->.
    { destruct order as [|i o]; [reflexivity|].
      pose proof (proj1 (Hall i) (or_introl eq_refl)) as H. cbn in H. lia. }
    cbn [map Corellium.run fold_left]. split; [exact L | exact K].
  - split; [intros _; rewrite L, app_nil_r; reflexivity|].
    assert (Hne : order <> []).
    { intros ->. destruct (proj2 (Hall 0)); cbn; lia. }
    destruct (all_refreshed k order (map (fun id => (id, false)) (id :: rest)) c1 K Hnd Hne)
      as [A B].
    + intros i. rewrite Hall. split.
      * intros Hi. destruct (nth_error (id :: rest) i) as [x|] eqn:E.
        -- exists x. now apply nth_error_fresh.
        -- apply nth_error_None in E. lia.
      * intros [x Hx]. apply nth_error_fresh in Hx.
        apply nth_error_Some. congruence.
    + rewrite fresh_fst in A. rewrite A, L, app_nil_r, <- app_assoc.
      split; [reflexivity | exact B].
Qed.

(** X25. [projects()] rejects with the first failure.  After the listing,
    when some refreshes have succeeded and another one fails, the call is
    rejected at once, without waiting for the rest; whatever the remaining
    refreshes do afterwards changes nothing. *)
Theorem projects_rejects_with_first_failure :
  forall (c : @client value) (k : nat) (ids : list value) (done : list nat) (i : nat),
    lookup_call k (calls c) = Some AwaitListing ->
    NoDup done ->
    (forall j, In j done -> j < List.length ids) ->
    i < List.length ids -> ~ In i done ->
    log (step truthy
           (run truthy (step truthy c (ListingSettles k (ListArray (map Some ids))))
              (map (fun j => RefreshSettles k j true) done))
           (RefreshSettles k i false))
    = log c ++ map (fun x => Refresh k (fst x) (snd x))
                 (combine (seq 0 (List.length ids)) ids)
        ++ [Throw k Rejected] /\
    forall j ok,
      step truthy
        (step truthy
           (run truthy (step truthy c (ListingSettles k (ListArray (map Some ids))))
              (map (fun j => RefreshSettles k j true) done))
           (RefreshSettles k i false))
        (RefreshSettles k j ok)
      = step truthy
          (run truthy (step truthy c (ListingSettles k (ListArray (map Some ids))))
             (map (fun j => RefreshSettles k j true) done))
          (RefreshSettles k i false).
Proof.
  intros c k ids done i Hk Hnd Hdone Hi Hnot.
  destruct (on_listing_array k ids c Hk) as [L K].
  change (step truthy c (ListingSettles k (ListArray (map Some ids))))
    with (on_listing k (ListArray (map Some ids)) c).
  set (c1 := on_listing k (ListArray (map Some ids)) c) in *.
  destruct ids as [|id rest]; [cbn in Hi; lia|].
  rewrite app_nil_r in L.
  assert (Hnth : forall j, j < List.length (id :: rest) ->
                           exists x, nth_error (map (fun id => (id, false)) (id :: rest)) j
                                     = Some (x, false)).
  { intros j Hj. destruct (nth_error (id :: rest) j) as [x|] eqn:E.
    - exists x. now apply nth_error_fresh.
    - apply nth_error_None in E. lia. }
  destruct (some_refreshed k done (map (fun id => (id, false)) (id :: rest)) c1 K Hnd)
    as (slots' & A & B & C & D).
  { intros j Hj. apply Hnth, Hdone, Hj. }
  { destruct (Hnth i Hi) as [x Hx]. exists i, x. auto. }
  set (c2 := run truthy c1 (map (fun j => RefreshSettles k j true) done)) in *.
  destruct (Hnth i Hi) as [x Hx].
  assert (Hx' : nth_error slots' i = Some (x, false)) by (apply D; auto).
  assert (E : step truthy c2 (RefreshSettles k i false)
              = say (Throw k Rejected) (drop_call k c2)).
  { cbn [step]. unfold on_refresh. rewrite A, Hx'. reflexivity. }
  rewrite E. split.
  - cbn. rewrite C, L, <- app_assoc. reflexivity.
  - intros j ok. cbn [step]. unfold on_refresh.
    assert (N : lookup_call k (calls (say (Throw k Rejected) (drop_call k c2))) = None)
      by apply (lookup_drop k c2).
    rewrite N. reflexivity.
Qed.

Lemma map_getProject_null (ids : list value) (rest : list (option value)) :
  forall (k i : nat) (c : @client value),
    snd (map_getProject k i (map Some ids ++ None :: rest) c) = false /\
    snd (fst (map_getProject k i (map Some ids ++ None :: rest) c))
    = map (fun id => (id, false)) ids /\
    log (fst (fst (map_getProject k i (map Some ids ++ None :: rest) c)))
    = log c ++ map (fun x => Refresh k (fst x) (snd x))
                 (combine (seq i (List.length ids)) ids).
Proof.
  induction ids as [|id ids IH]; intros k i c; cbn.
  - repeat split. now rewrite app_nil_r.
  - destruct (IH k (S i) (say (Refresh k i id) c)) as (Hf & Hs & L).
    destruct (map_getProject k (S i) (map Some ids ++ None :: rest)
                (say (Refresh k i id) c)) as [[c' slots] fin]; cbn in *.
    subst fin slots. repeat split. rewrite L, <- app_assoc. reflexivity.
Qed.

(** The listing arrives with a null or undefined element after the projects
    [ids]: the refreshes of [ids] have been requested, the call is rejected,
    and the promises of those refreshes are left without a handler. *)
Lemma on_listing_null (k : nat) (ids : list value) (rest : list (option value))
      (c : @client value) :
  lookup_call k (calls c) = Some AwaitListing ->
  log (on_listing k (ListArray (map Some ids ++ None :: rest)) c)
  = log c ++ map (fun x => Refresh k (fst x) (snd x)) (combine (seq 0 (List.length ids)) ids)
      ++ [Throw k TypeError] /\
  lookup_call k (calls (on_listing k (ListArray (map Some ids ++ None :: rest)) c))
  = match ids with
    | [] => None
    | _ => Some (Orphaned (map (fun id => (id, false)) ids))
    end.
Proof.
  intros Hk. unfold on_listing. rewrite Hk.
  destruct (map_getProject_null ids rest k 0 (drop_call k c)) as (Hf & Hs & L).
  destruct (map_getProject_frame (map Some ids ++ None :: rest) k 0 (drop_call k c))
    as (_ & _ & _ & _ & _ & F & _).
  destruct (map_getProject k 0 (map Some ids ++ None :: rest) (drop_call k c))
    as [[c' slots] fin].
  cbn [fst snd] in *. subst fin slots. destruct ids as [|id ids].
  - cbn [map]. cbn. rewrite L, F. cbn. rewrite app_nil_r. split; [reflexivity|].
    apply lookup_call_filter_same.
  - cbn [map]. rewrite lookup_suspend. cbn [log suspend set_calls say]. rewrite L.
    cbn [log drop_call set_calls]. rewrite <- app_assoc. auto.
Qed.

(** The refreshes of an orphaned listing settle, each once, in any order: a
    success leaves no trace, a failure is a rejection that nothing handles. *)
Lemma orphans_run (k : nat) (rs : list (nat * bool)) :
  forall (slots : list (value * bool)) (c : @client value),
    lookup_call k (calls c) = Some (Orphaned slots) ->
    NoDup (map fst rs) ->
    (forall r, In r rs -> exists id, nth_error slots (fst r) = Some (id, false)) ->
    log (run truthy c (map (fun r => RefreshSettles k (fst r) (snd r)) rs))
    = log c ++ map (fun r => Unhandled k (fst r)) (filter (fun r => negb (snd r)) rs).
Proof.
  induction rs as [|[i ok] rest IH]; intros slots c Hk Hnd Hall.
  - cbn. now rewrite app_nil_r.
  - destruct (Hall (i, ok) (or_introl eq_refl)) as [id Hi]. cbn [fst] in Hi.
    cbn [map fst] in Hnd. inversion Hnd as [|x l Hnotin Hnd']; subst x l.
    cbn [map Corellium.run fold_left fst snd].
    fold (run truthy (step truthy c (RefreshSettles k i ok))
            (map (fun r => RefreshSettles k (fst r) (snd r)) rest)).
    destruct rest as [|[j okj] rest'].
    + cbn [map Corellium.run fold_left filter step]. unfold on_refresh. rewrite Hk, Hi.
      destruct (forallb snd (mark i slots)), ok; cbn; rewrite ?app_nil_r; reflexivity.
    + destruct (Hall (j, okj) (or_intror (or_introl eq_refl))) as [idj Hj]. cbn [fst] in Hj.
      assert (Hji : j <> i) by (intros ->; apply Hnotin; now left).
      assert (Hj' : nth_error (mark i slots) j = Some (idj, false))
        by (apply (mark_waiting i slots id false Hi); auto).
      assert (Hall' : forall r, In r ((j, okj) :: rest') ->
                                exists idr, nth_error (mark i slots) (fst r) = Some (idr, false)).
      { intros r Hr. destruct (Hall r (or_intror Hr)) as [idr Hrs].
        exists idr. apply (mark_waiting i slots id false Hi). split; [exact Hrs|].
        intros E. apply Hnotin. rewrite <- E. apply in_map, Hr. }
      assert (E : step truthy c (RefreshSettles k i ok)
                  = if ok then suspend k (Orphaned (mark i slots)) c
                    else say (Unhandled k i) (suspend k (Orphaned (mark i slots)) c)).
      { cbn [step]. unfold on_refresh. rewrite Hk, Hi.
        rewrite (forallb_snd_false _ j idj Hj'). reflexivity. }
      rewrite E. destruct ok.
      * rewrite (IH (mark i slots) _ (lookup_suspend k _ c) Hnd' Hall').
        reflexivity.
      * rewrite (IH (mark i slots) (say (Unhandled k i) (suspend k (Orphaned (mark i slots)) c))
                   (lookup_suspend k _ c) Hnd' Hall').
        cbn [filter negb snd fst map log say suspend set_calls].
        rewrite <- app_assoc. reflexivity.
Qed.

(** X26. A listing with an element that is null or undefined: [refresh()]
    has been called for the projects before that element, and for none after
    it, when [projects()] is rejected with the TypeError of reading [id].  The
    promises of the [getProject()] calls already started are then left
    without a handler: when their refreshes settle afterwards, each once and
    in any order, a success has no effect, and every failure is a rejection
    that nothing handles, reported in the order they happen.  A listing that
    is refused, or is no array, rejects the call without any refresh. *)
Theorem projects_rejects_bad_listing :
  forall (c : @client value) (k : nat),
    lookup_call k (calls c) = Some AwaitListing ->
    (forall (ids : list value) (rest : list (option value)) (rs : list (nat * bool)),
        NoDup (map fst rs) ->
        (forall r, In r rs -> fst r < List.length ids) ->
        log (step truthy c (ListingSettles k (ListArray (map Some ids ++ None :: rest))))
        = log c ++ map (fun x => Refresh k (fst x) (snd x))
                     (combine (seq 0 (List.length ids)) ids)
            ++ [Throw k TypeError] /\
        log (run truthy
               (step truthy c (ListingSettles k (ListArray (map Some ids ++ None :: rest))))
               (map (fun r => RefreshSettles k (fst r) (snd r)) rs))
        = log c ++ map (fun x => Refresh k (fst x) (snd x))
                     (combine (seq 0 (List.length ids)) ids)
            ++ [Throw k TypeError]
            ++ map (fun r => Unhandled k (fst r)) (filter (fun r => negb (snd r)) rs)) /\
    log (step truthy c (ListingSettles k ListRejected)) = log c ++ [Throw k Rejected] /\
    log (step truthy c (ListingSettles k ListNoMap)) = log c ++ [Throw k TypeError].
Proof.
  intros c k Hk. split; [|split].
  - intros ids rest rs Hnd Hrs. cbn [step].
    destruct (on_listing_null k ids rest c Hk) as [L K].
    split; [exact L|].
    set (c1 := on_listing k (ListArray (map Some ids ++ None :: rest)) c) in *.
    destruct ids as [|id ids].
    + assert (rs = []) as ->.
      { destruct rs as [|r rs]; [reflexivity|].
        pose proof (Hrs r (or_introl eq_refl)) as H. cbn in H. lia. }
      cbn [map Corellium.run fold_left filter]. rewrite L, app_nil_r. reflexivity.
    + rewrite (orphans_run k rs _ c1 K Hnd).
      * rewrite L, <- !app_assoc. reflexivity.
      * intros r Hr. specialize (Hrs r Hr).
        destruct (nth_error (id :: ids) (fst r)) as [x|] eqn:E.
        -- exists x. now apply nth_error_fresh.
        -- apply nth_error_None in E. lia.
  - cbn [step]. unfold on_listing. rewrite Hk. reflexivity.
  - cbn [step]. unfold on_listing. rewrite Hk. reflexivity.
Qed.

End ClientFacts.

(** ** Examples: the client *)

Section ClientExamples.

Import Corellium.

Lemma getToken_reuses_token_until_expiry_witness :
  reachable nonempty client0 /\
  token client0 = None /\
  log (getToken_from false client0)
  = [Fetch 0 "https://host.example/api/v1/tokens" "POST" "user" "secret"] /\
  reachable nonempty logged_in /\
  log (getToken_from true logged_in) = log logged_in ++ [Return 1 RVoid].
Proof.
  assert (R0 : reachable nonempty client0) by apply reach_new.
  assert (R1 : reachable nonempty logged_in)
    by (unfold logged_in, asking; apply reach_step, reach_step, reach_new).
  assert (T0 : token client0 = None) by by_computation.
  assert (T1 : token logged_in = Some (mkToken "tok" (Some 5000%Z))) by by_computation.
  assert (N1 : (now logged_in < 5000)%Z) by (vm_compute; reflexivity).
  destruct (getToken_reuses_token_until_expiry nonempty client0 false R0) as (_ & A).
  destruct (A (or_introl T0)) as (L0 & _).
  destruct (getToken_reuses_token_until_expiry nonempty logged_in true R1) as (B & _).
  destruct (B _ 5000%Z T1 eq_refl N1) as (L1 & _).
  split; [exact R0|]. split; [exact T0|]. split; [computed L0|].
  split; [exact R1 | computed L1].
Defined.

Lemma token_served_from_cache_until_expiry_witness :
  lookup_call 0 (calls asking) = Some (AwaitToken false) /\
  (now asking < 5000)%Z /\
  filter is_token_fetch
    (log (run nonempty logged_in [CallSupported; Clock 4999; CallLogin; CallGetToken]))
  = filter is_token_fetch (log asking) /\
  log (getToken
         (run nonempty logged_in [CallSupported; Clock 4999; CallLogin; CallGetToken]))
  = log (run nonempty logged_in [CallSupported; Clock 4999; CallLogin; CallGetToken])
    ++ [Return 4 (RToken "tok")].
Proof.
  assert (H1 : lookup_call 0 (calls asking) = Some (AwaitToken false)) by by_computation.
  assert (H2 : (now asking < 5000)%Z) by (vm_compute; reflexivity).
  assert (H3 : forallb (fun ev : event (value := string) => negb (ends_token 5000 ev))
                 [CallSupported; Clock 4999; CallLogin; CallGetToken] = true)
    by by_computation.
  destruct (token_served_from_cache_until_expiry nonempty asking 0 false "tok" 5000%Z
              [CallSupported; Clock 4999; CallLogin; CallGetToken] H1 H2 H3)
    as (_ & A & B).
  split; [exact H1|]. split; [exact H2|]. split; [exact A | computed B].
Defined.

Lemma caches_change_only_by_their_response_witness :
  token (step nonempty asking (TokenSettles 0 (TokBody "tok" None))) <> token asking /\
  exists k v e from_login,
    TokenSettles 0 (TokBody "tok" None) = TokenSettles k (TokBody v e) /\
    lookup_call k (calls asking) = Some (AwaitToken from_login) /\
    token (step nonempty asking (TokenSettles 0 (TokBody "tok" None)))
    = Some (mkToken v e).
Proof.
  assert (H : token (step nonempty asking (TokenSettles 0 (TokBody "tok" None)))
              <> token asking) by by_computation.
  destruct (caches_change_only_by_their_response nonempty asking
              (TokenSettles 0 (TokBody "tok" None))) as (A & _).
  split; [exact H | exact (A H)].
Defined.

Lemma getToken_calls_are_not_joined_witness :
  reachable nonempty client0 /\
  valid_token client0 = None /\
  log (run nonempty client0 (repeat CallGetToken 2))
  = [Fetch 0 "https://host.example/api/v1/tokens" "POST" "user" "secret";
     Fetch 1 "https://host.example/api/v1/tokens" "POST" "user" "secret"].
Proof.
  assert (R0 : reachable nonempty client0) by apply reach_new.
  assert (V : valid_token client0 = None) by by_computation.
  destruct (getToken_calls_are_not_joined nonempty client0 2 R0 V) as (L & _).
  split; [exact R0|]. split; [exact V | computed L].
Defined.

Lemma supported_cached_for_good_witness :
  supportedDevices informed = Some "iphone" /\
  nonempty "iphone" = true /\
  no_supported_call informed /\
  supportedDevices
    (run nonempty informed [CallSupported; SupportedSettles 0 (Some EmptyString); CallProjects])
  = Some "iphone" /\
  filter is_supported_fetch
    (log (run nonempty informed
            [CallSupported; SupportedSettles 0 (Some EmptyString); CallProjects]))
  = [FetchApi 0 "/supported"].
Proof.
  assert (H1 : supportedDevices informed = Some "iphone") by by_computation.
  assert (H2 : nonempty "iphone" = true) by reflexivity.
  assert (Hc : calls informed = []) by by_computation.
  assert (H3 : no_supported_call informed)
    by (intros k H; rewrite Hc in H; exact H).
  destruct (supported_cached_for_good nonempty informed "iphone"
              [CallSupported; SupportedSettles 0 (Some EmptyString); CallProjects] H1 H2 H3)
    as (A & B & _).
  split; [exact H1|]. split; [exact H2|]. split; [exact H3|].
  split; [exact A | computed B].
Defined.

Lemma supported_last_answer_is_stored_witness :
  lookup_call 0 (calls asking_twice) = Some AwaitSupported /\
  lookup_call 1 (calls asking_twice) = Some AwaitSupported /\
  supportedDevices
    (run nonempty asking_twice
       [SupportedSettles 0 (Some "iphone"); SupportedSettles 1 (Some EmptyString)])
  = Some EmptyString /\
  log (run nonempty asking_twice
         [SupportedSettles 0 (Some "iphone"); SupportedSettles 1 (Some EmptyString)])
  = log asking_twice ++ [Return 0 (RDevices "iphone"); Return 1 (RDevices EmptyString)].
Proof.
  assert (H0 : 0 <> 1) by discriminate.
  assert (H1 : lookup_call 0 (calls asking_twice) = Some AwaitSupported)
    by by_computation.
  assert (H2 : lookup_call 1 (calls asking_twice) = Some AwaitSupported)
    by by_computation.
  destruct (supported_last_answer_is_stored nonempty asking_twice 0 1 "iphone" EmptyString H0 H1 H2)
    as (A & B & _).
  split; [exact H1|]. split; [exact H2|]. split; [exact A | exact B].
Defined.

Lemma projects_resolves_in_listing_order_witness :
  lookup_call 0 (calls listing_asked) = Some AwaitListing /\
  log (run nonempty
         (step nonempty listing_asked
            (ListingSettles 0 (ListArray (map Some ["p1"; "p2"; "p3"]))))
         (map (fun i => RefreshSettles 0 i true) [2; 0; 1]))
  = [FetchApi 0 "/projects"; Refresh 0 0 "p1"; Refresh 0 1 "p2"; Refresh 0 2 "p3";
     Return 0 (RProjects ["p1"; "p2"; "p3"])].
Proof.
  assert (H1 : lookup_call 0 (calls listing_asked) = Some AwaitListing)
    by by_computation.
  assert (H2 : NoDup [2; 0; 1]).
  { repeat constructor; cbn; lia. }
  assert (H3 : forall i, In i [2; 0; 1] <-> i < List.length ["p1"; "p2"; "p3"])
    by (intros i; cbn; lia).
  destruct (projects_resolves_in_listing_order nonempty listing_asked 0
              ["p1"; "p2"; "p3"] [2; 0; 1] H1 H2 H3) as (_ & A & _).
  split; [exact H1 | computed A].
Defined.

Lemma projects_rejects_with_first_failure_witness :
  lookup_call 0 (calls listing_asked) = Some AwaitListing /\
  log (step nonempty
         (run nonempty
            (step nonempty listing_asked
               (ListingSettles 0 (ListArray (map Some ["p1"; "p2"; "p3"]))))
            (map (fun j => RefreshSettles 0 j true) [2]))
         (RefreshSettles 0 0 false))
  = [FetchApi 0 "/projects"; Refresh 0 0 "p1"; Refresh 0 1 "p2"; Refresh 0 2 "p3";
     Throw 0 Rejected].
Proof.
  assert (H1 : lookup_call 0 (calls listing_asked) = Some AwaitListing)
    by by_computation.
  assert (H2 : NoDup [2]) by (repeat constructor; cbn; lia).
  assert (H3 : forall j, In j [2] -> j < List.length ["p1"; "p2"; "p3"])
    by (intros j; cbn; lia).
  assert (H4 : 0 < List.length ["p1"; "p2"; "p3"]) by (cbn; lia).
  assert (H5 : ~ In 0 [2]) by (cbn; lia).
  destruct (projects_rejects_with_first_failure nonempty listing_asked 0
              ["p1"; "p2"; "p3"] [2] 0 H1 H2 H3 H4 H5) as (A & _).
  split; [exact H1 | computed A].
Defined.

Lemma projects_rejects_bad_listing_witness :
  lookup_call 0 (calls listing_asked) = Some AwaitListing /\
  NoDup (map fst [(1, false); (0, true)]) /\
  log (step nonempty listing_asked
         (ListingSettles 0 (ListArray (map Some ["p1"; "p2"] ++ None :: [Some "p4"]))))
  = [FetchApi 0 "/projects"; Refresh 0 0 "p1"; Refresh 0 1 "p2"; Throw 0 TypeError] /\
  log (run nonempty
         (step nonempty listing_asked
            (ListingSettles 0 (ListArray (map Some ["p1"; "p2"] ++ None :: [Some "p4"]))))
         [RefreshSettles 0 1 false; RefreshSettles 0 0 true])
  = [FetchApi 0 "/projects"; Refresh 0 0 "p1"; Refresh 0 1 "p2"; Throw 0 TypeError;
     Unhandled 0 1].
Proof.
  assert (H1 : lookup_call 0 (calls listing_asked) = Some AwaitListing)
    by by_computation.
  assert (H2 : NoDup (map fst [(1, false); (0, true)])).
  { cbn. constructor; [intros [H | []]; discriminate|].
    constructor; [intros []|constructor]. }
  assert (H3 : forall r, In r [(1, false); (0, true)] -> fst r < List.length ["p1"; "p2"]).
  { intros r [<- | [<- | []]]; cbn; lia. }
  destruct (projects_rejects_bad_listing nonempty listing_asked 0 H1) as (A & _).
  destruct (A ["p1"; "p2"] [Some "p4"] [(1, false); (0, true)] H2 H3) as (L & U).
  split; [exact H1|]. split; [exact H2|]. split; [computed L | computed U].
Defined.

End ClientExamples.
